(* ===== verification/_CoqProject ===== *)
-Q . S2P
Prelude.v
Tcpip.v
Checksum.v
Header.v
TcpHeader.v
TcpOptions.v
Packet.v
Ringbuf.v
Fragmentation.v
Reassembly.v
Stack.v
IpLayer.v
Memory.v
Seq.v
TcpConn.v
Rcv.v
OooFacts.v
Segment.v
SegmentFacts.v
RcvData.v
RcvFacts.v
Snd.v
SndFacts.v
Conn.v
StreamFacts.v
Transfer.v
Handshake.v
Endpoint.v
Conversation.v
Inbound.v
ConnFacts.v
TunChecksum.v
TunOffload.v
TunSplit.v
Gro.v
GroMerge.v
GroTable.v
GroBatch.v
GroFacts.v
GroBack.v
TunDevice.v
Udp.v
Handler.v
TcpSystem.v
Closing.v
TcpLink.v
GsoLink.v
Echo.v
Forward.v
Main.v
