(* ===== verification/Prelude.v ===== *)
(** A verification library for [netstack], a user-space IPv4, ICMP, UDP and TCP
    stack written in Go.

    * The program and its parts

    A channel ([src/channel]) moves raw IP packets in and out of the process;
    the one over a Linux TUN device ([src/channel/tun]) can be handed packets
    of up to 64 KB, which it splits, and can hand such packets to the kernel,
    made by TCP itself or coalesced from a batch; the one in memory is a pair
    of queues.
    The stack ([src/stack]) reads them, checks and reassembles IPv4, answers
    echo requests, and dispatches payloads by protocol number; in the other
    direction it puts IP headers on transport packets, fragments them to the
    MTU and queues them for the channel.  The UDP handler ([src/transport/udp])
    and the TCP handler ([src/transport/tcp]) register with the stack.  The TCP
    handler demultiplexes by flow; each connection has a goroutine, [run], that
    selects over its inbound queue, timers and requests of the application, and
    two ring buffers shared with the application's [Read] and [Write].  Packets
    live in pooled buffers ([src/packet]) and are read and written through the
    header types of [src/header].

    * How the code is modelled

    Go integers are [Z] with the wrap-around written out ([u8], [u16], [u32],
    [u64], [i32]), byte slices are lists, slices that share an array are views
    of one array ([Packet]), structs are records, and maps are finite maps.  A
    Go function that can panic or loop returns an [outcome]: [Ret], [Panic]
    (index and slice bounds, nil dereference, division by zero, negative
    [make]) or [OutOfFuel].  Connection code runs in a small monad over the
    connection and the world around it ([TcpConn]).  What the code does not
    determine is an argument: the clock, what a [sync.Pool] returns, random
    numbers, the order of map iteration, and which ready case a [select] takes.
    The operating system and the package golang.org/x/sys/unix are a class with
    its laws ([TunDevice]).
    Goroutines interleave at the granularity of one case of [run]'s [select],
    one round of a blocking call's loop, or one packet from the stack; the code
    protects each by a mutex or owns the data in one goroutine.  Blocking calls
    are the rounds of their loops, with the notification channels as
    generation counters.

    * Files

    - [Prelude]: outcomes, machine integers, slices, tactics, list lemmas.
    - [Tcpip]: [src/tcpip].  [Checksum], [Header], [TcpHeader]: [src/header].
      [TcpOptions]: theorems on the option encoders and parsers.
    - [Packet]: [src/packet].
    - [Ringbuf]: [src/transport/tcp/ringbuf.go] and its theorems.
    - [Fragmentation]: [src/stack/fragmentation.go]; [Reassembly]: its theorems.
    - [Stack]: [stack.go], [icmp.go], [options.go], [stats.go] of [src/stack]
      and the interfaces of [src/channel]; [IpLayer]: its theorems.
    - [Memory]: [src/channel/memory.go] and its theorems.
    - [Seq]: the sequence comparisons of [rcv.go].  [TcpConn]: the state of a
      connection, [state.go], [flow.go], [stats.go], and the monad.
    - [Rcv], [RcvData]: [rcv.go].  [Segment]: [segment.go].  [Snd]: [snd.go].
      [Conn]: [conn.go], [conn_synrcvd.go], [conn_established.go],
      [conn_closing.go].  [Handler] (module [Tcp]): [handler.go], [options.go],
      [listener.go] and the whole TCP layer as a transition system.
    - [OooFacts], [SegmentFacts], [RcvFacts], [SndFacts], [StreamFacts],
      [Transfer], [Handshake], [Inbound], [ConnFacts], [TcpSystem], [Closing],
      [TcpLink]: theorems on TCP.  [Endpoint]: the invariant of one end in every state
      after the handshake, kept by every handler and every case of [run];
      [Conversation]: a whole connection with any peer that conforms.
    - [TunChecksum]: [src/channel/tun/checksum.go] and its theorems.
      [TunOffload]: the reading side of [offload.go], [tun.go] and
      [channel.go] in [src/channel/tun]; [TunSplit]: its theorems.  [GsoLink]:
      TCP over it.
    - [Gro]: the writing side, the coalescing of packets in [offload.go] and
      [nativeTun.write]; [GroMerge] (two packets), [GroTable] (the flow table),
      [GroBatch] (a batch), [GroFacts], [GroBack]: its theorems.
    - [TunDevice]: opening and configuring the device in [tun.go] and
      [channel.go], and its theorems.
    - [Udp] (module [Udp]): [src/transport/udp] and its theorems.
    - [Echo]: the echo servers of [src/example/main.go] and their theorems.
      [Forward]: its forwarding server, two copying goroutines over one
      connection.  [Main]: the stack and the handlers that [main] builds.

    * What the theorems show

    - Headers and checksums ([Checksum], [Header], [TcpHeader], [TcpOptions]):
      encoding and decoding are inverse, the option parsers are total and
      invert the option encoders, the checksum over a pseudo header is the
      checksum of the concatenation and detects a changed word.
    - IP ([Reassembly], [IpLayer]): a packet survives fragmentation and
      reassembly in any order; a reassembled datagram consists of received
      fragments, and those of one datagram do not disturb another; the
      reassembler's invariant and memory bound; what one stack sends another
      dispatches; echo replies.
    - Ring buffer ([Ringbuf]): it refines a bounded queue, and no wake-up is
      lost.
    - Receiving ([OooFacts], [RcvFacts], [StreamFacts]): [handleData] refines
      the set of received stream positions; the application reads the stream
      in order and each byte once; SACK blocks report the held ranges.
    - Sending ([SndFacts]): [sendPending] sends the next bytes within both
      windows, in single segments or in large packets for the device to split,
      and terminates; acknowledgements remove exactly what they cover, a
      timeout resends the oldest segment.
    - End to end ([TcpLink], [Transfer]): a segment crosses the IP layers of
      two stacks and parses back to what was sent; whatever the network does to
      the segments and however the sender is driven, the receiving application
      reads a prefix of what was written.  [Conversation]: from the handshake
      to the end of the connection, both directions at once and both closing,
      an end neither panics nor loops, what its application reads is a prefix
      of what the peer wrote, end of file comes after all of it, and what it
      sends is what its application wrote, at its place, for a peer without an
      MSS option or with one above 12, non-empty reads, and a FIN that reaches
      an end that has closed its side in order.  [Echo]: both echo servers
      return what they are sent, the TCP one until its connection is done.  [Forward]: both directions are
      relayed in order, and one that ends without an error is relayed whole
      before its end is.
    - Channels ([Memory], [TunDevice]): the memory channel is a pair of
      first-in first-out queues whatever the schedule; a device that was opened
      is configured and its descriptors are accounted for.
    - Offload ([TunChecksum], [TunSplit], [GsoLink], [GroFacts], [GroBack]): the
      checksum in machine words agrees with the plain one; a large packet is
      read as a sequence of correct segments; data sent by TCP in one large
      packet arrives as the segments the connection would have sent; coalescing
      a batch loses no packet, and splitting gives the batch back.
    - Life cycle ([Handshake], [Inbound], [ConnFacts], [TcpSystem]): the
      handshake opens both directions at the first byte; segments out of step
      change nothing; every reachable state of the TCP layer is consistent and
      connections only move forward along the edges of the state machine.
    - Defects, as theorems.  [Reassembly]: exactly when a fragment beyond the
      end of its datagram panics; the low memory mark has no effect.
      [TcpSystem]: an announced MSS below 12 panics, a segment size of zero
      loops for ever.  [Closing]: a FIN deferred past the close leaves a
      connection in CLOSE_WAIT that only a reset or [ForceClose] ends.
      [Conversation]: a FIN that overtakes data ends the stream early at an end
      that has closed its side, and an acknowledgement of part of the data in
      LAST_ACK gives up the rest.  [Ringbuf]: an empty read discards a full
      buffer, [CloseWrite] leaves a writer blocked.  [RcvFacts]: SACK blocks
      are lost at the wrap of the sequence numbers.  [TunSplit]: splitting into
      more segments than buffers drops a segment that is complete.  [GroFacts]:
      a segment with a bad checksum is written behind a stale virtio header,
      coalescing in front of a segment loses its PSH flag.  [Memory]: two calls
      of [Close] at the same time panic.  [TunDevice]: a refused device request
      leaks a descriptor.

    * Bounds and fuel

    Every loop that is not structural has fuel computed from its input and
    running out is its own outcome: [sendPending] allows one round more than
    there are bytes to send, the loops over the out-of-order queue one round
    per entry, the option parsers one per byte, window scaling 48 (an [int] has
    63 bits), the splitting loop one round more than there are buffers.  The
    theorems that say the code returns show that the fuel suffices.  Two
    checksum loops return their value instead: folding takes three rounds, and
    [fold_norm] shows that a 32-bit sum is folded by then; the loop over blocks
    of 128 bytes has a round per byte of the input.  Stream theorems bound
    the positions involved by 2^30 (a quarter of the sequence space, above the
    largest advertisable window), and the sender's assume pool buffers of full
    size.  The theorems on coalescing take batches of at most 128 packets, the
    size of the tables' pools, in buffers that cannot grow a packet beyond
    64 KB; [GroBack] takes IPv4 packets.

    * Not modelled

    Of [src/example/main.go] the flags, the log, the [ip] commands and the
    signal: input and output only; and the loops that accept connections and
    start the modelled goroutines.  The remote connection of the forwarding
    server is Go's [net] package, so the results of its calls are arguments.
    The TCP handler only accepts connections, it has no active open, so two
    ends of this code never talk to each other: [Conversation] takes the peer
    as any sender of segments that conform, and leaves out the calls
    [CloseRead] and [ForceClose], which are steps of the system in
    [TcpSystem].
    The error that a write to the device returns to [WritePacket], which its
    callers ignore.  Inside the modelled files:
    goroutine scheduling below the granularity above, data races on fields the
    application and [run] touch without a lock, the reference counts of pooled
    buffers beyond the bookkeeping in [Packet], and logging. *)
From stdpp Require Export base list gmap sorting strings pretty.
From Stdlib Require Export ZArith Lia ZifyBool.
Open Scope Z_scope.

(** * Outcomes of Go code

    A Go call either returns, panics (index or slice bounds out of range,
    nil dereference, division by zero), or keeps looping.  Loops whose bound
    is not a structural one are run with fuel, and running out of it is the
    third outcome, kept apart from a panic. *)
Inductive outcome (A : Type) : Type :=
| Ret (a : A)
| Panic
| OutOfFuel.
Arguments Ret {A} a.
Arguments Panic {A}.
Arguments OutOfFuel {A}.

Global Instance outcome_ret : MRet outcome := @Ret.
Global Instance outcome_bind : MBind outcome := λ A B f m,
  match m with
  | Ret a => f a
  | Panic => Panic
  | OutOfFuel => OutOfFuel
  end.
Global Instance outcome_fmap : FMap outcome := λ A B f m,
  match m with
  | Ret a => Ret (f a)
  | Panic => Panic
  | OutOfFuel => OutOfFuel
  end.

Lemma bind_Ret {A B} (m : outcome A) (f : A → outcome B) b :
  m ≫= f = Ret b ↔ ∃ a, m = Ret a ∧ f a = Ret b.
Proof. destruct m; cbn; naive_solver. Qed.

Lemma bind_Ret_l {A B} (a : A) (f : A → outcome B) : (Ret a) ≫= f = f a.
Proof. done. Qed.

(** [returns m] holds of a computation that neither panics nor runs out of
    fuel. *)
Definition returns {A} (m : outcome A) : Prop := ∃ a, m = Ret a.

(** * Machine integers

    A [w]-bit unsigned integer is a [Z] in [0, 2^w); conversions and wrapping
    arithmetic are written out with these functions.  Go's [int] and
    [time.Duration] (64 bits) are plain [Z]: the code only adds lengths,
    capacities and durations that stay far below 2^63. *)
Definition u8 (x : Z) : Z := x mod 256.
Definition u16 (x : Z) : Z := x mod 65536.
Definition u32 (x : Z) : Z := x mod 4294967296.
Definition u64 (x : Z) : Z := x mod 18446744073709551616.

(** [int32(x)] of a [uint32]. *)
Definition i32 (x : Z) : Z :=
  if u32 x <? 2147483648 then u32 x else u32 x - 4294967296.

(** Bitwise complement of a [uint16]: [^x]. *)
Definition not16 (x : Z) : Z := 65535 - x.

Definition is_u8 (x : Z) : Prop := 0 ≤ x < 256.
Definition is_u16 (x : Z) : Prop := 0 ≤ x < 65536.
Definition is_u32 (x : Z) : Prop := 0 ≤ x < 4294967296.

(** A slice of bytes. *)
Abbreviation bytes := (list Z).
Abbreviation bytes_ok := (Forall is_u8).

Lemma u8_range x : is_u8 (u8 x).
Proof. apply Z.mod_pos_bound. lia. Qed.
Lemma u16_range x : is_u16 (u16 x).
Proof. apply Z.mod_pos_bound. lia. Qed.
Lemma u32_range x : is_u32 (u32 x).
Proof. apply Z.mod_pos_bound. lia. Qed.
Lemma u8_id x : is_u8 x → u8 x = x.
Proof. apply Z.mod_small. Qed.
Lemma u16_id x : is_u16 x → u16 x = x.
Proof. apply Z.mod_small. Qed.
Lemma u32_id x : is_u32 x → u32 x = x.
Proof. apply Z.mod_small. Qed.

Lemma u32_u32_add_l x y : u32 (u32 x + y) = u32 (x + y).
Proof. apply Zplus_mod_idemp_l. Qed.
Lemma u32_u32_add_r x y : u32 (x + u32 y) = u32 (x + y).
Proof. apply Zplus_mod_idemp_r. Qed.
Lemma u32_u32_sub_l x y : u32 (u32 x - y) = u32 (x - y).
Proof. apply Zminus_mod_idemp_l. Qed.
Lemma u32_u32_sub_r x y : u32 (x - u32 y) = u32 (x - y).
Proof. apply Zminus_mod_idemp_r. Qed.
Lemma u32_u32 x : u32 (u32 x) = u32 x.
Proof. apply Zmod_mod. Qed.

Create Rewrite HintDb u32.
#[export] Hint Rewrite u32_u32_add_l u32_u32_add_r u32_u32_sub_l
  u32_u32_sub_r u32_u32 : u32.

(** * Tactics *)

(** [lia] with the integer ranges unfolded. *)
Ltac ulia := unfold is_u8, is_u16, is_u32 in *; lia.
(** [lia] with quotients and remainders. *)
Ltac mlia := Z.div_mod_to_equations; lia.

(** Split the [if]s and the [match]es of the goal, keeping the equations. *)
Ltac case_if :=
  match goal with
  | |- context [if ?b then _ else _] => destruct b eqn:?
  end.
(** Innermost conditions first. *)
Ltac case_ifs :=
  repeat match goal with
  | |- context [if ?b then _ else _] =>
      lazymatch b with
      | context [if _ then _ else _] => fail
      | _ => destruct b eqn:?
      end
  end.
Ltac case_if_in H :=
  match type of H with
  | context [if ?b then _ else _] => destruct b eqn:?
  end.

(** Open every monadic bind of a hypothesis [m = Ret a]. *)
Ltac inv_outcome :=
  repeat match goal with
  | H : Ret _ = Ret _ |- _ => injection H as H; subst
  | H : Panic = Ret _ |- _ => discriminate H
  | H : OutOfFuel = Ret _ |- _ => discriminate H
  | H : _ ≫= _ = Ret _ |- _ =>
      let a := fresh "a" in let Ha := fresh "Ha" in
      apply bind_Ret in H as (a & Ha & H)
  end.

(** The same through pairs and conditionals: every branch that returns. *)
Ltac inv_run :=
  repeat (inv_outcome; match goal with
  | H : (let '(_, _) := ?a in _) = Ret _ |- _ => destruct a
  | H : (if ?b then _ else _) = Ret _ |- _ => destruct b eqn:?
  end); inv_outcome.

(** * Slices

    [len(b)], [b[i]], [b[i] = v], [b[lo:hi]] and [copy], with Go's bounds
    checks.  Indices are [Z], as the code computes with [int]. *)
Definition zlen {A} (l : list A) : Z := Z.of_nat (length l).
Definition ztake {A} (n : Z) (l : list A) : list A := take (Z.to_nat n) l.
Definition zdrop {A} (n : Z) (l : list A) : list A := drop (Z.to_nat n) l.

(** [make([]byte, n)]. *)
Definition make_bytes (n : Z) : bytes := replicate (Z.to_nat n) 0.

Section slices.
Context {A : Type}.
Implicit Types b : list A.

Definition get b (i : Z) : outcome A :=
  if i <? 0 then Panic else
  match b !! Z.to_nat i with Some v => Ret v | None => Panic end.

Definition put b (i : Z) (v : A) : outcome (list A) :=
  if i <? 0 then Panic else
  match b !! Z.to_nat i with
  | Some _ => Ret (<[Z.to_nat i := v]> b)
  | None => Panic
  end.

Definition slice b (lo hi : Z) : outcome (list A) :=
  if (0 <=? lo) && (lo <=? hi) && (hi <=? zlen b)
  then Ret (ztake (hi - lo) (zdrop lo b)) else Panic.

(** [b[lo:]] and [b[:hi]]; [hi] is checked against the length. *)
Definition slice_from b (lo : Z) : outcome (list A) :=
  if lo <? 0 then Panic else
  if (Z.to_nat lo <=? length b)%nat then Ret (drop (Z.to_nat lo) b) else Panic.
Definition slice_to b (hi : Z) : outcome (list A) := slice b 0 hi.

(** [copy(dst, src)]: the new destination and the number of elements. *)
Definition copy (dst src : list A) : list A * Z :=
  let n := Nat.min (length dst) (length src) in
  (take n src ++ drop n dst, Z.of_nat n).

(** [copy(dst[off:], src)], written back into [dst]. *)
Definition copy_at (dst : list A) (off : Z) (src : list A) : outcome (list A) :=
  tl ← slice_from dst off;
  Ret (take (Z.to_nat off) dst ++ (copy tl src).1).

End slices.

Section slice_lemmas.
Context {A : Type}.
Implicit Types b l dst src : list A.

Lemma zlen_nonneg l : 0 ≤ zlen l.
Proof. unfold zlen. lia. Qed.
Lemma zlen_app l k : zlen (l ++ k) = zlen l + zlen k.
Proof. unfold zlen. rewrite length_app. lia. Qed.
Lemma zlen_nil : zlen (@nil A) = 0.
Proof. done. Qed.
Lemma zlen_cons x l : zlen (x :: l) = zlen l + 1.
Proof. unfold zlen. cbn [length]. lia. Qed.
Lemma zlen_zero_inv l : zlen l = 0 → l = [].
Proof. destruct l; [done|]. rewrite zlen_cons. pose proof (zlen_nonneg l). lia. Qed.
Lemma zlen_insert l i x : zlen (<[i := x]> l) = zlen l.
Proof. unfold zlen. by rewrite length_insert. Qed.
Lemma zlen_ztake n l : 0 ≤ n ≤ zlen l → zlen (ztake n l) = n.
Proof. unfold zlen, ztake. rewrite length_take. lia. Qed.
Lemma zlen_zdrop n l : 0 ≤ n ≤ zlen l → zlen (zdrop n l) = zlen l - n.
Proof. unfold zlen, zdrop. rewrite length_drop. lia. Qed.
Lemma ztake_zdrop n l : ztake n l ++ zdrop n l = l.
Proof. apply take_drop. Qed.
Lemma ztake_all n l : zlen l ≤ n → ztake n l = l.
Proof. unfold zlen, ztake. intros. apply take_ge. lia. Qed.
Lemma zdrop_all n l : zlen l ≤ n → zdrop n l = [].
Proof. unfold zlen, zdrop. intros. apply drop_ge. lia. Qed.
Lemma ztake_0 n l : n ≤ 0 → ztake n l = [].
Proof. unfold ztake. intros. by replace (Z.to_nat n) with 0%nat by lia. Qed.
Lemma zdrop_0 n l : n ≤ 0 → zdrop n l = l.
Proof. unfold zdrop. intros. by replace (Z.to_nat n) with 0%nat by lia. Qed.
Lemma ztake_app_le n l k : n ≤ zlen l → ztake n (l ++ k) = ztake n l.
Proof. unfold zlen, ztake. intros. apply take_app_le. lia. Qed.
Lemma zdrop_app_le n l k : n ≤ zlen l → zdrop n (l ++ k) = zdrop n l ++ k.
Proof. unfold zlen, zdrop. intros. apply drop_app_le. lia. Qed.
Lemma ztake_app_ge n l k :
  zlen l ≤ n → ztake n (l ++ k) = l ++ ztake (n - zlen l) k.
Proof.
  unfold zlen, ztake. intros. rewrite take_app_ge by lia.
  do 2 f_equal. lia.
Qed.
Lemma zdrop_app_ge n l k : zlen l ≤ n → zdrop n (l ++ k) = zdrop (n - zlen l) k.
Proof.
  unfold zlen, zdrop. intros. rewrite drop_app_ge by lia. f_equal. lia.
Qed.
Lemma ztake_ztake n m l : ztake n (ztake m l) = ztake (Z.min n m) l.
Proof. unfold ztake. rewrite take_take. f_equal. lia. Qed.
Lemma zdrop_zdrop n m l :
  0 ≤ n → 0 ≤ m → zdrop n (zdrop m l) = zdrop (m + n) l.
Proof. unfold zdrop. intros. rewrite drop_drop. f_equal. lia. Qed.
Lemma ztake_zdrop_comm n m l :
  0 ≤ n → 0 ≤ m → ztake n (zdrop m l) = zdrop m (ztake (m + n) l).
Proof.
  unfold ztake, zdrop. intros.
  rewrite take_drop_commute. do 2 f_equal. lia.
Qed.

Lemma get_Ret b i x : get b i = Ret x ↔ 0 ≤ i ∧ b !! Z.to_nat i = Some x.
Proof.
  unfold get. case_if; [split; [done|lia]|].
  destruct (b !! Z.to_nat i); naive_solver lia.
Qed.
Lemma get_ok b i : 0 ≤ i < zlen b → returns (get b i).
Proof.
  intros Hi. unfold zlen in Hi.
  destruct (lookup_lt_is_Some_2 b (Z.to_nat i)) as [x Hx]; [lia|].
  exists x. apply get_Ret. naive_solver lia.
Qed.
Lemma slice_ok b lo hi :
  0 ≤ lo ≤ hi → hi ≤ zlen b → slice b lo hi = Ret (ztake (hi - lo) (zdrop lo b)).
Proof. intros. unfold slice. case_if; [done|lia]. Qed.
Lemma slice_Ret b lo hi s :
  slice b lo hi = Ret s ↔
  0 ≤ lo ≤ hi ∧ hi ≤ zlen b ∧ s = ztake (hi - lo) (zdrop lo b).
Proof. unfold slice. case_if; naive_solver lia. Qed.
Lemma slice_to_ok b hi : 0 ≤ hi ≤ zlen b → slice_to b hi = Ret (ztake hi b).
Proof.
  intros. unfold slice_to. rewrite slice_ok by lia. by rewrite zdrop_0, Z.sub_0_r by lia.
Qed.
Lemma slice_to_app a b : slice_to (a ++ b) (zlen a) = Ret a.
Proof.
  pose proof (zlen_nonneg a). pose proof (zlen_nonneg b).
  unfold slice_to. rewrite slice_ok by (rewrite ?zlen_app; lia).
  rewrite zdrop_0, Z.sub_0_r, ztake_app_le, ztake_all by lia. done.
Qed.
Lemma slice_from_ok b lo :
  0 ≤ lo ≤ zlen b → slice_from b lo = Ret (zdrop lo b).
Proof.
  unfold slice_from, zlen, zdrop. intros.
  case_if; [lia|]. case_if; [done|lia].
Qed.
Lemma slice_from_panic b lo :
  lo < 0 ∨ zlen b < lo → slice_from b lo = Panic.
Proof. unfold slice_from, zlen. intros. do 2 (case_if; try done; try lia). Qed.
Lemma zlen_copy (dst src : list A) : zlen (copy dst src).1 = zlen dst.
Proof. unfold copy, zlen. cbn [fst]. rewrite length_app, length_take, length_drop. lia. Qed.
Lemma copy_front (d p : list A) : zlen p ≤ zlen d → (copy d p).1 = p ++ zdrop (zlen p) d.
Proof. intros Hl. unfold copy, zlen, zdrop in *. cbn [fst]. by rewrite Nat.min_r, (take_ge p), Nat2Z.id by lia. Qed.
Lemma copy_at_ok dst off src :
  0 ≤ off → off + zlen src ≤ zlen dst →
  copy_at dst off src = Ret (ztake off dst ++ src ++ zdrop (off + zlen src) dst).
Proof.
  intros Ho Hle. unfold copy_at. pose proof (zlen_nonneg src).
  rewrite slice_from_ok by lia. cbn. unfold copy, zlen, ztake, zdrop in *. cbn.
  rewrite length_drop, Nat.min_r, (take_ge src) by lia.
  rewrite drop_drop. do 4 f_equal. lia.
Qed.
Lemma zlen_copy_at dst off src d :
  copy_at dst off src = Ret d → zlen d = zlen dst.
Proof.
  unfold copy_at, slice_from. case_if; [done|]. case_if; [|done].
  cbn. intros [= <-]. unfold zlen.
  rewrite !length_app, !length_take, !length_drop. lia.
Qed.
Lemma slice_mid (a b c : list A) lo hi :
  lo = zlen a → hi = zlen a + zlen b → slice (a ++ b ++ c) lo hi = Ret b.
Proof.
  intros -> ->. pose proof (zlen_nonneg a). pose proof (zlen_nonneg b). pose proof (zlen_nonneg c).
  rewrite slice_ok by (rewrite ?zlen_app; lia). rewrite zdrop_app_ge, Z.sub_diag, zdrop_0 by lia.
  by rewrite ztake_app_le, ztake_all by lia.
Qed.
End slice_lemmas.

Lemma zlen_make_bytes n : 0 ≤ n → zlen (make_bytes n) = n.
Proof. unfold zlen, make_bytes. rewrite length_replicate. lia. Qed.
Lemma zlen_map {A B} (f : A → B) l : zlen (f <$> l) = zlen l.
Proof. unfold zlen. by rewrite length_fmap. Qed.

Create Rewrite HintDb zlist.
#[export] Hint Rewrite @zlen_app @zlen_nil @zlen_cons @zlen_insert
  @zlen_map : zlist.
#[export] Hint Rewrite @zlen_ztake @zlen_zdrop @zlen_make_bytes
  using (autorewrite with zlist; lia) : zlist.

(** * A solver for equations between [take], [drop] and [++]

    Both sides are compared cell by cell; the positions and the lengths are
    left to [lia]. *)
Ltac length_simpl :=
  repeat match goal with
  | H : context [length (_ ++ _)] |- _ => rewrite length_app in H
  | H : context [length (take _ _)] |- _ => rewrite length_take in H
  | H : context [length (drop _ _)] |- _ => rewrite length_drop in H
  | H : context [length (replicate _ _)] |- _ => rewrite length_replicate in H
  | |- context [length (_ ++ _)] => rewrite length_app
  | |- context [length (take _ _)] => rewrite length_take
  | |- context [length (drop _ _)] => rewrite length_drop
  | |- context [length (replicate _ _)] => rewrite length_replicate
  end.

Ltac lookup_cases :=
  repeat (match goal with
  | |- context [(?a ++ ?b) !! ?i] =>
      destruct (decide (i < length a)%nat);
      [rewrite (lookup_app_l a b i) by done
      |rewrite (lookup_app_r a b i) by lia]
  | |- context [take ?n ?l !! ?i] =>
      destruct (decide (i < n)%nat);
      [rewrite (lookup_take_lt l n i) by done
      |rewrite (lookup_take_ge l n i) by lia]
  | |- context [drop ?n ?l !! ?i] => rewrite (lookup_drop l n i)
  end; length_simpl; try (exfalso; lia)).

Ltac lookup_close :=
  first [ done
        | f_equal; lia
        | rewrite !lookup_ge_None_2 by lia; done
        | rewrite lookup_ge_None_2 by lia; done
        | symmetry; apply lookup_ge_None_2; lia
        | apply lookup_ge_None_2; lia ].

Ltac list_solve :=
  unfold ztake, zdrop, zlen, make_bytes in *; length_simpl;
  apply list_eq; intros ?i; lookup_cases; lookup_close.

(** Lists with equal images correspond element by element. *)
Lemma Forall2_map_eq {A B C} (f : A → C) (g : B → C) (P : A → B → Prop) l k :
  f <$> l = map g k → (∀ x y, x ∈ l → y ∈ k → f x = g y → P x y) → Forall2 P l k.
Proof.
  revert k. induction l as [|x l IH]; intros [|y k] E H; try done.
  cbn in E. injection E as E1 E2. constructor.
  - apply H; [left|left|done].
  - apply IH; [done|]. intros x' y' ? ?. apply H; by right.
Qed.

(** * [encoding/binary.BigEndian] at an offset

    [read16 b o] is [binary.BigEndian.Uint16(b[o:])] and [write16 b o v] is
    [binary.BigEndian.PutUint16(b[o:], v)], and likewise for 32 bits.  Both
    panic when the slice is too short. *)
Definition be16 (x y : Z) : Z := x * 256 + y.
Definition be32 (x y z w : Z) : Z := be16 x y * 65536 + be16 z w.

Definition read16 (b : bytes) (off : Z) : outcome Z :=
  if off <? 0 then Panic else
  let o := Z.to_nat off in
  match b !! o, b !! S o with
  | Some x, Some y => Ret (be16 x y)
  | _, _ => Panic
  end.

Definition read32 (b : bytes) (off : Z) : outcome Z :=
  if off <? 0 then Panic else
  let o := Z.to_nat off in
  match b !! o, b !! S o, b !! S (S o), b !! S (S (S o)) with
  | Some x, Some y, Some z, Some w => Ret (be32 x y z w)
  | _, _, _, _ => Panic
  end.

Definition write16 (b : bytes) (off v : Z) : outcome bytes :=
  if off <? 0 then Panic else
  let o := Z.to_nat off in
  if (o + 2 <=? length b)%nat
  then Ret (<[S o := u8 v]> (<[o := u8 (v / 256)]> b)) else Panic.

Definition write32 (b : bytes) (off v : Z) : outcome bytes :=
  if off <? 0 then Panic else
  let o := Z.to_nat off in
  if (o + 4 <=? length b)%nat
  then Ret (<[S (S (S o)) := u8 v]> (<[S (S o) := u8 (v / 256)]>
           (<[S o := u8 (v / 65536)]> (<[o := u8 (v / 16777216)]> b))))
  else Panic.

Lemma be16_range x y : is_u8 x → is_u8 y → is_u16 (be16 x y).
Proof. unfold is_u8, is_u16, be16. lia. Qed.

Lemma be16_split v : is_u16 v → be16 (u8 (v / 256)) (u8 v) = v.
Proof.
  unfold is_u16, be16, u8. intros.
  rewrite (Z.mod_small (v / 256)) by (split; [apply Z.div_pos|apply Z.div_lt_upper_bound]; lia).
  pose proof (Z_div_mod_eq_full v 256). lia.
Qed.

Lemma be16_split_u16 v : be16 (u8 (v / 256)) (u8 v) = u16 v.
Proof.
  unfold be16, u8, u16. change 65536 with (256 * 256).
  rewrite Z.rem_mul_r by lia. lia.
Qed.

Lemma be16_inv x y : is_u8 x → is_u8 y →
  u8 (be16 x y / 256) = x ∧ u8 (be16 x y) = y.
Proof.
  unfold is_u8, be16, u8. intros. split.
  - rewrite Z.div_add_l, (Z.div_small y) by lia. rewrite Z.mod_small; lia.
  - rewrite Z.add_comm, Z.mod_add, Z.mod_small; lia.
Qed.

Lemma be32_split v : is_u32 v →
  be32 (u8 (v / 16777216)) (u8 (v / 65536)) (u8 (v / 256)) (u8 v) = v.
Proof.
  intros Hv. unfold be32. rewrite be16_split_u16.
  change 16777216 with (65536 * 256). rewrite <- Z.div_div by lia.
  rewrite be16_split.
  - unfold u16. pose proof (Z_div_mod_eq_full v 65536). lia.
  - unfold is_u16. split; [apply Z.div_pos|apply Z.div_lt_upper_bound]; ulia.
Qed.

Lemma read16_Ret b o v :
  read16 b o = Ret v ↔
  0 ≤ o ∧ ∃ x y, b !! Z.to_nat o = Some x ∧ b !! S (Z.to_nat o) = Some y ∧
                 v = be16 x y.
Proof.
  unfold read16. case_if; [split; [done|lia]|].
  destruct (b !! Z.to_nat o), (b !! S (Z.to_nat o)); split; naive_solver lia.
Qed.

Lemma read32_Ret b o v :
  read32 b o = Ret v ↔
  ∃ x y, read16 b o = Ret x ∧ read16 b (o + 2) = Ret y ∧ v = x * 65536 + y.
Proof.
  unfold read32, read16. case_if.
  { split; [done|]. intros (? & ? & ? & _). done. }
  case_if; [lia|].
  replace (Z.to_nat (o + 2)) with (S (S (Z.to_nat o))) by lia.
  destruct (b !! Z.to_nat o), (b !! S (Z.to_nat o)), (b !! S (S (Z.to_nat o))),
    (b !! S (S (S (Z.to_nat o)))); unfold be32; split; naive_solver.
Qed.

Lemma read16_ok b o : 0 ≤ o → o + 2 ≤ zlen b → returns (read16 b o).
Proof.
  unfold zlen. intros.
  destruct (lookup_lt_is_Some_2 b (Z.to_nat o)) as [x Hx]; [lia|].
  destruct (lookup_lt_is_Some_2 b (S (Z.to_nat o))) as [y Hy]; [lia|].
  exists (be16 x y). apply read16_Ret. eauto 10.
Qed.

Lemma read16_range b o v : bytes_ok b → read16 b o = Ret v → is_u16 v.
Proof.
  intros Hb (Ho & x & y & Hx & Hy & ->)%read16_Ret.
  apply be16_range; eapply (Forall_lookup_1 is_u8); eauto.
Qed.

Lemma read32_ok b o : 0 ≤ o → o + 4 ≤ zlen b → returns (read32 b o).
Proof.
  intros. destruct (read16_ok b o) as [x Hx]; [lia..|].
  destruct (read16_ok b (o + 2)) as [y Hy]; [lia..|].
  exists (x * 65536 + y). apply read32_Ret. eauto.
Qed.

Lemma read32_range b o v : bytes_ok b → read32 b o = Ret v → is_u32 v.
Proof.
  intros Hb (x & y & Hx%read16_range & Hy%read16_range & ->)%read32_Ret; [|done..].
  ulia.
Qed.

Lemma write16_Ret b o v b' :
  write16 b o v = Ret b' ↔
  0 ≤ o ∧ o + 2 ≤ zlen b ∧
  b' = <[S (Z.to_nat o) := u8 v]> (<[Z.to_nat o := u8 (v / 256)]> b).
Proof.
  unfold write16, zlen. case_if; [split; [done|lia]|].
  case_if; [|split; [done|lia]]. split; [intros [= <-]; naive_solver lia|].
  by intros (_ & _ & ->).
Qed.

Lemma write16_ok b o v : 0 ≤ o → o + 2 ≤ zlen b →
  write16 b o v = Ret (<[S (Z.to_nat o) := u8 v]> (<[Z.to_nat o := u8 (v / 256)]> b)).
Proof. intros. by apply write16_Ret. Qed.

Lemma zlen_write16 b o v b' : write16 b o v = Ret b' → zlen b' = zlen b.
Proof. intros (? & ? & ->)%write16_Ret. by autorewrite with zlist. Qed.

Lemma bytes_ok_insert b i v : bytes_ok b → is_u8 v → bytes_ok (<[i := v]> b).
Proof. intros. by apply Forall_insert. Qed.

Lemma bytes_ok_write16 b o v b' :
  bytes_ok b → write16 b o v = Ret b' → bytes_ok b'.
Proof.
  intros Hb (? & ? & ->)%write16_Ret.
  apply bytes_ok_insert; [|apply u8_range]. apply bytes_ok_insert; [done|apply u8_range].
Qed.

Lemma read16_write16_same b o v b' :
  write16 b o v = Ret b' → read16 b' o = Ret (u16 v).
Proof.
  unfold zlen. intros (Ho & Hl & ->)%write16_Ret. apply read16_Ret.
  unfold zlen in Hl. split; [done|]. exists (u8 (v / 256)), (u8 v).
  rewrite be16_split_u16, list_lookup_insert_ne by lia.
  rewrite !list_lookup_insert_eq by (rewrite ?length_insert; lia). done.
Qed.

(** Writing in the first part of a slice. *)
Lemma put_app {A} (a b : list A) i v :
  i < zlen a → put (a ++ b) i v = (x ← put a i v; Ret (x ++ b)).
Proof.
  unfold put, zlen. intros H. case_if; [done|]. rewrite lookup_app_l by lia.
  destruct (a !! Z.to_nat i); [|done]. cbn. by rewrite insert_app_l by lia.
Qed.

Lemma write16_app a b o v :
  o + 2 ≤ zlen a → write16 (a ++ b) o v = (x ← write16 a o v; Ret (x ++ b)).
Proof.
  unfold write16, zlen. intros H. case_if; [done|]. rewrite length_app.
  rewrite (proj2 (Nat.leb_le _ (length a))), (proj2 (Nat.leb_le _ _)) by lia.
  cbn. rewrite !insert_app_l by (rewrite ?length_insert; lia). done.
Qed.

Lemma write32_app a b o v :
  o + 4 ≤ zlen a → write32 (a ++ b) o v = (x ← write32 a o v; Ret (x ++ b)).
Proof.
  unfold write32, zlen. intros H. case_if; [done|]. rewrite length_app.
  rewrite (proj2 (Nat.leb_le _ (length a))), (proj2 (Nat.leb_le _ _)) by lia.
  cbn. rewrite !insert_app_l by (rewrite ?length_insert; lia). done.
Qed.

Lemma get_put_ne {A} (b : list A) i j v b' : put b i v = Ret b' → i ≠ j → get b' j = get b j.
Proof.
  unfold put, get. case_if; [done|]. destruct (b !! Z.to_nat i); [|done].
  intros [= <-] Hne. case_if; [done|].
  by rewrite list_lookup_insert_ne by lia.
Qed.

Lemma get_write16_ne b o v b' j :
  write16 b o v = Ret b' → j ≠ o → j ≠ o + 1 → get b' j = get b j.
Proof.
  intros (Ho & Hl & ->)%write16_Ret H1 H2. unfold get. case_if; [done|].
  by rewrite !list_lookup_insert_ne by lia.
Qed.

(** * Record update

    [r <| f := v |>] sets one field.  A record type declares how to rebuild
    itself from its projections, and the setter of a field is found by
    abstracting that projection. *)
Class Rebuild (R : Type) := rebuild : R → R.
Class Setter {R T} (proj : R → T) := set_field : (T → T) → R → R.
Arguments set_field {R T} proj {_} f r /.

Ltac find_setter :=
  match goal with
  | |- @Setter ?R ?T ?p =>
      let k := eval hnf in (@rebuild R _) in
      match eval pattern p in k with
      | ?g _ => exact (λ f r, g (λ r', f (p r')) r)
      end
  end.
#[global] Hint Extern 0 (Setter _) => find_setter : typeclass_instances.

Declare Scope go_scope.
Delimit Scope go_scope with go.
Notation "r <| p := v |>" := (set_field p (λ _, v) r)
  (at level 1, left associativity, p at next level) : go_scope.
Notation "r <| p ::= f |>" := (set_field p f r)
  (at level 1, left associativity, p at next level) : go_scope.
Open Scope go_scope.

(** * Bit fields *)
Lemma lor_add k x y :
  0 ≤ k → (2 ^ k | x) → 0 ≤ y < 2 ^ k → Z.lor x y = x + y.
Proof.
  intros Hk [q ->] Hy.
  rewrite <- Z.add_lor_land. enough (Z.land (q * 2 ^ k) y = 0) by lia.
  apply Z.bits_inj'. intros n Hn.
  rewrite Z.land_spec, Z.bits_0. destruct (Z.lt_ge_cases n k).
  - by rewrite Z.mul_pow2_bits_low.
  - rewrite <- (Z.mod_small y (2 ^ k)) by done.
    rewrite Z.mod_pow2_bits_high by lia. apply andb_false_r.
Qed.

Lemma land_low k x : 0 ≤ k → Z.land x (2 ^ k - 1) = x mod 2 ^ k.
Proof.
  intros. rewrite <- Z.land_ones by done. f_equal. rewrite Z.ones_equiv. lia.
Qed.
Lemma shiftr_div k x : 0 ≤ k → Z.shiftr x k = x / 2 ^ k.
Proof. intros. by apply Z.shiftr_div_pow2. Qed.
Lemma shiftl_mul k x : 0 ≤ k → Z.shiftl x k = x * 2 ^ k.
Proof. intros. by apply Z.shiftl_mul_pow2. Qed.

Global Arguments u8 _ : simpl never.
Global Arguments u16 _ : simpl never.
Global Arguments u32 _ : simpl never.
Global Arguments u64 _ : simpl never.
Global Arguments i32 _ : simpl never.
Global Arguments be16 _ _ : simpl never.
Global Arguments be32 _ _ _ _ : simpl never.
Global Arguments Z.mul _ _ : simpl nomatch.
Global Arguments Z.land _ _ : simpl nomatch.

(** Run slice operations on a list whose relevant cells are explicit. *)
Ltac run_bytes :=
  cbv -[u8 u16 u32 u64 i32 be16 be32 not16 Z.add Z.sub Z.mul Z.div Z.modulo
        Z.land Z.lor Z.shiftl Z.shiftr length].

(** Name the first bytes of a slice known to be long enough. *)
Ltac explode_n H b n :=
  lazymatch n with
  | O => clear H
  | S ?m =>
      let x := fresh "x" in let r := fresh "rest" in
      destruct b as [|x r]; [exfalso; unfold zlen in H; cbn in H; lia|];
      explode_n H r m
  end.
Ltac explode b :=
  match goal with
  | H : ?n ≤ zlen b |- _ =>
      let k := eval vm_compute in (Z.to_nat n) in explode_n H b k
  end.

(** Reading back what [write16] and [write32] stored. *)
Create Rewrite HintDb fields.
#[export] Hint Rewrite be16_split be32_split using (assumption || ulia) : fields.
#[export] Hint Rewrite u8_id using (assumption || ulia) : fields.
