(* ===== verification/Tcpip.v ===== *)
(** [tcpip]: IPv4 addresses, endpoints, protocol numbers and the dotted
    decimal form of an address. *)
From S2P Require Import Prelude.

(** [Address] is a [uint32]: the four octets, most significant first. *)
Definition Address := Z.

Definition From4 (a b c d : Z) : Address :=
  Z.lor (Z.lor (Z.lor (Z.shiftl a 24) (Z.shiftl b 16)) (Z.shiftl c 8)) d.

Definition To4 (a : Address) : bytes :=
  [u8 (Z.shiftr a 24); u8 (Z.shiftr a 16); u8 (Z.shiftr a 8); u8 a].

Record FullAddress := mkFullAddress { Addr : Address; Port : Z }.
#[export] Instance FullAddress_eq_dec : EqDecision FullAddress.
Proof. solve_decision. Defined.

Definition IPv4ProtocolNumber : Z := 2048.
Definition ICMPv4ProtocolNumber : Z := 1.
Definition TCPProtocolNumber : Z := 6.
Definition UDPProtocolNumber : Z := 17.

(** [fmt.Sprintf("%d.%d.%d.%d", ...)] and ["%s:%d"]. *)
Definition Address_String (a : Address) : string :=
  match To4 a with
  | [b0; b1; b2; b3] =>
      (pretty b0 +:+ "." +:+ pretty b1 +:+ "." +:+ pretty b2 +:+ "." +:+ pretty b3)%string
  | _ => EmptyString
  end.

Definition FullAddress_String (fa : FullAddress) : string :=
  (Address_String (Addr fa) +:+ ":" +:+ pretty (Port fa))%string.

Example Address_String_loopback :
  Address_String (From4 127 0 0 1) = "127.0.0.1"%string.
Proof. reflexivity. Qed.

Lemma From4_val a b c d :
  is_u8 b → is_u8 c → is_u8 d →
  From4 a b c d = be16 a b * 65536 + be16 c d.
Proof.
  unfold is_u8, From4, be16. intros.
  rewrite !shiftl_mul by lia.
  rewrite (lor_add 24 (a * 2 ^ 24)) by (first [lia | by exists a]).
  rewrite (lor_add 16 (a * 2 ^ 24 + _)) by (first [lia | exists (a * 256 + b); lia]).
  rewrite (lor_add 8) by (first [lia | exists (a * 65536 + b * 256 + c); lia]).
  lia.
Qed.

Lemma From4_range a b c d :
  is_u8 a → is_u8 b → is_u8 c → is_u8 d → is_u32 (From4 a b c d).
Proof. intros. rewrite From4_val by done. unfold is_u8, be16, is_u32 in *. lia. Qed.

Lemma To4_val a :
  To4 a = [u8 (u16 (a / 65536) / 256); u8 (u16 (a / 65536)); u8 (u16 a / 256); u8 (u16 a)].
Proof.
  assert (Hu : ∀ x, u8 (u16 x) = u8 x).
  { intros x. unfold u8, u16. change 65536 with (256 * 256).
    rewrite Z.rem_mul_r, (Z.mul_comm 256), Z.mod_add by lia.
    apply Zmod_mod. }
  assert (Hd : ∀ x, u8 (u16 x / 256) = u8 (x / 256)).
  { intros x. unfold u8, u16. change 65536 with (256 * 256).
    rewrite Z.rem_mul_r, Z.add_comm by lia.
    rewrite (Z.mul_comm 256), Z.div_add_l by lia.
    rewrite (Z.div_small (x mod 256)) by (apply Z.mod_pos_bound; lia).
    rewrite Z.add_0_r. apply Zmod_mod. }
  unfold To4. rewrite !shiftr_div by lia. rewrite !Hu, !Hd.
  rewrite Z.div_div by lia. done.
Qed.

(** Splitting an address into octets and joining them again is the identity,
    both ways. *)
Lemma From4_To4 a : is_u32 a →
  ∃ b0 b1 b2 b3, To4 a = [b0; b1; b2; b3] ∧ From4 b0 b1 b2 b3 = a.
Proof.
  intros Ha. rewrite To4_val. do 4 eexists. split; [done|].
  rewrite From4_val by apply u8_range.
  rewrite !be16_split by apply u16_range.
  unfold u16, is_u32 in *. rewrite (Z.mod_small (a / 65536)).
  - pose proof (Z_div_mod_eq_full a 65536). lia.
  - split; [apply Z.div_pos|apply Z.div_lt_upper_bound]; lia.
Qed.

Lemma To4_From4 a b c d :
  is_u8 a → is_u8 b → is_u8 c → is_u8 d → To4 (From4 a b c d) = [a; b; c; d].
Proof.
  intros Ha Hb Hc Hd. rewrite To4_val, From4_val by done.
  pose proof (be16_range a b Ha Hb). pose proof (be16_range c d Hc Hd).
  rewrite Z.div_add_l, (Z.div_small (be16 c d)), Z.add_0_r by ulia.
  rewrite (u16_id (be16 a b)) by done.
  replace (u16 (be16 a b * 65536 + be16 c d)) with (be16 c d).
  - by destruct (be16_inv a b Ha Hb) as [-> ->], (be16_inv c d Hc Hd) as [-> ->].
  - unfold u16. rewrite Z.add_comm, Z.mod_add by lia. by rewrite Z.mod_small.
Qed.

Lemma bytes_ok_To4 a : bytes_ok (To4 a).
Proof. unfold To4. repeat constructor; apply Z.mod_pos_bound; lia. Qed.
