(* ===== verification/Checksum.v ===== *)
(** [header/checksum.go]: the internet checksum (RFC 1071) and the TCP/UDP
    pseudo-header checksum.

    [Checksum] is the code's loop on a [uint32] accumulator.  [norm] is the
    arithmetic it implements, addition modulo 65535 with 0 kept apart from
    65535, and every property is proved through [Checksum_norm]. *)
From S2P Require Import Prelude.
From S2P Require Import Tcpip.

(** The word loop and the odd trailing byte. *)
Fixpoint sum16 (b : bytes) (sum : Z) : Z :=
  match b with
  | x :: y :: r => sum16 r (u32 (sum + be16 x y))
  | [x] => u32 (sum + u32 (Z.shiftl x 8))
  | [] => sum
  end.

(** [for sum > 0xffff { sum = (sum >> 16) + (sum & 0xffff) }].  Three rounds
    are enough for any [uint32] ([fold_norm]). *)
Fixpoint fold (fuel : nat) (sum : Z) : Z :=
  match fuel with
  | O => sum
  | S f => if sum >? 65535
           then fold f (u32 (Z.shiftr sum 16 + Z.land sum 65535)) else sum
  end.
Definition fold_fuel : nat := 3.

Definition Checksum (b : bytes) (initial : Z) : Z :=
  not16 (u16 (fold fold_fuel (sum16 b initial))).

Definition PseudoHeaderChecksum (proto : Z) (src dst : Address) (totalLen : Z) : Z :=
  let buf := To4 src ++ To4 dst ++ [0; u8 proto; u8 (totalLen / 256); u8 totalLen] in
  not16 (Checksum buf 0).

(** * Specification *)

(** The exact sum of the big-endian 16-bit words of [b]. *)
Fixpoint wsum (b : bytes) : Z :=
  match b with
  | x :: y :: r => be16 x y + wsum r
  | [x] => be16 x 0
  | [] => 0
  end.

Definition norm (s : Z) : Z := if s =? 0 then 0 else (s - 1) mod 65535 + 1.

(** Lengths for which the [uint32] accumulator cannot wrap. *)
Definition sum_fits (b : bytes) : Prop := zlen b ≤ 131068.

(** Induction on a byte list by 16-bit words. *)
Lemma words_ind (P : bytes → Prop) :
  P [] → (∀ x, P [x]) → (∀ x y r, P r → P (x :: y :: r)) → ∀ b, P b.
Proof.
  intros H0 H1 H2. fix IH 1. intros [|x [|y r]]; [done|done|].
  apply H2, IH.
Qed.

Lemma wsum_bound b : bytes_ok b → 0 ≤ 2 * wsum b ≤ 65535 * (zlen b + 1).
Proof.
  induction b as [|x|x y r IH] using words_ind; intros Hb; cbn [wsum];
    autorewrite with zlist; rewrite ?Forall_cons in Hb; unfold be16;
    try (specialize (IH ltac:(tauto))); ulia.
Qed.

Lemma wsum_app a b : Z.Even (zlen a) → wsum (a ++ b) = wsum a + wsum b.
Proof.
  induction a as [|x|x y r IH] using words_ind; intros He; cbn [wsum app].
  - lia.
  - destruct He as [k Hk]. rewrite zlen_cons, zlen_nil in Hk. lia.
  - rewrite IH; [lia|]. destruct He as [k Hk]. exists (k - 1).
    rewrite !zlen_cons in Hk. lia.
Qed.

Lemma norm_range s : 0 ≤ s → 0 ≤ norm s ≤ 65535.
Proof.
  intros. unfold norm. case_if; [lia|].
  pose proof (Z.mod_pos_bound (s - 1) 65535). lia.
Qed.

Lemma norm_pos s : 0 < s → 0 < norm s.
Proof.
  intros. unfold norm. case_if; [lia|].
  pose proof (Z.mod_pos_bound (s - 1) 65535). lia.
Qed.

Lemma norm_small s : 0 ≤ s ≤ 65535 → norm s = s.
Proof.
  intros. unfold norm. case_if; [lia|]. rewrite Z.mod_small; lia.
Qed.

Lemma norm_add_mul s k : 0 < s → 0 ≤ k → norm (s + k * 65535) = norm s.
Proof.
  intros. unfold norm. do 2 (case_if; [lia|]).
  replace (s + k * 65535 - 1) with (s - 1 + k * 65535) by lia.
  by rewrite Z.mod_add.
Qed.

(** The decomposition that drives every congruence below. *)
Lemma norm_eq s : 0 ≤ s → ∃ k, 0 ≤ k ∧ s = norm s + k * 65535.
Proof.
  intros. unfold norm. case_if; [exists 0; lia|].
  exists ((s - 1) / 65535). split; [apply Z.div_pos; lia|].
  pose proof (Z_div_mod_eq_full (s - 1) 65535). lia.
Qed.

Lemma norm_norm_add a b : 0 ≤ a → 0 ≤ b → norm (norm a + b) = norm (a + b).
Proof.
  intros Ha Hb. destruct (norm_eq a Ha) as (k & Hk & E).
  destruct (Z.eq_dec a 0) as [->|]; [done|].
  pose proof (norm_pos a ltac:(lia)).
  rewrite E at 2. rewrite <- (norm_add_mul (norm a + b) k) by lia.
  f_equal. lia.
Qed.

Lemma fold_step s : 65535 < s < 4294967296 →
  let s' := u32 (Z.shiftr s 16 + Z.land s 65535) in
  norm s' = norm s ∧ 0 < s' ≤ s / 65536 + 65535.
Proof.
  intros Hs. cbv zeta. rewrite shiftr_div by lia.
  change (Z.land s 65535) with (Z.land s (2 ^ 16 - 1)).
  rewrite land_low by lia. change (2 ^ 16) with 65536.
  pose proof (Z_div_mod_eq_full s 65536) as E.
  pose proof (Z.mod_pos_bound s 65536 ltac:(lia)) as Hm.
  assert (1 ≤ s / 65536) by (apply Z.div_le_lower_bound; lia).
  assert (s / 65536 < 65536) by (apply Z.div_lt_upper_bound; lia).
  rewrite u32_id by ulia. split; [|lia].
  rewrite <- (norm_add_mul (s / 65536 + s mod 65536) (s / 65536)) by lia.
  f_equal. lia.
Qed.

(** Three rounds of the folding loop always reach 16 bits. *)
Lemma fold_norm s : is_u32 s → fold fold_fuel s = norm s.
Proof.
  intros Hs. unfold fold_fuel. cbn [fold].
  case_if; [|rewrite norm_small; ulia].
  destruct (fold_step s) as [H1 B1]; [ulia|].
  set (s1 := u32 (Z.shiftr s 16 + Z.land s 65535)) in *. clearbody s1.
  assert (s / 65536 ≤ 65535) by (apply Z.lt_succ_r, Z.div_lt_upper_bound; ulia).
  case_if; [|rewrite <- H1, norm_small; lia].
  destruct (fold_step s1) as [H2 B2]; [lia|].
  set (s2 := u32 (Z.shiftr s1 16 + Z.land s1 65535)) in *. clearbody s2.
  assert (s1 / 65536 ≤ 1) by (apply Z.lt_succ_r, Z.div_lt_upper_bound; lia).
  case_if; [|rewrite <- H1, <- H2, norm_small; lia].
  assert (s2 = 65536) as -> by lia. rewrite <- H1, <- H2. reflexivity.
Qed.

Lemma sum16_exact b i :
  bytes_ok b → 0 ≤ i → i + wsum b < 4294967296 → sum16 b i = i + wsum b.
Proof.
  revert i. induction b as [|x|x y r IH] using words_ind;
    intros i Hb Hi Hs; cbn [sum16 wsum] in *; [lia|..];
    rewrite !Forall_cons in Hb.
  - rewrite shiftl_mul by lia. change (2 ^ 8) with 256. unfold be16 in *.
    rewrite (u32_id (x * 256)), u32_id; ulia.
  - pose proof (wsum_bound r ltac:(tauto)).
    pose proof (be16_range x y ltac:(tauto) ltac:(tauto)).
    rewrite u32_id by ulia. rewrite IH; try ulia. tauto.
Qed.

(** The checksum of a packet is the complement of the ones' complement sum
    of its words. *)
Lemma Checksum_norm b i :
  bytes_ok b → sum_fits b → is_u16 i →
  Checksum b i = 65535 - norm (i + wsum b).
Proof.
  unfold sum_fits, Checksum, not16. intros Hb Hl Hi.
  pose proof (wsum_bound b Hb).
  rewrite sum16_exact, fold_norm by (first [done | ulia]).
  pose proof (norm_range (i + wsum b) ltac:(ulia)).
  rewrite u16_id by ulia. done.
Qed.

Lemma Checksum_range b i :
  bytes_ok b → sum_fits b → is_u16 i → is_u16 (Checksum b i).
Proof.
  intros. rewrite Checksum_norm by done.
  pose proof (wsum_bound b ltac:(done)).
  pose proof (norm_range (i + wsum b) ltac:(ulia)). ulia.
Qed.

(** * Writing a word of the packet *)
Lemma wsum_insert k b x y x0 y0 :
  b !! (2 * k)%nat = Some x0 → b !! S (2 * k) = Some y0 →
  wsum (<[S (2 * k) := y]> (<[(2 * k)%nat := x]> b)) =
  wsum b - be16 x0 y0 + be16 x y.
Proof.
  revert k. induction b as [|z|z w r IH] using words_ind; intros k Hx Hy.
  - done.
  - by rewrite lookup_cons_ne_0, lookup_nil in Hy.
  - destruct k as [|k].
    + cbn in *. simplify_eq. lia.
    + replace (2 * S k)%nat with (S (S (2 * k))) in * by lia.
      change (<[S (S (S (2 * k))) := y]> (<[S (S (2 * k)) := x]> (z :: w :: r)))
        with (z :: w :: <[S (2 * k) := y]> (<[(2 * k)%nat := x]> r)).
      cbn [wsum]. rewrite (IH k) by done. lia.
Qed.

Lemma wsum_write16 b o v b' w :
  Z.Even o → write16 b o v = Ret b' → read16 b o = Ret w →
  wsum b' = wsum b - w + u16 v.
Proof.
  intros [k ->] (Ho & Hl & ->)%write16_Ret (_ & x & y & Hx & Hy & ->)%read16_Ret.
  replace (Z.to_nat (2 * k)) with (2 * Z.to_nat k)%nat in * by lia.
  rewrite (wsum_insert _ _ _ _ x y) by done. by rewrite be16_split_u16.
Qed.

Lemma sum_fits_write16 b o v b' :
  write16 b o v = Ret b' → sum_fits b → sum_fits b'.
Proof. unfold sum_fits. by intros ->%zlen_write16. Qed.

(** Clearing the checksum field, computing the checksum and storing it there
    gives a packet that verifies: the way every header of the stack is
    finished. *)
Lemma Checksum_filled b o b0 b1 i :
  bytes_ok b → sum_fits b → is_u16 i → Z.Even o →
  write16 b o 0 = Ret b0 → write16 b0 o (Checksum b0 i) = Ret b1 →
  Checksum b1 i = 0.
Proof.
  intros Hb Hf Hi He H0 H1.
  pose proof (bytes_ok_write16 _ _ _ _ Hb H0) as Hb0.
  pose proof (sum_fits_write16 _ _ _ _ H0 Hf) as Hf0.
  pose proof (bytes_ok_write16 _ _ _ _ Hb0 H1) as Hb1.
  pose proof (sum_fits_write16 _ _ _ _ H1 Hf0) as Hf1.
  pose proof (read16_write16_same _ _ _ _ H0) as R0.
  change (u16 0) with 0 in R0.
  pose proof (wsum_write16 _ _ _ _ _ He H1 R0) as E.
  rewrite u16_id in E by (apply Checksum_range; done).
  rewrite (Checksum_norm b0) in E by done. rewrite Checksum_norm, E by done.
  pose proof (wsum_bound b0 Hb0) as B.
  destruct (norm_eq (i + wsum b0)) as (k & Hk & Ek); [ulia|].
  replace (i + (wsum b0 - 0 + (65535 - norm (i + wsum b0)))) with (65535 + k * 65535) by lia.
  rewrite norm_add_mul by lia. reflexivity.
Qed.

(** * Chaining *)
Lemma Checksum_app a b i :
  bytes_ok a → bytes_ok b → sum_fits (a ++ b) → is_u16 i → Z.Even (zlen a) →
  Checksum b (not16 (Checksum a i)) = Checksum (a ++ b) i.
Proof.
  intros Ha Hb Hf Hi He. unfold sum_fits in Hf. rewrite zlen_app in Hf.
  pose proof (zlen_nonneg a). pose proof (zlen_nonneg b).
  pose proof (Checksum_range a i Ha ltac:(unfold sum_fits; lia) Hi).
  pose proof (wsum_bound a Ha). pose proof (wsum_bound b Hb).
  rewrite Checksum_norm; [|done|unfold sum_fits; lia|unfold not16; ulia].
  rewrite (Checksum_norm (a ++ b)); [|by apply Forall_app|unfold sum_fits; rewrite zlen_app; lia|done].
  rewrite (Checksum_norm a); [|done|unfold sum_fits; lia|done].
  unfold not16. replace (65535 - (65535 - norm (i + wsum a))) with (norm (i + wsum a)) by lia.
  rewrite norm_norm_add by ulia. rewrite wsum_app by done. do 2 f_equal. lia.
Qed.

(** The pseudo header of RFC 793/768 as bytes. *)
Definition pseudo_header (proto src dst totalLen : Z) : bytes :=
  To4 src ++ To4 dst ++ [0; u8 proto; u8 (totalLen / 256); u8 totalLen].

Lemma bytes_ok_pseudo_header p s d n : bytes_ok (pseudo_header p s d n).
Proof.
  unfold pseudo_header. rewrite !Forall_app. split; [apply bytes_ok_To4|].
  split; [apply bytes_ok_To4|].
  repeat constructor; try lia; apply Z.mod_pos_bound; lia.
Qed.

Lemma PseudoHeaderChecksum_range p s d n : is_u16 (PseudoHeaderChecksum p s d n).
Proof.
  unfold PseudoHeaderChecksum, not16.
  pose proof (Checksum_range (pseudo_header p s d n) 0
    (bytes_ok_pseudo_header _ _ _ _) ltac:(done) ltac:(done)) as H.
  unfold pseudo_header in H. ulia.
Qed.

Lemma Checksum_pseudo p s d n b :
  bytes_ok b → zlen b ≤ 131056 →
  Checksum b (PseudoHeaderChecksum p s d n) = Checksum (pseudo_header p s d n ++ b) 0.
Proof.
  intros Hb Hl. rewrite <- Checksum_app; try done.
  - apply bytes_ok_pseudo_header.
  - unfold sum_fits. rewrite zlen_app. change (zlen (pseudo_header p s d n)) with 12. lia.
  - by exists 6.
Qed.

(** * Error detection *)
Lemma norm_max_iff s : 0 ≤ s → norm s = 65535 ↔ (0 < s ∧ s mod 65535 = 0).
Proof.
  intros Hs. destruct (norm_eq s Hs) as (k & Hk & E).
  pose proof (norm_range s Hs). split.
  - intros Hn. split; [lia|]. rewrite E, Hn.
    replace (65535 + k * 65535) with ((k + 1) * 65535) by lia. by apply Z.mod_mul.
  - intros [Hp Hm]. pose proof (norm_pos s Hp). rewrite E, Z.mod_add in Hm by lia.
    destruct (Z.eq_dec (norm s) 65535); [done|].
    rewrite Z.mod_small in Hm; lia.
Qed.

(** Replacing one aligned 16-bit word of a packet that verifies (checksum
    0 from the given initial value) by another value leaves a packet that no
    longer verifies, the swap of 0x0000 and 0xffff excepted. *)
Theorem Checksum_detects_word b o v b' w i :
  bytes_ok b → sum_fits b → is_u16 i → is_u16 v → Z.Even o →
  read16 b o = Ret w → write16 b o v = Ret b' →
  Checksum b i = 0 → v ≠ w → Z.abs (v - w) ≠ 65535 →
  Checksum b' i ≠ 0.
Proof.
  intros Hb Hf Hi Hv He Hr Hw Hc Hne Habs Hc'.
  pose proof (read16_range _ _ _ Hb Hr) as Hww.
  pose proof (bytes_ok_write16 _ _ _ _ Hb Hw) as Hb'.
  pose proof (wsum_bound b Hb). pose proof (wsum_bound b' Hb').
  rewrite Checksum_norm in Hc by done.
  rewrite Checksum_norm in Hc' by (try done; by eapply sum_fits_write16).
  assert (norm (i + wsum b) = 65535) as N1 by ulia.
  assert (norm (i + wsum b') = 65535) as N2 by ulia.
  apply norm_max_iff in N1 as [_ M1]; [|ulia].
  apply norm_max_iff in N2 as [_ M2]; [|ulia].
  pose proof (wsum_write16 _ _ _ _ _ He Hw Hr) as E. rewrite u16_id in E by done.
  apply Z.mod_divide in M1 as [k1 E1]; [|lia].
  apply Z.mod_divide in M2 as [k2 E2]; [|lia].
  ulia.
Qed.

Lemma Checksum_detects_word_witness :
  Checksum [69; 0; 186; 255] 0 = 0 ∧ Checksum [69; 1; 186; 255] 0 ≠ 0.
Proof.
  split; [reflexivity|].
  refine (Checksum_detects_word [69; 0; 186; 255] 0 (69 * 256 + 1) _ (69 * 256) 0
    _ _ _ _ _ _ _ _ _ _); try reflexivity; try (by exists 0);
    try (by repeat constructor); try (unfold is_u16; lia); lia.
Defined.

(** Passing the pseudo-header checksum as the initial value of [Checksum]
    gives the checksum of the pseudo header followed by the segment, the
    value RFC 793 and RFC 768 define. *)
Theorem Checksum_PseudoHeader_spec p s d n b :
  bytes_ok b → zlen b ≤ 65535 →
  Checksum b (PseudoHeaderChecksum p s d n) =
  Checksum (To4 s ++ To4 d ++ [0; u8 p; u8 (n / 256); u8 n] ++ b) 0.
Proof.
  intros Hb Hl. rewrite Checksum_pseudo by (done || lia).
  unfold pseudo_header. by rewrite <- !app_assoc.
Qed.

Lemma Checksum_PseudoHeader_spec_witness :
  Checksum [1; 2; 3] (PseudoHeaderChecksum 6 (From4 10 0 0 1) (From4 10 0 0 2) 3) =
  Checksum ([10; 0; 0; 1; 10; 0; 0; 2; 0; 6; 0; 3] ++ [1; 2; 3]) 0.
Proof.
  apply (Checksum_PseudoHeader_spec 6 (From4 10 0 0 1) (From4 10 0 0 2) 3 [1; 2; 3]).
  - by repeat constructor.
  - done.
Defined.

(** The comment of [Checksum] says that the result of a previous
    [Checksum] call may be passed as [initial] to accumulate.  It may not:
    the result is complemented, so the chained value differs from the
    checksum of the concatenation; only the un-complemented value chains
    ([Checksum_app]). *)
Theorem Checksum_result_does_not_chain :
  ∃ a b, bytes_ok a ∧ bytes_ok b ∧ Z.Even (zlen a) ∧
    Checksum b (Checksum a 0) ≠ Checksum (a ++ b) 0 ∧
    Checksum b (not16 (Checksum a 0)) = Checksum (a ++ b) 0.
Proof.
  exists [1; 2], [3; 4]. repeat split; try (by repeat constructor).
  by exists 1.
Qed.
