(* ===== verification/Header.v ===== *)
(** [header/ipv4.go], [header/icmp.go] and [header/udp.go]: views of a byte
    slice as a protocol header.  A getter reads a field, a setter returns the
    slice with the field written (in the source the slice is written in
    place), and each panics on a slice too short for the field. *)
From S2P Require Import Prelude.
From S2P Require Import Tcpip.
From S2P Require Import Checksum.

(** * IPv4 *)
Module IPv4.

Definition IPv4MinHeaderSize : Z := 20.
Definition IPv4Version : Z := 4.
Definition IPv4FlagMoreFragments : Z := 1.
Definition IPv4FlagDontFragment : Z := 2.

Definition ipv4VersionIHL : Z := 0.
Definition ipv4TOS : Z := 1.
Definition ipv4TotalLength : Z := 2.
Definition ipv4ID : Z := 4.
Definition ipv4FlagsFragment : Z := 6.
Definition ipv4TTL : Z := 8.
Definition ipv4Protocol : Z := 9.
Definition ipv4Checksum : Z := 10.
Definition ipv4SrcAddr : Z := 12.
Definition ipv4DstAddr : Z := 16.

Record IPv4Fields := mkIPv4Fields {
  fTOS : Z;
  fTotalLength : Z;
  fID : Z;
  fFlags : Z;
  fFragmentOffset : Z;
  fTTL : Z;
  fProtocol : Z;
  fChecksum : Z;
  fSrcAddr : Address;
  fDstAddr : Address }.

Definition HeaderLength (b : bytes) : outcome Z :=
  x ← get b ipv4VersionIHL; Ret (Z.land x 15 * 4).
Definition TotalLength (b : bytes) : outcome Z := read16 b ipv4TotalLength.
Definition Protocol (b : bytes) : outcome Z := get b ipv4Protocol.
Definition SourceAddress (b : bytes) : outcome Address := read32 b ipv4SrcAddr.
Definition DestinationAddress (b : bytes) : outcome Address := read32 b ipv4DstAddr.
Definition TTL (b : bytes) : outcome Z := get b ipv4TTL.
Definition HChecksum (b : bytes) : outcome Z := read16 b ipv4Checksum.
Definition ID (b : bytes) : outcome Z := read16 b ipv4ID.
Definition Flags (b : bytes) : outcome Z :=
  x ← get b ipv4FlagsFragment; Ret (Z.shiftr x 5).
Definition More (b : bytes) : outcome bool :=
  f ← Flags b; Ret (negb (Z.land f IPv4FlagMoreFragments =? 0)).
Definition FragmentOffset (b : bytes) : outcome Z :=
  x ← read16 b ipv4FlagsFragment; Ret (Z.land x 8191).
Definition TOS (b : bytes) : outcome Z := get b ipv4TOS.

Definition SetTotalLength (b : bytes) (length : Z) := write16 b ipv4TotalLength length.
Definition SetProtocol (b : bytes) (proto : Z) := put b ipv4Protocol (u8 proto).
Definition SetSourceAddress (b : bytes) (addr : Address) := write32 b ipv4SrcAddr addr.
Definition SetDestinationAddress (b : bytes) (addr : Address) := write32 b ipv4DstAddr addr.
Definition SetTTL (b : bytes) (ttl : Z) := put b ipv4TTL ttl.
Definition SetChecksum (b : bytes) (v : Z) := write16 b ipv4Checksum v.
Definition SetID (b : bytes) (id : Z) := write16 b ipv4ID id.
Definition SetFlags (b : bytes) (flags : Z) : outcome bytes :=
  x ← get b ipv4FlagsFragment;
  put b ipv4FlagsFragment (Z.lor (u8 (Z.shiftl flags 5)) (Z.land x 31)).

Definition flagsFrag (flags offset : Z) : Z :=
  Z.lor (u16 (Z.shiftl flags 13)) (Z.land offset 8191).
Definition SetFlagsFragmentOffset (b : bytes) (flags offset : Z) : outcome bytes :=
  write16 b ipv4FlagsFragment (flagsFrag flags offset).

Definition Encode (b : bytes) (f : IPv4Fields) : outcome bytes :=
  b ← put b ipv4VersionIHL (Z.lor (Z.shiftl IPv4Version 4) 5);
  b ← put b ipv4TOS (fTOS f);
  b ← write16 b ipv4TotalLength (fTotalLength f);
  b ← write16 b ipv4ID (fID f);
  b ← write16 b ipv4FlagsFragment (flagsFrag (fFlags f) (fFragmentOffset f));
  b ← put b ipv4TTL (fTTL f);
  b ← put b ipv4Protocol (u8 (fProtocol f));
  b ← write16 b ipv4Checksum (fChecksum f);
  b ← write32 b ipv4SrcAddr (fSrcAddr f);
  write32 b ipv4DstAddr (fDstAddr f).

Definition Payload (b : bytes) : outcome bytes :=
  hdrLen ← HeaderLength b; slice_from b hdrLen.

(** Field values that fit their widths. *)
Record fields_ok (f : IPv4Fields) : Prop := {
  ok_tos : is_u8 (fTOS f);
  ok_len : is_u16 (fTotalLength f);
  ok_id : is_u16 (fID f);
  ok_flags : 0 ≤ fFlags f < 8;
  ok_off : 0 ≤ fFragmentOffset f < 8192;
  ok_ttl : is_u8 (fTTL f);
  ok_proto : is_u8 (fProtocol f);
  ok_csum : is_u16 (fChecksum f);
  ok_src : is_u32 (fSrcAddr f);
  ok_dst : is_u32 (fDstAddr f) }.

(** What reading every field of a header gives. *)
Definition Decode (b : bytes) : outcome IPv4Fields :=
  tos ← TOS b; len ← TotalLength b; id ← ID b; fl ← Flags b;
  off ← FragmentOffset b; ttl ← TTL b; proto ← Protocol b; cs ← HChecksum b;
  src ← SourceAddress b; dst ← DestinationAddress b;
  Ret (mkIPv4Fields tos len id fl off ttl proto cs src dst).

Lemma flagsFrag_val fl off :
  0 ≤ fl < 8 → 0 ≤ off < 8192 → flagsFrag fl off = fl * 8192 + off.
Proof.
  intros. unfold flagsFrag. rewrite shiftl_mul by lia. change (2 ^ 13) with 8192.
  rewrite u16_id by ulia.
  change 8191 with (2 ^ 13 - 1). rewrite land_low, Z.mod_small by lia.
  apply (lor_add 13); [lia|by exists fl|lia].
Qed.

Lemma flagsFrag_flags fl off :
  0 ≤ fl < 8 → 0 ≤ off < 8192 → Z.shiftr (u8 (flagsFrag fl off / 256)) 5 = fl.
Proof.
  intros. rewrite flagsFrag_val, shiftr_div by lia. change (2 ^ 5) with 32.
  rewrite u8_id.
  - rewrite Z.div_div by lia. change (256 * 32) with 8192.
    rewrite Z.div_add_l, (Z.div_small off) by lia. lia.
  - unfold is_u8. split; [apply Z.div_pos|apply Z.div_lt_upper_bound]; lia.
Qed.

Lemma flagsFrag_offset fl off :
  0 ≤ fl < 8 → 0 ≤ off < 8192 → Z.land (u16 (flagsFrag fl off)) 8191 = off.
Proof.
  intros. rewrite flagsFrag_val by lia. rewrite u16_id by ulia.
  change 8191 with (2 ^ 13 - 1). rewrite land_low by lia. change (2 ^ 13) with 8192.
  rewrite Z.add_comm, Z.mod_add, Z.mod_small; lia.
Qed.

(** [Encode] followed by the getters gives back every field of the
    header, for field values that fit their widths (3-bit flags, 13-bit
    fragment offset); the header has version 4 and length 20, and no byte
    after it changes. *)
Theorem ipv4_Encode_Decode b f :
  20 ≤ zlen b → fields_ok f →
  ∃ b', Encode b f = Ret b' ∧ Decode b' = Ret f ∧
        HeaderLength b' = Ret 20 ∧ get b' 0 = Ret 69 ∧ zlen b' = zlen b ∧
        Payload b' = Ret (zdrop 20 b).
Proof.
  intros Hl []. destruct f as [tos len id fl off ttl proto cs src dst]; cbn in *.
  explode b. eexists. split; [by run_bytes|]. split; [|done].
  run_bytes. fold (flagsFrag fl off).
  rewrite (be16_split_u16 (flagsFrag _ _)), flagsFrag_flags, flagsFrag_offset by done.
  autorewrite with fields.
  done.
Qed.

Lemma ipv4_Encode_Decode_witness :
  let f := mkIPv4Fields 0 1500 7 1 185 64 6 0 (From4 10 0 0 1) (From4 10 0 0 2) in
  ∃ b', Encode (make_bytes 24) f = Ret b' ∧ Decode b' = Ret f ∧
        HeaderLength b' = Ret 20 ∧ get b' 0 = Ret 69 ∧ zlen b' = zlen (make_bytes 24) ∧
        Payload b' = Ret (zdrop 20 (make_bytes 24)).
Proof.
  apply ipv4_Encode_Decode; [vm_compute; discriminate|].
  split; vm_compute; split; congruence.
Defined.

End IPv4.

(** * ICMPv4 *)
Module ICMPv4.

Definition ICMPv4HeaderSize : Z := 8.
Definition icmpv4Type : Z := 0.
Definition icmpv4Code : Z := 1.
Definition icmpv4Checksum : Z := 2.
Definition icmpv4Ident : Z := 4.
Definition icmpv4Sequence : Z := 6.

Definition ICMPv4EchoReply : Z := 0.
Definition ICMPv4DstUnreachable : Z := 3.
Definition ICMPv4Echo : Z := 8.
Definition ICMPv4TimeExceeded : Z := 11.

Record ICMPv4Fields := mkICMPv4Fields {
  fType : Z; fCode : Z; fChecksum : Z; fIdent : Z; fSequence : Z }.

Definition Type_ (b : bytes) : outcome Z := get b icmpv4Type.
Definition Code (b : bytes) : outcome Z := get b icmpv4Code.
Definition HChecksum (b : bytes) : outcome Z := read16 b icmpv4Checksum.
Definition Ident (b : bytes) : outcome Z := read16 b icmpv4Ident.
Definition Sequence (b : bytes) : outcome Z := read16 b icmpv4Sequence.

Definition SetType (b : bytes) (typ : Z) := put b icmpv4Type typ.
Definition SetCode (b : bytes) (code : Z) := put b icmpv4Code code.
Definition SetChecksum (b : bytes) (v : Z) := write16 b icmpv4Checksum v.
Definition SetIdent (b : bytes) (id : Z) := write16 b icmpv4Ident id.
Definition SetSequence (b : bytes) (seq : Z) := write16 b icmpv4Sequence seq.
Definition Payload (b : bytes) : outcome bytes := slice_from b ICMPv4HeaderSize.

Definition Encode (b : bytes) (f : ICMPv4Fields) : outcome bytes :=
  b ← put b icmpv4Type (fType f);
  b ← put b icmpv4Code (fCode f);
  b ← write16 b icmpv4Checksum (fChecksum f);
  b ← write16 b icmpv4Ident (fIdent f);
  write16 b icmpv4Sequence (fSequence f).

Definition Decode (b : bytes) : outcome ICMPv4Fields :=
  t ← Type_ b; c ← Code b; k ← HChecksum b; i ← Ident b; s ← Sequence b;
  Ret (mkICMPv4Fields t c k i s).

Record fields_ok (f : ICMPv4Fields) : Prop := {
  ok_type : is_u8 (fType f); ok_code : is_u8 (fCode f);
  ok_csum : is_u16 (fChecksum f); ok_ident : is_u16 (fIdent f);
  ok_seq : is_u16 (fSequence f) }.

Lemma icmpv4_Encode_Decode b f :
  8 ≤ zlen b → fields_ok f →
  ∃ b', Encode b f = Ret b' ∧ Decode b' = Ret f ∧ zlen b' = zlen b ∧
        Payload b' = Ret (zdrop 8 b).
Proof.
  intros Hl []. destruct f; cbn in *. explode b.
  eexists. split; [by run_bytes|]. split; [|done].
  run_bytes. by autorewrite with fields.
Qed.

End ICMPv4.

(** * UDP *)
Module UDP.

Definition UDPHeaderSize : Z := 8.
Definition udpSrcPort : Z := 0.
Definition udpDstPort : Z := 2.
Definition udpLength : Z := 4.
Definition udpChecksum : Z := 6.

Record UDPFields := mkUDPFields {
  fSrcPort : Z; fDstPort : Z; fLength : Z; fChecksum : Z }.

Definition SourcePort (b : bytes) : outcome Z := read16 b udpSrcPort.
Definition DestinationPort (b : bytes) : outcome Z := read16 b udpDstPort.
Definition Length (b : bytes) : outcome Z := read16 b udpLength.
Definition HChecksum (b : bytes) : outcome Z := read16 b udpChecksum.

Definition SetSourcePort (b : bytes) (port : Z) := write16 b udpSrcPort port.
Definition SetDestinationPort (b : bytes) (port : Z) := write16 b udpDstPort port.
Definition SetLength (b : bytes) (length : Z) := write16 b udpLength length.
Definition SetChecksum (b : bytes) (v : Z) := write16 b udpChecksum v.
Definition Payload (b : bytes) : outcome bytes := slice_from b UDPHeaderSize.

Definition Encode (b : bytes) (f : UDPFields) : outcome bytes :=
  b ← write16 b udpSrcPort (fSrcPort f);
  b ← write16 b udpDstPort (fDstPort f);
  b ← write16 b udpLength (fLength f);
  write16 b udpChecksum (fChecksum f).

Definition Decode (b : bytes) : outcome UDPFields :=
  s ← SourcePort b; d ← DestinationPort b; l ← Length b; c ← HChecksum b;
  Ret (mkUDPFields s d l c).

Record fields_ok (f : UDPFields) : Prop := {
  ok_src : is_u16 (fSrcPort f); ok_dst : is_u16 (fDstPort f);
  ok_len : is_u16 (fLength f); ok_csum : is_u16 (fChecksum f) }.

Lemma udp_Encode_Decode b f :
  8 ≤ zlen b → fields_ok f →
  ∃ b', Encode b f = Ret b' ∧ Decode b' = Ret f ∧ zlen b' = zlen b ∧
        Payload b' = Ret (zdrop 8 b).
Proof.
  intros Hl []. destruct f; cbn in *. explode b.
  eexists. split; [by run_bytes|]. split; [|done].
  run_bytes. by autorewrite with fields.
Qed.

End UDP.
