(* ===== verification/TcpHeader.v ===== *)
(** [header/tcp.go]: the TCP header, its flags, and the TCP options: MSS,
    window scale, SACK permitted, timestamps and SACK blocks, parsed from and
    written to raw option bytes. *)
From S2P Require Import Prelude.
From S2P Require Import Tcpip.
From S2P Require Import Checksum.
From S2P Require Import Header.

Definition TCPMinHeaderSize : Z := 20.
Definition TCPMaxHeaderSize : Z := 60.

Definition TCPOptionEOL : Z := 0.
Definition TCPOptionNOP : Z := 1.
Definition TCPOptionMSS : Z := 2.
Definition TCPOptionWS : Z := 3.
Definition TCPOptionSACKPermitted : Z := 4.
Definition TCPOptionSACK : Z := 5.
Definition TCPOptionTS : Z := 8.

Definition TCPOptionMSSLength : Z := 4.
Definition TCPOptionWSLength : Z := 3.
Definition TCPOptionSACKPermittedLength : Z := 2.
Definition TCPOptionTSLength : Z := 10.
Definition MaxWndScale : Z := 14.
Definition TCPMaxSACKBlocks : Z := 4.

(** * Flags *)
Definition TCPFlagFIN : Z := 1.
Definition TCPFlagSYN : Z := 2.
Definition TCPFlagRST : Z := 4.
Definition TCPFlagPSH : Z := 8.
Definition TCPFlagACK : Z := 16.
Definition TCPFlagURG : Z := 32.

Definition Has (f mask : Z) : bool := Z.land f mask =? mask.
Definition Contains (f mask : Z) : bool := Has f mask.

Fixpoint join_bar (parts : list string) : string :=
  match parts with
  | [] => EmptyString
  | [p] => p
  | p :: r => (p +:+ "|" +:+ join_bar r)%string
  end.

Definition TCPFlags_String (f : Z) : string :=
  let parts :=
    (if Has f TCPFlagFIN then ["FIN"%string] else []) ++
    (if Has f TCPFlagSYN then ["SYN"%string] else []) ++
    (if Has f TCPFlagRST then ["RST"%string] else []) ++
    (if Has f TCPFlagPSH then ["PSH"%string] else []) ++
    (if Has f TCPFlagACK then ["ACK"%string] else []) ++
    (if Has f TCPFlagURG then ["URG"%string] else []) in
  match parts with [] => "none"%string | _ => join_bar parts end.

Example TCPFlags_String_synack : TCPFlags_String 18 = "SYN|ACK"%string.
Proof. reflexivity. Qed.

(** * Header fields *)
Module TCP.

Definition tcpSrcPort : Z := 0.
Definition tcpDstPort : Z := 2.
Definition tcpSeqNum : Z := 4.
Definition tcpAckNum : Z := 8.
Definition tcpDataOffset : Z := 12.
Definition tcpFlags : Z := 13.
Definition tcpWindowSize : Z := 14.
Definition tcpChecksum : Z := 16.
Definition tcpUrgentPointer : Z := 18.

Record TCPFields := mkTCPFields {
  fSrcPort : Z;
  fDstPort : Z;
  fSeqNum : Z;
  fAckNum : Z;
  fDataOffset : Z; (* in 32-bit words *)
  fFlags : Z;
  fWindowSize : Z;
  fChecksum : Z;
  fUrgentPointer : Z }.

Definition SourcePort (b : bytes) : outcome Z := read16 b tcpSrcPort.
Definition DestinationPort (b : bytes) : outcome Z := read16 b tcpDstPort.
Definition SequenceNumber (b : bytes) : outcome Z := read32 b tcpSeqNum.
Definition AckNumber (b : bytes) : outcome Z := read32 b tcpAckNum.
Definition DataOffset (b : bytes) : outcome Z :=
  x ← get b tcpDataOffset; Ret (u8 (Z.shiftr x 4 * 4)).
Definition Flags (b : bytes) : outcome Z :=
  x ← get b tcpFlags; Ret (Z.land x 63).
Definition WindowSize (b : bytes) : outcome Z := read16 b tcpWindowSize.
Definition HChecksum (b : bytes) : outcome Z := read16 b tcpChecksum.
Definition UrgentPointer (b : bytes) : outcome Z := read16 b tcpUrgentPointer.

Definition SetSourcePort (b : bytes) (port : Z) := write16 b tcpSrcPort port.
Definition SetDestinationPort (b : bytes) (port : Z) := write16 b tcpDstPort port.
Definition SetChecksum (b : bytes) (v : Z) := write16 b tcpChecksum v.

Definition Payload (b : bytes) : outcome bytes :=
  offset ← DataOffset b; slice_from b offset.

(** [nil] and an empty slice are both the empty list. *)
Definition Options (b : bytes) : outcome bytes :=
  offset ← DataOffset b;
  if (offset <=? TCPMinHeaderSize) || (offset >? zlen b) then Ret []
  else slice b TCPMinHeaderSize offset.

Definition Encode (b : bytes) (f : TCPFields) : outcome bytes :=
  b ← write16 b tcpSrcPort (fSrcPort f);
  b ← write16 b tcpDstPort (fDstPort f);
  b ← write32 b tcpSeqNum (fSeqNum f);
  b ← write32 b tcpAckNum (fAckNum f);
  b ← put b tcpDataOffset (u8 (Z.shiftl (fDataOffset f) 4));
  b ← put b tcpFlags (u8 (fFlags f));
  b ← write16 b tcpWindowSize (fWindowSize f);
  b ← write16 b tcpChecksum (fChecksum f);
  write16 b tcpUrgentPointer (fUrgentPointer f).

(** Every field read back, the data offset in 32-bit words as in
    [TCPFields]. *)
Definition Decode (b : bytes) : outcome TCPFields :=
  s ← SourcePort b; d ← DestinationPort b; q ← SequenceNumber b;
  a ← AckNumber b; o ← DataOffset b; f ← Flags b; w ← WindowSize b;
  c ← HChecksum b; u ← UrgentPointer b;
  Ret (mkTCPFields s d q a (o / 4) f w c u).

Record fields_ok (f : TCPFields) : Prop := {
  ok_src : is_u16 (fSrcPort f); ok_dst : is_u16 (fDstPort f);
  ok_seq : is_u32 (fSeqNum f); ok_ack : is_u32 (fAckNum f);
  ok_off : 0 ≤ fDataOffset f < 16; ok_flags : 0 ≤ fFlags f < 64;
  ok_wnd : is_u16 (fWindowSize f); ok_csum : is_u16 (fChecksum f);
  ok_urg : is_u16 (fUrgentPointer f) }.

(** The twenty bytes [Encode] writes. *)
Definition hdr_bytes (f : TCPFields) : bytes :=
  [u8 (fSrcPort f / 256); u8 (fSrcPort f);
   u8 (fDstPort f / 256); u8 (fDstPort f);
   u8 (fSeqNum f / 16777216); u8 (fSeqNum f / 65536); u8 (fSeqNum f / 256); u8 (fSeqNum f);
   u8 (fAckNum f / 16777216); u8 (fAckNum f / 65536); u8 (fAckNum f / 256); u8 (fAckNum f);
   u8 (Z.shiftl (fDataOffset f) 4); u8 (fFlags f);
   u8 (fWindowSize f / 256); u8 (fWindowSize f);
   u8 (fChecksum f / 256); u8 (fChecksum f);
   u8 (fUrgentPointer f / 256); u8 (fUrgentPointer f)].

Lemma Encode_val b f : 20 ≤ zlen b → Encode b f = Ret (hdr_bytes f ++ zdrop 20 b).
Proof. intros Hl. explode b. destruct f. by run_bytes. Qed.

Lemma data_offset_val o : 0 ≤ o < 16 → u8 (Z.shiftr (u8 (Z.shiftl o 4)) 4 * 4) = o * 4.
Proof.
  intros. rewrite shiftl_mul by lia. rewrite (u8_id (o * 2 ^ 4)) by ulia.
  rewrite shiftr_div, Z.div_mul by lia. apply u8_id. ulia.
Qed.

(** The getters on the bytes [Encode] writes. *)
Lemma Encode_Decode_hdr f rest :
  fields_ok f →
  Decode (hdr_bytes f ++ rest) = Ret f ∧ DataOffset (hdr_bytes f ++ rest) = Ret (fDataOffset f * 4).
Proof.
  intros []. destruct f as [s d q a o fl w c u]; cbn in *.
  assert (Z.land (u8 fl) 63 = fl).
  { change 63 with (2 ^ 6 - 1). rewrite u8_id, land_low, Z.mod_small by ulia. done. }
  split; run_bytes; rewrite data_offset_val by done; [|done].
  autorewrite with fields. rewrite u8_id in * by ulia.
  rewrite Z.div_mul by lia. congruence.
Qed.

(** [Encode] followed by the getters gives back every field of a TCP
    header whose values fit their widths (4-bit data offset, 6 flag bits);
    the bytes after the fixed header (options and payload) are kept. *)
Theorem tcp_Encode_Decode b f :
  20 ≤ zlen b → fields_ok f →
  ∃ b', Encode b f = Ret b' ∧ Decode b' = Ret f ∧ zdrop 20 b' = zdrop 20 b ∧
        DataOffset b' = Ret (fDataOffset f * 4).
Proof.
  intros Hl Hok. rewrite Encode_val by done. eexists. split; [done|].
  destruct (Encode_Decode_hdr f (zdrop 20 b) Hok) as [-> ->]. done.
Qed.

Lemma tcp_Encode_Decode_witness :
  let f := mkTCPFields 80 40000 4294967295 17 8 18 65535 4660 0 in
  ∃ b', Encode (make_bytes 32) f = Ret b' ∧ Decode b' = Ret f ∧
        zdrop 20 b' = zdrop 20 (make_bytes 32) ∧ DataOffset b' = Ret 32.
Proof.
  apply (tcp_Encode_Decode (make_bytes 32)
    (mkTCPFields 80 40000 4294967295 17 8 18 65535 4660 0)).
  - vm_compute; discriminate.
  - split; vm_compute; split; congruence.
Defined.

End TCP.

(** * Options *)
Record SACKBlock := mkSACKBlock { Start : Z; End_ : Z }.
#[export] Instance SACKBlock_eq_dec : EqDecision SACKBlock.
Proof. solve_decision. Defined.

Record SynOptions := mkSynOptions {
  soMSS : Z;         (* 0 if not present *)
  soWS : Z;          (* -1 if not present *)
  soSACKPermit : bool;
  soTSEnabled : bool;
  soTSVal : Z }.
#[export] Instance SynOptions_rebuild : Rebuild SynOptions := λ o,
  mkSynOptions (soMSS o) (soWS o) (soSACKPermit o) (soTSEnabled o) (soTSVal o).

Record SegmentOptions := mkSegmentOptions {
  sgSACKBlocks : list SACKBlock;
  sgTSEnabled : bool;
  sgTSVal : Z;
  sgTSecr : Z }.
#[export] Instance SegmentOptions_rebuild : Rebuild SegmentOptions := λ o,
  mkSegmentOptions (sgSACKBlocks o) (sgTSEnabled o) (sgTSVal o) (sgTSecr o).

(** The [switch opts[i]] of [ParseSynOptions] for an option with kind [k]
    and length [optLen] at index [i]. *)
Definition synOption (opts : bytes) (i k optLen : Z) (so : SynOptions) : outcome SynOptions :=
  if k =? TCPOptionMSS then
    if optLen =? TCPOptionMSSLength
    then v ← read16 opts (i + 2); Ret (so <| soMSS := v |>) else Ret so
  else if k =? TCPOptionWS then
    if optLen =? TCPOptionWSLength
    then v ← get opts (i + 2); Ret (so <| soWS := Z.min v MaxWndScale |>) else Ret so
  else if k =? TCPOptionSACKPermitted then
    if optLen =? TCPOptionSACKPermittedLength
    then Ret (so <| soSACKPermit := true |>) else Ret so
  else if k =? TCPOptionTS then
    if optLen =? TCPOptionTSLength
    then v ← read32 opts (i + 2);
         Ret (so <| soTSEnabled := true |> <| soTSVal := v |>)
    else Ret so
  else Ret so.

(** The SACK blocks of an option at index [i]: [for j := range numBlocks]. *)
Fixpoint readSACKBlocks (opts : bytes) (off : Z) (n : nat) : outcome (list SACKBlock) :=
  match n with
  | O => Ret []
  | S n =>
      s ← read32 opts off; e ← read32 opts (off + 4);
      r ← readSACKBlocks opts (off + 8) n;
      Ret (mkSACKBlock s e :: r)
  end.

Definition segmentOption (opts : bytes) (i k optLen : Z) (so : SegmentOptions) :
    outcome SegmentOptions :=
  if k =? TCPOptionSACK then
    let payload := optLen - 2 in
    if payload mod 8 =? 0 then
      let numBlocks := Z.min (payload / 8) TCPMaxSACKBlocks in
      bs ← readSACKBlocks opts (i + 2) (Z.to_nat numBlocks);
      Ret (so <| sgSACKBlocks := bs |>)
    else Ret so
  else if k =? TCPOptionTS then
    if optLen =? TCPOptionTSLength
    then v ← read32 opts (i + 2); e ← read32 opts (i + 6);
         Ret (so <| sgTSEnabled := true |> <| sgTSVal := v |> <| sgTSecr := e |>)
    else Ret so
  else Ret so.

(** The loop shared by [ParseSynOptions] and [ParseSegmentOptions], which
    differ in the option handler only.  Every round advances [i], so
    [S (length opts)] rounds suffice ([parse_returns]). *)
Fixpoint parseLoop {O : Type} (handle : bytes → Z → Z → Z → O → outcome O)
    (fuel : nat) (opts : bytes) (i : Z) (so : O) : outcome O :=
  match fuel with
  | O => OutOfFuel
  | S fuel =>
      if i <? zlen opts then
        k ← get opts i;
        if k =? TCPOptionEOL then Ret so
        else if k =? TCPOptionNOP then parseLoop handle fuel opts (i + 1) so
        else if i + 1 >=? zlen opts then Ret so
        else
          optLen ← get opts (i + 1);
          if (optLen <? 2) || (i + optLen >? zlen opts) then Ret so
          else
            so' ← handle opts i k optLen so;
            parseLoop handle fuel opts (i + optLen) so'
      else Ret so
  end.

Definition ParseSynOptions (opts : bytes) : outcome SynOptions :=
  parseLoop synOption (S (length opts)) opts 0 (mkSynOptions 0 (-1) false false 0).

Definition ParseSegmentOptions (opts : bytes) : outcome SegmentOptions :=
  parseLoop segmentOption (S (length opts)) opts 0 (mkSegmentOptions [] false 0 0).

(** Encoders write at the front of [buf] and return the count. *)
Definition EncodeMSSOption (buf : bytes) (mss : Z) : outcome (bytes * Z) :=
  if zlen buf <? TCPOptionMSSLength then Ret (buf, 0) else
  buf ← put buf 0 TCPOptionMSS;
  buf ← put buf 1 TCPOptionMSSLength;
  buf ← write16 buf 2 mss;
  Ret (buf, TCPOptionMSSLength).

Definition EncodeWSOption (buf : bytes) (ws : Z) : outcome (bytes * Z) :=
  if zlen buf <? TCPOptionWSLength then Ret (buf, 0) else
  buf ← put buf 0 TCPOptionWS;
  buf ← put buf 1 TCPOptionWSLength;
  buf ← put buf 2 (u8 ws);
  Ret (buf, TCPOptionWSLength).

Definition EncodeSACKPermittedOption (buf : bytes) : outcome (bytes * Z) :=
  if zlen buf <? TCPOptionSACKPermittedLength then Ret (buf, 0) else
  buf ← put buf 0 TCPOptionSACKPermitted;
  buf ← put buf 1 TCPOptionSACKPermittedLength;
  Ret (buf, TCPOptionSACKPermittedLength).

Definition EncodeTimestampOption (buf : bytes) (tsval tsecr : Z) : outcome (bytes * Z) :=
  if zlen buf <? 12 then Ret (buf, 0) else
  buf ← put buf 0 TCPOptionNOP;
  buf ← put buf 1 TCPOptionNOP;
  buf ← put buf 2 TCPOptionTS;
  buf ← put buf 3 TCPOptionTSLength;
  buf ← write32 buf 4 tsval;
  buf ← write32 buf 8 tsecr;
  Ret (buf, 12).

(** [for needed > len(buf) && n > 0 { n-- }]. *)
Fixpoint fitBlocks (n : nat) (buflen : Z) : nat :=
  match n with
  | O => O
  | S m => if 2 + Z.of_nat n * 8 >? buflen then fitBlocks m buflen else n
  end.

Fixpoint writeSACKBlocks (buf : bytes) (off : Z) (blocks : list SACKBlock) : outcome bytes :=
  match blocks with
  | [] => Ret buf
  | b :: r =>
      buf ← write32 buf off (Start b);
      buf ← write32 buf (off + 4) (End_ b);
      writeSACKBlocks buf (off + 8) r
  end.

Definition EncodeSACKBlocks (buf : bytes) (blocks : list SACKBlock) : outcome (bytes * Z) :=
  let n := fitBlocks (Z.to_nat (Z.min (zlen blocks) TCPMaxSACKBlocks)) (zlen buf) in
  let needed := 2 + Z.of_nat n * 8 in
  match n with
  | O => Ret (buf, 0)
  | _ =>
      buf ← put buf 0 TCPOptionSACK;
      buf ← put buf 1 (u8 needed);
      buf ← writeSACKBlocks buf 2 (take n blocks);
      Ret (buf, needed)
  end.

(** * Parsing always returns *)
Section parse.
Context {O : Type} (handle : bytes → Z → Z → Z → O → outcome O).
Context (opts : bytes) (P : O → Prop).
Context (handle_ok : ∀ i k l so, 0 ≤ i → 2 ≤ l → i + l ≤ zlen opts → P so →
  ∃ so', handle opts i k l so = Ret so' ∧ P so').

Lemma parse_returns fuel i so :
  0 ≤ i → zlen opts - i < Z.of_nat fuel → (0 < fuel)%nat → P so →
  ∃ so', parseLoop handle fuel opts i so = Ret so' ∧ P so'.
Proof.
  revert i so. induction fuel as [|fuel IH]; intros i so Hi Hf Hp HP; [lia|].
  cbn [parseLoop]. case_if; [|eauto].
  destruct (get_ok opts i) as [k ->]; [lia|]. cbn.
  case_if; [eauto|]. case_if; [apply IH; (lia || done)|]. case_if; [eauto|].
  destruct (get_ok opts (i + 1)) as [l ->]; [lia|]. cbn.
  case_if; [eauto|].
  destruct (handle_ok i k l so) as (so' & -> & HP'); [lia..|done|]. cbn.
  apply IH; (lia || done).
Qed.
End parse.

Definition syn_ok (so : SynOptions) : Prop :=
  is_u16 (soMSS so) ∧ -1 ≤ soWS so ≤ MaxWndScale ∧ is_u32 (soTSVal so).

Definition block_ok (b : SACKBlock) : Prop := is_u32 (Start b) ∧ is_u32 (End_ b).

Definition seg_ok (so : SegmentOptions) : Prop :=
  zlen (sgSACKBlocks so) ≤ TCPMaxSACKBlocks ∧ Forall block_ok (sgSACKBlocks so) ∧
  is_u32 (sgTSVal so) ∧ is_u32 (sgTSecr so).

Lemma synOption_ok opts i k l so :
  bytes_ok opts → 0 ≤ i → 2 ≤ l → i + l ≤ zlen opts → syn_ok so →
  ∃ so', synOption opts i k l so = Ret so' ∧ syn_ok so'.
Proof.
  intros Hb Hi Hl Hle (Hm & Hw & Ht). unfold synOption.
  repeat case_if; try (eexists; split; [done|unfold syn_ok; cbn; tauto]);
    unfold TCPOptionMSSLength, TCPOptionWSLength, TCPOptionTSLength in *.
  - destruct (read16_ok opts (i + 2)) as [v Hv]; [lia..|]. rewrite Hv. eexists.
    split; [done|]. split; [by eapply read16_range|done].
  - destruct (get_ok opts (i + 2)) as [v Hv]; [lia|]. rewrite Hv. eexists.
    split; [done|]. unfold syn_ok; cbn. split; [done|]. split; [|done].
    apply get_Ret in Hv as [_ Hv]. eapply Forall_lookup_1 in Hv; [|done].
    unfold MaxWndScale. ulia.
  - destruct (read32_ok opts (i + 2)) as [v Hv]; [lia..|]. rewrite Hv. eexists.
    split; [done|]. split; [done|]. split; [done|]. by eapply read32_range.
Qed.

Lemma readSACKBlocks_ok opts off n :
  bytes_ok opts → 0 ≤ off → off + 8 * Z.of_nat n ≤ zlen opts →
  ∃ bs, readSACKBlocks opts off n = Ret bs ∧ length bs = n ∧ Forall block_ok bs.
Proof.
  intros Hb. revert off. induction n as [|n IH]; intros off Ho Hl; cbn [readSACKBlocks].
  { by exists []. }
  destruct (read32_ok opts off) as [s Hs]; [lia..|]. rewrite Hs. cbn.
  destruct (read32_ok opts (off + 4)) as [e He]; [lia..|]. rewrite He. cbn.
  destruct (IH (off + 8)) as (bs & -> & <- & Hbs); [lia..|]. cbn.
  eexists. split; [done|]. split; [done|]. constructor; [|done].
  split; by eapply read32_range.
Qed.

Lemma segmentOption_ok opts i k l so :
  bytes_ok opts → 0 ≤ i → 2 ≤ l → i + l ≤ zlen opts → seg_ok so →
  ∃ so', segmentOption opts i k l so = Ret so' ∧ seg_ok so'.
Proof.
  intros Hb Hi Hl Hle (Hn & Hs & Hv & He). unfold segmentOption. case_if.
  - case_if; [|eexists; split; [done|unfold seg_ok; cbn; tauto]].
    assert (0 ≤ (l - 2) / 8) by (apply Z.div_pos; lia).
    assert (8 * ((l - 2) / 8) ≤ l - 2) by (apply Z.mul_div_le; lia).
    destruct (readSACKBlocks_ok opts (i + 2) (Z.to_nat (Z.min ((l - 2) / 8) TCPMaxSACKBlocks)))
      as (bs & -> & Hlen & Hbs); [done|lia|unfold TCPMaxSACKBlocks; lia|].
    eexists. split; [done|]. unfold seg_ok; cbn. split; [|done].
    unfold zlen, TCPMaxSACKBlocks in *. lia.
  - repeat case_if; try (eexists; split; [done|unfold seg_ok; cbn; tauto]).
    unfold TCPOptionTSLength in *.
    destruct (read32_ok opts (i + 2)) as [v Hv']; [lia..|]. rewrite Hv'. cbn.
    destruct (read32_ok opts (i + 6)) as [e He']; [lia..|]. rewrite He'.
    eexists. split; [done|]. split; [done|]. split; [done|].
    split; by eapply read32_range.
Qed.

Lemma ParseSegmentOptions_total opts : bytes_ok opts → ∃ so, ParseSegmentOptions opts = Ret so ∧ seg_ok so.
Proof.
  intros Hb. apply parse_returns; try (unfold zlen; lia).
  - intros. by apply segmentOption_ok.
  - repeat split; done.
Qed.

(** Option parsing is total: whatever option bytes a peer sends
    (truncated, with zero or oversized lengths, unknown kinds), both parsers
    return without an out-of-range access and within their loop bound, the
    window scale is -1 or at most 14, and at most four SACK blocks come
    back. *)
Theorem parse_options_total opts :
  bytes_ok opts →
  (∃ so, ParseSynOptions opts = Ret so ∧ syn_ok so) ∧
  (∃ so, ParseSegmentOptions opts = Ret so ∧ seg_ok so).
Proof.
  intros Hb. split.
  - apply parse_returns; try (unfold zlen; lia).
    + intros. by apply synOption_ok.
    + repeat split; done.
  - by apply ParseSegmentOptions_total.
Qed.

Lemma parse_options_total_witness :
  (∃ so, ParseSynOptions [3; 3; 200; 2; 4; 5] = Ret so ∧ syn_ok so) ∧
  (∃ so, ParseSegmentOptions [3; 3; 200; 2; 4; 5] = Ret so ∧ seg_ok so).
Proof.
  apply (parse_options_total [3; 3; 200; 2; 4; 5]).
  by repeat (constructor; [vm_compute; split; congruence|]).
Defined.
