(* ===== verification/TcpOptions.v ===== *)
(** The TCP options a connection writes ([TcpHeader], [Segment]): the bytes of
    each, and that the parsers of [header/tcp.go] read them back. *)
From S2P Require Import Prelude.
From S2P Require Import Tcpip.
From S2P Require Import Checksum.
From S2P Require Import Header.
From S2P Require Import TcpHeader.

(** * The bytes of the options *)
Definition be32_bytes (v : Z) : bytes := [u8 (v / 16777216); u8 (v / 65536); u8 (v / 256); u8 v].
Definition mss_opt (mss : Z) : bytes := [2; 4; u8 (mss / 256); u8 mss].
Definition ws_opt (ws : Z) : bytes := [3; 3; u8 ws].
Definition sackperm_opt : bytes := [4; 2].
Definition ts_opt (tsval tsecr : Z) : bytes := [1; 1; 8; 10] ++ be32_bytes tsval ++ be32_bytes tsecr.
Definition block_bytes (b : SACKBlock) : bytes := be32_bytes (Start b) ++ be32_bytes (End_ b).
Definition sack_opt (blocks : list SACKBlock) : bytes :=
  match blocks with
  | [] => []
  | _ => [5; u8 (2 + zlen blocks * 8)] ++ (blocks ≫= block_bytes)
  end.
(** NOPs up to a multiple of four. *)
Definition pad_opt (n : Z) : bytes := replicate (Z.to_nat ((- n) mod 4)) TCPOptionNOP.

Lemma EncodeMSSOption_val buf mss :
  4 ≤ zlen buf → EncodeMSSOption buf mss = Ret (mss_opt mss ++ zdrop 4 buf, 4).
Proof.
  intros H. unfold EncodeMSSOption, TCPOptionMSSLength. case_if; [lia|]. clear Heqb.
  explode buf. reflexivity.
Qed.
Lemma EncodeWSOption_val buf ws :
  3 ≤ zlen buf → EncodeWSOption buf ws = Ret (ws_opt ws ++ zdrop 3 buf, 3).
Proof.
  intros H. unfold EncodeWSOption, TCPOptionWSLength. case_if; [lia|]. clear Heqb.
  explode buf. reflexivity.
Qed.
Lemma EncodeSACKPermittedOption_val buf :
  2 ≤ zlen buf → EncodeSACKPermittedOption buf = Ret (sackperm_opt ++ zdrop 2 buf, 2).
Proof.
  intros H. unfold EncodeSACKPermittedOption, TCPOptionSACKPermittedLength. case_if; [lia|].
  clear Heqb. explode buf. reflexivity.
Qed.
Lemma EncodeTimestampOption_val buf v e :
  12 ≤ zlen buf → EncodeTimestampOption buf v e = Ret (ts_opt v e ++ zdrop 12 buf, 12).
Proof.
  intros H. unfold EncodeTimestampOption. case_if; [lia|]. clear Heqb. explode buf. reflexivity.
Qed.

Lemma fitBlocks_fits n buflen : 2 + Z.of_nat n * 8 ≤ buflen → fitBlocks n buflen = n.
Proof. destruct n; [done|]. intros. cbn [fitBlocks]. case_if; [lia|done]. Qed.

Lemma zlen_sack_opt blocks :
  blocks ≠ [] → zlen (sack_opt blocks) = 2 + zlen blocks * 8.
Proof.
  intros Hb. assert (E : zlen (blocks ≫= block_bytes) = zlen blocks * 8).
  { clear Hb. induction blocks as [|b l IH]; [done|].
    rewrite bind_cons, zlen_app, zlen_cons, IH.
    change (zlen (block_bytes b)) with 8. lia. }
  destruct blocks as [|b l]; [done|]. unfold sack_opt. rewrite zlen_app, E. done.
Qed.

Lemma EncodeSACKBlocks_val buf blocks :
  blocks ≠ [] → zlen blocks ≤ 4 → 2 + zlen blocks * 8 ≤ zlen buf →
  EncodeSACKBlocks buf blocks
    = Ret (sack_opt blocks ++ zdrop (2 + zlen blocks * 8) buf, 2 + zlen blocks * 8).
Proof.
  intros Hb H4 Hl. unfold EncodeSACKBlocks, TCPMaxSACKBlocks.
  pose proof (zlen_nonneg blocks) as H0.
  rewrite Z.min_l, fitBlocks_fits by lia. clear H0.
  destruct blocks as [|b1 [|b2 [|b3 [|b4 [|b5 l]]]]]; try done;
    try (exfalso; rewrite !zlen_cons in H4; pose proof (zlen_nonneg l); lia);
    clear H4;
    match type of Hl with
    | ?n ≤ _ => let k := eval vm_compute in n in change (k ≤ zlen buf) in Hl
    end; explode buf; reflexivity.
Qed.

(** * Reading them back *)
Definition maybe {A} (b : bool) (l : list A) : list A := if b then l else [].

(** The options of an ACK, a data segment or a FIN. *)
Definition segment_opts (ts : bool) (tsval tsecr : Z) (blocks : list SACKBlock) : bytes :=
  let w := maybe ts (ts_opt tsval tsecr) ++ sack_opt blocks in w ++ pad_opt (zlen w).

(** The options of a SYN+ACK. *)
Definition synack_opts (mss ws : Z) (sack ts : bool) (tsval tsecr : Z) : bytes :=
  let w := mss_opt mss ++ maybe (ws >? 0) (TCPOptionNOP :: ws_opt ws) ++
           maybe sack sackperm_opt ++ maybe ts (ts_opt tsval tsecr) in
  w ++ pad_opt (zlen w).

Lemma bytes_ok_be32 v : bytes_ok (be32_bytes v).
Proof. repeat apply Forall_cons_2; try apply u8_range; done. Qed.

Lemma bytes_ok_pad n : bytes_ok (pad_opt n).
Proof. unfold pad_opt. apply Forall_replicate. done. Qed.

Lemma bytes_ok_segment_opts ts v e blocks : bytes_ok (segment_opts ts v e blocks).
Proof.
  unfold segment_opts. repeat (apply Forall_app; split); try apply bytes_ok_pad.
  - destruct ts; [|done]. cbn [maybe]. unfold ts_opt.
    repeat (apply Forall_app; split); try apply bytes_ok_be32. by repeat constructor.
  - destruct blocks as [|b l]; [done|]. unfold sack_opt. apply Forall_app; split.
    { repeat apply Forall_cons_2; try apply u8_range; done. }
    apply Forall_bind, Forall_true. intros x. apply Forall_app; split; apply bytes_ok_be32.
Qed.

Lemma zlen_segment_opts (ts : bool) v e blocks :
  zlen blocks ≤ (if ts then 3 else 4) →
  (4 | zlen (segment_opts ts v e blocks)) ∧ zlen (segment_opts ts v e blocks) ≤ 40.
Proof.
  intros H. destruct blocks as [|b1 [|b2 [|b3 [|b4 [|b5 l]]]]];
    try (exfalso; rewrite !zlen_cons in H; pose proof (zlen_nonneg l); destruct ts; lia);
    destruct ts; try (cbn in H; lia); (split; [by apply Z.mod_divide|done]).
Qed.

Lemma be32_bytes_split v :
  is_u32 v → ∃ a b c d, be32_bytes v = [a; b; c; d] ∧ be32 a b c d = v.
Proof. intros H. do 4 eexists. split; [reflexivity|]. by autorewrite with fields. Qed.
Lemma mss_opt_split v : is_u16 v → ∃ a b, mss_opt v = [2; 4; a; b] ∧ be16 a b = v.
Proof. intros H. do 2 eexists. split; [reflexivity|]. by autorewrite with fields. Qed.

(** Name the bytes of the numbers, so that a parser can be evaluated. *)
Ltac name_bytes :=
  repeat match goal with
  | H : is_u32 ?v |- context [be32_bytes ?v] =>
      destruct (be32_bytes_split v H) as (? & ? & ? & ? & -> & ?)
  | H : is_u16 ?v |- context [mss_opt ?v] =>
      destruct (mss_opt_split v H) as (? & ? & -> & ?)
  end.

Lemma segment_opts_parse (ts : bool) tsval tsecr blocks :
  is_u32 tsval → is_u32 tsecr → Forall block_ok blocks →
  zlen blocks ≤ (if ts then 3 else 4) →
  ParseSegmentOptions (segment_opts ts tsval tsecr blocks)
    = Ret (mkSegmentOptions blocks ts (if ts then tsval else 0) (if ts then tsecr else 0)).
Proof.
  intros Hv He Hb H.
  destruct blocks as [|[s1 e1] [|[s2 e2] [|[s3 e3] [|[s4 e4] [|b5 l]]]]];
    try (exfalso; rewrite !zlen_cons in H; pose proof (zlen_nonneg l); destruct ts; lia);
    destruct ts; try (exfalso; cbn in H; lia); clear H;
    repeat (apply Forall_cons in Hb as [[? ?] Hb]; cbn [Start End_] in *);
    unfold segment_opts, sack_opt, ts_opt, block_bytes; cbn [Start End_ mbind list_bind maybe];
    name_bytes; cbv -[be32]; congruence.
Qed.

(** What a connection writes as options of an ACK (timestamps when they
    are on, then up to four SACK blocks, padded with NOPs to whole words) is
    read back by [ParseSegmentOptions]: the two timestamps and the same
    blocks in the same order. *)
Theorem segment_options_roundtrip (ts : bool) tsval tsecr blocks :
  is_u32 tsval → is_u32 tsecr → Forall block_ok blocks →
  zlen blocks ≤ (if ts then 3 else 4) →
  ParseSegmentOptions (segment_opts ts tsval tsecr blocks)
    = Ret (mkSegmentOptions blocks ts (if ts then tsval else 0) (if ts then tsecr else 0)).
Proof. apply segment_opts_parse. Qed.

Lemma segment_options_roundtrip_witness :
  ParseSegmentOptions [1; 1; 8; 10; 0; 0; 0; 7; 0; 0; 0; 9; 5; 10; 0; 0; 0; 1; 0; 0; 0; 2; 1; 1]
    = Ret (mkSegmentOptions [mkSACKBlock 1 2] true 7 9).
Proof.
  apply (segment_options_roundtrip true 7 9 [mkSACKBlock 1 2]); try done.
  repeat constructor; done.
Defined.

Lemma zlen_synack_opts mss ws sack ts v e :
  (4 | zlen (synack_opts mss ws sack ts v e)) ∧ 0 < zlen (synack_opts mss ws sack ts v e) ≤ 24.
Proof.
  unfold synack_opts.
  destruct (ws >? 0), sack, ts; (split; [by apply Z.mod_divide|done]).
Qed.

(** What a connection writes as options of its SYN+ACK is read back by
    [ParseSynOptions]: the MSS, the window scale if there is one, SACK
    permitted, and the timestamp. *)
Theorem synack_options_roundtrip mss ws (sack ts : bool) tsval tsecr :
  is_u16 mss → 0 ≤ ws ≤ MaxWndScale → is_u32 tsval → is_u32 tsecr →
  ParseSynOptions (synack_opts mss ws sack ts tsval tsecr)
    = Ret (mkSynOptions mss (if ws >? 0 then ws else -1) sack ts (if ts then tsval else 0)).
Proof.
  intros Hm Hw Hv He. unfold MaxWndScale in Hw. unfold synack_opts.
  destruct (ws >? 0) eqn:E, sack, ts; cbn [maybe]; unfold ws_opt, ts_opt;
    rewrite ?(u8_id ws) by ulia; name_bytes; cbv -[be16 be32 Z.min];
    rewrite ?Z.min_l by lia; congruence.
Qed.

Lemma synack_options_roundtrip_witness :
  ParseSynOptions (synack_opts 1460 7 true true 5 6) = Ret (mkSynOptions 1460 7 true true 5).
Proof. apply (synack_options_roundtrip 1460 7 true true 5 6); done. Defined.
