(* ===== verification/Packet.v ===== *)
(** [packet/packet.go], [packet/refbuf.go] and [packet/gsobuf.go]: pooled
    packet buffers with headroom, reference-counted payload buffers and GSO
    buffers.

    A slice of a buffer's backing array is a [view], an offset and a length,
    so that [NetworkHeader], [Data] and the slices [Prepend] returns alias
    the array as they do in the source.  What [sync.Pool.Get] hands out is an
    argument: a buffer of an earlier user, with its old bytes. *)
From S2P Require Import Prelude.
From S2P Require Import Tcpip.
From S2P Require Import Checksum.
From S2P Require Import Header.

Definition MaxHeadroom : Z := 80.
Definition MaxPacketSize : Z := 1560.

(** * Views *)
Record view := mkView { v_off : Z; v_len : Z }.

Definition view_get (buf : bytes) (v : view) : outcome bytes :=
  slice buf (v_off v) (v_off v + v_len v).

(** Run [f] on the bytes of a view and write them back in place. *)
Definition view_update (buf : bytes) (v : view) (f : bytes → outcome bytes) : outcome bytes :=
  s ← view_get buf v;
  s' ← f s;
  Ret (ztake (v_off v) buf ++ s' ++ zdrop (v_off v + v_len v) buf).

(** * PacketBuffer *)
Record PacketBuffer := mkPacketBuffer {
  pb_buf : bytes;
  pb_headroom : Z;
  pb_consumed : Z;
  NetworkHeader : option view;
  TransportHeader : option view;
  Data : option view }.
#[export] Instance PacketBuffer_rebuild : Rebuild PacketBuffer := λ p,
  mkPacketBuffer (pb_buf p) (pb_headroom p) (pb_consumed p)
    (NetworkHeader p) (TransportHeader p) (Data p).

(** The pool's [New] function. *)
Definition pool_New : PacketBuffer :=
  mkPacketBuffer (make_bytes MaxPacketSize) 0 0 None None None.

Definition reset (pb : PacketBuffer) (headroom : Z) : PacketBuffer :=
  mkPacketBuffer (pb_buf pb) headroom 0 None None None.

Definition ensureCapacity (pb : PacketBuffer) (size : Z) : PacketBuffer :=
  if zlen (pb_buf pb) <? size then pb <| pb_buf := make_bytes size |> else pb.

Definition NewPacketBuffer (pooled : PacketBuffer) (headroom : Z) : PacketBuffer :=
  ensureCapacity (reset pooled headroom) headroom.

Definition NewPacketBufferWithData (pooled : PacketBuffer) (data : bytes) :
    outcome PacketBuffer :=
  let pb := ensureCapacity (reset pooled 0) (zlen data) in
  let '(buf, n) := copy (pb_buf pb) data in
  Ret (pb <| pb_buf := buf |> <| Data := Some (mkView 0 n) |>).

Definition Prepend (pb : PacketBuffer) (size : Z) : outcome (PacketBuffer * view) :=
  let pb := pb <| pb_consumed := pb_consumed pb + size |> in
  let start := pb_headroom pb - pb_consumed pb in
  _ ← slice (pb_buf pb) start (start + size);
  Ret (pb, mkView start size).

Definition data_len (pb : PacketBuffer) : Z :=
  match Data pb with Some v => v_len v | None => 0 end.

Definition AsSlice (pb : PacketBuffer) : outcome bytes :=
  let start := pb_headroom pb - pb_consumed pb in
  let end_ := match Data pb with
              | Some v => pb_headroom pb + v_len v
              | None => pb_headroom pb
              end in
  slice (pb_buf pb) start end_.

Definition Buf (pb : PacketBuffer) : outcome bytes := slice_from (pb_buf pb) (pb_headroom pb).

Definition AppendData (pb : PacketBuffer) (data : bytes) : outcome PacketBuffer :=
  let pb := ensureCapacity pb (pb_headroom pb + zlen data) in
  let v := mkView (pb_headroom pb) (zlen data) in
  buf ← view_update (pb_buf pb) v (λ dst, Ret (copy dst data).1);
  Ret (pb <| pb_buf := buf |> <| Data := Some v |>).

(** What [Release] puts back into the pool. *)
Definition Release (pb : PacketBuffer) : PacketBuffer :=
  let buf := if zlen (pb_buf pb) >? MaxPacketSize
             then make_bytes MaxPacketSize else pb_buf pb in
  mkPacketBuffer buf 0 0 None None None.

(** The bytes of a header or data view, empty for [nil]. *)
Definition pb_view (pb : PacketBuffer) (ov : option view) : outcome bytes :=
  match ov with Some v => view_get (pb_buf pb) v | None => Ret [] end.

(** * RefBuf *)
Definition MaxPayloadSize : Z := 1500.

Record RefBuf := mkRefBuf { rf_buf : bytes; rf_len : Z; rf_ref : Z }.
#[export] Instance RefBuf_rebuild : Rebuild RefBuf := λ r,
  mkRefBuf (rf_buf r) (rf_len r) (rf_ref r).

Definition refBufPool_New : RefBuf := mkRefBuf (make_bytes MaxPayloadSize) 0 0.

Definition GetRefBuf (pooled : RefBuf) : RefBuf :=
  pooled <| rf_ref := 1 |> <| rf_len := 0 |>.

Definition IncRef (rb : RefBuf) : RefBuf := rb <| rf_ref := rf_ref rb + 1 |>.

(** The buffer after [DecRef] and whether it went back to the pool. *)
Definition DecRef (rb : RefBuf) : RefBuf * bool :=
  let rb := rb <| rf_ref := rf_ref rb - 1 |> in
  if rf_ref rb =? 0 then
    let rb := rb <| rf_len := 0 |> in
    let rb := if zlen (rf_buf rb) >? MaxPayloadSize
              then rb <| rf_buf := make_bytes MaxPayloadSize |> else rb in
    (rb, true)
  else (rb, false).

Definition RefBuf_Buf (rb : RefBuf) : bytes := rf_buf rb.
Definition EnsureCapacity (rb : RefBuf) (n : Z) : RefBuf :=
  if zlen (rf_buf rb) <? n then rb <| rf_buf := make_bytes n |> else rb.
Definition Bytes (rb : RefBuf) : outcome bytes := slice_to (rf_buf rb) (rf_len rb).
Definition SetLen (rb : RefBuf) (n : Z) : RefBuf := rb <| rf_len := n |>.
Definition RefBuf_Len (rb : RefBuf) : Z := rf_len rb.

(** * GSO buffers *)
Definition GSOBufSize : Z := 65536.
Definition GSOBufHeadroom : Z := 80.

Definition GetGSOBuf (pooled : bytes) : outcome bytes := slice_to pooled GSOBufSize.
(** The conversion of [b[:GSOBufSize]] to an array panics on a shorter
    slice. *)
Definition PutGSOBuf (b : bytes) : outcome bytes := slice_to b GSOBufSize.

(** * The pool invariant *)

(** What the pool holds: cleared views, and a backing array of the standard
    size.  [New] establishes it and [Release] re-establishes it from any
    buffer that was at least that large. *)
Definition pooled_ok (pb : PacketBuffer) : Prop := zlen (pb_buf pb) = MaxPacketSize.

Lemma pool_New_ok : pooled_ok pool_New.
Proof. reflexivity. Qed.

Lemma zlen_ensureCapacity pb n :
  0 ≤ n → zlen (pb_buf (ensureCapacity pb n)) = Z.max (zlen (pb_buf pb)) n.
Proof.
  intros. unfold ensureCapacity. case_if; cbn; [|lia].
  rewrite zlen_make_bytes; lia.
Qed.

Lemma Release_ok pb : MaxPacketSize ≤ zlen (pb_buf pb) → pooled_ok (Release pb).
Proof.
  intros. unfold pooled_ok, Release. cbn [pb_buf]. case_if; [done|lia].
Qed.

Lemma view_get_ok buf v :
  0 ≤ v_off v → 0 ≤ v_len v → v_off v + v_len v ≤ zlen buf →
  view_get buf v = Ret (ztake (v_len v) (zdrop (v_off v) buf)).
Proof.
  intros. unfold view_get. rewrite slice_ok by lia. do 3 f_equal. lia.
Qed.

(** * The send path *)

(** [holds pb p]: the bytes from the first prepended header to the end of
    the data are [p]. *)
Record holds (pb : PacketBuffer) (p : bytes) : Prop := {
  holds_consumed : 0 ≤ pb_consumed pb ≤ pb_headroom pb;
  holds_cap : pb_headroom pb + data_len pb ≤ zlen (pb_buf pb);
  holds_data : 0 ≤ data_len pb;
  holds_slice : AsSlice pb = Ret p }.

Lemma AsSlice_eq pb :
  AsSlice pb = slice (pb_buf pb) (pb_headroom pb - pb_consumed pb)
                     (pb_headroom pb + data_len pb).
Proof.
  unfold AsSlice, data_len. destruct (Data pb); [done|]. f_equal. lia.
Qed.

Lemma holds_len pb p : holds pb p → zlen p = pb_consumed pb + data_len pb.
Proof.
  intros [Hc Hcap Hd Hs]. rewrite AsSlice_eq in Hs.
  apply slice_Ret in Hs as (_ & _ & ->).
  rewrite zlen_ztake; [lia|]. rewrite zlen_zdrop; lia.
Qed.

Lemma NewPacketBuffer_holds pooled h :
  0 ≤ h → holds (NewPacketBuffer pooled h) [].
Proof.
  intros Hh. pose proof (zlen_ensureCapacity (reset pooled h) h Hh) as Hz.
  assert (∃ buf, NewPacketBuffer pooled h = mkPacketBuffer buf h 0 None None None)
    as [buf E].
  { unfold NewPacketBuffer, ensureCapacity. case_if; by eexists. }
  unfold NewPacketBuffer in *. rewrite E in *. cbn in Hz.
  split; cbn; try (unfold data_len; cbn; lia).
  unfold AsSlice; cbn. rewrite slice_ok by lia. by rewrite ztake_0 by lia.
Qed.

Lemma NewPacketBuffer_headroom pooled h :
  pb_headroom (NewPacketBuffer pooled h) = h ∧
  pb_consumed (NewPacketBuffer pooled h) = 0 ∧
  Data (NewPacketBuffer pooled h) = None.
Proof. unfold NewPacketBuffer, ensureCapacity. by case_if. Qed.

Lemma AppendData_holds pb data :
  pb_consumed pb = 0 → 0 ≤ pb_headroom pb →
  ∃ pb', AppendData pb data = Ret pb' ∧ holds pb' data ∧
         pb_headroom pb' = pb_headroom pb ∧ pb_consumed pb' = 0 ∧
         zlen (pb_buf pb') = Z.max (zlen (pb_buf pb)) (pb_headroom pb + zlen data).
Proof.
  intros Hc Hh. pose proof (zlen_nonneg data) as Hn.
  unfold AppendData. set (pb1 := ensureCapacity pb _).
  assert (pb_headroom pb1 = pb_headroom pb ∧ pb_consumed pb1 = 0) as [E1 E2].
  { unfold pb1, ensureCapacity. by case_if. }
  pose proof (zlen_ensureCapacity pb (pb_headroom pb + zlen data) ltac:(lia)) as Hz.
  fold pb1 in Hz. clearbody pb1. unfold view_update.
  rewrite view_get_ok by (cbn; lia). cbn [v_off v_len]. rewrite bind_Ret_l. cbn [mbind outcome_bind].
  set (s := ztake (zlen data) (zdrop (pb_headroom pb1) (pb_buf pb1))).
  assert (zlen s = zlen data) as Hs.
  { unfold s. rewrite zlen_ztake; [lia|]. rewrite zlen_zdrop; lia. }
  assert ((copy s data).1 = data) as ->.
  { unfold copy. cbn. unfold zlen in Hs. rewrite Nat.min_r by lia.
    rewrite take_ge, drop_ge, app_nil_r by lia. done. }
  eexists. split; [done|]. unfold data_len; cbn.
  split_and!; [|done..|].
  - split; cbn; unfold data_len; cbn; try lia.
    + rewrite !zlen_app, zlen_ztake, zlen_zdrop; lia.
    + unfold AsSlice; cbn. rewrite E2, Z.sub_0_r.
      rewrite slice_ok by (rewrite ?zlen_app, ?zlen_ztake, ?zlen_zdrop by lia; lia).
      rewrite zdrop_app_ge by (rewrite zlen_ztake by lia; lia).
      rewrite zlen_ztake by lia. rewrite zdrop_0 by lia.
      rewrite ztake_app_le by lia. by rewrite ztake_all by lia.
  - rewrite !zlen_app, zlen_ztake, zlen_zdrop; lia.
Qed.

Lemma Prepend_holds pb p n :
  holds pb p → 0 ≤ n → pb_consumed pb + n ≤ pb_headroom pb →
  ∃ pb' v, Prepend pb n = Ret (pb', v) ∧ pb_headroom pb' = pb_headroom pb ∧
    pb_consumed pb' = pb_consumed pb + n ∧ Data pb' = Data pb ∧
    pb_buf pb' = pb_buf pb ∧
    (∃ s, view_get (pb_buf pb') v = Ret s ∧ zlen s = n) ∧
    ∀ f h, (∀ s, zlen s = n → f s = Ret h) → zlen h = n →
      ∃ buf, view_update (pb_buf pb') v f = Ret buf ∧
        view_get buf v = Ret h ∧ holds (pb' <| pb_buf := buf |>) (h ++ p).
Proof.
  intros Hp Hn Hle. pose proof (holds_len _ _ Hp) as Hlen.
  destruct Hp as [Hc Hcap Hd Hs]. rewrite AsSlice_eq in Hs.
  apply slice_Ret in Hs as (_ & _ & Hs).
  set (start := pb_headroom pb - (pb_consumed pb + n)).
  unfold Prepend. cbn. rewrite slice_ok by lia. cbn.
  do 2 eexists. split; [done|]. cbn. do 4 (split; [done|]).
  fold start. rewrite view_get_ok by (cbn; lia). cbn [v_off v_len].
  set (old := ztake n (zdrop start (pb_buf pb))).
  assert (zlen old = n) as Hold.
  { unfold old. rewrite zlen_ztake; [done|]. rewrite zlen_zdrop; lia. }
  split; [by exists old|]. intros f h Hf Hh.
  unfold view_update. rewrite view_get_ok by (cbn; lia). cbn [v_off v_len].
  fold old. rewrite bind_Ret_l, (Hf old Hold), bind_Ret_l.
  eexists. split; [done|].
  assert (zlen (ztake start (pb_buf pb) ++ h ++ zdrop (start + n) (pb_buf pb)) = zlen (pb_buf pb)) as Hz.
  { rewrite !zlen_app, zlen_ztake, zlen_zdrop; lia. }
  split.
  - rewrite view_get_ok by (cbn; lia). cbn [v_off v_len].
    rewrite zdrop_app_ge, zlen_ztake, zdrop_0 by (rewrite ?zlen_ztake; lia).
    rewrite ztake_app_le by lia. by rewrite ztake_all by lia.
  - split; cbn; unfold data_len; cbn; fold (data_len pb); try lia.
    rewrite AsSlice_eq. cbn. fold start. unfold data_len; cbn. fold (data_len pb).
    rewrite slice_ok by lia. rewrite zdrop_app_ge, zlen_ztake, zdrop_0 by (rewrite ?zlen_ztake; lia).
    rewrite ztake_app_ge by lia. do 3 f_equal. rewrite Hs.
    f_equal; [unfold start; lia|]. f_equal. unfold start. lia.
Qed.

(** [Prepend] puts a slice of arbitrary bytes in front of the packet. *)
Lemma Prepend_front pb p n :
  holds pb p → 0 ≤ n → pb_consumed pb + n ≤ pb_headroom pb →
  ∃ pb' junk, Prepend pb n = Ret (pb', mkView (pb_headroom pb' - pb_consumed pb') n) ∧
    zlen junk = n ∧ holds pb' (junk ++ p) ∧ pb_headroom pb' = pb_headroom pb ∧
    pb_consumed pb' = pb_consumed pb + n ∧ pb_buf pb' = pb_buf pb.
Proof.
  intros Hp Hn Hle. pose proof (holds_len _ _ Hp) as Hlen.
  destruct Hp as [Hc Hcap Hd Hs]. rewrite AsSlice_eq in Hs.
  apply slice_Ret in Hs as (_ & _ & Hs). unfold Prepend. cbn. rewrite slice_ok by lia. cbn.
  set (start := pb_headroom pb - (pb_consumed pb + n)).
  exists (pb <| pb_consumed := pb_consumed pb + n |>), (ztake n (zdrop start (pb_buf pb))).
  split; [done|]. assert (L : zlen (ztake n (zdrop start (pb_buf pb))) = n).
  { rewrite zlen_ztake; [done|]. rewrite zlen_zdrop; lia. }
  split; [done|]. split; [|done]. split; cbn; unfold data_len; cbn; fold (data_len pb); try lia.
  rewrite AsSlice_eq. cbn. fold start. unfold data_len; cbn. fold (data_len pb).
  rewrite slice_ok by lia. f_equal. rewrite Hs.
  replace (pb_headroom pb - pb_consumed pb) with (start + n) by (unfold start; lia).
  rewrite <- (zdrop_zdrop n start) by lia.
  replace (pb_headroom pb + data_len pb - start) with (n + (pb_headroom pb + data_len pb - (start + n))) by lia.
  set (l := zdrop start (pb_buf pb)) in *. rewrite <- (ztake_zdrop n l) at 1.
  rewrite ztake_app_ge, L by lia. do 2 f_equal. lia.
Qed.

(** A view of the middle of a buffer. *)
Lemma view_get_app a b c n : zlen b = n → view_get (a ++ b ++ c) (mkView (zlen a) n) = Ret b.
Proof.
  intros <-. unfold view_get. cbn. pose proof (zlen_nonneg a). pose proof (zlen_nonneg b).
  pose proof (zlen_nonneg c). rewrite slice_ok by (rewrite ?zlen_app; lia).
  rewrite Z.add_simpl_l, zdrop_app_ge, Z.sub_diag, zdrop_0 by lia.
  by rewrite ztake_app_le, ztake_all by lia.
Qed.
Lemma view_update_app (a b c : bytes) n f :
  zlen b = n →
  view_update (a ++ b ++ c) (mkView (zlen a) n) f = (x ← f b; Ret (a ++ x ++ c)).
Proof.
  intros <-. unfold view_update. rewrite view_get_app, bind_Ret_l by done. cbn [v_off v_len].
  pose proof (zlen_nonneg a). pose proof (zlen_nonneg b).
  rewrite ztake_app_le, (ztake_all (zlen a)) by lia.
  rewrite zdrop_app_ge, Z.add_simpl_l, zdrop_app_ge, Z.sub_diag, zdrop_0 by lia. done.
Qed.
Lemma view_update_front (b c : bytes) n f :
  zlen b = n → view_update (b ++ c) (mkView 0 n) f = (x ← f b; Ret (x ++ c)).
Proof. apply (view_update_app [] b c). Qed.

(** A write through the view of the first header. *)
Lemma view_update_holds pb n h p f h' :
  holds pb (h ++ p) → zlen h = n → f h = Ret h' → zlen h' = n →
  ∃ buf, view_update (pb_buf pb) (mkView (pb_headroom pb - pb_consumed pb) n) f = Ret buf ∧
    holds (pb <| pb_buf := buf |>) (h' ++ p).
Proof.
  intros Hp <- Hf Lh'. pose proof (holds_len _ _ Hp) as Hlen. rewrite zlen_app in Hlen.
  destruct Hp as [Hc Hcap Hd Hs]. rewrite AsSlice_eq in Hs.
  apply slice_Ret in Hs as (_ & _ & Hs). pose proof (zlen_nonneg h). pose proof (zlen_nonneg p).
  set (start := pb_headroom pb - pb_consumed pb) in *.
  set (end_ := pb_headroom pb + data_len pb) in *.
  assert (E : pb_buf pb = ztake start (pb_buf pb) ++ h ++ p ++ zdrop end_ (pb_buf pb)).
  { rewrite <- (ztake_zdrop start (pb_buf pb)) at 1. f_equal.
    rewrite <- (ztake_zdrop (end_ - start) (zdrop start (pb_buf pb))) at 1.
    rewrite zdrop_zdrop by lia. rewrite <- Hs. rewrite <- app_assoc. do 3 f_equal. lia. }
  set (a := ztake start (pb_buf pb)) in *. set (c := zdrop end_ (pb_buf pb)) in *.
  assert (La : zlen a = start) by (unfold a; rewrite zlen_ztake; lia).
  rewrite E, <- La. unfold view_update. rewrite view_get_ok by (cbn; rewrite ?zlen_app; lia || (pose proof (zlen_nonneg c); lia)).
  cbn [v_off v_len]. rewrite (zdrop_app_ge (zlen a)), Z.sub_diag, (zdrop_0 0) by lia.
  rewrite (ztake_app_le (zlen h) h), (ztake_all (zlen h)) by lia.
  rewrite bind_Ret_l, Hf, bind_Ret_l. eexists. split; [done|].
  rewrite ztake_app_le, (ztake_all (zlen a)) by lia.
  rewrite zdrop_app_ge by lia. rewrite zdrop_app_ge by lia.
  replace (zlen a + zlen h - zlen a - zlen h) with 0 by lia. rewrite (zdrop_0 0) by lia.
  assert (Lb : zlen (pb_buf pb) = zlen (a ++ h' ++ p ++ c)).
  { rewrite E at 1. rewrite !zlen_app. lia. }
  split; cbn; unfold data_len; cbn; fold (data_len pb); try lia.
  rewrite AsSlice_eq. cbn. fold start. unfold data_len; cbn. fold (data_len pb). fold end_.
  rewrite slice_ok by lia. f_equal. rewrite zdrop_app_ge, La, Z.sub_diag, zdrop_0 by lia.
  rewrite app_assoc, ztake_app_le, ztake_all; [done|..]; rewrite zlen_app; lia.
Qed.
