(* ===== verification/Ringbuf.v ===== *)
(** [transport/tcp/ringbuf.go]: the circular byte buffer between the
    application and a TCP connection.

    The buffer's methods run under its mutex, so each definition is one
    atomic step.  The channels [notEmpty] and [notFull] are closed and
    re-created to signal; they are modelled by the number of times that
    happened, and a blocked call remembers the number it saw. *)
From S2P Require Import Prelude.

Inductive rb_error := errBufferClosed | EOF.

Record ringBuffer := mkRing {
  rb_buf : bytes;
  rb_r : Z;
  rb_w : Z;
  rb_full : bool;
  rb_notEmpty : nat;
  rb_notFull : nat;
  rb_closed : bool }.
#[export] Instance ringBuffer_rebuild : Rebuild ringBuffer := λ b,
  mkRing (rb_buf b) (rb_r b) (rb_w b) (rb_full b) (rb_notEmpty b)
    (rb_notFull b) (rb_closed b).

(** [make] panics on a negative size. *)
Definition newRingBuffer (size : Z) : outcome ringBuffer :=
  if size <? 0 then Panic
  else Ret (mkRing (make_bytes size) 0 0 false 0 0 false).

Definition Cap (rb : ringBuffer) : Z := zlen (rb_buf rb).

(** The remainder by a zero length panics. *)
Definition lenLocked (rb : ringBuffer) : outcome Z :=
  if rb_full rb then Ret (Cap rb)
  else if Cap rb =? 0 then Panic
  else Ret ((rb_w rb - rb_r rb + Cap rb) mod Cap rb).

Definition Len (rb : ringBuffer) : outcome Z := lenLocked rb.

Definition Free (rb : ringBuffer) : outcome Z :=
  n ← lenLocked rb; Ret (Cap rb - n).

Definition signalNotEmpty (rb : ringBuffer) : ringBuffer :=
  rb <| rb_notEmpty := S (rb_notEmpty rb) |>.
Definition signalNotFull (rb : ringBuffer) : ringBuffer :=
  rb <| rb_notFull := S (rb_notFull rb) |>.

(** [copy(buf[lo:hi], src)] written back into [buf]. *)
Definition copy_range (buf : bytes) (lo hi : Z) (src : bytes) : outcome bytes :=
  s ← slice buf lo hi;
  Ret (ztake lo buf ++ (copy s src).1 ++ zdrop hi buf).

Definition writeLocked (rb : ringBuffer) (p : bytes) (free : Z) : outcome (ringBuffer * Z) :=
  let n := Z.min (zlen p) free in
  let first := Z.min (Cap rb - rb_w rb) n in
  p1 ← slice_to p first;
  buf ← copy_range (rb_buf rb) (rb_w rb) (rb_w rb + first) p1;
  let second := n - first in
  buf ← (if second >? 0
         then p2 ← slice p first n; copy_range buf 0 second p2
         else Ret buf);
  let w := (rb_w rb + n) mod Cap rb in
  let full := if w =? rb_r rb then true else rb_full rb in
  Ret (rb <| rb_buf := buf |> <| rb_w := w |> <| rb_full := full |>, n).

(** The bytes copied into a destination of length [plen]. *)
Definition readLocked (rb : ringBuffer) (plen avail : Z) : outcome (ringBuffer * bytes) :=
  let n := Z.min plen avail in
  let first := Z.min (Cap rb - rb_r rb) n in
  d1 ← slice (rb_buf rb) (rb_r rb) (rb_r rb + first);
  let second := n - first in
  d2 ← (if second >? 0 then slice_to (rb_buf rb) second else Ret []);
  Ret (rb <| rb_r := (rb_r rb + n) mod Cap rb |> <| rb_full := false |>, d1 ++ d2).

(** One round of the blocking [Write] loop with [written] bytes done: it
    returns, it waits for [notFull] to move past a number, or it goes on.  A call
    that waits also returns when its [done] channel is closed, without touching
    the buffer: that choice belongs to the goroutine that made the call. *)
Inductive write_round :=
| WriteReturns (written : Z) (err : option rb_error)
| WriteWaits (gen : nat)
| WriteGoesOn (written : Z).

Definition Write_round (rb : ringBuffer) (p : bytes) (written : Z) :
    outcome (ringBuffer * write_round) :=
  if written <? zlen p then
    if rb_closed rb then Ret (rb, WriteReturns written (Some errBufferClosed)) else
    len ← lenLocked rb;
    let free := Cap rb - len in
    if free =? 0 then Ret (rb, WriteWaits (rb_notFull rb)) else
    rest ← slice_from p written;
    '(rb, n) ← writeLocked rb rest free;
    Ret (signalNotEmpty rb, WriteGoesOn (written + n))
  else Ret (rb, WriteReturns written None).

(** One round of the blocking [Read] loop, again without the [done] case of
    the wait. *)
Inductive read_round :=
| ReadReturns (data : bytes) (err : option rb_error)
| ReadWaits (gen : nat).

Definition Read_round (rb : ringBuffer) (plen : Z) : outcome (ringBuffer * read_round) :=
  n ← lenLocked rb;
  if n >? 0 then
    '(rb, d) ← readLocked rb plen n;
    Ret (signalNotFull rb, ReadReturns d None)
  else if rb_closed rb then Ret (rb, ReadReturns [] (Some EOF))
  else Ret (rb, ReadWaits (rb_notEmpty rb)).

Definition ReadNoBlock (rb : ringBuffer) (plen : Z) : outcome (ringBuffer * bytes) :=
  n ← lenLocked rb;
  if n =? 0 then Ret (rb, []) else
  '(rb, d) ← readLocked rb plen n;
  Ret (signalNotFull rb, d).

Definition WriteNoBlock (rb : ringBuffer) (p : bytes) : outcome (ringBuffer * Z) :=
  if rb_closed rb then Ret (rb, 0) else
  len ← lenLocked rb;
  let free := Cap rb - len in
  if free =? 0 then Ret (rb, 0) else
  '(rb, n) ← writeLocked rb p free;
  Ret (signalNotEmpty rb, n).

(** The unread data copied to the front of the new array. *)
Definition growCopy (rb : ringBuffer) (used newCap : Z) : outcome bytes :=
  let newBuf := make_bytes newCap in
  if used >? 0 then
    if (rb_r rb <? rb_w rb) || (rb_full rb && (rb_r rb =? rb_w rb)) then
      if rb_full rb || (rb_r rb <? rb_w rb) then
        if rb_r rb <? rb_w rb then
          s ← slice (rb_buf rb) (rb_r rb) (rb_w rb);
          Ret (copy newBuf s).1
        else
          s ← slice_from (rb_buf rb) (rb_r rb);
          let '(nb, n) := copy newBuf s in
          t ← slice_to (rb_buf rb) (rb_w rb);
          copy_at nb n t
      else Ret newBuf
    else
      s ← slice_from (rb_buf rb) (rb_r rb);
      let '(nb, n) := copy newBuf s in
      t ← slice_to (rb_buf rb) (rb_w rb);
      copy_at nb n t
  else Ret newBuf.

Definition Grow (rb : ringBuffer) (newCap : Z) : outcome ringBuffer :=
  if newCap <=? Cap rb then Ret rb else
  used ← lenLocked rb;
  newBuf ← growCopy rb used newCap;
  Ret (signalNotFull
    (rb <| rb_buf := newBuf |> <| rb_r := 0 |> <| rb_w := used |> <| rb_full := false |>)).

Definition CloseWrite (rb : ringBuffer) : ringBuffer :=
  signalNotEmpty (rb <| rb_closed := true |>).

(** * The invariant and the abstract queue *)
Record ring_ok (rb : ringBuffer) : Prop := {
  ok_cap : 0 < Cap rb;
  ok_r : 0 ≤ rb_r rb < Cap rb;
  ok_w : 0 ≤ rb_w rb < Cap rb;
  ok_full : rb_full rb = true → rb_r rb = rb_w rb }.

Definition used (rb : ringBuffer) : Z :=
  if rb_full rb then Cap rb else (rb_w rb - rb_r rb + Cap rb) mod Cap rb.

(** [n] bytes of [buf] from [r], going round: the two chunks of
    [readLocked]. *)
Definition cyclic (buf : bytes) (r n : Z) : bytes :=
  let first := Z.min (zlen buf - r) n in
  ztake first (zdrop r buf) ++ ztake (n - first) buf.

(** The unread bytes, oldest first. *)
Definition contents (rb : ringBuffer) : bytes := cyclic (rb_buf rb) (rb_r rb) (used rb).

Section ring_lemmas.
Context (rb : ringBuffer) (Hok : ring_ok rb).

Lemma mod_once x c : 0 ≤ x < 2 * c → x mod c = if x <? c then x else x - c.
Proof.
  intros H. case_if; [by apply Z.mod_small; lia|].
  symmetry. apply (Z.mod_unique _ _ 1); lia.
Qed.

Lemma used_cases :
  used rb = if rb_full rb then Cap rb
            else if rb_r rb <=? rb_w rb then rb_w rb - rb_r rb
            else rb_w rb - rb_r rb + Cap rb.
Proof.
  destruct Hok. unfold used. case_if; [done|].
  rewrite mod_once by lia. repeat case_if; lia.
Qed.

Lemma used_range : 0 ≤ used rb ≤ Cap rb.
Proof. rewrite used_cases. destruct Hok. repeat case_if; lia. Qed.

Lemma lenLocked_ok : lenLocked rb = Ret (used rb).
Proof. destruct Hok. unfold lenLocked, used. repeat case_if; try done; lia. Qed.

Lemma Free_ok : Free rb = Ret (Cap rb - used rb).
Proof. unfold Free. by rewrite lenLocked_ok. Qed.

Lemma zlen_contents : zlen (contents rb) = used rb.
Proof.
  pose proof used_range. destruct Hok. unfold contents, cyclic, Cap in *.
  rewrite zlen_app, !zlen_ztake, ?zlen_zdrop; lia || (rewrite ?zlen_zdrop; lia).
Qed.

End ring_lemmas.

(** [buf] with [s] in place of its cells from [lo]. *)
Definition splice (buf : bytes) (lo : Z) (s : bytes) : bytes :=
  ztake lo buf ++ s ++ zdrop (lo + zlen s) buf.

Lemma zlen_splice buf lo s : 0 ≤ lo → lo + zlen s ≤ zlen buf → zlen (splice buf lo s) = zlen buf.
Proof.
  intros ? ?. pose proof (zlen_nonneg s). unfold splice.
  autorewrite with zlist; lia.
Qed.

Lemma lookup_splice buf lo s (i : nat) :
  0 ≤ lo → lo + zlen s ≤ zlen buf →
  splice buf lo s !! i =
    if (lo <=? Z.of_nat i) && (Z.of_nat i <? lo + zlen s)
    then s !! (i - Z.to_nat lo)%nat else buf !! i.
Proof.
  intros Hlo Hs. unfold splice, ztake, zdrop, zlen in *.
  case_if; lookup_cases; lookup_close.
Qed.

Lemma copy_range_ok buf lo hi (s : bytes) :
  0 ≤ lo → lo ≤ hi ≤ zlen buf → zlen s = hi - lo →
  copy_range buf lo hi s = Ret (splice buf lo s).
Proof.
  intros Hlo Hhi Hs. unfold copy_range, splice. rewrite slice_ok by lia. cbn.
  replace (lo + zlen s) with hi by lia.
  f_equal. f_equal. f_equal. unfold copy. cbn. list_solve.
Qed.

Lemma zlen_cyclic buf r n : 0 ≤ r < zlen buf → 0 ≤ n ≤ zlen buf → zlen (cyclic buf r n) = n.
Proof. intros ? ?. unfold cyclic. autorewrite with zlist; lia. Qed.

Lemma lookup_cyclic buf r n (i : nat) :
  0 ≤ r < zlen buf → 0 ≤ n ≤ zlen buf → Z.of_nat i < n →
  cyclic buf r n !! i =
    buf !! Z.to_nat (if r + Z.of_nat i <? zlen buf then r + Z.of_nat i
                     else r + Z.of_nat i - zlen buf).
Proof.
  intros Hr Hn Hi. unfold cyclic, ztake, zdrop, zlen in *.
  case_if; lookup_cases; lookup_close.
Qed.

(** Both are determined by their cells. *)
Lemma list_eq_lt (l k : bytes) :
  zlen l = zlen k → (∀ i : nat, Z.of_nat i < zlen l → l !! i = k !! i) → l = k.
Proof.
  intros El H. apply list_eq_same_length with (length l); [|done|].
  - unfold zlen in El. lia.
  - intros i x y Hi Hx Hy. specialize (H i ltac:(unfold zlen; lia)). congruence.
Qed.

Lemma cyclic_splice buf r w n m (d d1 d2 : bytes) :
  0 ≤ r < zlen buf → 0 ≤ w < zlen buf → 0 ≤ n → n + zlen d ≤ zlen buf →
  w = (if r + n <? zlen buf then r + n else r + n - zlen buf) →
  d = d1 ++ d2 → zlen d1 = Z.min (zlen buf - w) (zlen d) → m = n + zlen d →
  cyclic (splice (splice buf w d1) 0 d2) r m = cyclic buf r n ++ d.
Proof.
  intros Hr Hw Hn Hd Ew -> Hd1 ->. rewrite zlen_app in *.
  pose proof (zlen_nonneg d1). pose proof (zlen_nonneg d2).
  assert (L1 : zlen (splice buf w d1) = zlen buf) by (apply zlen_splice; lia).
  assert (L2 : zlen (splice (splice buf w d1) 0 d2) = zlen buf)
    by (rewrite zlen_splice; lia).
  apply list_eq_lt; [rewrite !zlen_app, !zlen_cyclic; lia|].
  intros i Hi. rewrite zlen_cyclic in Hi by lia.
  rewrite lookup_cyclic, L2, lookup_splice, lookup_splice by lia.
  assert (Lc : zlen (cyclic buf r n) = n) by (apply zlen_cyclic; lia).
  case_if_in Ew; destruct (decide (Z.of_nat i < n)).
  1,3: rewrite lookup_app_l by (unfold zlen in Lc; lia);
    rewrite lookup_cyclic by lia;
    repeat case_if; try (exfalso; lia); lookup_close.
  all: rewrite lookup_app_r by (unfold zlen in Lc; lia);
    repeat case_if; try (exfalso; lia); unfold zlen in *; lookup_cases; lookup_close.
Qed.

Lemma cyclic_take_drop buf r n k :
  0 ≤ r < zlen buf → 0 ≤ n ≤ zlen buf → 0 ≤ k ≤ n →
  cyclic buf r n = cyclic buf r k ++
    cyclic buf (if r + k <? zlen buf then r + k else r + k - zlen buf) (n - k).
Proof.
  intros Hr Hn Hk.
  assert (Hr' : 0 ≤ (if r + k <? zlen buf then r + k else r + k - zlen buf) < zlen buf)
    by (case_if; lia).
  assert (Lc : zlen (cyclic buf r k) = k) by (apply zlen_cyclic; lia).
  apply list_eq_lt; [rewrite zlen_app, !zlen_cyclic; lia|].
  intros i Hi. rewrite zlen_cyclic in Hi by lia. rewrite lookup_cyclic by lia.
  destruct (decide (Z.of_nat i < k)).
  - rewrite lookup_app_l by (unfold zlen in Lc; lia). by rewrite lookup_cyclic by lia.
  - rewrite lookup_app_r by (unfold zlen in Lc; lia).
    assert (Z.of_nat (length (cyclic buf r k)) = k) by apply Lc.
    rewrite lookup_cyclic by lia. repeat case_if; lookup_close.
Qed.

(** The state after [n] bytes of [p] were written. *)
Definition written (rb : ringBuffer) (p : bytes) (n : Z) : ringBuffer :=
  let first := Z.min (Cap rb - rb_w rb) n in
  let w := (rb_w rb + n) mod Cap rb in
  rb <| rb_buf := splice (splice (rb_buf rb) (rb_w rb) (ztake first p)) 0
                    (ztake (n - first) (zdrop first p)) |>
     <| rb_w := w |> <| rb_full := if w =? rb_r rb then true else rb_full rb |>.

Lemma splice_nil buf : splice buf 0 [] = buf.
Proof. apply (ztake_zdrop 0 buf). Qed.

Lemma writeLocked_val rb p free :
  ring_ok rb → 0 ≤ free ≤ Cap rb → let n := Z.min (zlen p) free in
  writeLocked rb p free = Ret (written rb p n, n).
Proof.
  intros [? ? ? _] Hfree n. pose proof (zlen_nonneg p).
  unfold writeLocked. fold n. set (first := Z.min (Cap rb - rb_w rb) n).
  unfold slice_to. rewrite (slice_ok p 0 first) by lia. rewrite bind_Ret_l, zdrop_0, Z.sub_0_r by lia.
  rewrite copy_range_ok; [|lia|unfold Cap in *; lia|rewrite zlen_ztake; lia].
  rewrite bind_Ret_l. unfold written. fold first.
  destruct (Z.gtb_spec (n - first) 0).
  - rewrite slice_ok by lia. rewrite bind_Ret_l, copy_range_ok; [done|lia| |].
    + rewrite zlen_splice; rewrite ?zlen_ztake; unfold Cap in *; lia.
    + rewrite zlen_ztake; [lia|]. rewrite zlen_zdrop; lia.
  - rewrite (ztake_0 (n - first)), splice_nil by lia. done.
Qed.

(** Writing appends, as far as there is room.  With nothing to write to an
    empty buffer the indices meet and the buffer would count as full. *)
Lemma written_ok rb p n :
  ring_ok rb → 0 ≤ n ≤ zlen p → used rb + n ≤ Cap rb → 0 < n ∨ 0 < used rb →
  ring_ok (written rb p n) ∧ contents (written rb p n) = contents rb ++ ztake n p ∧
  Cap (written rb p n) = Cap rb ∧ used (written rb p n) = used rb + n.
Proof.
  intros Hok Hn Hroom Hne. pose proof (used_range rb Hok).
  pose proof (used_cases rb Hok) as Hu. destruct Hok as [? ? ? Hf].
  set (first := Z.min (Cap rb - rb_w rb) n).
  assert (Hcap : Cap (written rb p n) = Cap rb).
  { unfold Cap, written. cbn. fold first. unfold Cap in *.
    pose proof (zlen_splice (rb_buf rb) (rb_w rb) (ztake first p)) as E.
    rewrite zlen_ztake in E by lia.
    rewrite zlen_splice; [apply E; lia|lia|].
    rewrite E, zlen_ztake; rewrite ?zlen_zdrop; lia. }
  assert (Hok' : ring_ok (written rb p n)).
  { split; rewrite ?Hcap; try (cbn; lia).
    - cbn. apply Z.mod_pos_bound. lia.
    - cbn. case_if; [lia|]. intros E. specialize (Hf E). rewrite E in Hu.
      assert (n = 0) as -> by lia. rewrite Z.add_0_r, Z.mod_small; lia. }
  assert (Hu' : used (written rb p n) = used rb + n).
  { rewrite (used_cases _ Hok'), Hcap. cbn. rewrite mod_once by lia.
    destruct (rb_full rb); [specialize (Hf eq_refl)|case_if_in Hu]; case_ifs; lia. }
  split_and!; try done. unfold contents. rewrite Hu'.
  unfold Cap in *. cbn. fold (Cap rb). unfold Cap. fold first.
  apply cyclic_splice with (w := rb_w rb); rewrite ?zlen_ztake; try lia.
  - destruct (rb_full rb); [specialize (Hf eq_refl)|case_if_in Hu]; case_ifs; lia.
  - rewrite <- (ztake_zdrop first (ztake n p)) at 1.
    rewrite ztake_ztake, Z.min_l by lia. f_equal.
    rewrite ztake_zdrop_comm by lia. do 2 f_equal. lia.
Qed.

(** The state after [k] bytes were read. *)
Definition consumed (rb : ringBuffer) (k : Z) : ringBuffer :=
  rb <| rb_r := (rb_r rb + k) mod Cap rb |> <| rb_full := false |>.

Lemma readLocked_val rb plen :
  ring_ok rb → 0 ≤ plen → let k := Z.min plen (used rb) in
  readLocked rb plen (used rb) = Ret (consumed rb k, cyclic (rb_buf rb) (rb_r rb) k).
Proof.
  intros Hok Hp k. pose proof (used_range rb Hok). destruct Hok.
  unfold readLocked. fold k. unfold cyclic. fold (Cap rb).
  set (first := Z.min (Cap rb - rb_r rb) k).
  rewrite (slice_ok _ _ (rb_r rb + first)) by (unfold Cap in *; lia).
  rewrite bind_Ret_l, Z.add_simpl_l.
  destruct (Z.gtb_spec (k - first) 0).
  - unfold slice_to. rewrite slice_ok by (unfold Cap in *; lia).
    by rewrite bind_Ret_l, (zdrop_0 0), Z.sub_0_r by lia.
  - by rewrite (ztake_0 (k - first)) by lia.
Qed.

(** Reading takes a prefix.  Reading nothing from a full buffer would forget
    the contents: the full flag is dropped while the indices agree. *)
Lemma consumed_ok rb k :
  ring_ok rb → 0 ≤ k ≤ used rb → 0 < k ∨ used rb < Cap rb →
  ring_ok (consumed rb k) ∧
  contents rb = cyclic (rb_buf rb) (rb_r rb) k ++ contents (consumed rb k) ∧
  used (consumed rb k) = used rb - k.
Proof.
  intros Hok Hk Hne. pose proof (used_range rb Hok).
  pose proof (used_cases rb Hok) as Hu. destruct Hok as [? ? ? Hf].
  assert (Hok' : ring_ok (consumed rb k)).
  { split; cbn; try done. apply Z.mod_pos_bound. by unfold Cap in *. }
  assert (Hu' : used (consumed rb k) = used rb - k).
  { rewrite (used_cases _ Hok'). unfold consumed, Cap in *. cbn. fold (Cap rb). unfold Cap. rewrite mod_once by lia.
    destruct (rb_full rb); [specialize (Hf eq_refl)|case_if_in Hu]; case_ifs; lia. }
  split_and!; try done. unfold contents. rewrite Hu'. unfold Cap in *. cbn.
  fold (Cap rb). unfold Cap. rewrite mod_once by lia. apply cyclic_take_drop; lia.
Qed.

Lemma contents_prefix rb k :
  ring_ok rb → 0 ≤ k ≤ used rb →
  cyclic (rb_buf rb) (rb_r rb) k = ztake k (contents rb).
Proof.
  intros Hok Hk. pose proof (used_range rb Hok). destruct Hok. unfold Cap in *.
  unfold contents. rewrite (cyclic_take_drop _ _ (used rb) k) by lia.
  assert (zlen (cyclic (rb_buf rb) (rb_r rb) k) = k) by (apply zlen_cyclic; lia).
  rewrite ztake_app_le, ztake_all by lia. done.
Qed.

Lemma copy_two (a b : bytes) n :
  zlen a + zlen b ≤ n →
  (let '(nb, k) := copy (make_bytes n) a in copy_at nb k b) =
    Ret (a ++ b ++ make_bytes (n - zlen a - zlen b)).
Proof.
  intros H. pose proof (zlen_nonneg a). pose proof (zlen_nonneg b).
  assert (E : copy (make_bytes n) a = (a ++ make_bytes (n - zlen a), zlen a)).
  { unfold copy, make_bytes, zlen in *. rewrite length_replicate, Nat.min_r by lia.
    rewrite take_ge, drop_replicate by lia. do 3 f_equal. lia. }
  rewrite E, copy_at_ok; [|lia|autorewrite with zlist; lia].
  rewrite ztake_app_le, ztake_all, zdrop_app_ge by lia.
  do 3 f_equal. unfold zdrop, make_bytes. rewrite drop_replicate. f_equal. lia.
Qed.

Lemma copy_one (a : bytes) n :
  zlen a ≤ n → (copy (make_bytes n) a).1 = a ++ make_bytes (n - zlen a).
Proof.
  intros H. unfold copy, make_bytes, zlen in *. cbn.
  rewrite length_replicate, Nat.min_r, take_ge, drop_replicate by lia.
  do 2 f_equal. lia.
Qed.

(** A buffer that starts at 0 and has spare room. *)
Lemma linear_ok rb (d : bytes) c :
  rb_buf rb = d ++ make_bytes (c - zlen d) → rb_r rb = 0 → rb_w rb = zlen d →
  rb_full rb = false → zlen d < c →
  ring_ok rb ∧ contents rb = d ∧ Cap rb = c.
Proof.
  intros Eb Er Ew Ef Hc. pose proof (zlen_nonneg d).
  assert (Cap rb = c) as Hcap by (unfold Cap; rewrite Eb; autorewrite with zlist; lia).
  assert (Hok : ring_ok rb) by (split; rewrite ?Hcap, ?Er, ?Ew, ?Ef; lia || done).
  split_and!; try done. unfold contents.
  rewrite (used_cases _ Hok), Ef, Er, Ew. case_if; [|lia].
  unfold cyclic. fold (Cap rb). rewrite Hcap, Eb, Z.min_r, zdrop_0 by lia.
  rewrite ztake_app_le, ztake_all, (ztake_0 (_ - _)) by lia. apply app_nil_r.
Qed.

(** Both copies of a wrapped buffer. *)
Lemma grow_two rb newCap :
  ring_ok rb → used rb = Cap rb - rb_r rb + rb_w rb → used rb ≤ newCap →
  (s ← slice_from (rb_buf rb) (rb_r rb);
   let '(nb, n) := copy (make_bytes newCap) s in
   t ← slice_to (rb_buf rb) (rb_w rb);
   copy_at nb n t) = Ret (contents rb ++ make_bytes (newCap - used rb)).
Proof.
  intros Hok Hu Hc. destruct Hok. unfold contents, cyclic. fold (Cap rb).
  rewrite Z.min_l by lia. unfold Cap in *. rewrite slice_from_ok by lia. rewrite bind_Ret_l.
  assert (L1 : zlen (zdrop (rb_r rb) (rb_buf rb)) = zlen (rb_buf rb) - rb_r rb)
    by (apply zlen_zdrop; lia).
  assert (L2 : zlen (ztake (rb_w rb) (rb_buf rb)) = rb_w rb) by (apply zlen_ztake; lia).
  pose proof (copy_two (zdrop (rb_r rb) (rb_buf rb)) (ztake (rb_w rb) (rb_buf rb)) newCap
    ltac:(lia)) as E.
  destruct (copy _ _) as [nb n]. unfold slice_to. rewrite slice_ok by lia.
  rewrite bind_Ret_l, (zdrop_0 0), Z.sub_0_r, E by lia.
  rewrite (ztake_all (_ - _)) by lia. rewrite <- app_assoc. f_equal. f_equal.
  rewrite L1, L2. f_equal; f_equal; lia.
Qed.

Lemma growCopy_ok rb newCap :
  ring_ok rb → Cap rb < newCap →
  growCopy rb (used rb) newCap = Ret (contents rb ++ make_bytes (newCap - used rb)).
Proof.
  intros Hok Hc. pose proof (used_range rb Hok). pose proof (used_cases rb Hok) as Hu.
  pose proof (zlen_contents rb Hok) as Lc. unfold growCopy.
  destruct (used rb >? 0) eqn:?.
  2:{ rewrite (zlen_zero_inv (contents rb)) by lia. cbn. do 2 f_equal. lia. }
  pose proof (ok_full rb Hok) as Hf.
  destruct (rb_full rb).
  - specialize (Hf eq_refl).
    rewrite (proj2 (Z.ltb_ge _ _)), (proj2 (Z.eqb_eq _ _)) by lia. cbn [orb andb].
    apply grow_two; [done|lia..].
  - rewrite andb_false_l, orb_false_r. destruct (rb_r rb <? rb_w rb) eqn:?; cbn [orb].
    + rewrite (proj2 (Z.leb_le _ _)) in Hu by lia. destruct Hok. unfold Cap in *.
      rewrite slice_ok by lia. rewrite bind_Ret_l, <- Hu.
      rewrite copy_one by (rewrite zlen_ztake; rewrite ?zlen_zdrop; lia).
      unfold contents, cyclic. rewrite Z.min_r, Z.sub_diag, (ztake_0 0), app_nil_r by lia.
      do 3 f_equal. rewrite zlen_ztake; rewrite ?zlen_zdrop; lia.
    + apply grow_two; [done| |lia]. case_if_in Hu; lia.
Qed.

Lemma Grow_ok rb newCap :
  ring_ok rb →
  ∃ rb', Grow rb newCap = Ret rb' ∧ ring_ok rb' ∧ contents rb' = contents rb ∧
    Cap rb' = Z.max (Cap rb) newCap ∧ rb_closed rb' = rb_closed rb ∧
    rb_notEmpty rb' = rb_notEmpty rb ∧
    rb_notFull rb' = (if newCap <=? Cap rb then rb_notFull rb else S (rb_notFull rb)).
Proof.
  intros Hok. unfold Grow. case_if.
  { exists rb. split_and!; try done. lia. }
  rewrite lenLocked_ok by done. rewrite bind_Ret_l, growCopy_ok, bind_Ret_l by (done || lia).
  pose proof (used_range rb Hok). pose proof (zlen_contents rb Hok) as Lc.
  eexists. split; [reflexivity|].
  edestruct (linear_ok (signalNotFull (rb <| rb_buf := contents rb ++ make_bytes (newCap - used rb) |>
    <| rb_r := 0 |> <| rb_w := used rb |> <| rb_full := false |>)) (contents rb) newCap)
    as (? & ? & ->); cbn; rewrite ?Lc; try done; try lia.
  split_and!; try done. lia.
Qed.

(** * The bounded FIFO queue the buffer implements *)
Record queue := mkQueue { q_items : bytes; q_cap : Z; q_closed : bool }.

Inductive ring_op :=
| OpWrite (p : bytes) (done : Z)
| OpWriteNoBlock (p : bytes)
| OpRead (plen : Z)
| OpReadNoBlock (plen : Z)
| OpGrow (newCap : Z)
| OpCloseWrite.

(** What the caller of an operation sees. *)
Inductive ring_out :=
| OutWritten (n : Z)
| OutWriteReturns (n : Z) (err : option rb_error)
| OutData (d : bytes) (err : option rb_error)
| OutBlocked
| OutNothing.

Definition q_room (q : queue) : Z := q_cap q - zlen (q_items q).
Definition q_put (q : queue) (p : bytes) : queue :=
  mkQueue (q_items q ++ ztake (q_room q) p) (q_cap q) (q_closed q).
Definition q_get (q : queue) (n : Z) : queue :=
  mkQueue (zdrop n (q_items q)) (q_cap q) (q_closed q).

Definition queue_step (q : queue) (op : ring_op) : queue * ring_out :=
  match op with
  | OpWrite p done =>
      if zlen p <=? done then (q, OutWriteReturns done None) else
      if q_closed q then (q, OutWriteReturns done (Some errBufferClosed)) else
      if q_room q =? 0 then (q, OutBlocked) else
      (q_put q (zdrop done p), OutWritten (done + Z.min (zlen p - done) (q_room q)))
  | OpWriteNoBlock p =>
      if q_closed q then (q, OutWritten 0) else
      (q_put q p, OutWritten (Z.min (zlen p) (q_room q)))
  | OpRead n =>
      match q_items q, q_closed q with
      | [], true => (q, OutData [] (Some EOF))
      | [], false => (q, OutBlocked)
      | d, _ => (q_get q n, OutData (ztake n d) None)
      end
  | OpReadNoBlock n => (q_get q n, OutData (ztake n (q_items q)) None)
  | OpGrow c => (mkQueue (q_items q) (Z.max (q_cap q) c) (q_closed q), OutNothing)
  | OpCloseWrite => (mkQueue (q_items q) (q_cap q) true, OutNothing)
  end.

Definition ring_step (rb : ringBuffer) (op : ring_op) : outcome (ringBuffer * ring_out) :=
  match op with
  | OpWrite p done =>
      '(rb, o) ← Write_round rb p done;
      Ret (rb, match o with
               | WriteReturns n e => OutWriteReturns n e
               | WriteWaits _ => OutBlocked
               | WriteGoesOn n => OutWritten n
               end)
  | OpWriteNoBlock p => '(rb, n) ← WriteNoBlock rb p; Ret (rb, OutWritten n)
  | OpRead n =>
      '(rb, o) ← Read_round rb n;
      Ret (rb, match o with ReadReturns d e => OutData d e | ReadWaits _ => OutBlocked end)
  | OpReadNoBlock n => '(rb, d) ← ReadNoBlock rb n; Ret (rb, OutData d None)
  | OpGrow c => rb ← Grow rb c; Ret (rb, OutNothing)
  | OpCloseWrite => Ret (CloseWrite rb, OutNothing)
  end.

Definition abs (rb : ringBuffer) : queue := mkQueue (contents rb) (Cap rb) (rb_closed rb).

(** The calls that move at least one byte when they can. *)
Definition op_ok (op : ring_op) : Prop :=
  match op with
  | OpWrite p done => 0 ≤ done
  | OpWriteNoBlock p => 0 < zlen p
  | OpRead n | OpReadNoBlock n => 0 < n
  | OpGrow _ | OpCloseWrite => True
  end.

Lemma abs_room rb : ring_ok rb → q_room (abs rb) = Cap rb - used rb.
Proof. intros Hok. unfold q_room. cbn. by rewrite zlen_contents. Qed.

Lemma abs_written rb p :
  ring_ok rb →
  let n := Z.min (zlen p) (Cap rb - used rb) in
  0 < n ∨ 0 < used rb →
  ring_ok (signalNotEmpty (written rb p n)) ∧
  abs (signalNotEmpty (written rb p n)) = q_put (abs rb) p.
Proof.
  intros Hok n Hn. pose proof (used_range rb Hok). pose proof (zlen_nonneg p).
  destruct (written_ok rb p n) as (Hok' & Hc & Hcap & Hu); [done|lia..|].
  split; [by destruct Hok'; split|].
  unfold q_put. rewrite abs_room by done. unfold abs. cbn. f_equal; [|done..].
  change (contents (written rb p n) = contents rb ++ ztake (Cap rb - used rb) p).
  rewrite Hc. f_equal. subst n.
  destruct (Z.min_spec (zlen p) (Cap rb - used rb)) as [[? ->]|[? ->]]; [|done].
  by rewrite !ztake_all by lia.
Qed.

Lemma abs_consumed rb n :
  ring_ok rb → 0 < n → 0 < used rb →
  let k := Z.min n (used rb) in
  ring_ok (signalNotFull (consumed rb k)) ∧
  abs (signalNotFull (consumed rb k)) = q_get (abs rb) n ∧
  cyclic (rb_buf rb) (rb_r rb) k = ztake n (contents rb).
Proof.
  intros Hok Hn Hu k. pose proof (zlen_contents rb Hok).
  destruct (consumed_ok rb k) as (Hok' & Hc & Hu'); [done|lia..|].
  assert (Hpre : cyclic (rb_buf rb) (rb_r rb) k = ztake n (contents rb)).
  { rewrite contents_prefix by (done || lia). subst k.
    destruct (Z.min_spec n (used rb)) as [[? ->]|[? ->]]; [done|].
    by rewrite !ztake_all by lia. }
  split_and!; [by destruct Hok'; split| |done].
  unfold abs, q_get. cbn. f_equal.
  change (contents (consumed rb k) = zdrop n (contents rb)).
  apply (app_inv_head (ztake n (contents rb))). rewrite ztake_zdrop. by rewrite <- Hpre.
Qed.

Local Ltac found := do 2 eexists; split; [reflexivity|split; done].

(** One operation simulates the queue's, never panics, and keeps the
    invariant. *)
Lemma ring_step_ok rb op :
  ring_ok rb → op_ok op →
  ∃ rb' o, ring_step rb op = Ret (rb', o) ∧ ring_ok rb' ∧ queue_step (abs rb) op = (abs rb', o).
Proof.
  intros Hok Hop. pose proof (used_range rb Hok). pose proof (zlen_contents rb Hok) as Lc.
  pose proof (abs_room rb Hok) as Hroom.
  destruct op as [p dn|p|n|n|c|]; cbn [ring_step queue_step op_ok] in *.
  - unfold Write_round. rewrite Hroom. destruct (Z.ltb_spec dn (zlen p)); cbn.
    2:{ exists rb. eexists. rewrite (proj2 (Z.leb_le _ _)) by lia. done. }
    rewrite (proj2 (Z.leb_gt _ _)) by lia.
    destruct (rb_closed rb) eqn:Ec; [found|].
    rewrite lenLocked_ok, bind_Ret_l by done.
    destruct (Z.eqb_spec (Cap rb - used rb) 0); [found|].
    rewrite slice_from_ok, bind_Ret_l, writeLocked_val by (done || lia). cbn.
    assert (zlen (zdrop dn p) = zlen p - dn) as Ed by (apply zlen_zdrop; lia).
    destruct (abs_written rb (zdrop dn p)) as [? <-]; [done|lia|].
    rewrite <- Ed. found.
  - unfold WriteNoBlock. rewrite Hroom. cbn.
    destruct (rb_closed rb) eqn:Ec; [found|].
    rewrite lenLocked_ok, bind_Ret_l by done.
    destruct (Z.eqb_spec (Cap rb - used rb) 0) as [E|].
    { rewrite E. exists rb. eexists. split_and!; [done..|].
      unfold q_put. rewrite Hroom, E, (ztake_0 0), app_nil_r by lia. cbn.
      rewrite Z.min_r by lia. unfold abs. by rewrite Ec. }
    rewrite writeLocked_val by (done || lia). cbn.
    destruct (abs_written rb p) as [? <-]; [done|lia|]. found.
  - unfold Read_round. rewrite lenLocked_ok, bind_Ret_l by done. cbn.
    destruct (Z.gtb_spec (used rb) 0).
    + rewrite readLocked_val by (done || lia). cbn.
      destruct (abs_consumed rb n) as (? & <- & ->); [done|lia..|].
      destruct (contents rb) eqn:Ed; [rewrite zlen_nil in Lc; lia|].
      found.
    + rewrite (zlen_zero_inv (contents rb)) by lia.
      destruct (rb_closed rb); found.
  - unfold ReadNoBlock. rewrite lenLocked_ok, bind_Ret_l by done. cbn.
    destruct (Z.eqb_spec (used rb) 0).
    + exists rb, (OutData [] None). split_and!; try done. unfold q_get. cbn.
      unfold abs. rewrite (zlen_zero_inv (contents rb)) by lia.
      unfold ztake, zdrop. by rewrite take_nil, drop_nil.
    + rewrite readLocked_val by (done || lia). cbn.
      destruct (abs_consumed rb n) as (? & <- & ->); [done|lia..|]. found.
  - destruct (Grow_ok rb c Hok) as (rb' & -> & ? & E & Ecap & Ecl & _). cbn.
    exists rb'. eexists. split_and!; try done. unfold abs. by rewrite E, Ecap, Ecl.
  - exists (CloseWrite rb). eexists. split_and!; [done|by destruct Hok; split|done].
Qed.

(** * Whole runs *)
Fixpoint ring_run (rb : ringBuffer) (ops : list ring_op) : outcome (list ring_out) :=
  match ops with
  | [] => Ret []
  | op :: ops => '(rb, o) ← ring_step rb op; os ← ring_run rb ops; Ret (o :: os)
  end.

Fixpoint queue_run (q : queue) (ops : list ring_op) : list ring_out :=
  match ops with
  | [] => []
  | op :: ops => let '(q, o) := queue_step q op in o :: queue_run q ops
  end.

Lemma ring_run_ok ops rb :
  ring_ok rb → Forall op_ok ops → ring_run rb ops = Ret (queue_run (abs rb) ops).
Proof.
  intros Hok Hops. revert rb Hok. induction Hops as [|op ops Hop _ IH]; [done|].
  intros rb Hok. destruct (ring_step_ok rb op Hok Hop) as (rb' & o & E & Hok' & Eq).
  cbn. rewrite E, Eq. cbn. by rewrite IH.
Qed.

Lemma newRingBuffer_ok size :
  0 < size → ∃ rb, newRingBuffer size = Ret rb ∧ ring_ok rb ∧ abs rb = mkQueue [] size false.
Proof.
  intros H. unfold newRingBuffer. rewrite (proj2 (Z.ltb_ge _ _)) by lia.
  eexists. split; [done|].
  edestruct (linear_ok (mkRing (make_bytes size) 0 0 false 0 0 false) [] size)
    as (? & E & Ecap); cbn; try done; [by rewrite zlen_nil, Z.sub_0_r|].
  split; [done|]. unfold abs. by rewrite E, Ecap.
Qed.

(** C14: a ring buffer created with a positive size behaves as a bounded FIFO
    queue: whatever the sequence of blocking and non-blocking writes and
    reads, growths and close, with non-empty slices, no operation panics and
    every caller sees what the queue of that capacity answers (bytes in order,
    counts, end of file after the last byte, the points where a call
    blocks). *)
Theorem ring_refines_queue (size : Z) (ops : list ring_op) (rb : ringBuffer) :
  0 < size → Forall op_ok ops → newRingBuffer size = Ret rb →
  ring_run rb ops = Ret (queue_run (mkQueue [] size false) ops).
Proof.
  intros Hs Hops E. destruct (newRingBuffer_ok size Hs) as (rb' & E' & Hok & <-).
  rewrite E in E'. injection E' as ->. by apply ring_run_ok.
Qed.

Lemma ring_refines_queue_witness :
  ring_run (mkRing [0; 0; 0] 0 0 false 0 0 false)
    [OpWrite [1; 2; 3; 4] 0; OpReadNoBlock 2; OpWrite [1; 2; 3; 4] 3; OpGrow 5; OpRead 9]
  = Ret [OutWritten 3; OutData [1; 2] None; OutWritten 4; OutNothing; OutData [3; 4] None].
Proof.
  rewrite (ring_refines_queue 3); [reflexivity|lia| |reflexivity].
  repeat constructor; cbn; lia.
Defined.

(** * Blocked callers *)
Lemma writeLocked_gens rb p f rb' n :
  writeLocked rb p f = Ret (rb', n) →
  rb_notEmpty rb' = rb_notEmpty rb ∧ rb_notFull rb' = rb_notFull rb.
Proof. unfold writeLocked. intros H. by inv_outcome. Qed.

Lemma readLocked_gens rb n a rb' d :
  readLocked rb n a = Ret (rb', d) →
  rb_notEmpty rb' = rb_notEmpty rb ∧ rb_notFull rb' = rb_notFull rb.
Proof. unfold readLocked. intros H. by inv_outcome. Qed.

(** Which operations wake whom. *)
Lemma ring_step_gens rb op rb' o :
  ring_step rb op = Ret (rb', o) →
  (rb' = rb ∨
  match op with
  | OpWrite _ _ | OpWriteNoBlock _ | OpCloseWrite =>
      rb_notEmpty rb' = S (rb_notEmpty rb) ∧ rb_notFull rb' = rb_notFull rb
  | OpRead _ | OpReadNoBlock _ | OpGrow _ =>
      rb_notEmpty rb' = rb_notEmpty rb ∧ rb_notFull rb' = S (rb_notFull rb)
  end).
Proof.
  unfold ring_step, Write_round, WriteNoBlock, Read_round, ReadNoBlock, Grow.
  intros E. destruct op; inv_run; auto; right; cbn;
    repeat match goal with
    | H : writeLocked _ _ _ = _ |- _ => apply writeLocked_gens in H as [-> ->]
    | H : readLocked _ _ _ = _ |- _ => apply readLocked_gens in H as [-> ->]
    end; done.
Qed.

Lemma q_items_grow q op :
  match op with
  | OpWrite _ _ | OpWriteNoBlock _ | OpCloseWrite =>
      zlen (q_items q) ≤ zlen (q_items (queue_step q op).1) ∧
      q_cap (queue_step q op).1 = q_cap q
  | _ => zlen (q_items (queue_step q op).1) ≤ zlen (q_items q) ∧
      q_closed (queue_step q op).1 = q_closed q
  end.
Proof.
  destruct op as [p dn|p|n|n|c|]; cbn [queue_step].
  1,2: repeat case_if; cbn; rewrite ?zlen_app;
    try pose proof (zlen_nonneg (ztake (q_room q) p));
    try pose proof (zlen_nonneg (ztake (q_room q) (zdrop dn p))); lia.
  1: destruct (q_items q) eqn:E; [case_if|]; cbn; rewrite ?E; [done..|].
  all: unfold q_get, zlen, zdrop; cbn [fst q_items q_closed];
    rewrite ?E, ?length_drop; cbn [length]; split; lia || done.
Qed.

(** The states a buffer goes through. *)
Inductive ring_steps : ringBuffer → ringBuffer → Prop :=
| steps_refl rb : ring_steps rb rb
| steps_cons rb op rb1 o rb2 :
    op_ok op → ring_step rb op = Ret (rb1, o) → ring_steps rb1 rb2 → ring_steps rb rb2.

(** While the number a blocked reader remembers stands, no byte arrived and
    nobody closed the buffer; while a blocked writer's stands, no room was
    made. *)
Lemma ring_steps_gens rb rb' :
  ring_steps rb rb' → ring_ok rb →
  ring_ok rb' ∧
  (rb_notEmpty rb ≤ rb_notEmpty rb')%nat ∧ (rb_notFull rb ≤ rb_notFull rb')%nat ∧
  (rb_notEmpty rb' = rb_notEmpty rb → used rb' ≤ used rb ∧ rb_closed rb' = rb_closed rb) ∧
  (rb_notFull rb' = rb_notFull rb → used rb ≤ used rb' ∧ Cap rb' = Cap rb).
Proof.
  induction 1 as [rb|rb op rb1 o rb2 Hop E _ IH]; intros Hok; [split_and!; done|].
  destruct (ring_step_ok rb op Hok Hop) as (rb1' & o' & E' & Hok1 & Hq).
  rewrite E in E'. injection E' as <- <-.
  destruct (IH Hok1) as (Hok2 & Hne & Hnf & H1 & H2). split; [done|].
  pose proof (q_items_grow (abs rb) op) as G. rewrite Hq in G. cbn in G.
  rewrite !zlen_contents in G by done.
  destruct (ring_step_gens _ _ _ _ E) as [->|Hg]; [split_and!; auto|].
  destruct op; destruct Hg as [Ge Gf]; rewrite Ge, Gf in *; split_and!; try lia;
    intros Eg; destruct H1, H2 || destruct H1 || destruct H2; try lia; split; lia || congruence.
Qed.

(** C25: no wake-up is lost.  A reader that found the buffer empty waits on a
    [notEmpty] channel; in any later state in which its read would return
    (data or end of file), that channel has been closed.  A writer that found
    the buffer full waits on a [notFull] channel; in any later state with
    room, that channel has been closed. *)
Theorem no_lost_wakeup (rb rb' : ringBuffer) (plen : Z) (p : bytes) (dn : Z) (g : nat) :
  ring_ok rb → ring_steps rb rb' →
  (Read_round rb plen = Ret (rb, ReadWaits g) →
     (∃ rb2 d e, Read_round rb' plen = Ret (rb2, ReadReturns d e)) → (g < rb_notEmpty rb')%nat) ∧
  (Write_round rb p dn = Ret (rb, WriteWaits g) →
     (∃ k, Free rb' = Ret k ∧ 0 < k) → (g < rb_notFull rb')%nat).
Proof.
  intros Hok Hs. destruct (ring_steps_gens rb rb' Hs Hok) as (Hok' & Hne & Hnf & H1 & H2).
  split.
  - unfold Read_round. rewrite !lenLocked_ok, !bind_Ret_l by done. intros E (rb2 & d & e & E').
    destruct (decide (rb_notEmpty rb' = rb_notEmpty rb)) as [Eg|].
    + destruct (H1 Eg). exfalso. inv_run; simplify_eq; lia || congruence.
    + inv_run; simplify_eq; lia.
  - unfold Write_round. rewrite lenLocked_ok by done. intros E (k & E' & Hk).
    inv_run; simplify_eq. rewrite Free_ok in E' by done. inv_outcome.
    destruct (decide (rb_notFull rb' = rb_notFull rb)) as [Eg|]; [|lia].
    specialize (H2 Eg). lia.
Qed.

Lemma no_lost_wakeup_witness :
  let rb' := mkRing [7; 0] 0 1 false 1 0 false in (0 < rb_notEmpty rb')%nat.
Proof.
  intros rb'. eapply (proj1 (no_lost_wakeup (mkRing [0; 0] 0 0 false 0 0 false)
    (mkRing [7; 0] 0 1 false 1 0 false) 4 [] 0 0 _ _)).
  - reflexivity.
  - do 3 eexists. reflexivity.
  Unshelve.
  + split; cbn; (unfold Cap; cbn; lia) || done.
  + eapply (steps_cons _ (OpWriteNoBlock [7])); [reflexivity|reflexivity|constructor].
Defined.

(** Closing the write side does not wake a writer blocked on a full
    buffer.  The write would now fail with [errBufferClosed], but the channel
    it waits on is still the one it saw. *)
Theorem CloseWrite_leaves_writer_blocked :
  let rb := mkRing [1; 2] 0 0 true 0 0 false in
  Write_round rb [9] 0 = Ret (rb, WriteWaits 0) ∧
  Write_round (CloseWrite rb) [9] 0
    = Ret (CloseWrite rb, WriteReturns 0 (Some errBufferClosed)) ∧
  rb_notFull (CloseWrite rb) = 0%nat.
Proof. split_and!; reflexivity. Qed.

(** A read with an empty destination on a full buffer discards the whole
    contents: it reports 0 bytes and no error, and the buffer is empty
    afterwards. *)
Theorem empty_read_discards_full_buffer (rb : ringBuffer) :
  ring_ok rb → rb_full rb = true →
  ∃ rb', Read_round rb 0 = Ret (rb', ReadReturns [] None) ∧ ring_ok rb' ∧
    zlen (contents rb) = Cap rb ∧ contents rb' = [].
Proof.
  intros Hok Hf. pose proof (zlen_contents rb Hok) as Lc.
  assert (Hu : used rb = Cap rb) by (unfold used; by rewrite Hf).
  pose proof (ok_cap rb Hok). pose proof (ok_r rb Hok). pose proof (ok_full rb Hok Hf).
  unfold Read_round. rewrite lenLocked_ok, bind_Ret_l by done.
  rewrite (proj2 (Z.gtb_lt _ _)) by lia. rewrite readLocked_val, Z.min_l by (done || lia).
  assert (E0 : cyclic (rb_buf rb) (rb_r rb) 0 = []).
  { unfold cyclic. fold (Cap rb). by rewrite Z.min_r, !ztake_0 by lia. }
  rewrite E0. eexists. split; [reflexivity|].
  assert (Hok' : ring_ok (signalNotFull (consumed rb 0))).
  { destruct Hok. split; cbn; try done. by apply Z.mod_pos_bound. }
  split_and!; [done|lia|]. apply zlen_zero_inv. rewrite zlen_contents by done.
  rewrite used_cases by done. cbn. rewrite Z.add_0_r, Z.mod_small by done.
  case_if; lia.
Qed.

Lemma empty_read_discards_full_buffer_witness :
  ∃ rb', Read_round (mkRing [1; 2] 0 0 true 0 0 false) 0 = Ret (rb', ReadReturns [] None) ∧
    ring_ok rb' ∧ zlen (contents (mkRing [1; 2] 0 0 true 0 0 false)) = 2 ∧ contents rb' = [].
Proof.
  apply (empty_read_discards_full_buffer (mkRing [1; 2] 0 0 true 0 0 false)); [|reflexivity].
  split; cbn; (unfold Cap; cbn; lia) || done.
Defined.
