(* ===== verification/Fragmentation.v ===== *)
(** [stack/fragmentation.go]: splitting an outgoing IPv4 packet into
    fragments, and the reassembler of incoming ones.

    [time.Now] and the order in which Go ranges over the map of fragment sets
    are arguments of [process]: [now] is in nanoseconds and [iter] lists the
    entries of a map in some order.  A set is reached through a pointer held
    by the map; the model writes it back into the map where the source
    updates it. *)
From stdpp Require Import sorting.
From S2P Require Import Prelude.
From S2P Require Import Tcpip.
From S2P Require Import Checksum.
From S2P Require Import Header.
From S2P Require Import Packet.
Import IPv4.

Definition ipv4ReassemblyTimeout : Z := 30000000000.
Definition ipv4ReassemblyHighThreshold : Z := Z.shiftl 4 20.
Definition ipv4ReassemblyLowThreshold : Z := Z.shiftl 3 20.
Definition ipv4MaxPayloadSize : Z := 65535 - IPv4MinHeaderSize.

Record ipv4FragmentKey := mkKey {
  k_src : Address; k_dst : Address; k_id : Z; k_proto : Z }.
#[export] Instance ipv4FragmentKey_eq : EqDecision ipv4FragmentKey.
Proof. solve_decision. Defined.
#[export] Instance ipv4FragmentKey_countable : Countable ipv4FragmentKey.
Proof.
  apply (inj_countable' (λ k, (k_src k, k_dst k, k_id k, k_proto k))
    (λ t, mkKey t.1.1.1 t.1.1.2 t.1.2 t.2)). by intros [].
Defined.

Record ipv4Fragment := mkFragment { fr_offset : Z; fr_data : bytes }.

Record ipv4FragmentSet := mkFragmentSet {
  fs_createdAt : Z;
  fs_header : option bytes;
  fs_fragments : list ipv4Fragment;
  fs_totalLen : Z;
  fs_mem : Z }.
#[export] Instance ipv4FragmentSet_rebuild : Rebuild ipv4FragmentSet := λ s,
  mkFragmentSet (fs_createdAt s) (fs_header s) (fs_fragments s) (fs_totalLen s) (fs_mem s).

Abbreviation fragment_sets := (gmap ipv4FragmentKey ipv4FragmentSet).

Record ipv4Reassembler := mkReassembler {
  ra_sets : fragment_sets;
  ra_mem : Z;
  ra_timeout : Z }.
#[export] Instance ipv4Reassembler_rebuild : Rebuild ipv4Reassembler := λ r,
  mkReassembler (ra_sets r) (ra_mem r) (ra_timeout r).

Definition newIPv4Reassembler : ipv4Reassembler := mkReassembler ∅ 0 ipv4ReassemblyTimeout.

Definition releaseSetLocked (r : ipv4Reassembler) (key : ipv4FragmentKey)
    (set : ipv4FragmentSet) : ipv4Reassembler :=
  let mem := ra_mem r - fs_mem set in
  r <| ra_sets := delete key (ra_sets r) |> <| ra_mem := if mem <? 0 then 0 else mem |>.

Abbreviation map_order := (fragment_sets → list (ipv4FragmentKey * ipv4FragmentSet)).

Definition evictExpiredLocked (iter : map_order) (r : ipv4Reassembler) (now : Z) :
    ipv4Reassembler :=
  foldl (λ r '(key, set),
    if now - fs_createdAt set >? ra_timeout r then releaseSetLocked r key set else r)
    r (iter (ra_sets r)).

(** The first entry with the smallest creation time. *)
Definition oldestSet (entries : list (ipv4FragmentKey * ipv4FragmentSet)) :
    option (ipv4FragmentKey * ipv4FragmentSet) :=
  foldl (λ oldest '(key, set),
    match oldest with
    | None => Some (key, set)
    | Some (_, o) => if fs_createdAt set <? fs_createdAt o then Some (key, set) else oldest
    end) None entries.

Fixpoint trimLoop (iter : map_order) (fuel : nat) (r : ipv4Reassembler) :
    outcome ipv4Reassembler :=
  match fuel with
  | O => OutOfFuel
  | S fuel =>
      if ra_mem r >? ipv4ReassemblyHighThreshold then
        match oldestSet (iter (ra_sets r)) with
        | None => Ret r
        | Some (key, set) =>
            let r := releaseSetLocked r key set in
            if ra_mem r <=? ipv4ReassemblyLowThreshold then Ret r
            else trimLoop iter fuel r
        end
      else Ret r
  end.

Definition trimMemoryLocked (iter : map_order) (r : ipv4Reassembler) : outcome ipv4Reassembler :=
  trimLoop iter (S (size (ra_sets r))) r.

(** [sort.Slice] by offset.  It need not be stable; the offsets of a set's
    fragments are distinct ([set_ok] below), so the order is determined. *)
Definition offset_le (f g : ipv4Fragment) : Prop := fr_offset f ≤ fr_offset g.
#[export] Instance offset_le_dec : RelDecision offset_le.
Proof. intros f g. unfold offset_le. apply _. Defined.
#[export] Instance offset_le_total : Total offset_le.
Proof. intros f g. unfold offset_le. lia. Qed.
#[export] Instance offset_le_trans : Transitive offset_le.
Proof. intros f g h. unfold offset_le. lia. Qed.

Fixpoint completeLoop (frags : list ipv4Fragment) (next totalLen : Z) : bool :=
  match frags with
  | [] => false
  | frag :: frags =>
      if negb (fr_offset frag =? next) then false else
      let next := next + zlen (fr_data frag) in
      if next =? totalLen then true
      else if next >? totalLen then false
      else completeLoop frags next totalLen
  end.

(** The set with its fragments sorted, and the answer. *)
Definition complete (s : ipv4FragmentSet) : ipv4FragmentSet * bool :=
  let s := s <| fs_fragments := merge_sort offset_le (fs_fragments s) |> in
  (s, completeLoop (fs_fragments s) 0 (fs_totalLen s)).

Fixpoint copyFragments (raw : bytes) (hdrLen : Z) (frags : list ipv4Fragment) : outcome bytes :=
  match frags with
  | [] => Ret raw
  | frag :: frags =>
      raw ← copy_at raw (hdrLen + fr_offset frag) (fr_data frag);
      copyFragments raw hdrLen frags
  end.

Definition assemble (pooled : PacketBuffer) (s : ipv4FragmentSet) : outcome PacketBuffer :=
  let hdr := default [] (fs_header s) in
  let hdrLen := zlen hdr in
  let raw := (copy (make_bytes (hdrLen + fs_totalLen s)) hdr).1 in
  raw ← copyFragments raw hdrLen (fs_fragments s);
  raw ← SetTotalLength raw (u16 (zlen raw));
  raw ← SetFlagsFragmentOffset raw 0 0;
  raw ← SetChecksum raw 0;
  h ← slice_to raw hdrLen;
  raw ← SetChecksum raw (Checksum h 0);
  pb ← NewPacketBufferWithData pooled raw;
  b ← Buf pb;
  _ ← slice_to b hdrLen;
  _ ← slice b hdrLen (zlen raw);
  Ret (pb <| NetworkHeader := Some (mkView (pb_headroom pb) hdrLen) |>
          <| Data := Some (mkView (pb_headroom pb + hdrLen) (zlen raw - hdrLen)) |>).

(** [append(hdr[:0], src...)]: a nil slice stays nil when nothing is added. *)
Definition append_header (hdr : option bytes) (src : bytes) : option bytes :=
  match hdr, src with
  | None, [] => None
  | _, _ => Some src
  end.

(** The scan for an overlapping fragment: no overlap, the same fragment
    again, or a conflict. *)
Inductive overlap := NoOverlap | Duplicate | Conflict.
Fixpoint findOverlap (frags : list ipv4Fragment) (offset end_ : Z) : overlap :=
  match frags with
  | [] => NoOverlap
  | frag :: frags =>
      let fragEnd := fr_offset frag + zlen (fr_data frag) in
      if (end_ <=? fr_offset frag) || (fragEnd <=? offset) then findOverlap frags offset end_
      else if (offset =? fr_offset frag) && (end_ =? fragEnd) then Duplicate
      else Conflict
  end.

(** The part of [process] after the key's set was found or created. *)
Definition processSet (iter : map_order) (pooled : PacketBuffer) (r : ipv4Reassembler)
    (key : ipv4FragmentKey) (set : ipv4FragmentSet) (offset : Z) (fragData nh : bytes)
    (more : bool) : outcome (ipv4Reassembler * option PacketBuffer) :=
  let payloadLen := zlen fragData in
  let end_ := offset + payloadLen in
  match findOverlap (fs_fragments set) offset end_ with
  | Duplicate => Ret (r, None)
  | Conflict => Ret (releaseSetLocked r key set, None)
  | NoOverlap =>
      let set := if offset =? 0
                 then set <| fs_header := append_header (fs_header set) nh |> else set in
      if negb more && (fs_totalLen set >=? 0) && negb (fs_totalLen set =? end_)
      then Ret (releaseSetLocked r key set, None) else
      let set := if negb more then set <| fs_totalLen := end_ |> else set in
      let set := set <| fs_fragments := fs_fragments set ++ [mkFragment offset fragData] |>
                     <| fs_mem := fs_mem set + payloadLen |> in
      let r := r <| ra_mem := ra_mem r + payloadLen |> in
      let '(set, done) :=
        if (fs_totalLen set >=? 0) && bool_decide (is_Some (fs_header set))
        then complete set else (set, false) in
      let r := r <| ra_sets := <[key := set]> (ra_sets r) |> in
      if done : bool then
        pkt ← assemble pooled set;
        Ret (releaseSetLocked r key set, Some pkt)
      else
        r ← trimMemoryLocked iter r;
        Ret (r, None)
  end.

(** The new state, the completed packet if there is one, and the incoming
    buffer as [Release] leaves it: every path releases it. *)
Definition process (iter : map_order) (now : Z) (pooled : PacketBuffer) (r : ipv4Reassembler)
    (pb : PacketBuffer) (ipHdr : bytes) :
    outcome (ipv4Reassembler * option PacketBuffer * PacketBuffer) :=
  data ← pb_view pb (Data pb);
  let payloadLen := zlen data in
  if payloadLen =? 0 then Ret (r, None, Release pb) else
  fo ← FragmentOffset ipHdr;
  let offset := fo * 8 in
  if (offset <? 0) || (offset + payloadLen >? ipv4MaxPayloadSize)
  then Ret (r, None, Release pb) else
  more ← More ipHdr;
  if more && negb (payloadLen mod 8 =? 0) then Ret (r, None, Release pb) else
  src ← SourceAddress ipHdr; dst ← DestinationAddress ipHdr;
  id ← ID ipHdr; proto ← Protocol ipHdr;
  let key := mkKey src dst id proto in
  let fragData := (copy (make_bytes payloadLen) data).1 in
  let r := evictExpiredLocked iter r now in
  let set := match ra_sets r !! key with
             | Some set => set
             | None => mkFragmentSet now None [] (-1) 0
             end in
  let r := r <| ra_sets := <[key := set]> (ra_sets r) |> in
  nh ← pb_view pb (NetworkHeader pb);
  '(r, res) ← processSet iter pooled r key set offset fragData nh more;
  Ret (r, res, Release pb).

(** * Splitting *)

(** One fragment: a copy of the header with its own length, flags, offset
    and checksum, then a piece of the payload. *)
Definition fragmentAt (pkt payload : bytes) (hdrLen offset fragPayloadLen flags : Z) :
    outcome bytes :=
  let fragLen := hdrLen + fragPayloadLen in
  let frag := make_bytes fragLen in
  hdr ← slice_to pkt hdrLen;
  dst ← slice_to frag hdrLen;
  let frag := (copy dst hdr).1 ++ zdrop hdrLen frag in
  piece ← slice payload offset (offset + fragPayloadLen);
  frag ← copy_at frag hdrLen piece;
  frag ← SetTotalLength frag (u16 fragLen);
  frag ← SetFlagsFragmentOffset frag flags (u16 (Z.quot offset 8));
  frag ← SetChecksum frag 0;
  h ← slice_to frag hdrLen;
  SetChecksum frag (Checksum h 0).

Fixpoint fragmentLoop (fuel : nat) (pkt payload : bytes)
    (hdrLen maxPayload baseFlags offset : Z) : outcome (list bytes) :=
  match fuel with
  | O => OutOfFuel
  | S fuel =>
      if offset <? zlen payload then
        let rest := zlen payload - offset in
        let more := rest >? maxPayload in
        let fragPayloadLen := if more then maxPayload else rest in
        let flags := if more then Z.lor baseFlags IPv4FlagMoreFragments else baseFlags in
        frag ← fragmentAt pkt payload hdrLen offset fragPayloadLen flags;
        frags ← fragmentLoop fuel pkt payload hdrLen maxPayload baseFlags (offset + maxPayload);
        Ret (frag :: frags)
      else Ret []
  end.

Definition fragmentIPv4Packet (pkt : bytes) (mtu : Z) : outcome (option (list bytes)) :=
  if zlen pkt <? IPv4MinHeaderSize then Ret None else
  hdrLen ← HeaderLength pkt;
  totalLen ← TotalLength pkt;
  if (hdrLen <? IPv4MinHeaderSize) || (hdrLen >? zlen pkt) ||
     (totalLen <? hdrLen) || (totalLen >? zlen pkt) then Ret None else
  if totalLen <=? mtu then
    p ← slice_to pkt totalLen; Ret (Some [p]) else
  flags ← Flags pkt;
  if negb (Z.land flags IPv4FlagDontFragment =? 0) || (mtu <=? hdrLen) then Ret None else
  let maxPayload := Z.ldiff (mtu - hdrLen) 7 in
  if maxPayload <=? 0 then Ret None else
  payload ← slice pkt hdrLen totalLen;
  let baseFlags := Z.ldiff flags IPv4FlagMoreFragments in
  frags ← fragmentLoop (S (length payload)) pkt payload hdrLen maxPayload baseFlags 0;
  Ret (Some frags).
