(* ===== verification/Reassembly.v ===== *)
(** The theorems about [stack/fragmentation.go]. *)
From stdpp Require Import sorting.
From S2P Require Import Prelude.
From S2P Require Import Tcpip.
From S2P Require Import Checksum.
From S2P Require Import Header.
From S2P Require Import Packet.
From S2P Require Import Fragmentation.
Import IPv4.

(** * Rewriting the length, fragment and checksum fields of a header *)

(** The header with bytes 2-3, 6-7 and 10-11 replaced. *)
Definition stamp (h : bytes) (len ff c : Z) : bytes :=
  match h with
  | x0 :: x1 :: _ :: _ :: x4 :: x5 :: _ :: _ :: x8 :: x9 :: _ :: _ :: t =>
      x0 :: x1 :: u8 (len / 256) :: u8 len :: x4 :: x5 :: u8 (ff / 256) :: u8 ff ::
      x8 :: x9 :: u8 (c / 256) :: u8 c :: t
  | _ => h
  end.

(** Length and fragment field [ff] set, and a fresh checksum. *)
Definition rehead (h : bytes) (len ff : Z) : bytes :=
  stamp h len ff (Checksum (stamp h len ff 0) 0).

Section rehead.
Context (h : bytes) (Hh : 20 ≤ zlen h).

Lemma zlen_stamp len ff c : zlen (stamp h len ff c) = zlen h.
Proof. pose proof Hh. explode h. done. Qed.

Lemma stamp_stamp len ff c len' ff' c' :
  stamp (stamp h len ff c) len' ff' c' = stamp h len' ff' c'.
Proof. pose proof Hh. explode h. done. Qed.

Lemma SetChecksum_stamp len ff c c' :
  SetChecksum (stamp h len ff c) c' = Ret (stamp h len ff c').
Proof. pose proof Hh. explode h. done. Qed.

Lemma bytes_ok_stamp len ff c : bytes_ok h → bytes_ok (stamp h len ff c).
Proof.
  pose proof Hh. explode h. rewrite !Forall_cons. cbn [stamp]. rewrite !Forall_cons.
  pose proof u8_range. naive_solver.
Qed.

(** The setters, run on a packet that starts with the header. *)
Lemma setters_stamp (d : bytes) len fl off :
  ∃ r1 r2 r3, SetTotalLength (h ++ d) len = Ret r1 ∧
    SetFlagsFragmentOffset r1 fl off = Ret r2 ∧ SetChecksum r2 0 = Ret r3 ∧
    slice_to r3 (zlen h) = Ret (stamp h len (flagsFrag fl off) 0) ∧
    SetChecksum r3 (Checksum (stamp h len (flagsFrag fl off) 0) 0)
      = Ret (rehead h len (flagsFrag fl off) ++ d).
Proof.
  assert (E : zlen h = zlen (stamp h len (flagsFrag fl off) 0)) by (by rewrite zlen_stamp).
  rewrite E. unfold rehead. generalize (Checksum (stamp h len (flagsFrag fl off) 0) 0). intros c.
  clear E. pose proof Hh. explode h.
  do 3 eexists. split; [reflexivity|]. split; [reflexivity|]. split; [reflexivity|].
  split; [|reflexivity]. 
  match goal with |- slice_to ?r (zlen ?s) = _ => change r with (s ++ d) end.
  apply slice_to_app.
Qed.

(** A header whose own fields are the ones to be written is left alone. *)
Lemma stamp_same len ff c :
  bytes_ok h → TotalLength h = Ret len → read16 h 6 = Ret ff → read16 h 10 = Ret c →
  stamp h len ff c = h.
Proof.
  pose proof Hh. explode h. rewrite !Forall_cons.
  intros (?&?&?&?&?&?&?&?&?&?&?&?&_). cbv [TotalLength ipv4TotalLength]. cbn.
  intros [= <-] [= <-] [= <-].
  repeat match goal with
  | |- context [be16 ?a ?b] => destruct (be16_inv a b) as [-> ->]; [done|done|]
  end. done.
Qed.

(** The stamped header verifies. *)
Lemma Checksum_rehead len ff :
  bytes_ok h → zlen h ≤ 60 → Checksum (rehead h len ff) 0 = 0.
Proof.
  intros Hb Hl. pose proof (bytes_ok_stamp len ff 0 Hb) as Hb0.
  pose proof (zlen_stamp len ff 0) as L0.
  apply (Checksum_filled (stamp h len ff 0) 10 (stamp h len ff 0) _ 0); try done.
  - unfold sum_fits. lia.
  - by exists 5.
  - clear -Hh. explode h. reflexivity.
  - unfold rehead. generalize (Checksum (stamp h len ff 0) 0). clear -Hh. intros c.
    explode h. reflexivity.
Qed.
End rehead.

(** The getters of a stamped header. *)
Lemma rehead_getters h d len fl off :
  20 ≤ zlen h → bytes_ok h → 0 ≤ fl < 8 → 0 ≤ off < 8192 →
  let p := rehead h len (flagsFrag fl off) ++ d in
  FragmentOffset p = Ret off ∧ More p = Ret (Z.odd fl) ∧ HeaderLength p = HeaderLength h ∧
  SourceAddress p = SourceAddress h ∧ DestinationAddress p = DestinationAddress h ∧
  ID p = ID h ∧ Protocol p = Protocol h ∧ TotalLength p = Ret (u16 len) ∧
  Flags p = Ret fl ∧ read16 p 6 = Ret (flagsFrag fl off).
Proof.
  intros Hh Hb Hfl Hoff p. subst p. unfold rehead.
  generalize (Checksum (stamp h len (flagsFrag fl off) 0) 0). intros c.
  pose proof (flagsFrag_flags fl off Hfl Hoff) as E1.
  pose proof (flagsFrag_offset fl off Hfl Hoff) as E2.
  pose proof (flagsFrag_val fl off Hfl Hoff) as E3.
  set (ff := flagsFrag fl off) in *. clearbody ff.
  explode h. run_bytes.
  rewrite E1, !be16_split_u16, E2, (u16_id ff) by (rewrite E3; ulia).
  split_and!; try done. f_equal.
  clear -Hfl. assert (fl = 0 ∨ fl = 1 ∨ fl = 2 ∨ fl = 3 ∨ fl = 4 ∨ fl = 5 ∨ fl = 6 ∨ fl = 7)
    as Hc by lia.
  by repeat destruct Hc as [->|Hc]; try subst.
Qed.

(** * The pieces of a payload *)
Abbreviation fr_len f := (zlen (fr_data f)).

(** [l] covers a payload from [off] on, without gaps and in order. *)
Fixpoint tiles (l : list ipv4Fragment) (off : Z) : Prop :=
  match l with
  | [] => True
  | f :: l => fr_offset f = off ∧ 0 < fr_len f ∧ tiles l (off + fr_len f)
  end.

Definition payload_of (l : list ipv4Fragment) : bytes := concat (fr_data <$> l).

(** The pieces the splitting loop takes from [offset] on. *)
Fixpoint pieces (fuel : nat) (payload : bytes) (m offset : Z) : list ipv4Fragment :=
  match fuel with
  | O => []
  | S fuel =>
      if offset <? zlen payload
      then mkFragment offset (ztake m (zdrop offset payload))
             :: pieces fuel payload m (offset + m)
      else []
  end.

(** The packet that carries a piece of a payload of [total] bytes. *)
Definition fragment_packet (h : bytes) (flags total : Z) (f : ipv4Fragment) : bytes :=
  let more := fr_offset f + fr_len f <? total in
  rehead h (u16 (zlen h + fr_len f))
    (flagsFrag (if more then Z.lor flags IPv4FlagMoreFragments else flags)
       (u16 (fr_offset f / 8))) ++ fr_data f.

Lemma zlen_piece m off (payload : bytes) :
  0 < m → 0 ≤ off < zlen payload →
  zlen (ztake m (zdrop off payload)) = Z.min m (zlen payload - off).
Proof.
  intros. unfold zlen, ztake, zdrop in *. rewrite length_take, length_drop. lia.
Qed.

Lemma fragmentAt_ok h rest payload off n flags :
  20 ≤ zlen h → 0 ≤ off → 0 ≤ n → off + n ≤ zlen payload →
  fragmentAt (h ++ rest) payload (zlen h) off n flags =
    Ret (rehead h (u16 (zlen h + n)) (flagsFrag flags (u16 (off / 8)))
           ++ ztake n (zdrop off payload)).
Proof.
  intros Hh Ho Hn Hl. unfold fragmentAt. rewrite slice_to_app, bind_Ret_l.
  assert (Lp : zlen (ztake n (zdrop off payload)) = n)
    by (rewrite zlen_ztake; rewrite ?zlen_zdrop; lia).
  rewrite (slice_to_ok (make_bytes _)), bind_Ret_l by (rewrite ?zlen_make_bytes; lia).
  rewrite (slice_ok payload), bind_Ret_l by lia.
  replace (off + n - off) with n by lia.
  rewrite Z.quot_div_nonneg by lia.
  assert (E : (copy (ztake (zlen h) (make_bytes (zlen h + n))) h).1 = h).
  { unfold copy. cbn. unfold make_bytes, ztake, zlen in *.
    rewrite take_replicate, length_replicate, drop_replicate.
    rewrite take_ge, Nat.min_l, Nat.min_r by lia.
    replace (_ - _)%nat with 0%nat by lia. apply app_nil_r. }
  rewrite E, copy_at_ok.
  2: lia.
  2: { rewrite zlen_app, zlen_zdrop; rewrite zlen_make_bytes; lia. }
  rewrite bind_Ret_l, ztake_app_le, (ztake_all (zlen h) h) by lia.
  rewrite (zdrop_all (_ + _)), app_nil_r
    by (rewrite zlen_app, zlen_zdrop; rewrite ?zlen_make_bytes; lia).
  destruct (setters_stamp h Hh (ztake n (zdrop off payload)) (u16 (zlen h + n)) flags
    (u16 (off / 8))) as (r1 & r2 & r3 & -> & E2 & E3 & E4 & E5).
  rewrite bind_Ret_l, E2, bind_Ret_l, E3, bind_Ret_l, E4, bind_Ret_l. done.
Qed.

(** The loop returns, with one packet per piece. *)
Lemma fragmentLoop_ok fuel h rest payload m flags off :
  20 ≤ zlen h → 0 < m → 0 ≤ off → Z.max 0 (zlen payload - off) < Z.of_nat fuel →
  fragmentLoop fuel (h ++ rest) payload (zlen h) m flags off =
    Ret (fragment_packet h flags (zlen payload) <$> pieces fuel payload m off).
Proof.
  intros Hh Hm. revert off. induction fuel as [|fuel IH]; intros off Ho Hf; [lia|].
  cbn [fragmentLoop pieces]. destruct (Z.ltb_spec off (zlen payload)); [|done].
  rewrite fragmentAt_ok, bind_Ret_l, IH, bind_Ret_l; [|try case_if; lia..].
  cbn [fmap list_fmap]. unfold fragment_packet at 2. cbn [fr_offset fr_data].
  rewrite zlen_piece by lia. f_equal. f_equal.
  destruct (Z.gtb_spec (zlen payload - off) m).
  - rewrite Z.min_l, (proj2 (Z.ltb_lt _ _)) by lia. done.
  - rewrite Z.min_r, (proj2 (Z.ltb_ge _ _)) by lia. f_equal.
    rewrite !ztake_all; [done|rewrite zlen_zdrop; lia..].
Qed.

Lemma pieces_tile fuel payload m off :
  0 < m → 0 ≤ off → Z.max 0 (zlen payload - off) < Z.of_nat fuel →
  tiles (pieces fuel payload m off) off ∧
  payload_of (pieces fuel payload m off) = zdrop off payload ∧
  Forall (λ f, off ≤ fr_offset f ∧ (m | fr_offset f - off) ∧
               fr_offset f + fr_len f ≤ zlen payload ∧
               (fr_offset f + fr_len f = zlen payload ∨ fr_len f = m) ∧ fr_len f ≤ m)
    (pieces fuel payload m off).
Proof.
  intros Hm. revert off. induction fuel as [|fuel IH]; intros off Ho Hf; [lia|].
  cbn [pieces]. destruct (Z.ltb_spec off (zlen payload)).
  2:{ split_and!; try done. rewrite zdrop_all by lia. done. }
  destruct (IH (off + m)) as (Ht & Hp & Hall); [lia..|].
  pose proof (zlen_piece m off payload Hm ltac:(lia)) as Lp.
  destruct (Z.le_gt_cases (zlen payload - off) m) as [Hlast|Hmore].
  - rewrite (ztake_all m) in * by (rewrite zlen_zdrop; lia).
    destruct fuel; [lia|]. cbn [pieces] in *. rewrite (proj2 (Z.ltb_ge _ _)) by lia.
    split_and!; cbn; try done; try lia.
    + unfold payload_of. cbn. apply app_nil_r.
    + repeat constructor; cbn; try lia. exists 0. lia.
  - split_and!; cbn [tiles fr_offset fr_data]; try lia.
    + rewrite Lp, Z.min_l by lia. done.
    + unfold payload_of in *. cbn. rewrite Hp.
      rewrite <- (zdrop_zdrop m off) by lia. apply ztake_zdrop.
    + constructor; cbn [fr_offset fr_data]; [rewrite Lp; split_and!; try lia; exists 0; lia|].
      eapply Forall_impl; [done|]. intros f (? & [k Hk] & ? & ? & ?).
      split_and!; try lia. exists (k + 1). lia.
Qed.

Lemma ldiff_7 x : 0 ≤ x → Z.ldiff x 7 = 8 * (x / 8).
Proof.
  intros Hx. change 7 with (Z.ones 3). rewrite Z.ldiff_ones_r by lia.
  rewrite shiftr_div, shiftl_mul by lia. change (2 ^ 3) with 8. lia.
Qed.

(** The splitting function on a packet with header [h]: the cases in which it
    splits. *)
Lemma fragmentIPv4Packet_splits h payload rest mtu fl :
  20 ≤ zlen h → HeaderLength h = Ret (zlen h) →
  TotalLength h = Ret (zlen h + zlen payload) → Flags h = Ret fl →
  Z.land fl IPv4FlagDontFragment = 0 → zlen h + 8 ≤ mtu → mtu < zlen h + zlen payload →
  let m := 8 * ((mtu - zlen h) / 8) in
  fragmentIPv4Packet (h ++ payload ++ rest) mtu =
    Ret (Some (fragment_packet h (Z.ldiff fl IPv4FlagMoreFragments) (zlen payload) <$>
                 pieces (S (length payload)) payload m 0)).
Proof.
  intros Hh E1 E2 E3 Hdf Hmtu Hbig m. unfold fragmentIPv4Packet.
  pose proof (zlen_nonneg payload). pose proof (zlen_nonneg rest).
  assert (Lp : zlen (h ++ payload ++ rest) = zlen h + zlen payload + zlen rest)
    by (rewrite !zlen_app; lia).
  assert (G : HeaderLength (h ++ payload ++ rest) = HeaderLength h ∧
              TotalLength (h ++ payload ++ rest) = TotalLength h ∧
              Flags (h ++ payload ++ rest) = Flags h).
  { clear -Hh. explode h. done. }
  destruct G as (-> & -> & ->). rewrite E1, E2, E3. clear E1 E2 E3.
  rewrite (proj2 (Z.ltb_ge _ IPv4MinHeaderSize)) by (unfold IPv4MinHeaderSize; lia).
  rewrite !bind_Ret_l, Lp.
  rewrite (proj2 (Z.ltb_ge _ IPv4MinHeaderSize)) by (unfold IPv4MinHeaderSize; lia).
  case_if; [lia|]. rewrite (proj2 (Z.leb_gt _ mtu)) by lia. rewrite Hdf.
  rewrite (proj2 (Z.leb_gt mtu _)) by lia. cbn [orb negb Z.eqb].
  rewrite ldiff_7 by lia. fold m.
  assert (8 ≤ m).
  { pose proof (Z.div_le_mono 8 (mtu - zlen h) 8 ltac:(lia) ltac:(lia)) as D.
    change (8 / 8) with 1 in D. lia. }
  rewrite (proj2 (Z.leb_gt m _)) by lia.
  rewrite (slice_ok (h ++ payload ++ rest)) by lia. rewrite bind_Ret_l.
  replace (zlen h + zlen payload - zlen h) with (zlen payload) by lia.
  assert (Ep : ztake (zlen payload) (zdrop (zlen h) (h ++ payload ++ rest)) = payload).
  { rewrite zdrop_app_ge, Z.sub_diag, zdrop_0, ztake_app_le, ztake_all by lia. done. }
  rewrite Ep, fragmentLoop_ok; [done|lia..|unfold zlen; lia].
Qed.

(** * The reassembler's invariant *)
Definition apart (f g : ipv4Fragment) : Prop :=
  fr_offset f + fr_len f ≤ fr_offset g ∨ fr_offset g + fr_len g ≤ fr_offset f.

Fixpoint apart_all (l : list ipv4Fragment) : Prop :=
  match l with
  | [] => True
  | f :: l => Forall (apart f) l ∧ apart_all l
  end.

Definition frag_ok (f : ipv4Fragment) : Prop :=
  0 ≤ fr_offset f ∧ 0 < fr_len f ∧ fr_offset f + fr_len f ≤ ipv4MaxPayloadSize.

Fixpoint total_len (l : list ipv4Fragment) : Z :=
  match l with [] => 0 | f :: l => fr_len f + total_len l end.

Record set_ok (s : ipv4FragmentSet) : Prop := {
  so_frags : Forall frag_ok (fs_fragments s);
  so_apart : apart_all (fs_fragments s);
  so_mem : fs_mem s = total_len (fs_fragments s);
  so_total : fs_totalLen s = -1 ∨
    ∃ f, f ∈ fs_fragments s ∧ fs_totalLen s = fr_offset f + fr_len f;
  so_header : is_Some (fs_header s) → ∃ f, f ∈ fs_fragments s ∧ fr_offset f = 0;
  so_hlen : ∀ h, fs_header s = Some h → 20 ≤ zlen h }.

Definition mem_sum (m : fragment_sets) : Z := map_fold (λ _ s n, fs_mem s + n) 0 m.

Record reasm_ok (r : ipv4Reassembler) : Prop := {
  ro_sets : map_Forall (λ _ s, set_ok s) (ra_sets r);
  ro_mem : ra_mem r = mem_sum (ra_sets r) }.

#[export] Instance apart_sym : Symmetric apart.
Proof. intros f g. unfold apart. lia. Qed.

#[export] Instance apart_all_perm : Proper ((≡ₚ) ==> iff) apart_all.
Proof.
  intros l k. induction 1 as [|f l k H IH|f g l|l k m _ IH1 _ IH2]; cbn.
  - done.
  - rewrite IH, !Forall_forall. by setoid_rewrite H.
  - rewrite !Forall_cons. split; intros [[? ?] [? ?]]; split_and!; by try symmetry.
  - by rewrite IH1.
Qed.

#[export] Instance total_len_perm : Proper ((≡ₚ) ==> eq) total_len.
Proof. intros l k. induction 1; cbn [total_len] in *; lia. Qed.

Lemma total_len_app l k : total_len (l ++ k) = total_len l + total_len k.
Proof. induction l; cbn [total_len app] in *; lia. Qed.

Lemma total_len_nonneg l : 0 ≤ total_len l.
Proof. induction l as [|f l IH]; cbn [total_len]; [lia|]. pose proof (zlen_nonneg (fr_data f)). lia. Qed.

Lemma mem_sum_insert m k s :
  m !! k = None → mem_sum (<[k := s]> m) = fs_mem s + mem_sum m.
Proof. intros H. unfold mem_sum. rewrite map_fold_insert_L; [done|intros; lia|done]. Qed.

Lemma mem_sum_delete m k s :
  m !! k = Some s → mem_sum (delete k m) = mem_sum m - fs_mem s.
Proof.
  intros H. unfold mem_sum. rewrite (map_fold_delete_L _ 0 k s m); [lia|intros; lia|done].
Qed.

Lemma mem_sum_update m k s s' :
  m !! k = Some s → mem_sum (<[k := s']> m) = mem_sum m - fs_mem s + fs_mem s'.
Proof.
  intros H. rewrite <- insert_delete_eq, mem_sum_insert by apply lookup_delete_eq.
  rewrite (mem_sum_delete _ _ s) by done. lia.
Qed.

Lemma set_mem_nonneg s : set_ok s → 0 ≤ fs_mem s.
Proof. intros []. rewrite so_mem0. apply total_len_nonneg. Qed.

Lemma mem_sum_nonneg m : map_Forall (λ _ s, set_ok s) m → 0 ≤ mem_sum m.
Proof.
  intros H. unfold mem_sum. eapply (map_fold_weak_ind (λ n m, map_Forall (λ _ s, set_ok s) m → 0 ≤ n));
    [done| |done].
  intros k s m' n Hm IH H'. apply map_Forall_insert in H' as [Hs H']; [|done].
  pose proof (set_mem_nonneg s Hs). specialize (IH H'). lia.
Qed.

Lemma releaseSetLocked_ok r k s s' :
  reasm_ok r → ra_sets r !! k = Some s → fs_mem s' = fs_mem s →
  releaseSetLocked r k s' =
    mkReassembler (delete k (ra_sets r)) (ra_mem r - fs_mem s) (ra_timeout r) ∧
  reasm_ok (releaseSetLocked r k s').
Proof.
  intros [Hs Hm] Hk Em.
  assert (H0 : map_Forall (λ _ s, set_ok s) (delete k (ra_sets r))) by by apply map_Forall_delete.
  assert (E : releaseSetLocked r k s' =
    mkReassembler (delete k (ra_sets r)) (ra_mem r - fs_mem s) (ra_timeout r)).
  { unfold releaseSetLocked. rewrite Em. cbn. f_equal.
    pose proof (mem_sum_nonneg _ H0) as Hn. rewrite (mem_sum_delete _ _ s) in Hn by done.
    rewrite (proj2 (Z.ltb_ge _ _)); [done|lia]. }
  split; [done|]. rewrite E. split; [done|]. cbn.
  rewrite (mem_sum_delete _ _ s) by done. lia.
Qed.

(** ** Eviction *)
Section eviction.
Context (iter : map_order) (Hiter : ∀ m, iter m ≡ₚ map_to_list m).

Definition live (now timeout : Z) (s : ipv4FragmentSet) : Prop :=
  now - fs_createdAt s ≤ timeout.

Lemma iter_lookup m k s : (k, s) ∈ iter m ↔ m !! k = Some s.
Proof. rewrite (Hiter m). apply elem_of_map_to_list. Qed.

Lemma iter_keys_nodup m : NoDup (iter m).*1.
Proof. rewrite (Hiter m). apply NoDup_fst_map_to_list. Qed.

Lemma evict_fold now l r :
  reasm_ok r → NoDup l.*1 → (∀ k s, (k, s) ∈ l → ra_sets r !! k = Some s) →
  let r' := foldl (λ r '(key, set),
    if now - fs_createdAt set >? ra_timeout r then releaseSetLocked r key set else r) r l in
  reasm_ok r' ∧ ra_timeout r' = ra_timeout r ∧ ra_mem r' ≤ ra_mem r ∧
  (∀ k s, ra_sets r' !! k = Some s ↔
     ra_sets r !! k = Some s ∧ ((k, s) ∈ l → live now (ra_timeout r) s)).
Proof.
  revert r. induction l as [|[k s] l IH]; intros r Hok Hnd Hl; cbn [foldl].
  { split_and!; try done. intros k s. set_solver. }
  cbn in Hnd. apply NoDup_cons in Hnd as [Hk Hnd].
  assert (Hrest : ∀ s', (k, s') ∉ l).
  { intros s' Hin. apply Hk, list_elem_of_fmap. by exists (k, s'). }
  assert (Hks : ra_sets r !! k = Some s) by (apply Hl; left).
  destruct (Z.gtb_spec (now - fs_createdAt s) (ra_timeout r)) as [Hexp|Hlive].
  - destruct (releaseSetLocked_ok r k s s Hok) as [E Hok1]; [done|done|].
    destruct (IH _ Hok1 Hnd) as (Ho & Ht & Hm & Hlk).
    { intros k' s' Hin. rewrite E. cbn. rewrite lookup_delete_ne; [apply Hl; by right|].
      intros ->. by eapply Hrest. }
    split_and!; [done|by rewrite Ht, E| |].
    + pose proof (set_mem_nonneg s (ro_sets r Hok k s Hks)).
      etrans; [apply Hm|]. rewrite E. cbn. lia.
    + intros k' s'. rewrite Hlk, E. cbn [ra_timeout ra_sets].
      rewrite lookup_delete_Some, elem_of_cons. unfold live. split.
      * intros [[? ?] Hx]. split; [done|]. intros [[= -> ->]|?]; [done|auto].
      * intros [Hk' Hx]. split_and!; [|done|auto]. intros <-.
        assert (s' = s) as -> by congruence. specialize (Hx (or_introl eq_refl)). lia.
  - destruct (IH _ Hok Hnd) as (Ho & Ht & Hm & Hlk); [intros; apply Hl; by right|].
    split_and!; try done. intros k' s'. rewrite Hlk, elem_of_cons. unfold live.
    split; intros [Hk' Hx]; (split; [done|]); intros Hin; [|auto].
    destruct Hin as [[= -> ->]|?]; [lia|auto].
Qed.

(** Eviction keeps the live sets, in whatever order the map is visited. *)
Lemma evict_ok r now :
  reasm_ok r → let r' := evictExpiredLocked iter r now in
  reasm_ok r' ∧ ra_timeout r' = ra_timeout r ∧ ra_mem r' ≤ ra_mem r ∧
  ∀ k s, ra_sets r' !! k = Some s ↔ ra_sets r !! k = Some s ∧ live now (ra_timeout r) s.
Proof.
  intros Hok r'. destruct (evict_fold now (iter (ra_sets r)) r Hok) as (? & ? & ? & Hlk).
  - apply iter_keys_nodup.
  - intros k s. apply iter_lookup.
  - split_and!; try done. intros k s. subst r'. unfold evictExpiredLocked. rewrite Hlk.
    rewrite iter_lookup. naive_solver.
Qed.

(** ** Trimming *)
Lemma oldestSet_None l : oldestSet l = None → l = [].
Proof.
  unfold oldestSet. destruct l as [|[k s] l]; [done|]. cbn. generalize (k, s). clear.
  induction l as [|[k s] l IH]; intros [k0 s0]; cbn; [done|].
  case_if; intros E; by apply IH in E.
Qed.

Lemma oldestSet_Some l k s :
  oldestSet l = Some (k, s) →
  (k, s) ∈ l ∧ ∀ k' s', (k', s') ∈ l → fs_createdAt s ≤ fs_createdAt s'.
Proof.
  unfold oldestSet. destruct l as [|[k0 s0] l]; [done|]. cbn [foldl].
  enough (G : ∀ l k0 s0, foldl (λ oldest '(key, set),
    match oldest with
    | None => Some (key, set)
    | Some (_, o) => if fs_createdAt set <? fs_createdAt o then Some (key, set) else oldest
    end) (Some (k0, s0)) l = Some (k, s) →
    (k, s) ∈ (k0, s0) :: l ∧
    ∀ k' s', (k', s') ∈ (k0, s0) :: l → fs_createdAt s ≤ fs_createdAt s') by apply G.
  clear. induction l as [|[k1 s1] l IH]; intros k0 s0; cbn [foldl].
  { intros [= -> ->]. split; [left|]. intros k' s' Hin%list_elem_of_singleton. by simplify_eq. }
  destruct (Z.ltb_spec (fs_createdAt s1) (fs_createdAt s0)); intros E;
    apply IH in E as [Hin Hmin]; (split; [set_solver|]);
    intros k' s'; rewrite !elem_of_cons.
  - intros [[= -> ->]|Hc]; [|apply (Hmin k' s'); set_solver].
    specialize (Hmin k1 s1 ltac:(left)). lia.
  - intros [[= -> ->]|[[= -> ->]|Hc]]; [apply (Hmin k0 s0); left| |apply (Hmin k' s'); set_solver].
    specialize (Hmin k0 s0 ltac:(left)). lia.
Qed.

(** Trimming ends, and with the memory below the high mark. *)
Lemma trimLoop_ok fuel r :
  reasm_ok r → (size (ra_sets r) < fuel)%nat →
  ∃ r', trimLoop iter fuel r = Ret r' ∧ reasm_ok r' ∧
    ra_mem r' ≤ ipv4ReassemblyHighThreshold ∧ ra_mem r' ≤ ra_mem r ∧
    ra_timeout r' = ra_timeout r ∧ ra_sets r' ⊆ ra_sets r ∧
    (ra_mem r ≤ ipv4ReassemblyHighThreshold → r' = r).
Proof.
  revert r. induction fuel as [|fuel IH]; intros r Hok Hf; [lia|]. cbn [trimLoop].
  destruct (Z.gtb_spec (ra_mem r) ipv4ReassemblyHighThreshold) as [Hhigh|Hlow].
  2:{ exists r. split_and!; done || lia. }
  destruct (oldestSet (iter (ra_sets r))) as [[k s]|] eqn:Eo.
  2:{ apply oldestSet_None in Eo. pose proof (Hiter (ra_sets r)) as Hp. rewrite Eo in Hp.
      apply Permutation_nil_l, eq_sym, map_to_list_empty_iff in Hp.
      destruct Hok as [_ Hm]. rewrite Hp in Hm. 
      unfold mem_sum in Hm. rewrite map_fold_empty in Hm.
      assert (0 ≤ ipv4ReassemblyHighThreshold) by done. lia. }
  apply oldestSet_Some in Eo as [Hin _]. apply iter_lookup in Hin.
  destruct (releaseSetLocked_ok r k s s Hok Hin eq_refl) as [E Hok1].
  pose proof (set_mem_nonneg s (ro_sets r Hok k s Hin)).
  assert (Hsub : ra_sets (releaseSetLocked r k s) ⊆ ra_sets r).
  { rewrite E. cbn. apply delete_subseteq. }
  assert (Hmem : ra_mem (releaseSetLocked r k s) ≤ ra_mem r) by (rewrite E; cbn; lia).
  assert (Htm : ra_timeout (releaseSetLocked r k s) = ra_timeout r) by by rewrite E.
  destruct (Z.leb_spec (ra_mem (releaseSetLocked r k s)) ipv4ReassemblyLowThreshold) as [Hl|Hl].
  { exists (releaseSetLocked r k s). split_and!; try done; try lia.
    etrans; [exact Hl|]. done. }
  destruct (IH (releaseSetLocked r k s) Hok1) as (r' & -> & Hok' & ? & ? & Et & Hs & _).
  { rewrite E. cbn. rewrite map_size_delete_Some by done.
    pose proof (map_size_ne_0_lookup_2 (ra_sets r) k ltac:(by eexists)). lia. }
  exists r'. split_and!; try done; [lia|by etrans|lia].
Qed.

Lemma trimMemory_ok r :
  reasm_ok r → ∃ r', trimMemoryLocked iter r = Ret r' ∧ reasm_ok r' ∧
    ra_mem r' ≤ ipv4ReassemblyHighThreshold ∧ ra_mem r' ≤ ra_mem r ∧
    ra_timeout r' = ra_timeout r ∧ ra_sets r' ⊆ ra_sets r ∧
    (ra_mem r ≤ ipv4ReassemblyHighThreshold → r' = r).
Proof. intros Hok. apply trimLoop_ok; [done|lia]. Qed.
End eviction.

(** * Completing a datagram *)
Lemma zlen_payload_of l : zlen (payload_of l) = total_len l.
Proof.
  induction l as [|f l IH]; [done|]. unfold payload_of in *. cbn [fmap list_fmap concat total_len].
  rewrite zlen_app, IH. done.
Qed.

Lemma copyFragments_app h l body :
  Forall (λ f, 0 ≤ fr_offset f) l →
  copyFragments (h ++ body) (zlen h) l = (b ← copyFragments body 0 l; Ret (h ++ b)).
Proof.
  intros Hl. revert body. induction Hl as [|f l Hf Hl IH]; intros body; [done|].
  cbn [copyFragments]. pose proof (zlen_nonneg h). pose proof (zlen_nonneg body).
  rewrite Z.add_0_l. unfold copy_at at 1 2.
  destruct (Z.le_gt_cases (fr_offset f) (zlen body)) as [Hin|Hout].
  - rewrite !slice_from_ok by (rewrite ?zlen_app; lia). cbn [mbind outcome_bind].
    fold (ztake (fr_offset f) body) (ztake (zlen h + fr_offset f) (h ++ body)).
    rewrite ztake_app_ge, zdrop_app_ge, <- app_assoc by lia.
    replace (zlen h + fr_offset f - zlen h) with (fr_offset f) by lia.
    apply IH.
  - rewrite !slice_from_panic by (rewrite ?zlen_app; lia). done.
Qed.

Lemma copy_tiles l off pre z :
  tiles l off → zlen pre = off → total_len l ≤ zlen z →
  copyFragments (pre ++ z) 0 l = Ret (pre ++ payload_of l ++ zdrop (total_len l) z).
Proof.
  revert off pre z. induction l as [|f l IH]; intros off pre z; cbn [tiles copyFragments total_len].
  { intros. rewrite zdrop_0 by lia. done. }
  intros (Ho & Hlen & Ht) Hpre Hz. pose proof (zlen_nonneg pre). pose proof (total_len_nonneg l).
  rewrite copy_at_ok by (rewrite ?zlen_app; lia). rewrite bind_Ret_l, Z.add_0_l, Ho, <- Hpre.
  rewrite ztake_app_le, ztake_all, zdrop_app_ge by lia. rewrite app_assoc.
  rewrite (IH (off + fr_len f)); [|done|rewrite zlen_app; lia|rewrite zlen_zdrop; lia].
  f_equal. unfold payload_of. cbn. rewrite <- !app_assoc. do 3 f_equal.
  rewrite zdrop_zdrop by lia. f_equal. lia.
Qed.

(** The fragments at or past the end change nothing or panic. *)
Lemma copy_beyond l body :
  Forall (λ f, zlen body ≤ fr_offset f) l →
  copyFragments body 0 l =
    if bool_decide (Forall (λ f, fr_offset f ≤ zlen body) l) then Ret body else Panic.
Proof.
  induction 1 as [|f l Hf Hl IH]; [done|]. cbn [copyFragments]. rewrite Z.add_0_l.
  pose proof (zlen_nonneg body). unfold copy_at.
  destruct (Z.eq_dec (fr_offset f) (zlen body)) as [E|Hne].
  - rewrite slice_from_ok by lia. rewrite bind_Ret_l, zdrop_all by lia.
    fold (ztake (fr_offset f) body). rewrite ztake_all by lia.
    cbn [copy length Nat.min take drop fst app]. rewrite app_nil_r, bind_Ret_l, IH.
    erewrite (bool_decide_ext (Forall _ (f :: l))); [done|].
    rewrite Forall_cons. split; [intros []; done|]. intros; split; [lia|done].
  - rewrite slice_from_panic by lia. rewrite bool_decide_eq_false_2; [done|].
    rewrite Forall_cons. lia.
Qed.

Lemma completeLoop_true l next total :
  completeLoop l next total = true →
  ∃ l1 l2, l = l1 ++ l2 ∧ total = next + total_len l1 ∧
    (Forall frag_ok l → tiles l1 next).
Proof.
  revert next. induction l as [|f l IH]; intros next; cbn [completeLoop]; [done|].
  destruct (Z.eqb_spec (fr_offset f) next) as [Eo|]; [|done]. cbn [negb].
  destruct (Z.eqb_spec (next + fr_len f) total) as [Et|].
  { intros _. exists [f], l. cbn [total_len app tiles]. split_and!; [done|lia|].
    intros [(? & ? & ?) _]%Forall_cons. done. }
  destruct (Z.gtb_spec (next + fr_len f) total); [done|].
  intros (l1 & l2 & -> & Et & Ht)%IH. exists (f :: l1), l2. cbn [total_len app tiles].
  split_and!; [done|lia|]. intros [(? & ? & ?) Hok]%Forall_cons. auto.
Qed.

Lemma tiles_completeLoop l next :
  tiles l next → l ≠ [] → completeLoop l next (next + total_len l) = true.
Proof.
  revert next. induction l as [|f l IH]; intros next; [done|].
  intros (Ho & Hlen & Ht) _. cbn [completeLoop total_len].
  rewrite (proj2 (Z.eqb_eq _ _)) by done. cbn [negb].
  destruct l as [|g l].
  - cbn [total_len]. rewrite Z.add_0_r, Z.eqb_refl. done.
  - destruct (Z.eqb_spec (next + fr_len f) (next + (fr_len f + total_len (g :: l)))); [done|].
    pose proof (total_len_nonneg (g :: l)).
    destruct (Z.gtb_spec (next + fr_len f) (next + (fr_len f + total_len (g :: l)))); [lia|].
    rewrite Z.add_assoc. by apply IH.
Qed.

(** The bytes a tiling leaves out start at its end. *)
Lemma tiles_beyond l off g :
  tiles l off → off ≤ fr_offset g → Forall (apart g) l → 0 < fr_len g →
  off + total_len l ≤ fr_offset g.
Proof.
  revert off. induction l as [|f l IH]; intros off; cbn [tiles total_len]; [lia|].
  intros (Ho & Hlen & Ht) Hg [Ha Hal]%Forall_cons Hlg.
  rewrite Z.add_assoc. apply IH; try done. unfold apart in Ha. lia.
Qed.

Lemma apart_all_app l1 l2 :
  apart_all (l1 ++ l2) ↔ apart_all l1 ∧ apart_all l2 ∧ Forall (λ g, Forall (apart g) l1) l2.
Proof.
  induction l1 as [|f l1 IH]; cbn [app apart_all].
  - rewrite Forall_forall. naive_solver.
  - rewrite IH, Forall_app, !Forall_forall. setoid_rewrite Forall_cons.
    split; intros ((? & ?) & ? & ?); split_and!; try done; try naive_solver.
Qed.

Lemma beyond_apart l1 l2 :
  tiles l1 0 → Forall frag_ok (l1 ++ l2) → apart_all (l1 ++ l2) →
  Forall (λ g, total_len l1 ≤ fr_offset g) l2.
Proof.
  intros Ht [_ Hok]%Forall_app (_ & _ & Ha)%apart_all_app. rewrite !Forall_forall in *.
  intros g Hg. destruct (Hok g Hg) as (? & ? & ?).
  apply (tiles_beyond l1 0); auto.
Qed.

(** The whole buffer, as a header and a payload. *)
Definition carries (pb : PacketBuffer) (h d : bytes) : Prop :=
  pb_view pb (NetworkHeader pb) = Ret h ∧ pb_view pb (Data pb) = Ret d.

Lemma packet_with_data pooled h d :
  ∃ pb, NewPacketBufferWithData pooled (h ++ d) = Ret pb ∧ pb_headroom pb = 0 ∧
    ∃ rest, pb_buf pb = h ++ d ++ rest.
Proof.
  unfold NewPacketBufferWithData.
  set (pb := ensureCapacity (reset pooled 0) (zlen (h ++ d))).
  assert (L : zlen (h ++ d) ≤ zlen (pb_buf pb)).
  { subst pb. pose proof (zlen_nonneg (h ++ d)). rewrite zlen_ensureCapacity; lia. }
  unfold copy. rewrite Nat.min_r by (unfold zlen in L; lia).
  rewrite take_ge by lia. eexists. split; [reflexivity|]. cbn. split.
  - subst pb. unfold ensureCapacity. by case_if.
  - exists (drop (length (h ++ d)) (pb_buf pb)). by rewrite <- app_assoc.
Qed.


Lemma copyFragments_seq raw o l1 l2 :
  copyFragments raw o (l1 ++ l2) = (r ← copyFragments raw o l1; copyFragments r o l2).
Proof.
  revert raw. induction l1 as [|f l1 IH]; intros raw; [done|]. cbn.
  destruct (copy_at _ _ _); cbn; [apply IH|done..].
Qed.

Lemma copyFragments_whole l1 l2 :
  tiles l1 0 → Forall frag_ok (l1 ++ l2) → apart_all (l1 ++ l2) →
  copyFragments (make_bytes (total_len l1)) 0 (l1 ++ l2) =
    if bool_decide (Forall (λ f, fr_offset f ≤ total_len l1) l2)
    then Ret (payload_of l1) else Panic.
Proof.
  intros Ht Hok Ha. pose proof (total_len_nonneg l1).
  pose proof (zlen_payload_of l1) as Lp. pose proof (beyond_apart _ _ Ht Hok Ha) as Hb.
  rewrite copyFragments_seq, <- (app_nil_l (make_bytes _)), (copy_tiles l1 0);
    [|done..|rewrite zlen_make_bytes; lia].
  rewrite bind_Ret_l, zdrop_all, app_nil_r by (rewrite zlen_make_bytes; lia). cbn [app].
  rewrite copy_beyond; rewrite Lp; done.
Qed.

Lemma assemble_spec pooled s h l1 l2 :
  fs_header s = Some h → 20 ≤ zlen h → fs_fragments s = l1 ++ l2 → tiles l1 0 →
  fs_totalLen s = total_len l1 → Forall frag_ok (l1 ++ l2) → apart_all (l1 ++ l2) →
  if bool_decide (Forall (λ f, fr_offset f ≤ fs_totalLen s) l2)
  then ∃ pb, assemble pooled s = Ret pb ∧
         carries pb (rehead h (u16 (zlen h + total_len l1)) 0) (payload_of l1)
  else assemble pooled s = Panic.
Proof.
  intros Eh Hh Ef Ht Et Hok Ha. pose proof (total_len_nonneg l1).
  pose proof (zlen_payload_of l1) as Lp.
  unfold assemble. rewrite Eh, Ef, Et. change (default [] (Some h)) with h.
  assert (E0 : (copy (make_bytes (zlen h + total_len l1)) h).1 = h ++ make_bytes (total_len l1)).
  { unfold copy, make_bytes, zlen in *. cbn.
    rewrite length_replicate, Nat.min_r, take_ge, drop_replicate by lia. do 2 f_equal. lia. }
  rewrite E0, copyFragments_app.
  2:{ eapply Forall_impl; [exact Hok|]. by intros f [? _]. }
  rewrite copyFragments_whole by done. case_bool_decide; [|done]. rewrite !bind_Ret_l.
  rewrite (zlen_app h), Lp.
  destruct (setters_stamp h Hh (payload_of l1) (u16 (zlen h + total_len l1)) 0 0)
    as (r1 & r2 & r3 & -> & E2 & E3 & E4 & E5).
  rewrite bind_Ret_l, E2, bind_Ret_l, E3, bind_Ret_l, E4, bind_Ret_l, E5, bind_Ret_l.
  change (flagsFrag 0 0) with 0.
  set (h' := rehead h _ 0). assert (Lh : zlen h' = zlen h) by by apply zlen_stamp.
  destruct (packet_with_data pooled h' (payload_of l1)) as (pb & -> & Ehr & rest & Eb).
  rewrite bind_Ret_l. unfold Buf. rewrite Ehr, slice_from_ok by (pose proof (zlen_nonneg (pb_buf pb)); lia).
  pose proof (zlen_nonneg rest).
  rewrite bind_Ret_l, (zdrop_0 0), slice_to_ok, bind_Ret_l, slice_ok, bind_Ret_l
    by (rewrite ?Eb, ?zlen_app; lia).
  eexists. split; [reflexivity|]. split; cbn; rewrite Eb.
  - rewrite <- (app_nil_l (h' ++ _)). by apply (view_get_app []).
  - rewrite <- Lh at 1. apply view_get_app. rewrite zlen_app. lia.
Qed.

(** * Processing one fragment *)

(** A fragment as [process] sees it. *)
Record arrival := mkArrival {
  a_key : ipv4FragmentKey;
  a_off : Z;
  a_data : bytes;
  a_nh : bytes;
  a_more : bool }.

Definition arrives (pb : PacketBuffer) (ipHdr : bytes) (a : arrival) : Prop :=
  carries pb (a_nh a) (a_data a) ∧
  (∃ fo, FragmentOffset ipHdr = Ret fo ∧ a_off a = fo * 8 ∧ 0 ≤ fo) ∧
  More ipHdr = Ret (a_more a) ∧
  SourceAddress ipHdr = Ret (k_src (a_key a)) ∧
  DestinationAddress ipHdr = Ret (k_dst (a_key a)) ∧
  ID ipHdr = Ret (k_id (a_key a)) ∧ Protocol ipHdr = Ret (k_proto (a_key a)).

(** The checks a fragment must pass to be looked at. *)
Definition acceptable (a : arrival) : Prop :=
  0 < zlen (a_data a) ∧ a_off a + zlen (a_data a) ≤ ipv4MaxPayloadSize ∧
  (a_more a = true → zlen (a_data a) mod 8 = 0).

#[export] Instance acceptable_dec a : Decision (acceptable a).
Proof. unfold acceptable. apply _. Defined.

Definition frag_of (a : arrival) : ipv4Fragment := mkFragment (a_off a) (a_data a).

(** The key's set when the fragment is looked at. *)
Definition found_set (r : ipv4Reassembler) (now : Z) (k : ipv4FragmentKey) : ipv4FragmentSet :=
  default (mkFragmentSet now None [] (-1) 0) (ra_sets r !! k).

Definition accept (iter : map_order) (now : Z) (pooled : PacketBuffer) (r : ipv4Reassembler)
    (a : arrival) : outcome (ipv4Reassembler * option PacketBuffer) :=
  let r := evictExpiredLocked iter r now in
  let set := found_set r now (a_key a) in
  processSet iter pooled (r <| ra_sets := <[a_key a := set]> (ra_sets r) |>) (a_key a) set
    (a_off a) (a_data a) (a_nh a) (a_more a).

Lemma copy_make_bytes (d : bytes) : (copy (make_bytes (zlen d)) d).1 = d.
Proof.
  unfold copy, make_bytes, zlen. cbn. rewrite length_replicate, Nat.min_r, take_ge by lia.
  rewrite drop_replicate. replace (_ - _)%nat with 0%nat by lia. apply app_nil_r.
Qed.

Lemma process_arrives iter now pooled r pb ipHdr a :
  arrives pb ipHdr a →
  (acceptable a → process iter now pooled r pb ipHdr =
     ('(r, res) ← accept iter now pooled r a; Ret (r, res, Release pb))) ∧
  (¬ acceptable a → process iter now pooled r pb ipHdr = Ret (r, None, Release pb)).
Proof.
  intros ([Enh Ed] & (fo & Efo & Ea & Hfo) & Em & Es & Eds & Eid & Ep).
  destruct a as [[src dst id proto] off data nh more].
  cbn [a_key a_off a_data a_nh a_more k_src k_dst k_id k_proto] in *. subst off.
  unfold process, acceptable. cbn [a_data a_off a_more].
  pose proof (zlen_nonneg data).
  rewrite Ed, Efo, Em, Es, Eds, Eid, Ep, Enh. rewrite !bind_Ret_l, copy_make_bytes.
  split; intros Hacc.
  - destruct Hacc as (H1 & H2 & H3).
    rewrite (proj2 (Z.eqb_neq _ _)) by lia. case_if; [lia|].
    destruct more; [|done]. rewrite (H3 eq_refl). done.
  - destruct (Z.eqb_spec (zlen data) 0); [done|]. case_if; [done|].
    destruct more; cbn [andb]; [|exfalso; apply Hacc; split_and!; done || lia].
    destruct (Z.eqb_spec (zlen data mod 8) 0); [|done].
    exfalso. apply Hacc. split_and!; done || lia.
Qed.

Lemma findOverlap_NoOverlap l f :
  findOverlap l (fr_offset f) (fr_offset f + fr_len f) = NoOverlap ↔ Forall (apart f) l.
Proof.
  induction l as [|g l IH]; cbn [findOverlap]; [done|]. rewrite Forall_cons, <- IH.
  unfold apart at 1. case_ifs; naive_solver lia.
Qed.

(** The set with the fragment added. *)
Definition add_frag (s : ipv4FragmentSet) (a : arrival) : ipv4FragmentSet :=
  mkFragmentSet (fs_createdAt s)
    (if a_off a =? 0 then append_header (fs_header s) (a_nh a) else fs_header s)
    (fs_fragments s ++ [frag_of a])
    (if a_more a then fs_totalLen s else a_off a + zlen (a_data a))
    (fs_mem s + zlen (a_data a)).

(** The last fragment fixes the length of the datagram, once. *)
Definition agrees (s : ipv4FragmentSet) (a : arrival) : Prop :=
  a_more a = false → 0 ≤ fs_totalLen s → fs_totalLen s = a_off a + zlen (a_data a).

(** Equality up to the order of the fragments. *)
Definition set_eq (s s' : ipv4FragmentSet) : Prop :=
  fs_fragments s ≡ₚ fs_fragments s' ∧ fs_createdAt s = fs_createdAt s' ∧
  fs_header s = fs_header s' ∧ fs_totalLen s = fs_totalLen s' ∧ fs_mem s = fs_mem s'.

Definition store (r : ipv4Reassembler) (k : ipv4FragmentKey) (s : ipv4FragmentSet) (n : Z) :
    ipv4Reassembler :=
  mkReassembler (<[k := s]> (ra_sets r)) (ra_mem r + n) (ra_timeout r).

Definition finished (s : ipv4FragmentSet) : bool :=
  (fs_totalLen s >=? 0) && bool_decide (is_Some (fs_header s)) &&
  completeLoop (merge_sort offset_le (fs_fragments s)) 0 (fs_totalLen s).

(** What one fragment does to its set. *)
Inductive set_step (iter : map_order) (r : ipv4Reassembler) (k : ipv4FragmentKey)
    (s : ipv4FragmentSet) (a : arrival) :
    outcome (ipv4Reassembler * option PacketBuffer) → Prop :=
| step_duplicate :
    ¬ Forall (apart (frag_of a)) (fs_fragments s) → set_step iter r k s a (Ret (r, None))
| step_conflict :
    ¬ Forall (apart (frag_of a)) (fs_fragments s) →
    set_step iter r k s a (Ret (releaseSetLocked r k s, None))
| step_disagree :
    Forall (apart (frag_of a)) (fs_fragments s) → ¬ agrees s a →
    set_step iter r k s a (Ret (releaseSetLocked r k s, None))
| step_stored s' r' :
    Forall (apart (frag_of a)) (fs_fragments s) → agrees s a → set_eq s' (add_frag s a) →
    finished (add_frag s a) = false →
    trimMemoryLocked iter (store r k s' (zlen (a_data a))) = Ret r' →
    set_step iter r k s a (Ret (r', None))
| step_complete s' pb h l1 l2 :
    Forall (apart (frag_of a)) (fs_fragments s) → agrees s a → set_eq s' (add_frag s a) →
    fs_fragments s' = l1 ++ l2 → Sorted offset_le (l1 ++ l2) →
    tiles l1 0 → fs_totalLen s' = total_len l1 →
    fs_header s' = Some h → Forall (λ f, fr_offset f ≤ fs_totalLen s') l2 →
    carries pb (rehead h (u16 (zlen h + total_len l1)) 0) (payload_of l1) →
    set_step iter r k s a
      (Ret (releaseSetLocked (store r k s' (zlen (a_data a))) k s', Some pb))
| step_crash f :
    Forall (apart (frag_of a)) (fs_fragments s) → agrees s a → finished (add_frag s a) = true →
    f ∈ fs_fragments (add_frag s a) → 0 ≤ fs_totalLen (add_frag s a) < fr_offset f →
    set_step iter r k s a Panic.

Lemma set_ok_eq s s' : set_eq s s' → set_ok s' → set_ok s.
Proof.
  intros (Hp & Hc & Hh & Ht & Hm) []. split; rewrite ?Hp, ?Hh, ?Ht, ?Hm; try done.
  - setoid_rewrite Hp. done.
  - setoid_rewrite Hp. done.
Qed.

Lemma add_frag_ok s a :
  set_ok s → acceptable a → 0 ≤ a_off a → 20 ≤ zlen (a_nh a) →
  Forall (apart (frag_of a)) (fs_fragments s) → set_ok (add_frag s a).
Proof.
  intros [] (H1 & H2 & H3) Ho Hnh Ha. split; cbn.
  - apply Forall_app. split; [done|]. repeat constructor; cbn; done || lia.
  - apply apart_all_app. cbn. split_and!; try done. by repeat constructor.
  - rewrite total_len_app, <- so_mem0. cbn. lia.
  - destruct (a_more a).
    + destruct so_total0 as [|(f & ? & ?)]; [by left|right]. exists f. set_solver.
    + right. exists (frag_of a). set_solver.
  - destruct (Z.eqb_spec (a_off a) 0).
    + intros _. exists (frag_of a). set_solver.
    + intros Hs. destruct (so_header0 Hs) as (f & ? & ?). exists f. set_solver.
  - destruct (Z.eqb_spec (a_off a) 0); [|apply so_hlen0].
    unfold append_header. destruct (fs_header s), (a_nh a) eqn:E; intros h [= <-]; done.
Qed.

Section steps.
Context (iter : map_order) (Hiter : ∀ m, iter m ≡ₚ map_to_list m).
Context (pooled : PacketBuffer) (r : ipv4Reassembler) (k : ipv4FragmentKey)
  (s : ipv4FragmentSet) (a : arrival).
Context (Hr : reasm_ok r) (Hk : ra_sets r !! k = Some s).
Context (Hacc : acceptable a) (Hoff : 0 ≤ a_off a) (Hnh : 20 ≤ zlen (a_nh a)).

Lemma store_ok s' :
  set_eq s' (add_frag s a) → Forall (apart (frag_of a)) (fs_fragments s) →
  reasm_ok (store r k s' (zlen (a_data a))).
Proof.
  intros Heq Ha. destruct Hr as [Hs Hm].
  split; cbn.
  - apply map_Forall_insert_2; [|done]. apply (set_ok_eq _ _ Heq). apply add_frag_ok; try done.
    by apply (Hs k s).
  - rewrite (mem_sum_update _ _ s) by done. destruct Heq as (_ & _ & _ & _ & ->). cbn. lia.
Qed.

Lemma complete_step :
  Forall (apart (frag_of a)) (fs_fragments s) → agrees s a →
  finished (add_frag s a) = true →
  let s' := (complete (add_frag s a)).1 in
  set_step iter r k s a
    (pkt ← assemble pooled s';
     Ret (releaseSetLocked (store r k s' (zlen (a_data a))) k s', Some pkt)).
Proof.
  intros Ha Hag Hfin s'. pose proof Hfin as Hfin0. unfold finished in Hfin.
  apply andb_true_iff in Hfin as [[Ht [h Hh]%bool_decide_eq_true]%andb_true_iff Hc].
  assert (Heq : set_eq s' (add_frag s a)) by (split; [apply merge_sort_Permutation|done]).
  assert (Hok : set_ok s')
    by (apply (set_ok_eq _ _ Heq), add_frag_ok; try done; by apply (ro_sets r Hr k s)).
  destruct (completeLoop_true _ _ _ Hc) as (l1 & l2 & El & Et & Htl).
  assert (Ef : fs_fragments s' = l1 ++ l2) by done.
  assert (Ets : fs_totalLen s' = total_len l1) by (cbn in *; lia).
  pose proof (assemble_spec pooled s' h l1 l2) as Hasm.
  destruct Hok as [Hfr Hap _ _ _ Hhl]. rewrite Ef in Hfr, Hap.
  specialize (Htl ltac:(by rewrite El)).
  specialize (Hasm Hh (Hhl h Hh) Ef Htl Ets Hfr Hap).
  case_bool_decide as Hle.
  - destruct Hasm as (pb & -> & Hpb). rewrite bind_Ret_l.
    eapply step_complete; try done. rewrite <- Ef. apply Sorted_merge_sort, _.
  - rewrite Hasm. apply not_Forall_Exists in Hle; [|intros x; apply _].
    apply Exists_exists in Hle as (f & Hf & Hlt).
    apply (step_crash _ _ _ _ _ f); try done.
    + destruct Heq as (Hp & _). rewrite <- Hp, Ef. set_solver.
    + cbn in *. lia.
Qed.

Lemma processSet_step :
  set_step iter r k s a
    (processSet iter pooled r k s (a_off a) (a_data a) (a_nh a) (a_more a)).
Proof.
  unfold processSet. pose proof (findOverlap_NoOverlap (fs_fragments s) (frag_of a)) as Hov.
  cbn [frag_of fr_offset fr_data] in Hov.
  destruct (findOverlap _ _ _).
  2:{ apply step_duplicate. rewrite <- Hov. done. }
  2:{ apply step_conflict. rewrite <- Hov. done. }
  assert (Ha : Forall (apart (frag_of a)) (fs_fragments s)) by by apply Hov.
  set (s1 := if a_off a =? 0 then _ else s).
  assert (E1 : fs_totalLen s1 = fs_totalLen s ∧ fs_mem s1 = fs_mem s)
    by (subst s1; by case_if).
  destruct E1 as [Et Em]. rewrite Et.
  assert (Erel : releaseSetLocked r k s1 = releaseSetLocked r k s)
    by (unfold releaseSetLocked; by rewrite Em).
  rewrite Erel. destruct (_ && _ && _) eqn:Edis.
  { apply step_disagree; [done|]. intros Hag. unfold agrees in Hag.
    destruct (a_more a); [done|]. specialize (Hag eq_refl). lia. }
  assert (Hag : agrees s a) by (intros Hm; rewrite Hm in Edis; cbn in Edis; lia).
  match goal with |- context [if (fs_totalLen ?x >=? 0) && _ then _ else _] =>
    assert (E2 : x = add_frag s a) end.
  { subst s1. unfold add_frag. by destruct (a_off a =? 0), (a_more a). }
  rewrite E2. clear E2 Erel Et Em. clearbody s1.
  pose proof (complete_step Ha Hag) as Hcs. pose proof (step_stored iter r k s a) as Hst.
  unfold finished in *. unfold complete in *.
  destruct (_ && bool_decide _); cbn [fst andb] in *.
  - change (fs_fragments (_ <| fs_fragments := ?x |>)) with x.
    change (fs_totalLen ((add_frag s a) <| fs_fragments := ?x |>))
      with (fs_totalLen (add_frag s a)).
    destruct (completeLoop _ _ _); [by apply Hcs|].
    assert (Heq : set_eq ((add_frag s a) <| fs_fragments :=
      merge_sort offset_le (fs_fragments (add_frag s a)) |>) (add_frag s a))
      by (split; [apply merge_sort_Permutation|done]).
    edestruct (trimMemory_ok iter Hiter) as (r' & E & _); [by eapply store_ok|].
    match goal with |- context [trimMemoryLocked iter ?x] =>
      assert (trimMemoryLocked iter x = Ret r') as -> by exact E end.
    by eapply Hst.
  - edestruct (trimMemory_ok iter Hiter) as (r' & E & _).
    { by apply (store_ok (add_frag s a)). }
    match goal with |- context [trimMemoryLocked iter ?x] =>
      assert (trimMemoryLocked iter x = Ret r') as -> by exact E end.
    by eapply Hst.
Qed.
End steps.

Lemma fresh_set_ok now : set_ok (mkFragmentSet now None [] (-1) 0).
Proof. split; cbn; try done. by left. Qed.

(** Looking at a fragment: the state in which its set is updated. *)
Lemma accept_step iter now pooled r a :
  (∀ m, iter m ≡ₚ map_to_list m) → reasm_ok r → acceptable a → 0 ≤ a_off a →
  20 ≤ zlen (a_nh a) →
  let r1 := evictExpiredLocked iter r now in
  let s := found_set r1 now (a_key a) in
  ∃ r2, set_step iter r2 (a_key a) s a (accept iter now pooled r a) ∧ reasm_ok r2 ∧
    ra_sets r2 = <[a_key a := s]> (ra_sets r1) ∧ ra_mem r2 = ra_mem r1 ∧
    ra_timeout r2 = ra_timeout r.
Proof.
  intros Hiter Hok Hacc Hoff Hnh r1 s.
  destruct (evict_ok iter Hiter r now Hok) as (Hok1 & Ht & Hm & Hlk). fold r1 in Hok1, Ht, Hm, Hlk.
  assert (Hs : set_ok s ∧ mem_sum (<[a_key a := s]> (ra_sets r1)) = mem_sum (ra_sets r1)).
  { subst s. unfold found_set. destruct (ra_sets r1 !! a_key a) as [s|] eqn:E; cbn.
    - split; [by apply (ro_sets r1 Hok1 _ _ E)|]. by rewrite insert_id.
    - split; [apply fresh_set_ok|by rewrite mem_sum_insert]. }
  destruct Hs as [Hs Hsum].
  assert (Hok2 : reasm_ok (r1 <| ra_sets := <[a_key a := s]> (ra_sets r1) |>)).
  { split; cbn; [apply map_Forall_insert_2; [done|apply Hok1]|]. rewrite Hsum. apply Hok1. }
  eexists. split; [|split_and!; [exact Hok2|done..]].
  apply processSet_step; try done. apply lookup_insert_eq.
Qed.

(** C23: reassembly keeps its state consistent and its memory bounded.  For a
    fragment the read loop hands over, in any visiting order of the map,
    [process] ends; if it returns, the sets still hold pairwise disjoint
    non-empty fragments, the memory counters are the exact sums of the stored
    payloads and at most 4 MiB are held; and it can only panic when a stored
    fragment starts after the end the last fragment has fixed. *)
Theorem process_keeps_invariant iter now pooled r pb ipHdr a :
  (∀ m, iter m ≡ₚ map_to_list m) → reasm_ok r →
  ra_mem r ≤ ipv4ReassemblyHighThreshold →
  arrives pb ipHdr a → 20 ≤ zlen (a_nh a) →
  match process iter now pooled r pb ipHdr with
  | Ret (r', _, pb') =>
      reasm_ok r' ∧ ra_mem r' ≤ ipv4ReassemblyHighThreshold ∧ pb' = Release pb
  | Panic =>
      let s := add_frag (found_set (evictExpiredLocked iter r now) now (a_key a)) a in
      ∃ f, f ∈ fs_fragments s ∧ 0 ≤ fs_totalLen s < fr_offset f
  | OutOfFuel => False
  end.
Proof.
  intros Hiter Hok Hmem Harr Hnh.
  destruct (process_arrives iter now pooled r pb ipHdr a Harr) as [Hyes Hno].
  assert (Hoff : 0 ≤ a_off a) by (destruct Harr as (_ & (fo & _ & -> & ?) & _); lia).
  destruct (decide (acceptable a)) as [Hacc|Hacc]; [rewrite Hyes by done|by rewrite Hno].
  destruct (accept_step iter now pooled r a) as (r2 & Hstep & Hok2 & Es & Em & _); try done.
  destruct (evict_ok iter Hiter r now Hok) as (_ & _ & Hm1 & _).
  set (s := found_set _ _ _) in *. clearbody s.
  assert (Hk : ra_sets r2 !! a_key a = Some s) by (rewrite Es; apply lookup_insert_eq).
  pose proof (set_mem_nonneg s (ro_sets r2 Hok2 _ _ Hk)).
  inversion Hstep as [Hx Eo|Hx Eo|Hx Hy Eo|s' r' Hx Hy Heq Hfin Etrim Eo
    |s' pkt h l1 l2 Hx Hy Heq _ _ _ _ _ _ _ Eo|f Hx Hy _ Hf Hlt Eo];
    cbn [mbind outcome_bind].
  - split_and!; done || lia.
  - destruct (releaseSetLocked_ok r2 _ s s Hok2 Hk eq_refl) as [E Hok3].
    split_and!; [done| |done]. rewrite E. cbn. lia.
  - destruct (releaseSetLocked_ok r2 _ s s Hok2 Hk eq_refl) as [E Hok3].
    split_and!; [done| |done]. rewrite E. cbn. lia.
  - edestruct (trimMemory_ok iter Hiter) as (r3 & E3 & Hok3 & Hhigh & _); [by eapply store_ok|].
    rewrite Etrim in E3. injection E3 as ->. done.
  - pose proof (store_ok r2 _ s a Hok2 Hk Hacc Hoff Hnh s' Heq Hx) as Hok3.
    destruct (releaseSetLocked_ok _ (a_key a) s' s' Hok3) as [E Hok4];
      [apply lookup_insert_eq|done|].
    split_and!; [done| |done]. rewrite E. cbn.
    destruct Heq as (_ & _ & _ & _ & ->). cbn. lia.
  - by exists f.
Qed.

(** * What a completed datagram contains *)
Lemma tiles_lookup l off f :
  tiles l off → f ∈ l →
  off ≤ fr_offset f ∧ fr_offset f + fr_len f ≤ off + total_len l ∧ 0 < fr_len f ∧
  ∀ i : nat, Z.of_nat i < fr_len f →
    payload_of l !! (Z.to_nat (fr_offset f - off) + i)%nat = fr_data f !! i.
Proof.
  revert off. induction l as [|g l IH]; intros off; [by intros _ ?%elem_of_nil|].
  cbn [tiles total_len]. intros (Ho & Hlen & Ht) Hf. pose proof (total_len_nonneg l).
  assert (Hgl : Z.of_nat (length (fr_data g)) = fr_len g) by done.
  apply elem_of_cons in Hf as [->|Hf].
  - split_and!; try lia. intros i Hi. rewrite Ho, Z.sub_diag. cbn.
    apply lookup_app_l. lia.
  - destruct (IH _ Ht Hf) as (H1 & H2 & H3 & H4). split_and!; try lia.
    intros i Hi. rewrite <- H4 by done. unfold payload_of. cbn.
    rewrite lookup_app_r by lia. f_equal. lia.
Qed.

Lemma tiles_covers l off (i : Z) :
  tiles l off → off ≤ i < off + total_len l →
  ∃ f, f ∈ l ∧ fr_offset f ≤ i < fr_offset f + fr_len f.
Proof.
  revert off. induction l as [|g l IH]; intros off; cbn [tiles total_len]; [lia|].
  intros (Ho & Hlen & Ht) Hi.
  destruct (Z.lt_ge_cases i (off + fr_len g)).
  - exists g. split; [left|lia].
  - destruct (IH _ Ht) as (f & ? & ?); [lia|]. exists f. split; [by right|done].
Qed.

(** C24: a datagram handed on is made of what was received for its key.  Its
    payload has the length the last fragment fixed; every byte of it is the
    byte of a received fragment at that position, and it agrees with every
    received fragment that does not start at its end; its header is the first
    fragment's, with the length, fragment and checksum fields rewritten; and
    the set is gone. *)
Theorem reassembled_from_fragments iter now pooled r pb ipHdr a r' pkt pb' :
  (∀ m, iter m ≡ₚ map_to_list m) → reasm_ok r → arrives pb ipHdr a → 20 ≤ zlen (a_nh a) →
  process iter now pooled r pb ipHdr = Ret (r', Some pkt, pb') →
  let s := add_frag (found_set (evictExpiredLocked iter r now) now (a_key a)) a in
  ∃ h payload, carries pkt (rehead h (u16 (zlen h + zlen payload)) 0) payload ∧
    fs_header s = Some h ∧ zlen payload = fs_totalLen s ∧
    (∀ f, f ∈ fs_fragments s → fr_offset f ≠ fs_totalLen s →
       ztake (fr_len f) (zdrop (fr_offset f) payload) = fr_data f) ∧
    (∀ i, 0 ≤ i < zlen payload → ∃ f, f ∈ fs_fragments s ∧
       fr_offset f ≤ i < fr_offset f + fr_len f ∧
       payload !! Z.to_nat i = fr_data f !! Z.to_nat (i - fr_offset f)) ∧
    ra_sets r' !! a_key a = None.
Proof.
  intros Hiter Hok Harr Hnh Hp.
  destruct (process_arrives iter now pooled r pb ipHdr a Harr) as [Hyes Hno].
  assert (Hoff : 0 ≤ a_off a) by (destruct Harr as (_ & (fo & _ & -> & ?) & _); lia).
  destruct (decide (acceptable a)) as [Hacc|Hacc]; [|rewrite Hno in Hp; done].
  rewrite Hyes in Hp by done. clear Hyes Hno.
  destruct (accept_step iter now pooled r a) as (r2 & Hstep & Hok2 & Es & _); try done.
  set (s := found_set _ _ _) in *. clearbody s. cbv zeta. inv_run.
  assert (Hk : ra_sets r2 !! a_key a = Some s) by (rewrite Es; apply lookup_insert_eq).
  rewrite Ha in Hstep.
  inversion Hstep as [| | | |s' pkt' h l1 l2 Hx Hy Heq Ef Hsort Ht Etot Eh Hle Hc Er| ]; subst.
  pose proof Heq as (Hperm & _ & Ehd & Ett & _).
  assert (Hsok : set_ok s')
    by (apply (set_ok_eq _ _ Heq), add_frag_ok; try done; by apply (ro_sets r2 Hok2 _ _ Hk)).
  rewrite <- Ehd, <- Ett. rewrite <- (zlen_payload_of l1) in Hc, Etot.
  exists h, (payload_of l1). pose proof (zlen_payload_of l1) as Lp.
  split_and!; try done.
  - intros f Hf Hne. rewrite <- Hperm, Ef in Hf.
    assert (Hl1 : f ∈ l1).
    { apply elem_of_app in Hf as [?|Hf]; [done|]. exfalso.
      destruct Hsok as [Hfr Hap _ _ _ _]. rewrite Ef in *.
      pose proof (beyond_apart l1 l2 Ht Hfr Hap) as Hb. rewrite !Forall_forall in *.
      specialize (Hb f Hf). specialize (Hle f Hf). lia. }
    destruct (tiles_lookup l1 0 f Ht Hl1) as (H1 & H2 & H3 & H4).
    apply list_eq_same_length with (Z.to_nat (fr_len f)); [unfold zlen; lia| |].
    + unfold ztake, zdrop, zlen in *. rewrite length_take, length_drop. lia.
    + intros i x y Hi. unfold ztake, zdrop. rewrite lookup_take_lt, lookup_drop by lia.
      rewrite <- H4, Z.sub_0_r by lia. congruence.
  - intros i Hi. destruct (tiles_covers l1 0 i Ht) as (f & Hf & Hr); [lia|].
    destruct (tiles_lookup l1 0 f Ht Hf) as (H1 & H2 & H3 & H4).
    exists f. split_and!; try lia.
    + rewrite <- Hperm, Ef. set_solver.
    + rewrite <- H4 by lia. f_equal. lia.
  - unfold releaseSetLocked. cbn. apply lookup_delete_eq.
Qed.

(** * Fragments of one datagram, in any order *)
Lemma tiles_apart_all l off : tiles l off → apart_all l.
Proof.
  revert off. induction l as [|f l IH]; intros off; cbn [tiles apart_all]; [done|].
  intros (Ho & Hlen & Ht). split; [|by eapply IH].
  apply Forall_forall. intros g Hg. left.
  destruct (tiles_lookup _ _ _ Ht Hg) as (? & _). lia.
Qed.

Lemma tiles_head_unique f l off g :
  tiles (f :: l) off → g ∈ f :: l → fr_offset g ≤ off → g = f.
Proof.
  intros (Ho & Hlen & Ht) [->|Hg]%elem_of_cons Hle; [done|].
  destruct (tiles_lookup _ _ _ Ht Hg) as (? & _). lia.
Qed.

(** Sorting the pieces by offset restores their order. *)
Lemma sorted_tiles l off k :
  tiles l off → k ≡ₚ l → Sorted offset_le k → k = l.
Proof.
  intros Ht Hp Hs%Sorted_StronglySorted; [|apply _].
  revert off k Ht Hp Hs. induction l as [|f l IH]; intros off k Ht Hp Hs.
  { by apply Permutation_nil_r in Hp. }
  destruct k as [|g k]; [by apply Permutation_nil_l in Hp|].
  assert (g = f) as ->.
  { apply (tiles_head_unique f l off); [done|rewrite <- Hp; left|].
    assert (Hf : f ∈ g :: k) by (rewrite Hp; left). destruct Ht as (<- & _).
    apply StronglySorted_inv in Hs as [_ Hall]. apply elem_of_cons in Hf as [->|Hf]; [done|].
    rewrite Forall_forall in Hall. by apply Hall. }
  f_equal. apply StronglySorted_inv in Hs as [Hs _]. destruct Ht as (_ & _ & Ht).
  eapply IH; try done. by eapply (inj (cons f)).
Qed.

Section own_datagram.
Context (l : list ipv4Fragment) (hdr : ipv4Fragment → bytes) (k : ipv4FragmentKey).
Context (Hl : tiles l 0) (Hmax : total_len l ≤ ipv4MaxPayloadSize).
Context (Hhdr : ∀ f, f ∈ l → 20 ≤ zlen (hdr f)).
Context (H8 : ∀ f, f ∈ l → fr_offset f + fr_len f < total_len l → fr_len f mod 8 = 0).

Definition arrival_of (f : ipv4Fragment) : arrival :=
  mkArrival k (fr_offset f) (fr_data f) (hdr f) (fr_offset f + fr_len f <? total_len l).

(** The set after the fragments [R] arrived. *)
Record holds_frags (s : ipv4FragmentSet) (R : list ipv4Fragment) : Prop := {
  hf_frags : fs_fragments s ≡ₚ R;
  hf_header_in : ∀ f, f ∈ R → fr_offset f = 0 → fs_header s = Some (hdr f);
  hf_total : fs_totalLen s = -1 ∨ fs_totalLen s = total_len l;
  hf_total_in : ∀ f, f ∈ R → fr_offset f + fr_len f = total_len l → fs_totalLen s = total_len l }.

Lemma piece_facts f :
  f ∈ l → 0 ≤ fr_offset f ∧ 0 < fr_len f ∧ fr_offset f + fr_len f ≤ total_len l ∧
    acceptable (arrival_of f).
Proof.
  intros Hf. destruct (tiles_lookup l 0 f Hl Hf) as (? & ? & ? & _).
  split_and!; try lia. split_and!; cbn; try lia. intros E. apply H8; [done|lia].
Qed.

Lemma piece_apart R f rest :
  R ++ f :: rest ≡ₚ l → Forall (apart f) R.
Proof.
  intros Hp. pose proof (tiles_apart_all l 0 Hl) as Ha. rewrite <- Hp in Ha.
  rewrite <- Permutation_middle in Ha. cbn in Ha. destruct Ha as [Ha _].
  by apply Forall_app in Ha as [? _].
Qed.

Lemma first_piece R f : R ++ [f] ≡ₚ l → ∃ f0 l', l = f0 :: l' ∧ f0 ∈ R ++ [f] ∧ fr_offset f0 = 0.
Proof.
  intros Hp. destruct l as [|f0 l'] eqn:E.
  - apply Permutation_nil_r, app_nil in Hp as [_ ?]. done.
  - exists f0, l'. split_and!; [done| |by destruct Hl]. rewrite Hp. left.
Qed.

Lemma last_piece m off :
  tiles m off → m ≠ [] → ∃ f, f ∈ m ∧ fr_offset f + fr_len f = off + total_len m.
Proof.
  revert off. induction m as [|f m IH]; intros off; [done|].
  cbn [tiles total_len]. intros (Ho & Hlen & Ht) _. destruct m as [|g m].
  - exists f. cbn. split; [left|lia].
  - destruct (IH _ Ht) as (f' & ? & ?); [done|]. exists f'. split; [by right|]. lia.
Qed.

Lemma add_piece s R f rest :
  holds_frags s R → R ++ f :: rest ≡ₚ l →
  holds_frags (add_frag s (arrival_of f)) (R ++ [f]) ∧ agrees s (arrival_of f).
Proof.
  intros [H1 H2 H3 H4] Hp.
  assert (Hin : ∀ g, g ∈ R ++ [f] → g ∈ l) by (intros g; rewrite <- Hp; set_solver).
  assert (Hf : f ∈ l) by (apply Hin; set_solver).
  destruct (piece_facts f Hf) as (? & ? & ? & _).
  assert (Hfr : frag_of (arrival_of f) = f) by by destruct f.
  split; [split|].
  - cbn [add_frag fs_fragments]. by rewrite Hfr, H1.
  - cbn [add_frag fs_header arrival_of a_off a_nh]. intros g Hg Hg0.
    assert (Hgl : g ∈ l) by auto.
    destruct (Z.eqb_spec (fr_offset f) 0) as [E|E].
    + assert (g = f) as ->.
      { destruct l as [|f0 l']; [by apply elem_of_nil in Hf|].
        rewrite (tiles_head_unique f0 l' 0 g), (tiles_head_unique f0 l' 0 f) by (done || lia).
        done. }
      unfold append_header. pose proof (Hhdr f Hf).
      by destruct (fs_header s), (hdr f).
    + apply elem_of_app in Hg as [Hg|Hg%list_elem_of_singleton]; [by apply H2|congruence].
  - cbn [add_frag fs_totalLen arrival_of a_more a_off a_data].
    destruct (Z.ltb_spec (fr_offset f + fr_len f) (total_len l)); [done|right; lia].
  - cbn [add_frag fs_totalLen arrival_of a_more a_off a_data]. intros g Hg Hend.
    destruct (Z.ltb_spec (fr_offset f + fr_len f) (total_len l)); [|lia].
    apply elem_of_app in Hg as [Hg|Hg%list_elem_of_singleton]; [by eapply H4|subst; lia].
  - intros Hm Ht. cbn in *. destruct H3 as [H3|H3]; lia.
Qed.

(** All there: the set is finished. *)
Lemma finished_all s R f :
  holds_frags s (R ++ [f]) → R ++ [f] ≡ₚ l → finished s = true.
Proof.
  intros [H1 H2 _ H4] Hp.
  destruct (first_piece R f Hp) as (f0 & l' & El & Hf0 & Ho).
  destruct (last_piece l 0 Hl) as (fl & Hfl & Hend); [by rewrite El|].
  pose proof (total_len_nonneg l).
  unfold finished. rewrite (H2 f0 Hf0 Ho), (H4 fl) by (by rewrite ?Hp).
  rewrite bool_decide_eq_true_2 by done.
  assert (Es : merge_sort offset_le (fs_fragments s) = l).
  { apply (sorted_tiles l 0 _ Hl); [|apply Sorted_merge_sort, _].
    by rewrite merge_sort_Permutation, H1. }
  pose proof (tiles_completeLoop l 0 Hl) as Hc. rewrite Z.add_0_l in Hc.
  rewrite Es, Hc by by rewrite El. cbn. lia.
Qed.

(** The state between two arrivals; [t0] is the time of the first one. *)
Record own_state (t0 T m0 : Z) (r : ipv4Reassembler) (R : list ipv4Fragment) : Prop := {
  os_ok : reasm_ok r;
  os_timeout : ra_timeout r = T;
  os_mem : ra_mem r ≤ m0 + total_len R;
  os_none : ra_sets r !! k = None → R = [];
  os_some : ∀ s, ra_sets r !! k = Some s → holds_frags s R ∧ t0 ≤ fs_createdAt s }.

Lemma own_found iter now t0 T m0 r R :
  (∀ m, iter m ≡ₚ map_to_list m) → own_state t0 T m0 r R → t0 ≤ now ≤ t0 + T →
  let s := found_set (evictExpiredLocked iter r now) now k in
  holds_frags s R ∧ t0 ≤ fs_createdAt s.
Proof.
  intros Hiter [Hok HT Hm Hn Hs] Hnow s. subst s. unfold found_set.
  destruct (evict_ok iter Hiter r now Hok) as (_ & _ & _ & Hlk).
  destruct (ra_sets (evictExpiredLocked iter r now) !! k) as [s|] eqn:E; cbn.
  { apply Hlk in E as [E _]. by apply Hs. }
  destruct (ra_sets r !! k) as [s|] eqn:E'.
  { destruct (Hs s eq_refl). exfalso. assert (live now (ra_timeout r) s) as Hlive by (unfold live; lia).
    pose proof (proj2 (Hlk k s) (conj E' Hlive)). congruence. }
  rewrite (Hn eq_refl). split; [|lia]. split; cbn; try done;
    try (by left); by intros f ?%elem_of_nil.
Qed.

(** A set counts as complete only when every piece is there. *)
Lemma completed_whole s R f rest l1 l2 :
  holds_frags s (R ++ [f]) → R ++ f :: rest ≡ₚ l → fs_fragments s ≡ₚ l1 ++ l2 →
  Sorted offset_le (l1 ++ l2) → fs_totalLen s = total_len l1 → rest = [] ∧ l1 = l.
Proof.
  intros [H1 _ H3 _] Hp Hp1 Hsort Etot.
  assert (Hl12 : l1 ++ l2 ≡ₚ R ++ [f]) by by rewrite <- Hp1.
  assert (Hlens : total_len l1 + total_len l2 = total_len R + fr_len f ∧
                  total_len R + fr_len f + total_len rest = total_len l).
  { rewrite <- total_len_app, Hl12, <- Hp, !total_len_app. cbn [total_len]. lia. }
  assert (Hpos : ∀ m, (∀ g, g ∈ m → g ∈ l) → total_len m ≤ 0 → m = []).
  { intros [|g m] Hm; [done|]. cbn [total_len]. pose proof (total_len_nonneg m).
    destruct (piece_facts g) as (_ & ? & _); [apply Hm; left|lia]. }
  pose proof (total_len_nonneg l1). pose proof (total_len_nonneg l2).
  pose proof (total_len_nonneg rest).
  assert (rest = []) as ->.
  { apply Hpos; [intros g; rewrite <- Hp; set_solver|lia]. }
  assert (E12 : l1 ++ l2 = l) by (apply (sorted_tiles l 0); [done|by rewrite Hl12|done]).
  assert (l2 = []) as ->.
  { apply Hpos; [intros g; rewrite <- E12; set_solver|]. cbn [total_len] in *. lia. }
  by rewrite app_nil_r in E12.
Qed.

(** A piece that is stored, there being room. *)
Lemma own_stored iter now t0 T m0 r r2 s s' R f :
  (∀ m, iter m ≡ₚ map_to_list m) → own_state t0 T m0 r R →
  reasm_ok (store r2 k s' (fr_len f)) → ra_mem r2 ≤ ra_mem r → ra_timeout r2 = ra_timeout r →
  set_eq s' (add_frag s (arrival_of f)) → t0 ≤ fs_createdAt s →
  holds_frags (add_frag s (arrival_of f)) (R ++ [f]) →
  m0 + total_len R + fr_len f ≤ ipv4ReassemblyHighThreshold → t0 ≤ now →
  trimMemoryLocked iter (store r2 k s' (fr_len f)) = Ret (store r2 k s' (fr_len f)) ∧
  own_state t0 T m0 (store r2 k s' (fr_len f)) (R ++ [f]).
Proof.
  intros Hiter [_ HT HmR _ _] Hst Hm Et Heq Hcr Hs' Hroom _.
  destruct (trimMemory_ok iter Hiter _ Hst) as (r3 & E3 & _ & _ & _ & _ & _ & Hid).
  rewrite E3, Hid by (cbn; lia). split; [done|]. split; cbn; try done.
  - by rewrite Et.
  - rewrite total_len_app. cbn [total_len]. lia.
  - by rewrite lookup_insert_eq.
  - rewrite lookup_insert_eq. intros s0 [= <-]. destruct Heq as (Hp1 & Hc1 & Hh1 & Ht1 & _).
    split; [|rewrite Hc1; done]. destruct Hs'. split; rewrite ?Hh1, ?Ht1; try done. by rewrite Hp1.
Qed.

Lemma own_step iter now pooled t0 T m0 r R f rest :
  (∀ m, iter m ≡ₚ map_to_list m) → own_state t0 T m0 r R → R ++ f :: rest ≡ₚ l →
  t0 ≤ now ≤ t0 + T → m0 + total_len l ≤ ipv4ReassemblyHighThreshold →
  ∃ r', (if decide (rest = [])
    then ∃ pkt f0, accept iter now pooled r (arrival_of f) = Ret (r', Some pkt) ∧
           f0 ∈ l ∧ fr_offset f0 = 0 ∧
           carries pkt (rehead (hdr f0) (u16 (zlen (hdr f0) + total_len l)) 0) (payload_of l)
    else accept iter now pooled r (arrival_of f) = Ret (r', None) ∧
           own_state t0 T m0 r' (R ++ [f])).
Proof.
  intros Hiter Hown Hp Hnow Hhigh.
  assert (Hf : f ∈ l) by (rewrite <- Hp; set_solver).
  destruct (piece_facts f Hf) as (Hoff & Hlen & Hend & Hacc).
  destruct (own_found _ _ _ _ _ _ _ Hiter Hown Hnow) as [Hs Hcr].
  destruct (evict_ok iter Hiter r now (os_ok _ _ _ _ _ Hown)) as (_ & _ & Hm1 & _).
  destruct (accept_step iter now pooled r (arrival_of f)) as (r2 & Hstep & Hok2 & Es & Em & Et);
    [done|apply Hown|done|done|by apply Hhdr|]. cbn [arrival_of a_key] in *.
  set (s := found_set _ _ _) in *. clearbody s.
  pose proof (os_mem _ _ _ _ _ Hown) as HmR. pose proof (os_timeout _ _ _ _ _ Hown) as HT.
  destruct (add_piece s R f rest Hs Hp) as [Hs' Hag].
  assert (Hap : Forall (apart f) (fs_fragments s)).
  { destruct Hs as [Hperm _ _ _]. rewrite Forall_forall. setoid_rewrite Hperm.
    rewrite <- Forall_forall. by eapply piece_apart. }
  assert (Hfr : frag_of (arrival_of f) = f) by by destruct f.
  assert (Htl : total_len R + fr_len f + total_len rest = total_len l)
    by (rewrite <- Hp, total_len_app; cbn [total_len]; lia).
  pose proof (total_len_nonneg rest).
  inversion Hstep as [Hx Eo|Hx Eo|Hx Hy Eo|s' r' Hx Hy Heq Hfin Etrim Eo
    |s' pkt h l1 l2 Hx Hy Heq Ef Hsort Ht Etot Eh Hle Hc Eo|g Hx Hy _ Hg Hlt Eo];
    rewrite ?Hfr in Hx; [done..| | |].
  - exists r'. case_decide as Hrest.
    { subst rest. rewrite (finished_all _ R f Hs' Hp) in Hfin. done. }
    assert (Hst : reasm_ok (store r2 k s' (fr_len f))).
    { apply (store_ok r2 k s (arrival_of f)); try done;
        [rewrite Es; apply lookup_insert_eq|by apply Hhdr]. }
    destruct (own_stored iter now t0 T m0 r r2 s s' R f) as [E3 Hown']; try done; [lia..|].
    cbn [arrival_of a_data] in Etrim. rewrite Etrim in E3. injection E3 as ->. done.
  - destruct Heq as (Hp1 & _ & Hh1 & Ht1 & _).
    destruct (completed_whole _ R f rest l1 l2 Hs' Hp) as [-> ->];
      [by rewrite <- Hp1, Ef|done|by rewrite <- Ht1|].
    eexists. case_decide as Hrest; [|done].
    destruct (first_piece R f Hp) as (f0 & l' & El & Hf0 & Ho0).
    exists pkt, f0. split_and!; [done|by rewrite <- Hp|done|].
    rewrite Hh1, (hf_header_in _ _ Hs' f0 Hf0 Ho0) in Eh. by injection Eh as <-.
  - exfalso. destruct Hs' as [H1 _ H3 _]. rewrite H1 in Hg.
    destruct (piece_facts g) as (_ & ? & ? & _); [rewrite <- Hp; set_solver|].
    lia.
Qed.
End own_datagram.

(** * Splitting, then reassembling *)

(** One call of [process]: the packet and everything the call depends on. *)
Record frag_event := mkEvent {
  ev_iter : map_order;
  ev_now : Z;
  ev_pooled : PacketBuffer;
  ev_pb : PacketBuffer;
  ev_raw : bytes }.

Fixpoint process_all (r : ipv4Reassembler) (evs : list frag_event) :
    outcome (ipv4Reassembler * list (option PacketBuffer)) :=
  match evs with
  | [] => Ret (r, [])
  | ev :: evs =>
      '(r, res, _) ← process (ev_iter ev) (ev_now ev) (ev_pooled ev) r (ev_pb ev) (ev_raw ev);
      '(r, out) ← process_all r evs;
      Ret (r, res :: out)
  end.

(** The read loop's view of a packet whose header has [n] bytes, at a time
    between [t0] and [t1]. *)
Definition delivered (n t0 t1 : Z) (ev : frag_event) : Prop :=
  (∀ m, ev_iter ev m ≡ₚ map_to_list m) ∧ t0 ≤ ev_now ev ≤ t1 ∧
  carries (ev_pb ev) (ztake n (ev_raw ev)) (zdrop n (ev_raw ev)).

Section run.
Context (l : list ipv4Fragment) (hdr : ipv4Fragment → bytes) (k : ipv4FragmentKey).
Context (Hl : tiles l 0) (Hmax : total_len l ≤ ipv4MaxPayloadSize).
Context (Hhdr : ∀ f, f ∈ l → 20 ≤ zlen (hdr f)).
Context (H8 : ∀ f, f ∈ l → fr_offset f + fr_len f < total_len l → fr_len f mod 8 = 0).

(** The event carries the piece [f]. *)
Definition brings (ev : frag_event) (f : ipv4Fragment) : Prop :=
  arrives (ev_pb ev) (ev_raw ev) (arrival_of l hdr k f).

Lemma process_all_own t0 T m0 evs fs r R :
  Forall2 brings evs fs → fs ≠ [] → R ++ fs ≡ₚ l →
  Forall (λ ev, (∀ m, ev_iter ev m ≡ₚ map_to_list m) ∧ t0 ≤ ev_now ev ≤ t0 + T) evs →
  own_state l hdr k t0 T m0 r R → m0 + total_len l ≤ ipv4ReassemblyHighThreshold →
  ∃ r' pkt f0, process_all r evs = Ret (r', replicate (length evs - 1) None ++ [Some pkt]) ∧
    f0 ∈ l ∧ fr_offset f0 = 0 ∧
    carries pkt (rehead (hdr f0) (u16 (zlen (hdr f0) + total_len l)) 0) (payload_of l).
Proof.
  intros Hb. revert r R. induction Hb as [|ev f evs fs Hev Hb IH]; [done|].
  intros r R _ Hp Hevs Hown Hhigh. apply Forall_cons in Hevs as [[Hiter Hnow] Hevs].
  destruct (piece_facts l hdr k Hl Hmax H8 f) as (_ & _ & _ & Hacc); [rewrite <- Hp; set_solver|].
  destruct (process_arrives (ev_iter ev) (ev_now ev) (ev_pooled ev) r _ _ _ Hev) as [Hproc _].
  destruct (own_step l hdr k Hl Hmax Hhdr H8 (ev_iter ev) (ev_now ev) (ev_pooled ev)
    t0 T m0 r R f fs) as (r1 & Hout); try done.
  cbn [process_all]. rewrite Hproc by done. case_decide as Hfs.
  - destruct Hout as (pkt & f0 & -> & Hf0 & Ho0 & Hc). subst fs. inversion Hb; subst.
    exists r1, pkt, f0. by split_and!.
  - destruct Hout as [-> Hown1].
    destruct (IH r1 (R ++ [f])) as (r' & pkt & f0 & E & Hrest); try done;
      [by rewrite <- app_assoc|].
    exists r', pkt, f0. split; [|done]. cbn. rewrite E. cbn.
    destruct evs; [by inversion Hb; subst|]. cbn. by rewrite Nat.sub_0_r.
Qed.
End run.

(** A packet as [SendPacket] builds it: no fragment bits, and the header
    checksum in place. *)
Record built_packet (h payload : bytes) : Prop := {
  bp_bytes : bytes_ok h;
  bp_len : 20 ≤ zlen h;
  bp_hlen : HeaderLength h = Ret (zlen h);
  bp_total : TotalLength h = Ret (zlen h + zlen payload);
  bp_frag : read16 h 6 = Ret 0;
  bp_csum : ∃ h0, SetChecksum h 0 = Ret h0 ∧ HChecksum h = Ret (Checksum h0 0) }.

Definition packet_key (h : bytes) (k : ipv4FragmentKey) : Prop :=
  SourceAddress h = Ret (k_src k) ∧ DestinationAddress h = Ret (k_dst k) ∧
  ID h = Ret (k_id k) ∧ Protocol h = Ret (k_proto k).

Lemma rehead_rehead h a b c d : 20 ≤ zlen h → rehead (rehead h a b) c d = rehead h c d.
Proof. intros Hh. unfold rehead. by rewrite !stamp_stamp. Qed.

Section built.
Context (h payload : bytes) (Hb : built_packet h payload).

Lemma built_total : is_u16 (zlen h + zlen payload).
Proof. destruct Hb. by eapply read16_range. Qed.

Lemma built_flags : Flags h = Ret 0.
Proof.
  destruct Hb as [Hby Hh _ _ Hf _]. explode h. rewrite !Forall_cons in Hby.
  destruct Hby as (_&_&_&_&_&_&?&?&_). unfold Flags. cbn in Hf |- *.
  injection Hf as Hf. unfold be16 in Hf. assert (x5 = 0) as -> by ulia. done.
Qed.

(** Stamping it with its own length and no fragment bits gives it back. *)
Lemma built_rehead : rehead h (u16 (zlen h + zlen payload)) 0 = h.
Proof.
  pose proof built_total as Ht. rewrite u16_id by done.
  destruct Hb as [Hby Hh _ Hl Hf (h0 & E0 & Ec)].
  assert (Es : stamp h (zlen h + zlen payload) 0 (Checksum h0 0) = h) by by apply stamp_same.
  assert (E : stamp h (zlen h + zlen payload) 0 0 = h0).
  { rewrite <- Es, SetChecksum_stamp in E0 by done. by injection E0. }
  unfold rehead. by rewrite E.
Qed.

Context (k : ipv4FragmentKey) (Hk : packet_key h k).

Definition piece_header (f : ipv4Fragment) : bytes :=
  rehead h (u16 (zlen h + fr_len f))
    (flagsFrag (if fr_offset f + fr_len f <? zlen payload then IPv4FlagMoreFragments else 0)
       (u16 (fr_offset f / 8))).

Lemma built_packet_of_piece f :
  fragment_packet h 0 (zlen payload) f = piece_header f ++ fr_data f.
Proof. reflexivity. Qed.

Lemma zlen_piece_header f : zlen (piece_header f) = zlen h.
Proof. destruct Hb. by apply zlen_stamp. Qed.

(** The read loop's view of a fragment brings its piece. *)
Lemma built_brings l ev f t0 t1 :
  total_len l = zlen payload → 0 ≤ fr_offset f → (8 | fr_offset f) →
  fr_offset f + fr_len f ≤ zlen payload →
  ev_raw ev = fragment_packet h 0 (zlen payload) f → delivered (zlen h) t0 t1 ev →
  brings l piece_header k ev f.
Proof.
  intros Htl Ho [q Hq] He Eraw (_ & _ & [Hc1 Hc2]).
  pose proof built_total as Ht. pose proof (zlen_nonneg (fr_data f)).
  destruct Hb as [Hby Hh _ _ _ _]. unfold is_u16 in Ht.
  assert (Eoff : u16 (fr_offset f / 8) = q).
  { rewrite Hq, Z.div_mul, u16_id by ulia. done. }
  set (fl := if fr_offset f + fr_len f <? zlen payload then IPv4FlagMoreFragments else 0).
  assert (Hfl : 0 ≤ fl < 8) by (subst fl; unfold IPv4FlagMoreFragments; case_if; lia).
  destruct (rehead_getters h (fr_data f) (u16 (zlen h + fr_len f)) fl q Hh Hby Hfl ltac:(lia))
    as (G1 & G2 & _ & G3 & G4 & G5 & G6 & _).
  rewrite built_packet_of_piece in Eraw. unfold piece_header in Eraw. fold fl in Eraw.
  rewrite Eoff in Eraw. rewrite <- Eraw in *. destruct Hk as (K1 & K2 & K3 & K4).
  unfold brings, arrives. cbn [arrival_of a_key a_off a_data a_nh a_more].
  split_and!; try congruence.
  - rewrite Eraw in Hc1, Hc2.
    assert (L : zlen (rehead h (u16 (zlen h + fr_len f)) (flagsFrag fl q)) = zlen h)
      by by apply zlen_stamp.
    rewrite ztake_app_le, ztake_all in Hc1 by lia. rewrite zdrop_app_ge, L, Z.sub_diag, zdrop_0 in Hc2 by lia.
    split; [|done]. unfold piece_header. fold fl. by rewrite Eoff.
  - exists q. split_and!; [done|lia|lia].
  - rewrite G2, Htl. subst fl. by case_if.
Qed.
End built.

(** The pieces for a link with room for [m] payload bytes, [m] a multiple of
    8. *)
Lemma pieces_ok payload m q :
  0 < m → m = 8 * q → let l := pieces (S (length payload)) payload m 0 in
  tiles l 0 ∧ payload_of l = payload ∧ total_len l = zlen payload ∧
  ∀ f, f ∈ l → 0 ≤ fr_offset f ∧ (8 | fr_offset f) ∧ fr_len f ≤ m ∧
    fr_offset f + fr_len f ≤ zlen payload ∧
    (fr_offset f + fr_len f < total_len l → fr_len f mod 8 = 0).
Proof.
  intros Hm Eq l.
  destruct (pieces_tile (S (length payload)) payload m 0) as (Htiles & Hpl & Hall);
    [lia|lia|unfold zlen; lia|]. fold l in Htiles, Hpl, Hall. rewrite zdrop_0 in Hpl by lia.
  assert (Hlen : total_len l = zlen payload) by by rewrite <- zlen_payload_of, Hpl.
  split_and!; try done. rewrite Forall_forall in Hall. intros f Hf.
  destruct (Hall f Hf) as (H1 & [z Hz] & H2 & H3 & H4). split_and!; try lia.
  - exists (z * q). lia.
  - intros Hlt. destruct H3 as [H3|H3]; [lia|]. rewrite H3, Eq, Z.mul_comm. by apply Z.mod_mul.
Qed.

(** The pieces of a packet, and their reassembly. *)
Lemma fragments_reassemble h payload mtu k r t0 :
  built_packet h payload → packet_key h k →
  zlen h + 8 ≤ mtu → mtu < zlen h + zlen payload →
  reasm_ok r → ra_sets r !! k = None → 0 ≤ ra_timeout r →
  ra_mem r + zlen payload ≤ ipv4ReassemblyHighThreshold →
  ∃ l, fragmentIPv4Packet (h ++ payload) mtu =
      Ret (Some (fragment_packet h 0 (zlen payload) <$> l)) ∧
    (∀ f, f ∈ l → 0 ≤ fr_offset f ∧ (8 | fr_offset f) ∧ 0 < fr_len f ≤ mtu - zlen h ∧
       fr_offset f + fr_len f ≤ zlen payload) ∧
    ∀ evs, (ev_raw <$> evs) ≡ₚ (fragment_packet h 0 (zlen payload) <$> l) →
      Forall (delivered (zlen h) t0 (t0 + ra_timeout r)) evs →
      ∃ r' pkt, process_all r evs = Ret (r', replicate (length evs - 1) None ++ [Some pkt]) ∧
        carries pkt h payload.
Proof.
  intros Hb Hk Hmtu Hbig Hr Hnone HT Hmem. pose proof Hb as [Hby Hh Ehl Etl Ef _].
  pose proof (built_total h payload Hb) as Ht. unfold is_u16 in Ht.
  pose proof (fragmentIPv4Packet_splits h payload [] mtu 0 Hh Ehl Etl (built_flags h payload Hb)
    eq_refl Hmtu Hbig) as Efr. rewrite app_nil_r in Efr. cbn zeta in Efr.
  change (Z.ldiff 0 IPv4FlagMoreFragments) with 0 in Efr.
  set (m := 8 * ((mtu - zlen h) / 8)) in *.
  assert (Hm : 0 < m ≤ mtu - zlen h).
  { pose proof (Z_div_mod_eq_full (mtu - zlen h) 8).
    pose proof (Z.mod_pos_bound (mtu - zlen h) 8). lia. }
  destruct (pieces_ok payload m _ ltac:(lia) eq_refl) as (Htiles & Hpl & Hlen & Hin).
  set (l := pieces _ payload m 0) in *. clearbody l.
  exists l. split; [exact Efr|]. split.
  { intros f Hf. destruct (Hin f Hf) as (? & ? & ? & ? & _).
    destruct (tiles_lookup l 0 f Htiles Hf) as (_ & _ & ? & _). split_and!; done || lia. }
  intros evs Hperm Hdel.
  destruct (Permutation_map_inv _ _ Hperm) as (fs & Eraw & Hfs).
  rewrite Forall_forall in Hdel.
  assert (Hbr : Forall2 (brings l (piece_header h payload) k) evs fs).
  { apply (Forall2_map_eq _ _ _ _ _ Eraw). intros ev f Hev Hf E. rewrite <- Hfs in Hf.
    destruct (Hin f Hf) as (? & ? & ? & ? & _). by eapply built_brings; eauto. }
  assert (Hne : fs ≠ []).
  { intros ->. apply Permutation_nil_r in Hfs. subst l. cbn in *.
    rewrite <- Hlen in Hbig. lia. }
  destruct (process_all_own l (piece_header h payload) k Htiles
    ltac:(unfold ipv4MaxPayloadSize, IPv4MinHeaderSize; lia)
    ltac:(intros; by rewrite zlen_piece_header) ltac:(intros f Hf; by destruct (Hin f Hf) as (_ & _ & _ & _ & ?))
    t0 (ra_timeout r) (ra_mem r) evs fs r []) as (r' & pkt & f0 & Eall & Hf0 & Ho0 & Hc);
    try done.
  { apply Forall_forall. intros ev Hev. by destruct (Hdel ev Hev) as (? & ? & _). }
  { split; rewrite ?Hnone; try done; cbn; lia. }
  { lia. }
  exists r', pkt. split; [done|].
  rewrite zlen_piece_header, Hlen, Hpl in Hc by done.
  unfold piece_header in Hc. rewrite rehead_rehead, built_rehead in Hc by done. done.
Qed.

(** C3: splitting and reassembling are inverse.  A packet too large for the
    link, as [SendPacket] builds it, is split into fragments that fit the
    link; when they are received in any order within the reassembly timeout,
    with room in the reassembly memory, every one but the last received is
    absorbed, and the last one received gives back the packet, header and
    payload byte for byte. *)
Theorem fragment_reassemble_any_order h payload mtu k r t0 :
  built_packet h payload → packet_key h k →
  zlen h + 8 ≤ mtu → mtu < zlen h + zlen payload →
  reasm_ok r → ra_sets r !! k = None → 0 ≤ ra_timeout r →
  ra_mem r + zlen payload ≤ ipv4ReassemblyHighThreshold →
  ∃ frags, fragmentIPv4Packet (h ++ payload) mtu = Ret (Some frags) ∧
    Forall (λ f, zlen f ≤ mtu) frags ∧
    ∀ evs, (ev_raw <$> evs) ≡ₚ frags →
      Forall (delivered (zlen h) t0 (t0 + ra_timeout r)) evs →
      ∃ r' pkt, process_all r evs = Ret (r', replicate (length evs - 1) None ++ [Some pkt]) ∧
        carries pkt h payload.
Proof.
  intros Hb Hk Hmtu Hbig Hr Hnone HT Hmem.
  destruct (fragments_reassemble h payload mtu k r t0) as (l & Efr & Hin & Hre); try done.
  eexists. split; [exact Efr|]. split; [|exact Hre].
  rewrite Forall_fmap, Forall_forall. intros f Hf. cbn.
  destruct (Hin f Hf) as (_ & _ & ? & _).
  rewrite built_packet_of_piece, zlen_app, zlen_piece_header by done. lia.
Qed.

(** A received packet in a buffer of its own. *)
Definition received (raw : bytes) (n : Z) : PacketBuffer :=
  mkPacketBuffer raw 0 0 (Some (mkView 0 n)) None (Some (mkView n (zlen raw - n))).

Definition sample_header : bytes :=
  [69; 0; 0; 44; 0; 7; 0; 0; 64; 17; 102; 184; 10; 0; 0; 1; 10; 0; 0; 2].
Definition sample_payload : bytes := Z.of_nat <$> seq 1 24.
Definition sample_key : ipv4FragmentKey := mkKey (From4 10 0 0 1) (From4 10 0 0 2) 7 17.

Lemma sample_built : built_packet sample_header sample_payload.
Proof.
  split; try reflexivity; try done.
  - repeat constructor; lia.
  - eexists. split; reflexivity.
Qed.

Definition sample_frag (len ff c : Z) (d : bytes) : bytes :=
  [69; 0; 0; len; 0; 7; ff / 256; ff mod 256; 64; 17; c / 256; c mod 256;
   10; 0; 0; 1; 10; 0; 0; 2] ++ d.
Definition sample_frag1 : bytes := sample_frag 36 8192 18112 (Z.of_nat <$> seq 1 16).
Definition sample_frag2 : bytes := sample_frag 28 2 26310 (Z.of_nat <$> seq 17 8).
Definition sample_event (now : Z) (raw : bytes) : frag_event :=
  mkEvent map_to_list now pool_New (received raw 20) raw.

Lemma fragment_reassemble_any_order_witness :
  ∃ r' pkt,
    process_all newIPv4Reassembler [sample_event 5 sample_frag2; sample_event 9 sample_frag1]
      = Ret (r', [None; Some pkt]) ∧
    carries pkt sample_header sample_payload.
Proof.
  destruct (fragment_reassemble_any_order sample_header sample_payload 36 sample_key
    newIPv4Reassembler 0) as (frags & E & _ & H); try reflexivity; try (vm_compute; congruence).
  - apply sample_built.
  - split_and!; reflexivity.
  - split; [apply map_Forall_empty|reflexivity].
  - assert (frags = [sample_frag1; sample_frag2]) as ->.
    { vm_compute in E. injection E as <-. reflexivity. }
    apply (H [sample_event 5 sample_frag2; sample_event 9 sample_frag1]).
    + apply Permutation_swap.
    + repeat apply Forall_cons_2; [..|apply Forall_nil_2];
        (split; [done|split; [vm_compute; split; congruence|split; reflexivity]]).
Defined.

(** C27: the fragments of one datagram do not disturb another.  With room in
    the memory, a set that has not expired survives any fragment of a
    different key unchanged. *)
Theorem other_datagrams_undisturbed iter now pooled r pb ipHdr a k s r' res pb' :
  (∀ m, iter m ≡ₚ map_to_list m) → reasm_ok r → arrives pb ipHdr a → 20 ≤ zlen (a_nh a) →
  ra_mem r + zlen (a_data a) ≤ ipv4ReassemblyHighThreshold →
  ra_sets r !! k = Some s → live now (ra_timeout r) s → a_key a ≠ k →
  process iter now pooled r pb ipHdr = Ret (r', res, pb') →
  ra_sets r' !! k = Some s.
Proof.
  intros Hiter Hok Harr Hnh Hmem Hk Hlive Hne Hp.
  destruct (process_arrives iter now pooled r pb ipHdr a Harr) as [Hyes Hno].
  assert (Hoff : 0 ≤ a_off a) by (destruct Harr as (_ & (fo & _ & -> & ?) & _); lia).
  destruct (decide (acceptable a)) as [Hacc|Hacc]; [|rewrite Hno in Hp by done; congruence].
  rewrite Hyes in Hp by done. clear Hyes Hno.
  destruct (accept_step iter now pooled r a) as (r2 & Hstep & Hok2 & Es & Em & _); try done.
  destruct (evict_ok iter Hiter r now Hok) as (_ & _ & Hm1 & Hlk).
  set (s1 := found_set _ _ _) in *. clearbody s1. inv_run. rewrite Ha in Hstep.
  assert (Hk2 : ra_sets r2 !! k = Some s).
  { rewrite Es, lookup_insert_ne by done. by apply Hlk. }
  assert (Hks : ra_sets r2 !! a_key a = Some s1) by (rewrite Es; apply lookup_insert_eq).
  inversion Hstep as [Hx Eo|Hx Eo|Hx Hy Eo|s' r3 Hx Hy Heq Hfin Etrim Eo
    |s' pkt h l1 l2 Hx Hy Heq _ _ _ _ _ _ _ Eo|]; subst; try done; cbn;
    rewrite ?lookup_delete_ne, ?lookup_insert_ne by done; try done.
  pose proof (store_ok r2 _ s1 a Hok2 Hks Hacc Hoff Hnh s' Heq Hx) as Hst.
  destruct (trimMemory_ok iter Hiter _ Hst) as (r4 & E4 & _ & _ & _ & _ & _ & Hid).
  rewrite Etrim in E4. injection E4 as ->. rewrite Hid by (cbn; lia). cbn.
  by rewrite lookup_insert_ne.
Qed.

(** ** Instances *)
Definition sample_arrival1 : arrival :=
  mkArrival sample_key 0 (Z.of_nat <$> seq 1 16) (ztake 20 sample_frag1) true.
Definition sample_arrival2 : arrival :=
  mkArrival sample_key 16 (Z.of_nat <$> seq 17 8) (ztake 20 sample_frag2) false.
(** The state after the second fragment. *)
Definition sample_state : ipv4Reassembler :=
  mkReassembler {[ sample_key := mkFragmentSet 5 None
    [mkFragment 16 (Z.of_nat <$> seq 17 8)] 24 8 ]} 8 ipv4ReassemblyTimeout.

Lemma sample_arrives1 : arrives (received sample_frag1 20) sample_frag1 sample_arrival1.
Proof.
  split; [split; reflexivity|]. split; [exists 0; done|]. split_and!; reflexivity.
Qed.
Lemma sample_arrives2 : arrives (received sample_frag2 20) sample_frag2 sample_arrival2.
Proof.
  split; [split; reflexivity|]. split; [exists 2; done|]. split_and!; reflexivity.
Qed.

Lemma empty_reasm_ok : reasm_ok newIPv4Reassembler.
Proof. split; [apply map_Forall_empty|reflexivity]. Qed.

Lemma sample_state_ok : reasm_ok sample_state.
Proof.
  split; [|reflexivity]. apply map_Forall_singleton. split; cbn; try done.
  - repeat apply Forall_cons_2; [|done]. by split_and!; vm_compute.
  - right. eexists. split; [left|reflexivity].
Qed.

Lemma process_keeps_invariant_witness :
  ∃ r', process map_to_list 5 pool_New newIPv4Reassembler (received sample_frag2 20) sample_frag2
      = Ret (r', None, Release (received sample_frag2 20)) ∧
    reasm_ok r' ∧ ra_mem r' ≤ ipv4ReassemblyHighThreshold.
Proof.
  pose proof (process_keeps_invariant map_to_list 5 pool_New newIPv4Reassembler
    (received sample_frag2 20) sample_frag2 sample_arrival2 (λ m, reflexivity _)
    empty_reasm_ok ltac:(vm_compute; congruence) sample_arrives2
    ltac:(vm_compute; congruence)) as H.
  set (out := process _ _ _ _ _ _) in *. vm_compute in out. subst out. cbv iota in H.
  destruct H as (H1 & H2 & H3). eexists. split; [reflexivity|]. done.
Defined.

Lemma reassembled_from_fragments_witness :
  ∃ pkt h payload, 
    process map_to_list 9 pool_New sample_state (received sample_frag1 20) sample_frag1
      = Ret (newIPv4Reassembler, Some pkt, Release (received sample_frag1 20)) ∧
    carries pkt (rehead h (u16 (zlen h + zlen payload)) 0) payload ∧ zlen payload = 24.
Proof.
  destruct (process map_to_list 9 pool_New sample_state (received sample_frag1 20) sample_frag1)
    as [[[r' [pkt|]] pb']| |] eqn:E; [|vm_compute in E; discriminate E..].
  destruct (reassembled_from_fragments map_to_list 9 pool_New sample_state
    (received sample_frag1 20) sample_frag1 sample_arrival1 r' pkt pb'
    (λ m, reflexivity _) sample_state_ok sample_arrives1 ltac:(vm_compute; congruence) E)
    as (h & payload & Hc & _ & Hlen & _).
  exists pkt, h, payload. split; [|split; [exact Hc|exact Hlen]].
  vm_compute in E. injection E as <- <- <-. reflexivity.
Defined.

Definition other_state : ipv4Reassembler :=
  mkReassembler {[ mkKey 1 2 3 4 := mkFragmentSet 5 None [] (-1) 0 ]} 0 100.
Lemma other_state_ok : reasm_ok other_state.
Proof. split; [|reflexivity]. apply map_Forall_singleton, fresh_set_ok. Qed.

Lemma other_datagrams_undisturbed_witness :
  ∃ r' res pb',
    process map_to_list 9 pool_New other_state (received sample_frag2 20) sample_frag2
      = Ret (r', res, pb') ∧
    ra_sets r' !! mkKey 1 2 3 4 = Some (mkFragmentSet 5 None [] (-1) 0).
Proof.
  destruct (process map_to_list 9 pool_New other_state (received sample_frag2 20) sample_frag2)
    as [[[r' res] pb']| |] eqn:E; [|vm_compute in E; discriminate E..].
  exists r', res, pb'. split; [reflexivity|].
  refine (other_datagrams_undisturbed map_to_list 9 pool_New _ _ _ sample_arrival2 _ _ r' res pb'
    (λ m, reflexivity _) other_state_ok sample_arrives2 _ _ _ _ _ E); vm_compute; congruence.
Defined.

(** * Findings *)





(** Trimming as it would be without the low mark. *)
Fixpoint trimToHigh (iter : map_order) (fuel : nat) (r : ipv4Reassembler) :
    outcome ipv4Reassembler :=
  match fuel with
  | O => OutOfFuel
  | S fuel =>
      if ra_mem r >? ipv4ReassemblyHighThreshold then
        match oldestSet (iter (ra_sets r)) with
        | None => Ret r
        | Some (key, set) => trimToHigh iter fuel (releaseSetLocked r key set)
        end
      else Ret r
  end.

(** The low-water mark has no effect.  The loop stops as soon as the
    memory is at or below the high mark, so trimming with the 3 MiB mark and
    without it do the same. *)
Theorem low_mark_unused iter r :
  (∀ m, iter m ≡ₚ map_to_list m) → reasm_ok r →
  trimMemoryLocked iter r = trimToHigh iter (S (size (ra_sets r))) r.
Proof.
  intros Hiter Hr. unfold trimMemoryLocked.
  enough (G : ∀ fuel r, reasm_ok r → (size (ra_sets r) < fuel)%nat →
    trimLoop iter fuel r = trimToHigh iter fuel r) by (apply G; [done|lia]).
  clear r Hr. induction fuel as [|fuel IH]; intros r Hr Hf; [lia|]. cbn [trimLoop trimToHigh].
  case_if; [|done]. destruct (oldestSet _) as [[k s]|] eqn:Eo; [|done].
  apply oldestSet_Some in Eo as [Hin _]. apply (iter_lookup iter Hiter) in Hin.
  destruct (releaseSetLocked_ok r k s s Hr Hin eq_refl) as [E Hr'].
  assert (Hsz : (size (ra_sets (releaseSetLocked r k s)) < fuel)%nat).
  { rewrite E. cbn. rewrite map_size_delete_Some by done.
    pose proof (map_size_ne_0_lookup_2 (ra_sets r) k ltac:(by eexists)). lia. }
  rewrite <- IH by done. case_if; [|done].
  destruct fuel as [|fuel]; [lia|]. cbn [trimLoop].
  assert (ipv4ReassemblyLowThreshold ≤ ipv4ReassemblyHighThreshold) by done.
  destruct (Z.gtb_spec (ra_mem (releaseSetLocked r k s)) ipv4ReassemblyHighThreshold); [lia|done].
Qed.

Lemma low_mark_unused_witness :
  trimMemoryLocked map_to_list sample_state = trimToHigh map_to_list 2 sample_state.
Proof. apply (low_mark_unused map_to_list sample_state (λ m, reflexivity _) sample_state_ok). Defined.
