(* ===== verification/Stack.v ===== *)
(** [stack/stack.go], [stack/icmp.go], [stack/stats.go], [stack/options.go]
    and the interfaces of [channel/channel.go] and [channel/gso.go]: the IPv4
    layer between a packet channel and the transport handlers.

    The goroutines' loop bodies are functions on the stack's state.  What a
    body writes to the channel is returned as a list of [wire] packets; what
    [ReadPacket] delivers, the time, the pooled buffers and the choice of a
    [select] with two ready cases are arguments.  A transport handler is
    represented by the packet dispatched to it. *)
From S2P Require Import Prelude.
From S2P Require Import Tcpip.
From S2P Require Import Checksum.
From S2P Require Import Header.
From S2P Require Import Packet.
From S2P Require Import Fragmentation.
Import IPv4.

Definition maxSupportedMTU : Z := 1500.

Definition GSONone : Z := 0.
Definition GSOTCPv4 : Z := 1.
Definition GSOTCPv6 : Z := 4.
Definition GSOUDP : Z := 5.

Record PacketOptions := mkPacketOptions {
  GSOType : Z; GSOSize : Z; HdrLen : Z; CsumStart : Z; CsumOffset : Z }.
Definition noOptions : PacketOptions := mkPacketOptions GSONone 0 0 0 0.

(** A call of [WritePacket] or [WritePacketGSO]. *)
Inductive wire :=
| WritePacket (data : bytes)
| WritePacketGSO (data : bytes) (opts : PacketOptions).

Definition wire_data (w : wire) : bytes :=
  match w with WritePacket d | WritePacketGSO d _ => d end.

Record Stats := mkStats {
  PacketsIn : Z; PacketsOut : Z; BytesIn : Z; BytesOut : Z;
  DroppedOutbound : Z; UnknownProtocol : Z }.
#[export] Instance Stats_rebuild : Rebuild Stats := λ s,
  mkStats (PacketsIn s) (PacketsOut s) (BytesIn s) (BytesOut s) (DroppedOutbound s)
    (UnknownProtocol s).

(** [gsoBuf] is the view [buf[ipOffset : ipOffset+totalLen]] of the pooled
    buffer. *)
Inductive outboundItem :=
| ItemPacket (pb : PacketBuffer)
| ItemGSO (gsoPoolBuf : bytes) (gsoBuf : view) (opts : PacketOptions).

Record Stack := mkStack {
  s_mtu : Z;
  s_gso : bool;
  s_outboundCh : list outboundItem;
  s_queueSize : Z;
  s_handlers : gset Z;
  s_fragments : ipv4Reassembler;
  s_ipv4ID : Z;
  s_ttl : Z;
  s_stats : option Stats;
  s_done : bool }.
#[export] Instance Stack_rebuild : Rebuild Stack := λ s,
  mkStack (s_mtu s) (s_gso s) (s_outboundCh s) (s_queueSize s) (s_handlers s)
    (s_fragments s) (s_ipv4ID s) (s_ttl s) (s_stats s) (s_done s).

Record Config := mkConfig { TTL_ : Z; OutboundQueueSize : Z }.
#[export] Instance Config_rebuild : Rebuild Config := λ c,
  mkConfig (TTL_ c) (OutboundQueueSize c).
Definition defaultConfig : Config := mkConfig 64 256.
Definition Option_ : Type := Config → Config.
Definition WithTTL (ttl : Z) : Option_ := λ c, c <| TTL_ := ttl |>.
Definition WithOutboundQueueSize (n : Z) : Option_ := λ c, c <| OutboundQueueSize := n |>.

(** [mtu] and [gso] describe the channel: its MTU, and whether it implements
    [GSOWriter].  Making a queue of negative size panics. *)
Definition New (mtu : Z) (gso : bool) (opts : list Option_) : outcome Stack :=
  if mtu >? maxSupportedMTU then Panic else
  let cfg := foldl (λ c o, o c) defaultConfig opts in
  if OutboundQueueSize cfg <? 0 then Panic else
  Ret (mkStack mtu gso [] (OutboundQueueSize cfg) ∅ newIPv4Reassembler 0 (TTL_ cfg) None false).

Definition RegisterHandler (s : Stack) (proto : Z) : Stack :=
  s <| s_handlers := {[ proto ]} ∪ s_handlers s |>.

Definition EnableStats (s : Stack) : Stack := s <| s_stats := Some (mkStats 0 0 0 0 0 0) |>.
Definition OutboundQueueLen (s : Stack) : Z := zlen (s_outboundCh s).
Definition Stop (s : Stack) : Stack := s <| s_done := true |>.
Definition MTU (s : Stack) : Z := s_mtu s.

Definition nextIPv4ID (s : Stack) : Stack * Z :=
  let id := u32 (s_ipv4ID s + 1) in (s <| s_ipv4ID := id |>, u16 id).

(** ** Counters *)
Definition count (s : Stack) (f : Stats → Stats) : Stack :=
  s <| s_stats := f <$> s_stats s |>.
Definition countDropped (s : Stack) : Stack :=
  count s (λ st, st <| DroppedOutbound := u64 (DroppedOutbound st + 1) |>).
Definition countUnknown (s : Stack) : Stack :=
  count s (λ st, st <| UnknownProtocol := u64 (UnknownProtocol st + 1) |>).
Definition countIn (s : Stack) (n : Z) : Stack :=
  count s (λ st, st <| PacketsIn := u64 (PacketsIn st + 1) |>
                    <| BytesIn := u64 (BytesIn st + u64 n) |>).
Definition countPacketOut (s : Stack) (n : Z) : Stack :=
  count s (λ st, st <| PacketsOut := u64 (PacketsOut st + 1) |>
                    <| BytesOut := u64 (BytesOut st + u64 n) |>).

(** ** Sending *)

(** How the final [select] of a send ended; a blocked sender keeps its
    item. *)
Inductive send_result :=
| Enqueued
| SendBlocks (item : outboundItem)
| SendReleased.

(** With both cases ready, [pickDone] chooses. *)
Definition enqueue (pickDone : bool) (s : Stack) (item : outboundItem) : Stack * send_result :=
  let full := s_queueSize s <=? zlen (s_outboundCh s) in
  if s_done s && (full || pickDone) then (s, SendReleased)
  else if full then (s, SendBlocks item)
  else (s <| s_outboundCh := s_outboundCh s ++ [item] |>, Enqueued).

(** The header both send functions write. *)
Definition writeIPHeader (totalLen id ttl proto : Z) (src dst : Address) (ipSlice : bytes) :
    outcome bytes :=
  ip ← Encode ipSlice (mkIPv4Fields 0 (u16 totalLen) id 0 0 ttl proto 0 src dst);
  ip ← SetChecksum ip 0;
  SetChecksum ip (Checksum ip 0).

Definition SendPacket (pickDone : bool) (s : Stack) (pb : PacketBuffer) (src dst : Address)
    (proto : Z) : outcome (Stack * send_result) :=
  '(pb, ipSlice) ← Prepend pb IPv4MinHeaderSize;
  all ← AsSlice pb;
  let totalLen := zlen all in
  if totalLen >? 65535 then Ret (countDropped s, SendReleased) else
  let '(s, id) := nextIPv4ID s in
  buf ← view_update (pb_buf pb) ipSlice (writeIPHeader totalLen id (s_ttl s) proto src dst);
  let pb := pb <| pb_buf := buf |> <| NetworkHeader := Some ipSlice |> in
  Ret (enqueue pickDone s (ItemPacket pb)).

Definition SendPacketGSO (pickDone : bool) (s : Stack) (buf : bytes) (ipOffset totalLen : Z)
    (src dst : Address) (proto : Z) (opts : PacketOptions) : outcome (Stack * send_result) :=
  if totalLen >? 65535 then
    _ ← PutGSOBuf buf; Ret (countDropped s, SendReleased) else
  let ipSlice := mkView ipOffset IPv4MinHeaderSize in
  let '(s, id) := nextIPv4ID s in
  buf ← view_update buf ipSlice (writeIPHeader totalLen id (s_ttl s) proto src dst);
  let pkt := mkView ipOffset totalLen in
  _ ← view_get buf pkt;
  let '(s, res) := enqueue pickDone s (ItemGSO buf pkt opts) in
  match res with
  | SendReleased => _ ← PutGSOBuf buf; Ret (s, res)
  | _ => Ret (s, res)
  end.

(** ** The write loop *)
Definition writeWirePacket (s : Stack) (data : bytes) : Stack * list wire :=
  let s := countPacketOut s (zlen data) in
  if s_gso s then (s, [WritePacketGSO data noOptions]) else (s, [WritePacket data]).

Fixpoint writeAll (s : Stack) (frags : list bytes) : Stack * list wire :=
  match frags with
  | [] => (s, [])
  | frag :: frags =>
      let '(s, w1) := writeWirePacket s frag in
      let '(s, w2) := writeAll s frags in
      (s, w1 ++ w2)
  end.

Definition writePacket (s : Stack) (data : bytes) : outcome (Stack * list wire) :=
  let mtu := s_mtu s in
  if (mtu <=? 0) || (zlen data <=? mtu) then Ret (writeWirePacket s data) else
  fragments ← fragmentIPv4Packet data mtu;
  match fragments with
  | None => Ret (countDropped s, [])
  | Some frags => Ret (writeAll s frags)
  end.

Definition writeGSOItem (s : Stack) (gsoPoolBuf : bytes) (gsoBuf : view) (opts : PacketOptions) :
    outcome (Stack * list wire) :=
  pkt ← view_get gsoPoolBuf gsoBuf;
  '(s, out) ← (if s_gso s
               then Ret (countPacketOut s (zlen pkt), [WritePacketGSO pkt opts])
               else Ret (countDropped s, []));
  _ ← PutGSOBuf gsoPoolBuf;
  Ret (s, out).

(** One round of the loop: stop, wait, or write the first item. *)
Definition writeLoop_round (pickDone : bool) (s : Stack) :
    outcome (option (Stack * list wire)) :=
  match s_outboundCh s with
  | [] => Ret (if s_done s then None else Some (s, []))
  | item :: rest =>
      if s_done s && pickDone then Ret None else
      let s := s <| s_outboundCh := rest |> in
      '(s, out) ← match item with
                  | ItemGSO b v opts => writeGSOItem s b v opts
                  | ItemPacket pb => data ← AsSlice pb; writePacket s data
                  end;
      Ret (Some (s, out))
  end.

(** ** ICMP *)

(** [ipHdr] is a view of the same buffer, as are the header and data views. *)
Definition handleICMP (s : Stack) (pb : PacketBuffer) (ipHdr : view) :
    outcome (Stack * list wire * PacketBuffer) :=
  icmpData ← pb_view pb (Data pb);
  if zlen icmpData <? ICMPv4.ICMPv4HeaderSize then Ret (s, [], Release pb) else
  t ← ICMPv4.Type_ icmpData;
  if negb (t =? ICMPv4.ICMPv4Echo) then Ret (s, [], Release pb) else
  ip ← view_get (pb_buf pb) ipHdr;
  src ← SourceAddress ip;
  dst ← DestinationAddress ip;
  let set f pb := (buf ← view_update (pb_buf pb) ipHdr f; Ret (pb <| pb_buf := buf |>)) in
  pb ← set (λ ip, SetSourceAddress ip dst) pb;
  pb ← set (λ ip, SetDestinationAddress ip src) pb;
  pb ← set (λ ip, SetTTL ip 64) pb;
  pb ← set (λ ip, SetChecksum ip 0) pb;
  nh ← pb_view pb (NetworkHeader pb);
  pb ← set (λ ip, SetChecksum ip (Checksum nh 0)) pb;
  let dv := default (mkView 0 0) (Data pb) in
  let seti f pb := (buf ← view_update (pb_buf pb) dv f; Ret (pb <| pb_buf := buf |>)) in
  pb ← seti (λ ic, ICMPv4.SetType ic ICMPv4.ICMPv4EchoReply) pb;
  pb ← seti (λ ic, ICMPv4.SetChecksum ic 0) pb;
  icmpData ← view_get (pb_buf pb) dv;
  pb ← seti (λ ic, ICMPv4.SetChecksum ic (Checksum icmpData 0)) pb;
  let nv := default (mkView 0 0) (NetworkHeader pb) in
  let totalLen := v_len nv + v_len dv in
  let s := countPacketOut s totalLen in
  out ← slice (pb_buf pb) (v_off nv) (v_off nv + totalLen);
  Ret (s, [WritePacket out], Release pb).

(** ** The read loop *)
Inductive read_action :=
| ReadStops
| ReadDrops
| ReadReplies (out : list wire)
| ReadDispatches (proto : Z) (pb : PacketBuffer).

(** The protocol switch. *)
Definition dispatch (s : Stack) (pb : PacketBuffer) (ipHdr : view) :
    outcome (Stack * read_action) :=
  ip ← view_get (pb_buf pb) ipHdr;
  proto ← Protocol ip;
  if proto =? ICMPv4ProtocolNumber then
    '(s, out, _) ← handleICMP s pb ipHdr; Ret (s, ReadReplies out)
  else if decide (proto ∈ s_handlers s) then Ret (s, ReadDispatches proto pb)
  else Ret (countUnknown s, ReadDrops).

(** The body of the loop after a successful read of [n] bytes into [pb]. *)
Definition readPacket (iter : map_order) (now : Z) (pooled : PacketBuffer) (s : Stack)
    (pb : PacketBuffer) (n : Z) : outcome (Stack * read_action) :=
  raw ← slice (pb_buf pb) (pb_headroom pb) (pb_headroom pb + n);
  if zlen raw <? IPv4MinHeaderSize then Ret (s, ReadDrops) else
  hdrLen ← HeaderLength raw;
  if (hdrLen <? IPv4MinHeaderSize) || (hdrLen >? zlen raw) then Ret (s, ReadDrops) else
  totalLen ← TotalLength raw;
  if (totalLen <? hdrLen) || (totalLen >? zlen raw) then Ret (s, ReadDrops) else
  raw ← slice_to raw totalLen;
  h ← slice_to raw hdrLen;
  if negb (Checksum h 0 =? 0) then Ret (s, ReadDrops) else
  let s := countIn s totalLen in
  let base := pb_headroom pb in
  let pb := pb <| NetworkHeader := Some (mkView base hdrLen) |>
               <| Data := Some (mkView (base + hdrLen) (totalLen - hdrLen)) |> in
  more ← More raw;
  fo ← FragmentOffset raw;
  if more || negb (fo =? 0) then
    '(fr, complete, _) ← process iter now pooled (s_fragments s) pb raw;
    let s := s <| s_fragments := fr |> in
    match complete with
    | None => Ret (s, ReadDrops)
    | Some pb => dispatch s pb (default (mkView 0 0) (NetworkHeader pb))
    end
  else dispatch s pb (mkView base totalLen).

(** One iteration; [rd] is what [ReadPacket] does to the buffer, [None] for
    an error. *)
Definition readLoop_round (iter : map_order) (now : Z) (pooled1 pooled2 : PacketBuffer)
    (s : Stack) (rd : bytes → option (bytes * Z)) : outcome (Stack * read_action) :=
  let pb := NewPacketBuffer pooled1 0 in
  b ← Buf pb;
  match rd b with
  | None => Ret (s, if s_done s then ReadStops else ReadDrops)
  | Some (b, n) =>
      let pb := pb <| pb_buf := ztake (pb_headroom pb) (pb_buf pb) ++ b |> in
      readPacket iter now pooled2 s pb n
  end.
