(* ===== verification/IpLayer.v ===== *)
(** The theorems about the IPv4 layer of [stack/]: what [SendPacket] puts on
    the wire, what the read loop makes of it, and the echo replies. *)
From S2P Require Import Prelude.
From S2P Require Import Tcpip.
From S2P Require Import Checksum.
From S2P Require Import Header.
From S2P Require Import Packet.
From S2P Require Import Fragmentation.
From S2P Require Import Reassembly.
From S2P Require Import Stack.
Import IPv4.

(** * The header [SendPacket] writes *)
Section header.
Context (totalLen id ttl proto : Z) (src dst : Address).
Context (Htot : is_u16 totalLen) (Hid : is_u16 id) (Httl : is_u8 ttl) (Hproto : is_u8 proto).
Context (Hsrc : is_u32 src) (Hdst : is_u32 dst).

(** The 20 bytes with a given checksum. *)
Definition ip_header (c : Z) : bytes :=
  [69; 0; u8 (totalLen / 256); u8 totalLen; u8 (id / 256); u8 id; 0; 0; ttl; proto;
   u8 (c / 256); u8 c;
   u8 (src / 16777216); u8 (src / 65536); u8 (src / 256); u8 src;
   u8 (dst / 16777216); u8 (dst / 65536); u8 (dst / 256); u8 dst].

Lemma writeIPHeader_val (s : bytes) :
  zlen s = 20 →
  writeIPHeader totalLen id ttl proto src dst s = Ret (ip_header (Checksum (ip_header 0) 0)).
Proof.
  intros Hs. unfold writeIPHeader. rewrite (u16_id totalLen) by done.
  assert (Hs' : 20 ≤ zlen s) by lia. explode s.
  destruct rest0; [|exfalso; rewrite !zlen_cons in Hs; pose proof (zlen_nonneg rest0); lia].
  assert (E : SetChecksum (ip_header 0) 0 = Ret (ip_header 0)) by reflexivity.
  match goal with |- context [Encode ?b ?f] => assert (E1 : Encode b f = Ret (ip_header 0)) end.
  { unfold Encode. cbn [fTOS fTotalLength fID fFlags fFragmentOffset fTTL fProtocol fChecksum
      fSrcAddr fDstAddr]. rewrite (u8_id proto) by done. reflexivity. }
  rewrite E1, bind_Ret_l, E, bind_Ret_l. reflexivity.
Qed.

Definition sent_header : bytes := ip_header (Checksum (ip_header 0) 0).

Lemma bytes_ok_ip_header c : bytes_ok (ip_header c).
Proof. unfold ip_header. repeat apply Forall_cons_2; try apply u8_range; try done. Qed.

Lemma checksum_u16 : is_u16 (Checksum (ip_header 0) 0).
Proof. apply Checksum_range; [apply bytes_ok_ip_header|change (20 ≤ 131068); lia|done]. Qed.

Lemma sent_header_decode :
  Decode sent_header = Ret (mkIPv4Fields 0 totalLen id 0 0 ttl proto (Checksum (ip_header 0) 0) src dst).
Proof.
  pose proof checksum_u16 as Hc. unfold sent_header. set (c := Checksum _ _) in *. clearbody c.
  unfold ip_header. run_bytes. autorewrite with fields.
  reflexivity.
Qed.

Lemma sent_header_built (payload : bytes) :
  totalLen = 20 + zlen payload → built_packet sent_header payload.
Proof.
  intros Et. pose proof checksum_u16 as Hc. split.
  - apply bytes_ok_ip_header.
  - done.
  - reflexivity.
  - change (zlen sent_header) with 20. rewrite <- Et.
    transitivity (Ret (be16 (u8 (totalLen / 256)) (u8 totalLen))); [reflexivity|].
    by rewrite be16_split.
  - reflexivity.
  - exists (ip_header 0). split; [reflexivity|]. unfold sent_header.
    set (c := Checksum _ _) in *. clearbody c.
    transitivity (Ret (be16 (u8 (c / 256)) (u8 c))); [reflexivity|]. by rewrite be16_split.
Qed.

Lemma sent_header_checksum : Checksum sent_header 0 = 0.
Proof.
  apply (Checksum_filled (ip_header 0) 10 (ip_header 0) _ 0); try done.
  - apply bytes_ok_ip_header.
  - by exists 5.
Qed.
End header.

(** * Sending *)
Definition next_id (s : Stack) : Z := u16 (u32 (s_ipv4ID s + 1)).

Lemma SendPacket_enqueues pickDone s pb p src dst proto :
  holds pb p → pb_consumed pb + 20 ≤ pb_headroom pb → 20 + zlen p ≤ 65535 →
  is_u8 (s_ttl s) → is_u8 proto → s_done s = false → zlen (s_outboundCh s) < s_queueSize s →
  let h := sent_header (20 + zlen p) (next_id s) (s_ttl s) proto src dst in
  ∃ pb', SendPacket pickDone s pb src dst proto =
      Ret (s <| s_ipv4ID := u32 (s_ipv4ID s + 1) |>
             <| s_outboundCh := s_outboundCh s ++ [ItemPacket pb'] |>, Enqueued) ∧
    holds pb' (h ++ p) ∧ pb_view pb' (NetworkHeader pb') = Ret h.
Proof.
  intros Hp Hroom Hlen Httl Hproto Hdone Hq h. pose proof (zlen_nonneg p).
  destruct (Prepend_holds pb p 20 Hp) as (pb1 & v & E & Eh & Ec & Ed & Eb & _ & Hup); [lia..|].
  unfold SendPacket. change IPv4MinHeaderSize with 20. rewrite E, bind_Ret_l.
  assert (Hall : ∃ all, AsSlice pb1 = Ret all ∧ zlen all = 20 + zlen p).
  { pose proof (holds_len _ _ Hp). destruct Hp as [? Hcap ? _].
    assert (data_len pb1 = data_len pb) by (unfold data_len; by rewrite Ed).
    rewrite AsSlice_eq, Eh, Ec, Eb. rewrite slice_ok by lia. eexists. split; [done|].
    rewrite zlen_ztake; [lia|]. rewrite zlen_zdrop; lia. }
  destruct Hall as (all & Eall & Lall). rewrite Eall, bind_Ret_l, Lall.
  destruct (Z.gtb_spec (20 + zlen p) 65535); [lia|].
  cbn [nextIPv4ID fst snd]. unfold nextIPv4ID.
  destruct (Hup (writeIPHeader (20 + zlen p) (next_id s) (s_ttl s) proto src dst) h)
    as (buf & Eup & Eget & Hh); [|done|].
  { intros s0 Hs0. apply writeIPHeader_val; try done. ulia. }
  change (s_ttl (s <| s_ipv4ID := u32 (s_ipv4ID s + 1) |>)) with (s_ttl s).
  unfold next_id in Eup. rewrite Eup, bind_Ret_l.
  unfold enqueue. cbn. rewrite Hdone. cbn.
  destruct (Z.leb_spec (s_queueSize s) (zlen (s_outboundCh s))); [lia|].
  eexists. split; [reflexivity|]. split; [|done].
  destruct Hh as [? ? ? ?]. split; done.
Qed.

(** * Receiving *)

(** A packet with an intact header of its own length. *)
Record intact (h d : bytes) : Prop := {
  in_len : 20 ≤ zlen h;
  in_hlen : HeaderLength h = Ret (zlen h);
  in_total : TotalLength h = Ret (zlen h + zlen d);
  in_csum : Checksum h 0 = 0 }.

(** The buffer the read loop hands on. *)
Definition with_views (buf : bytes) (n m : Z) : PacketBuffer :=
  mkPacketBuffer buf 0 0 (Some (mkView 0 n)) None (Some (mkView n m)).

Lemma with_views_carries h d rest :
  carries (with_views (h ++ d ++ rest) (zlen h) (zlen d)) h d.
Proof.
  split; cbn.
  - rewrite <- (app_nil_l (h ++ _)). by apply (view_get_app []).
  - by apply view_get_app.
Qed.

Lemma header_getters_app h d :
  20 ≤ zlen h → HeaderLength (h ++ d) = HeaderLength h ∧ TotalLength (h ++ d) = TotalLength h ∧
  More (h ++ d) = More h ∧ FragmentOffset (h ++ d) = FragmentOffset h ∧
  Protocol (h ++ d) = Protocol h.
Proof. intros Hh. explode h. done. Qed.

(** The read loop on an intact packet: to reassembly if it is a fragment, to
    the protocol switch otherwise. *)
Lemma readPacket_intact iter now pooled s h d rest more fo :
  intact h d → More h = Ret more → FragmentOffset h = Ret fo →
  let pb := with_views (h ++ d ++ rest) (zlen h) (zlen d) in
  let s1 := countIn s (zlen h + zlen d) in
  readPacket iter now pooled s (mkPacketBuffer (h ++ d ++ rest) 0 0 None None None)
      (zlen h + zlen d) =
    if more || negb (fo =? 0) then
      '(fr, complete, _) ← process iter now pooled (s_fragments s1) pb (h ++ d);
      let s1 := s1 <| s_fragments := fr |> in
      match complete with
      | None => Ret (s1, ReadDrops)
      | Some pb => dispatch s1 pb (default (mkView 0 0) (NetworkHeader pb))
      end
    else dispatch s1 pb (mkView 0 (zlen h + zlen d)).
Proof.
  intros [Hh Ehl Etl Ec] Em Ef pb s1. unfold readPacket. cbn [pb_buf pb_headroom].
  pose proof (zlen_nonneg d). pose proof (zlen_nonneg rest).
  assert (Eraw : slice (h ++ d ++ rest) 0 (0 + (zlen h + zlen d)) = Ret (h ++ d)).
  { rewrite Z.add_0_l, <- zlen_app, app_assoc. apply slice_to_app. }
  rewrite Eraw, bind_Ret_l. rewrite zlen_app.
  destruct (header_getters_app h d Hh) as (-> & -> & G3 & G4 & _).
  rewrite Ehl, Etl, !bind_Ret_l.
  unfold IPv4MinHeaderSize. case_if; [lia|]. case_if; [lia|]. case_if; [lia|].
  rewrite (slice_to_ok (h ++ d)), bind_Ret_l, ztake_all by (rewrite ?zlen_app; lia).
  rewrite slice_to_app, bind_Ret_l, Ec, G3, G4, Em, Ef, !bind_Ret_l. cbn [negb Z.eqb].
  replace (zlen h + zlen d - zlen h) with (zlen d) by lia. done.
Qed.

Lemma dispatch_handler s pb v ip proto :
  view_get (pb_buf pb) v = Ret ip → Protocol ip = Ret proto →
  proto ≠ ICMPv4ProtocolNumber → proto ∈ s_handlers s →
  dispatch s pb v = Ret (s, ReadDispatches proto pb).
Proof.
  intros E1 E2 Hne Hin. unfold dispatch. rewrite E1, bind_Ret_l, E2, bind_Ret_l.
  rewrite (proj2 (Z.eqb_neq _ _)) by done. by rewrite decide_True.
Qed.

(** ** Whole runs over a channel *)

(** [MemoryChannel.ReadPacket] with [pkt] at the head of the queue. *)
Definition memory_read (pkt : bytes) (buf : bytes) : option (bytes * Z) := Some (copy buf pkt).

Record read_event := mkRead {
  rd_iter : map_order; rd_now : Z; rd_pooled1 : PacketBuffer; rd_pooled2 : PacketBuffer;
  rd_raw : bytes }.

Fixpoint read_all (s : Stack) (evs : list read_event) : outcome (Stack * list read_action) :=
  match evs with
  | [] => Ret (s, [])
  | ev :: evs =>
      '(s, act) ← readLoop_round (rd_iter ev) (rd_now ev) (rd_pooled1 ev) (rd_pooled2 ev) s
                    (memory_read (rd_raw ev));
      '(s, acts) ← read_all s evs;
      Ret (s, act :: acts)
  end.

(** A read buffer from the pool, large enough. *)
Lemma readLoop_round_buffer iter now pooled1 pooled2 raw :
  pooled_ok pooled1 → zlen raw ≤ MaxPacketSize →
  ∃ rest, ∀ s, readLoop_round iter now pooled1 pooled2 s (memory_read raw) =
    readPacket iter now pooled2 s (mkPacketBuffer (raw ++ rest) 0 0 None None None) (zlen raw).
Proof.
  intros Hp Hr. unfold pooled_ok in Hp. pose proof (zlen_nonneg raw).
  exists (drop (length raw) (pb_buf pooled1)). intros s.
  unfold readLoop_round, NewPacketBuffer, ensureCapacity, reset. cbn [pb_buf].
  rewrite (proj2 (Z.ltb_ge _ _)) by (rewrite Hp; done).
  unfold Buf. cbn [pb_buf pb_headroom]. rewrite slice_from_ok by (rewrite Hp; done).
  rewrite bind_Ret_l, (zdrop_0 0), (ztake_0 0) by lia. unfold memory_read, copy.
  rewrite Nat.min_r by (unfold zlen in *; lia). by rewrite take_ge by lia.
Qed.

(** The read loop's rounds on fragments are calls of [process]. *)
Definition reads_as (n t0 t1 : Z) (ev : read_event) (fev : frag_event) : Prop :=
  ev_raw fev = rd_raw ev ∧ delivered n t0 t1 fev ∧
  ∀ s, readLoop_round (rd_iter ev) (rd_now ev) (rd_pooled1 ev) (rd_pooled2 ev) s
         (memory_read (rd_raw ev)) =
    ('(fr, complete, _) ← process (ev_iter fev) (ev_now fev) (ev_pooled fev)
        (s_fragments s) (ev_pb fev) (ev_raw fev);
     let s1 := (countIn s (zlen (rd_raw ev))) <| s_fragments := fr |> in
     match complete with
     | None => Ret (s1, ReadDrops)
     | Some pb => dispatch s1 pb (default (mkView 0 0) (NetworkHeader pb))
     end).

Definition read_ok (t0 t1 : Z) (ev : read_event) : Prop :=
  (∀ m, rd_iter ev m ≡ₚ map_to_list m) ∧ t0 ≤ rd_now ev ≤ t1 ∧ pooled_ok (rd_pooled1 ev).

Lemma read_fragment t0 t1 ev h d more fo :
  rd_raw ev = h ++ d → intact h d → zlen (h ++ d) ≤ MaxPacketSize → read_ok t0 t1 ev →
  More h = Ret more → FragmentOffset h = Ret fo → more || negb (fo =? 0) = true →
  ∃ fev, reads_as (zlen h) t0 t1 ev fev.
Proof.
  intros Er Hi Hl (Hit & Hnow & Hp) Em Ef Hfrag.
  destruct (readLoop_round_buffer (rd_iter ev) (rd_now ev) (rd_pooled1 ev) (rd_pooled2 ev)
    (rd_raw ev)) as [rest Hrd]; [done|by rewrite Er|].
  exists (mkEvent (rd_iter ev) (rd_now ev) (rd_pooled2 ev)
    (with_views (h ++ d ++ rest) (zlen h) (zlen d)) (rd_raw ev)).
  split; [done|]. split.
  { split; [done|]. split; [done|]. cbn [ev_pb ev_raw]. rewrite Er.
    rewrite ztake_app_le, ztake_all, zdrop_app_ge, Z.sub_diag, zdrop_0 by lia.
    apply with_views_carries. }
  intros s. rewrite Hrd, Er. cbn [ev_iter ev_now ev_pooled ev_pb ev_raw].
  rewrite <- app_assoc, zlen_app.
  rewrite (readPacket_intact _ _ _ _ _ _ _ more fo) by done. by rewrite Hfrag.
Qed.

Lemma carries_dispatch s pkt h d proto :
  carries pkt h d → Protocol h = Ret proto →
  proto ≠ ICMPv4ProtocolNumber → proto ∈ s_handlers s →
  dispatch s pkt (default (mkView 0 0) (NetworkHeader pkt)) = Ret (s, ReadDispatches proto pkt).
Proof.
  intros [Hc _] Hp Hne Hin. destruct (NetworkHeader pkt) as [v|].
  - by eapply dispatch_handler.
  - cbn in Hc. injection Hc as <-. done.
Qed.

Lemma read_all_as n t0 t1 evs fevs s r' pkt h d proto :
  Forall2 (reads_as n t0 t1) evs fevs →
  process_all (s_fragments s) fevs
    = Ret (r', replicate (length evs - 1) None ++ [Some pkt]) →
  carries pkt h d → Protocol h = Ret proto →
  proto ≠ ICMPv4ProtocolNumber → proto ∈ s_handlers s →
  ∃ s', read_all s evs
    = Ret (s', replicate (length evs - 1) ReadDrops ++ [ReadDispatches proto pkt]).
Proof.
  intros H2. revert s. induction H2 as [|ev fev evs fevs Hr H2 IH]; intros s Hall Hc Hp Hne Hin.
  { done. }
  destruct Hr as (_ & _ & Hrd). cbn [read_all process_all] in *. rewrite Hrd.
  apply bind_Ret in Hall as ([[r1 res] pb1] & E1 & Hall). rewrite E1. cbn [mbind outcome_bind].
  apply bind_Ret in Hall as ([r2 out] & E2 & Hall).
  destruct evs as [|ev2 evs].
  - inversion H2; subst. cbn in E2, Hall. injection E2 as <- <-. injection Hall as <- ->.
    erewrite carries_dispatch by done. cbn. by eexists.
  - cbn [length Nat.sub replicate app] in Hall |- *.
    injection Hall as <- -> ->.
    cbn [length Nat.sub] in IH. rewrite ?Nat.sub_0_r in IH.
    destruct (IH ((countIn s (zlen (rd_raw ev))) <| s_fragments := r1 |>)) as (s' & E); try done.
    cbn [mbind outcome_bind]. rewrite E. cbn [mbind outcome_bind]. by eexists.
Qed.

(** Each fragment of a built packet is intact. *)
Lemma piece_intact h payload f :
  built_packet h payload → 0 ≤ fr_offset f → (8 | fr_offset f) →
  fr_offset f + fr_len f ≤ zlen payload → fr_len f < zlen payload → 0 < fr_len f →
  intact (piece_header h payload f) (fr_data f) ∧
  ∃ more fo, More (piece_header h payload f) = Ret more ∧
    FragmentOffset (piece_header h payload f) = Ret fo ∧ more || negb (fo =? 0) = true.
Proof.
  intros Hb Ho [q Hq] He Hlt Hpos. pose proof (built_total _ _ Hb) as Ht.
  pose proof Hb as [Hby Hh Ehl _ _ _]. unfold is_u16 in Ht.
  assert (H60 : zlen h ≤ 60).
  { clear -Hh Ehl. destruct h as [|x h']; [done|]. cbn in Ehl. injection Ehl as <-.
    change 15 with (Z.ones 4). rewrite Z.land_ones by lia.
    pose proof (Z.mod_pos_bound x (2 ^ 4)). lia. }
  assert (Eoff : u16 (fr_offset f / 8) = q) by (rewrite Hq, Z.div_mul, u16_id by ulia; done).
  unfold piece_header. rewrite Eoff.
  set (fl := if fr_offset f + fr_len f <? zlen payload then IPv4FlagMoreFragments else 0).
  assert (Hfl : 0 ≤ fl < 8) by (subst fl; unfold IPv4FlagMoreFragments; case_if; lia).
  destruct (rehead_getters h [] (u16 (zlen h + fr_len f)) fl q Hh Hby Hfl ltac:(lia))
    as (G1 & G2 & G3 & _ & _ & _ & _ & G4 & _).
  set (h' := rehead h _ _) in *. assert (Lh : zlen h' = zlen h) by by apply zlen_stamp.
  rewrite app_nil_r in *. split.
  - split; [lia| |rewrite G4, Lh; f_equal; do 2 rewrite (u16_id (zlen h + fr_len f)) by ulia; done|by apply Checksum_rehead].
    by rewrite G3, Lh.
  - do 2 eexists. split; [exact G2|]. split; [exact G1|].
    subst fl. unfold IPv4FlagMoreFragments.
    destruct (Z.ltb_spec (fr_offset f + fr_len f) (zlen payload)); [done|]. cbn.
    destruct (Z.eqb_spec q 0); [lia|done].
Qed.

(** ** One packet through two stacks *)
Lemma writeAll_data s frags : wire_data <$> (writeAll s frags).2 = frags.
Proof.
  revert s. induction frags as [|f frags IH]; intros s; [done|]. cbn [writeAll].
  unfold writeWirePacket. specialize (IH (countPacketOut s (zlen f))).
  destruct (s_gso _); destruct (writeAll _ _) as [s' w]; cbn in *; by f_equal.
Qed.

(** The receiving side: any order of what the sender wrote. *)
Record receiver_ok (r : Stack) (k : ipv4FragmentKey) (proto n t0 t1 : Z) : Prop := {
  rc_frags : reasm_ok (s_fragments r);
  rc_fresh : ra_sets (s_fragments r) !! k = None;
  rc_time : t1 = t0 + ra_timeout (s_fragments r) ∧ 0 ≤ ra_timeout (s_fragments r);
  rc_mem : ra_mem (s_fragments r) + n ≤ ipv4ReassemblyHighThreshold;
  rc_proto : proto ≠ ICMPv4ProtocolNumber ∧ proto ∈ s_handlers r }.

Lemma receive_unfragmented r h p proto ev :
  built_packet h p → Checksum h 0 = 0 → Protocol h = Ret proto →
  zlen h + zlen p ≤ MaxPacketSize → rd_raw ev = h ++ p → pooled_ok (rd_pooled1 ev) →
  proto ≠ ICMPv4ProtocolNumber → proto ∈ s_handlers r →
  ∃ r' pkt, read_all r [ev] = Ret (r', [ReadDispatches proto pkt]) ∧ carries pkt h p.
Proof.
  intros Hb Hc Hpr Hl Er Hp Hne Hin.
  pose proof Hb as [Hby Hh Ehl Etl Ef _].
  assert (Hi : intact h p) by by split.
  assert (G : More h = Ret false ∧ FragmentOffset h = Ret 0).
  { split.
    - unfold More. by rewrite (built_flags h p Hb).
    - unfold FragmentOffset. change ipv4FlagsFragment with 6. by rewrite Ef. }
  destruct G as [Em Eo].
  destruct (readLoop_round_buffer (rd_iter ev) (rd_now ev) (rd_pooled1 ev) (rd_pooled2 ev)
    (rd_raw ev)) as [rest Hrd]; [done|rewrite Er, zlen_app; lia|].
  cbn [read_all]. rewrite Hrd, Er, <- app_assoc, zlen_app.
  rewrite (readPacket_intact _ _ _ _ _ _ _ false 0) by done. cbn [orb negb Z.eqb].
  erewrite dispatch_handler; [|..|exact Hne|exact Hin].
  - cbn. do 2 eexists. split; [reflexivity|]. apply with_views_carries.
  - cbn [with_views pb_buf]. rewrite <- zlen_app, app_assoc. apply slice_to_app.
  - destruct (header_getters_app h p Hh) as (_ & _ & _ & _ & ->). done.
Qed.

Lemma receive_whole r k h p proto t0 t1 ev :
  built_packet h p → Checksum h 0 = 0 → Protocol h = Ret proto →
  zlen h + zlen p ≤ MaxPacketSize → rd_raw ev = h ++ p → read_ok t0 t1 ev →
  receiver_ok r k proto (zlen p) t0 t1 →
  ∃ r' pkt, read_all r [ev] = Ret (r', [ReadDispatches proto pkt]) ∧ carries pkt h p.
Proof.
  intros Hb Hc Hpr Hl Er (_ & _ & Hp) [_ _ _ _ [Hne Hin]]. by apply (receive_unfragmented r h p).
Qed.

Lemma receive_fragments r k h p proto mtu t0 t1 :
  built_packet h p → packet_key h k → Protocol h = Ret proto →
  zlen h + 8 ≤ mtu → mtu < zlen h + zlen p → mtu ≤ MaxPacketSize →
  receiver_ok r k proto (zlen p) t0 t1 →
  ∃ frags, fragmentIPv4Packet (h ++ p) mtu = Ret (Some frags) ∧
    Forall (λ f, zlen f ≤ mtu) frags ∧
    ∀ evs, (rd_raw <$> evs) ≡ₚ frags → Forall (read_ok t0 t1) evs →
    ∃ r' pkt, read_all r evs
        = Ret (r', replicate (length evs - 1) ReadDrops ++ [ReadDispatches proto pkt]) ∧
      carries pkt h p.
Proof.
  intros Hb Hk Hpr Hmtu Hbig Hmax [Hok Hfresh [Ht1 HT] Hmem [Hne Hin]].
  destruct (fragments_reassemble h p mtu k (s_fragments r) t0) as (l & Efr & Hl & Hre); try done.
  eexists. split; [exact Efr|]. split.
  { rewrite Forall_fmap, Forall_forall. intros f Hf. cbn. destruct (Hl f Hf) as (_ & _ & ? & _).
    rewrite built_packet_of_piece, zlen_app, zlen_piece_header by done. lia. }
  intros evs Hperm Hevs. rewrite Forall_forall in Hevs.
  destruct (Permutation_map_inv _ _ Hperm) as (fs & Eraw & Hfs).
  assert (Hreads : Forall (λ ev, ∃ fev, reads_as (zlen h) t0 t1 ev fev) evs).
  { pose proof (Forall2_map_eq rd_raw (fragment_packet h 0 (zlen p))
      (λ ev _, ∃ fev, reads_as (zlen h) t0 t1 ev fev) evs fs Eraw) as H2.
    eapply Forall2_Forall_l; [apply H2|apply Forall_true; by intros]. 
    intros ev f Hev Hf E. rewrite <- Hfs in Hf. destruct (Hl f Hf) as (? & ? & ? & ?).
    destruct (piece_intact h p f Hb) as [Hi (more & fo & Em & Ef & Hfrag)]; try done || lia.
    rewrite <- (zlen_piece_header h p Hb f).
    eapply read_fragment; [exact E|done| |by apply Hevs|done..].
    rewrite zlen_app, zlen_piece_header by done. lia. }
  apply Forall_exists_Forall2_l in Hreads as (fevs & Hreads).
  destruct (Hre fevs) as (r' & pkt & Eall & Hc).
  { assert (Eraws : ev_raw <$> fevs = rd_raw <$> evs); [|by rewrite Eraws].
    clear -Hreads. induction Hreads as [|ev fev evs fevs (E & _) _ IH]; [done|].
    cbn. rewrite E. f_equal. exact IH. }
  { rewrite <- Ht1. clear -Hreads. induction Hreads as [|ev fev evs fevs (_ & ? & _) _ IH]; by constructor. }
  rewrite <- (Forall2_length _ _ _ Hreads) in Eall.
  destruct (read_all_as _ _ _ _ _ r r' pkt h p proto Hreads Eall) as (s' & E); try done.
  by exists s', pkt.
Qed.

(** The write loop's round and the receiver, for one queued packet. *)
Lemma write_then_read s r pb h p proto k t0 t1 :
  s_outboundCh s = [ItemPacket pb] → s_done s = false → holds pb (h ++ p) → zlen h = 20 →
  built_packet h p → Checksum h 0 = 0 → packet_key h k → Protocol h = Ret proto →
  28 ≤ s_mtu s ≤ maxSupportedMTU → receiver_ok r k proto (zlen p) t0 t1 →
  ∃ s2 out, writeLoop_round false s = Ret (Some (s2, out)) ∧
    Forall (λ w, zlen (wire_data w) ≤ s_mtu s) out ∧
    ∀ evs, (rd_raw <$> evs) ≡ₚ (wire_data <$> out) → Forall (read_ok t0 t1) evs →
    ∃ r' pkt, read_all r evs
        = Ret (r', replicate (length evs - 1) ReadDrops ++ [ReadDispatches proto pkt]) ∧
      carries pkt h p.
Proof.
  intros Eq Hdone Hh Lh Hb Hc Hk Hpr Hmtu Hrc. pose proof (zlen_nonneg p).
  unfold maxSupportedMTU in Hmtu. assert (Hmax : s_mtu s ≤ MaxPacketSize) by (unfold MaxPacketSize; lia).
  unfold writeLoop_round. rewrite Eq, Hdone. cbn [andb].
  rewrite (holds_slice _ _ Hh), bind_Ret_l. unfold writePacket.
  change (s_mtu (s <| s_outboundCh := [] |>)) with (s_mtu s). rewrite zlen_app, Lh.
  destruct (Z.leb_spec (s_mtu s) 0); [lia|]. cbn [orb].
  destruct (Z.leb_spec (20 + zlen p) (s_mtu s)) as [Hsmall|Hbig].
  - unfold writeWirePacket. set (g := s_gso _). 
    exists (countPacketOut (s <| s_outboundCh := [] |>) (zlen (h ++ p))),
      [if g then WritePacketGSO (h ++ p) noOptions else WritePacket (h ++ p)].
    split; [by destruct g|]. split.
    { repeat constructor. destruct g; cbn [wire_data]; rewrite zlen_app; lia. }
    intros evs Hperm Hevs.
    assert (Ew : wire_data <$> [if g then WritePacketGSO (h ++ p) noOptions
                                else WritePacket (h ++ p)] = [h ++ p]) by by destruct g.
    rewrite Ew in Hperm. apply Permutation_singleton_r in Hperm.
    destruct evs as [|ev [|]]; try done. cbn in Hperm. injection Hperm as Er.
    apply Forall_cons in Hevs as [Hev _].
    destruct (receive_whole r k h p proto t0 t1 ev) as (r' & pkt & E & Hcar); try done; [lia|].
    exists r', pkt. done.
  - destruct (receive_fragments r k h p proto (s_mtu s) t0 t1) as (frags & Efr & Hfit & Hre);
      try done; [lia..|].
    rewrite Efr, bind_Ret_l. cbn [mbind outcome_bind].
    pose proof (writeAll_data (s <| s_outboundCh := [] |>) frags) as Ed.
    destruct (writeAll _ frags) as [s2 out]. cbn [snd] in Ed. exists s2, out.
    split; [done|]. split.
    + rewrite <- Ed in Hfit. by rewrite Forall_fmap in Hfit.
    + by rewrite Ed.
Qed.

(** From [SendPacket] on one stack to the handler of another. *)
Lemma packet_gets_through s r pb p src dst proto t0 t1 :
  holds pb p → pb_consumed pb + 20 ≤ pb_headroom pb → 20 + zlen p ≤ 65535 →
  is_u8 (s_ttl s) → is_u8 proto → is_u32 src → is_u32 dst →
  s_done s = false → s_outboundCh s = [] → 0 < s_queueSize s →
  28 ≤ s_mtu s ≤ maxSupportedMTU →
  receiver_ok r (mkKey src dst (next_id s) proto) proto (zlen p) t0 t1 →
  ∃ s1 s2 out, SendPacket false s pb src dst proto = Ret (s1, Enqueued) ∧
    writeLoop_round false s1 = Ret (Some (s2, out)) ∧
    Forall (λ w, zlen (wire_data w) ≤ s_mtu s) out ∧
    ∀ evs, (rd_raw <$> evs) ≡ₚ (wire_data <$> out) → Forall (read_ok t0 t1) evs →
    ∃ r' pkt h c, read_all r evs
        = Ret (r', replicate (length evs - 1) ReadDrops ++ [ReadDispatches proto pkt]) ∧
      carries pkt h p ∧
      HeaderLength h = Ret 20 ∧
      Decode h = Ret (mkIPv4Fields 0 (20 + zlen p) (next_id s) 0 0 (s_ttl s) proto c src dst).
Proof.
  intros Hp Hroom Hlen Httl Hproto Hsrc Hdst Hdone Hq Hqs Hmtu Hrc. pose proof (zlen_nonneg p).
  destruct (SendPacket_enqueues false s pb p src dst proto) as (pb' & Es & Hh & _); try done.
  { rewrite Hq, zlen_nil. lia. }
  set (h := sent_header _ _ _ _ _ _) in *.
  assert (Htot : is_u16 (20 + zlen p)) by ulia.
  assert (Hid : is_u16 (next_id s)) by apply u16_range.
  pose proof (sent_header_built (20 + zlen p) (next_id s) (s_ttl s) proto src dst
    Htot Httl Hproto p eq_refl) as Hb. fold h in Hb.
  pose proof (sent_header_decode (20 + zlen p) (next_id s) (s_ttl s) proto src dst
    Htot Hid Httl Hproto Hsrc Hdst) as Hd. fold h in Hd.
  assert (Hc : Checksum h 0 = 0) by by apply sent_header_checksum.
  assert (Hkey : packet_key h (mkKey src dst (next_id s) proto) ∧ Protocol h = Ret proto).
  { clear -Hd. unfold Decode in Hd. inv_outcome. by split_and!. }
  destruct Hkey as [Hkey Hpr].
  destruct (write_then_read (s <| s_ipv4ID := u32 (s_ipv4ID s + 1) |>
      <| s_outboundCh := s_outboundCh s ++ [ItemPacket pb'] |>) r pb' h p proto
      (mkKey src dst (next_id s) proto) t0 t1) as (s2 & out & Ew & Hfit & Hre); try done.
  { cbn. by rewrite Hq. }
  do 3 eexists. split; [exact Es|]. split; [exact Ew|]. split; [exact Hfit|].
  intros evs Hperm Hevs. destruct (Hre evs Hperm Hevs) as (r' & pkt & E & Hcar).
  by exists r', pkt, h, (Checksum (ip_header (20 + zlen p) (next_id s) (s_ttl s) proto src dst 0) 0).
Qed.

(** C10: a packet gets through.  What [SendPacket] is given is put on the
    sender's link in packets that fit its MTU (split when it is too large),
    and when the read loop of another stack receives them in any order,
    within the reassembly timeout, it hands exactly the transport payload to
    the registered handler, under an IPv4 header with the given addresses and
    protocol, the sender's TTL and next identifier, no fragment bits and a
    matching length. *)
Theorem ip_packet_gets_through s r pb p src dst proto t0 t1 :
  holds pb p → pb_consumed pb + 20 ≤ pb_headroom pb → 20 + zlen p ≤ 65535 →
  is_u8 (s_ttl s) → is_u8 proto → is_u32 src → is_u32 dst →
  s_done s = false → s_outboundCh s = [] → 0 < s_queueSize s →
  28 ≤ s_mtu s ≤ maxSupportedMTU →
  receiver_ok r (mkKey src dst (next_id s) proto) proto (zlen p) t0 t1 →
  ∃ s1 s2 out, SendPacket false s pb src dst proto = Ret (s1, Enqueued) ∧
    writeLoop_round false s1 = Ret (Some (s2, out)) ∧
    Forall (λ w, zlen (wire_data w) ≤ s_mtu s) out ∧
    ∀ evs, (rd_raw <$> evs) ≡ₚ (wire_data <$> out) → Forall (read_ok t0 t1) evs →
    ∃ r' pkt h c, read_all r evs
        = Ret (r', replicate (length evs - 1) ReadDrops ++ [ReadDispatches proto pkt]) ∧
      carries pkt h p ∧
      HeaderLength h = Ret 20 ∧
      Decode h = Ret (mkIPv4Fields 0 (20 + zlen p) (next_id s) 0 0 (s_ttl s) proto c src dst).
Proof. apply packet_gets_through. Qed.

Definition sample_stack (mtu : Z) : Stack :=
  mkStack mtu false [] 4 {[ 17 ]} newIPv4Reassembler 0 64 None false.
Definition sample_buffer : PacketBuffer :=
  mkPacketBuffer (make_bytes 20 ++ sample_payload) 20 0 None None (Some (mkView 20 24)).

Lemma sample_buffer_holds : holds sample_buffer sample_payload.
Proof. split; [split; done|done|done|reflexivity]. Qed.
Lemma sample_receiver_ok :
  receiver_ok (sample_stack 1500) (mkKey 1 2 (next_id (sample_stack 36)) 17) 17
    (zlen sample_payload) 0 30000000000.
Proof.
  split; [apply empty_reasm_ok|reflexivity|split; [reflexivity|done]|done|split; [done|]].
  reflexivity.
Qed.

Lemma sample_read_ok raw :
  read_ok 0 30000000000 (mkRead map_to_list 5 pool_New pool_New raw).
Proof. split; [done|]. split; done. Qed.

Lemma ip_packet_gets_through_witness :
  let ev raw := mkRead map_to_list 5 pool_New pool_New raw in
  ∃ s1 s2 out r' pkt h,
    SendPacket false (sample_stack 36) sample_buffer 1 2 17 = Ret (s1, Enqueued) ∧
    writeLoop_round false s1 = Ret (Some (s2, out)) ∧
    read_all (sample_stack 1500) (ev <$> reverse (wire_data <$> out))
      = Ret (r', replicate (length out - 1) ReadDrops ++ [ReadDispatches 17 pkt]) ∧
    carries pkt h sample_payload.
Proof.
  intros ev.
  destruct (ip_packet_gets_through (sample_stack 36) (sample_stack 1500) sample_buffer
    sample_payload 1 2 17 0 30000000000 sample_buffer_holds
    ltac:(done) ltac:(done) ltac:(done) ltac:(done) ltac:(done) ltac:(done) eq_refl eq_refl
    ltac:(done) ltac:(done) sample_receiver_ok) as (s1 & s2 & out & E1 & E2 & _ & H).
  destruct (H (ev <$> reverse (wire_data <$> out))) as (r' & pkt & h & c & Er & Hc & _).
  - rewrite <- list_fmap_compose. cbn. rewrite list_fmap_id. apply reverse_Permutation.
  - rewrite Forall_fmap. apply Forall_true. exact sample_read_ok.
  - exists s1, s2, out, r', pkt, h. split; [exact E1|]. split; [exact E2|].
    split; [|exact Hc]. rewrite Er, length_fmap, length_reverse, length_fmap. reflexivity.
Defined.

(** * Echo replies *)

(** The IP header of the reply. *)
Lemma reply_header h src dst :
  20 ≤ zlen h →
  ∃ h1 h2 h3 h4, SetSourceAddress h dst = Ret h1 ∧ SetDestinationAddress h1 src = Ret h2 ∧
    SetTTL h2 64 = Ret h3 ∧ SetChecksum h3 0 = Ret h4 ∧
    zlen h1 = zlen h ∧ zlen h2 = zlen h ∧ zlen h3 = zlen h ∧ zlen h4 = zlen h ∧
    SetChecksum h4 0 = Ret h4 ∧ (bytes_ok h → bytes_ok h4) ∧
    ∀ c, ∃ h5, SetChecksum h4 c = Ret h5 ∧ zlen h5 = zlen h ∧
      (is_u32 src → is_u32 dst → SourceAddress h5 = Ret dst ∧ DestinationAddress h5 = Ret src) ∧
      TTL h5 = Ret 64 ∧ HeaderLength h5 = HeaderLength h ∧ TotalLength h5 = TotalLength h ∧
      ID h5 = ID h ∧ Protocol h5 = Protocol h ∧ read16 h5 6 = read16 h 6.
Proof.
  intros Hh. explode h. do 4 eexists.
  split; [reflexivity|]. split; [reflexivity|]. split; [reflexivity|]. split; [reflexivity|].
  do 4 (split; [done|]). split; [reflexivity|]. split.
  { intros Hb. repeat (apply bytes_ok_insert; [|apply u8_range || done]). exact Hb. }
  intros c. eexists. split; [reflexivity|]. split; [done|].
  split; [|done]. intros Hs Hd.
  split; [transitivity (Ret (be32 (u8 (dst / 16777216)) (u8 (dst / 65536)) (u8 (dst / 256)) (u8 dst)))
         |transitivity (Ret (be32 (u8 (src / 16777216)) (u8 (src / 65536)) (u8 (src / 256)) (u8 src)))];
    try reflexivity; by rewrite be32_split.
Qed.

(** The ICMP message of the reply. *)
Lemma reply_message d :
  8 ≤ zlen d →
  ∃ d1 d2, ICMPv4.SetType d ICMPv4.ICMPv4EchoReply = Ret d1 ∧ ICMPv4.SetChecksum d1 0 = Ret d2 ∧
    zlen d1 = zlen d ∧ zlen d2 = zlen d ∧ ICMPv4.SetChecksum d2 0 = Ret d2 ∧
    (bytes_ok d → bytes_ok d2) ∧
    ∀ c, ∃ d3, ICMPv4.SetChecksum d2 c = Ret d3 ∧ zlen d3 = zlen d ∧
      ICMPv4.Type_ d3 = Ret 0 ∧ ICMPv4.Code d3 = ICMPv4.Code d ∧
      ICMPv4.Ident d3 = ICMPv4.Ident d ∧ ICMPv4.Sequence d3 = ICMPv4.Sequence d ∧
      ICMPv4.Payload d3 = ICMPv4.Payload d.
Proof.
  intros Hd. explode d. do 2 eexists. split; [reflexivity|]. split; [reflexivity|].
  do 2 (split; [done|]). split; [reflexivity|]. split.
  { intros Hb. repeat (apply bytes_ok_insert; [|apply u8_range || done]). exact Hb. }
  intros c. eexists. split; [reflexivity|]. split; [done|]. done.
Qed.

(** An in-place update of the packet, and of its message. *)
Lemma set_packet (h d rest h' : bytes) a b n f :
  n = zlen h + zlen d → f (h ++ d) = Ret (h' ++ d) →
  (let pb := with_views (h ++ d ++ rest) a b in
   buf ← view_update (pb_buf pb) (mkView 0 n) f; Ret (pb <| pb_buf := buf |>))
  = Ret (with_views (h' ++ d ++ rest) a b).
Proof.
  intros -> E. cbn [with_views pb_buf].
  rewrite app_assoc, view_update_front, E by by rewrite zlen_app. cbn. by rewrite <- app_assoc.
Qed.

Lemma set_message (h d rest d' : bytes) a b n m f :
  n = zlen h → m = zlen d → f d = Ret d' →
  (let pb := with_views (h ++ d ++ rest) a b in
   buf ← view_update (pb_buf pb) (mkView n m) f; Ret (pb <| pb_buf := buf |>))
  = Ret (with_views (h ++ d' ++ rest) a b).
Proof. intros -> -> E. cbn [with_views pb_buf]. rewrite view_update_app, E by done. done. Qed.

Lemma handleICMP_run s (h d rest : bytes) src dst h1 h2 h3 h4 h5 d1 d2 d3 :
  8 ≤ zlen d → 20 ≤ zlen h →
  SourceAddress h = Ret src → DestinationAddress h = Ret dst → ICMPv4.Type_ d = Ret 8 →
  SetSourceAddress h dst = Ret h1 → SetDestinationAddress h1 src = Ret h2 →
  SetTTL h2 64 = Ret h3 → SetChecksum h3 0 = Ret h4 → SetChecksum h4 (Checksum h4 0) = Ret h5 →
  zlen h1 = zlen h → zlen h2 = zlen h → zlen h3 = zlen h → zlen h4 = zlen h → zlen h5 = zlen h →
  ICMPv4.SetType d 0 = Ret d1 → ICMPv4.SetChecksum d1 0 = Ret d2 →
  ICMPv4.SetChecksum d2 (Checksum d2 0) = Ret d3 →
  zlen d1 = zlen d → zlen d2 = zlen d → zlen d3 = zlen d →
  ∃ pb', handleICMP s (with_views (h ++ d ++ rest) (zlen h) (zlen d))
      (mkView 0 (zlen h + zlen d)) =
    Ret (countPacketOut s (zlen h + zlen d), [WritePacket (h5 ++ d3)], pb').
Proof.
  intros Hd Hh Es Eds Et E1 E2 E3 E4 E5 L1 L2 L3 L4 L5 F1 F2 F3 M1 M2 M3.
  unfold handleICMP. cbn [with_views Data NetworkHeader pb_view pb_buf default].
  rewrite view_get_app, bind_Ret_l by done. unfold ICMPv4.ICMPv4HeaderSize.
  rewrite (proj2 (Z.ltb_ge _ _)) by lia. rewrite Et, bind_Ret_l. cbn [Z.eqb negb].
  assert (Ev : view_get (h ++ d ++ rest) (mkView 0 (zlen h + zlen d)) = Ret (h ++ d)).
  { rewrite app_assoc. rewrite <- (app_nil_l ((h ++ d) ++ rest)).
    apply (view_get_app []). by rewrite zlen_app. }
  rewrite Ev, bind_Ret_l.
  assert (G : SourceAddress (h ++ d) = Ret src ∧ DestinationAddress (h ++ d) = Ret dst).
  { rewrite <- Es, <- Eds. clear -Hh. explode h. done. }
  destruct G as [-> ->]. rewrite !bind_Ret_l.
  change (negb _) with false. cbv iota.
  rewrite (set_packet h d rest h1); [|done|].
  2:{ unfold SetSourceAddress in *. rewrite write32_app, E1 by (unfold ipv4SrcAddr; lia). done. }
  rewrite bind_Ret_l, (set_packet h1 d rest h2); [|lia|].
  2:{ unfold SetDestinationAddress in *. rewrite write32_app, E2 by (unfold ipv4DstAddr; lia). done. }
  rewrite bind_Ret_l, (set_packet h2 d rest h3); [|lia|].
  2:{ unfold SetTTL in *. rewrite put_app, E3 by (unfold ipv4TTL; lia). done. }
  rewrite bind_Ret_l, (set_packet h3 d rest h4); [|lia|].
  2:{ unfold SetChecksum in *. rewrite write16_app, E4 by (unfold ipv4Checksum; lia). done. }
  rewrite bind_Ret_l. cbn [with_views NetworkHeader pb_view pb_buf].
  assert (Ev4 : view_get (h4 ++ d ++ rest) (mkView 0 (zlen h)) = Ret h4).
  { rewrite <- (app_nil_l (h4 ++ _)). by apply (view_get_app []). }
  rewrite Ev4, bind_Ret_l, (set_packet h4 d rest h5); [|lia|].
  2:{ unfold SetChecksum in *. rewrite write16_app, E5 by (unfold ipv4Checksum; lia). done. }
  rewrite bind_Ret_l. cbn [with_views Data].
  change (default (mkView 0 0) (Some ?x)) with x.
  rewrite (set_message h5 d rest d1), bind_Ret_l by done.
  rewrite (set_message h5 d1 rest d2), bind_Ret_l by done.
  assert (Evd : view_get (pb_buf (with_views (h5 ++ d2 ++ rest) (zlen h) (zlen d)))
    (mkView (zlen h) (zlen d)) = Ret d2) by (cbn; rewrite <- L5; by apply view_get_app).
  rewrite Evd, bind_Ret_l, (set_message h5 d2 rest d3), bind_Ret_l by done.
  cbn [with_views pb_buf NetworkHeader]. change (default (mkView 0 0) (Some ?x)) with x.
  cbn [v_off v_len].
  assert (Eout : slice (h5 ++ d3 ++ rest) 0 (0 + (zlen h + zlen d)) = Ret (h5 ++ d3)).
  { rewrite <- L5, <- M3, <- zlen_app, app_assoc. apply slice_to_app. }
  rewrite Eout, bind_Ret_l. by eexists.
Qed.

(** C30: an echo request is answered with the matching echo reply.  For an
    echo request in a packet, the stack writes one packet of the same length
    to the channel: the IP header with source and destination exchanged, TTL
    64 and a checksum that verifies, the ICMP message with type 0, the same
    code, identifier, sequence number and data, and a checksum that
    verifies. *)
Theorem echo_reply_correct s h d rest src dst :
  bytes_ok h → bytes_ok d → 20 ≤ zlen h ≤ 60 → 8 ≤ zlen d ≤ 65535 →
  SourceAddress h = Ret src → DestinationAddress h = Ret dst → ICMPv4.Type_ d = Ret 8 →
  ∃ h' d' pb',
    handleICMP s (with_views (h ++ d ++ rest) (zlen h) (zlen d)) (mkView 0 (zlen h + zlen d)) =
      Ret (countPacketOut s (zlen h + zlen d), [WritePacket (h' ++ d')], pb') ∧
    SourceAddress h' = Ret dst ∧ DestinationAddress h' = Ret src ∧ TTL h' = Ret 64 ∧
    HeaderLength h' = HeaderLength h ∧ TotalLength h' = TotalLength h ∧ ID h' = ID h ∧
    Protocol h' = Protocol h ∧ read16 h' 6 = read16 h 6 ∧ Checksum h' 0 = 0 ∧
    ICMPv4.Type_ d' = Ret 0 ∧ ICMPv4.Code d' = ICMPv4.Code d ∧
    ICMPv4.Ident d' = ICMPv4.Ident d ∧ ICMPv4.Sequence d' = ICMPv4.Sequence d ∧
    ICMPv4.Payload d' = ICMPv4.Payload d ∧ Checksum d' 0 = 0.
Proof.
  intros Hbh Hbd Hh Hd Es Ed Et.
  destruct (reply_header h src dst) as (h1 & h2 & h3 & h4 & E1 & E2 & E3 & E4 & L1 & L2 & L3 & L4
    & E44 & Hb4 & H5); [lia|].
  destruct (H5 (Checksum h4 0)) as (h5 & E5 & L5 & Haddr & Hrest).
  destruct (reply_message d) as (d1 & d2 & F1 & F2 & M1 & M2 & F22 & Hb2 & H3); [lia|].
  destruct (H3 (Checksum d2 0)) as (d3 & F3 & M3 & Hmsg).
  assert (Hs : is_u32 src) by by apply (read32_range h 12).
  assert (Hds : is_u32 dst) by by apply (read32_range h 16).
  destruct (Haddr Hs Hds) as [A1 A2].
  destruct (handleICMP_run s h d rest src dst h1 h2 h3 h4 h5 d1 d2 d3) as (pb' & E);
    try done; [lia..|].
  exists h5, d3, pb'. split; [exact E|].
  assert (Checksum h5 0 = 0).
  { apply (Checksum_filled h4 10 h4 _ 0); try done; [auto|unfold sum_fits; lia|by exists 5]. }
  assert (Checksum d3 0 = 0).
  { apply (Checksum_filled d2 2 d2 _ 0); try done; [auto|unfold sum_fits; lia|by exists 1]. }
  naive_solver.
Qed.

Lemma echo_reply_correct_witness :
  ∃ out pb', handleICMP (sample_stack 1500)
      (with_views ([69; 0; 0; 28; 0; 7; 0; 0; 3; 1; 0; 0; 10; 0; 0; 1; 10; 0; 0; 2] ++
                   [8; 0; 247; 252; 0; 1; 0; 2] ++ [9]) 20 8) (mkView 0 28)
    = Ret (countPacketOut (sample_stack 1500) 28, [WritePacket out], pb') ∧
  out = [69; 0; 0; 28; 0; 7; 0; 0; 64; 1; 102; 216; 10; 0; 0; 2; 10; 0; 0; 1;
         0; 0; 255; 252; 0; 1; 0; 2].
Proof.
  destruct (echo_reply_correct (sample_stack 1500)
    [69; 0; 0; 28; 0; 7; 0; 0; 3; 1; 0; 0; 10; 0; 0; 1; 10; 0; 0; 2]
    [8; 0; 247; 252; 0; 1; 0; 2] [9] (From4 10 0 0 1) (From4 10 0 0 2))
    as (h' & d' & pb' & E & _); try reflexivity; try (vm_compute; split; congruence).
  - repeat apply Forall_cons_2; try done.
  - repeat apply Forall_cons_2; try done.
  - exists (h' ++ d'), pb'. split; [exact E|].
    generalize dependent (h' ++ d'). intros out E. vm_compute in E. by injection E.
Defined.
