(* ===== verification/Memory.v ===== *)
(** The in-process channel of src/channel/memory.go: two queues of 256 packets
    and a flag, shared by any number of goroutines.  A [select] is the list of
    the cases that are ready (none: the goroutine waits); the scheduler picks
    the goroutine and the case. *)
From S2P Require Import Prelude.
From S2P Require Import IpLayer.

(** [inbound] and [outbound] are Go channels of capacity 256; [closed] says
    whether the channel of that name has been closed. *)
Record MemoryChannel := mkMemory {
  inbound : list bytes; outbound : list bytes; mtu : Z; closed : bool }.
Definition queueCap : Z := 256.

Definition NewMemory (mtu : Z) : MemoryChannel := mkMemory [] [] mtu false.

(** Where a goroutine is: between calls, at the start of a call, at the second
    [select] of [WritePacket], in the [default] of [Close], or panicking. *)
Inductive position :=
| Between
| AtReadPacket (buf : bytes)
| AtWritePacket (data : bytes)
| AtSend (pkt : bytes)
| AtClose
| AtCloseDefault
| AtInject (pkt : bytes)
| AtRead
| AtTryRead
| Panicking.

(** What a step shows: a call begins or goes on, or what a call returns.
    [Wrote] and [Injected] carry the packet that was queued. *)
Inductive event :=
| Silent
| ReadOk (n : Z) (buf : bytes)
| ReadClosed
| Wrote (pkt : bytes)
| WriteClosed
| Closed
| Injected (pkt : bytes)
| Got (pkt : option bytes)
| Panics.

Definition case : Type := MemoryChannel * position * event.

Definition set_inbound (c : MemoryChannel) (q : list bytes) := mkMemory q (outbound c) (mtu c) (closed c).
Definition set_outbound (c : MemoryChannel) (q : list bytes) := mkMemory (inbound c) q (mtu c) (closed c).
Definition set_closed (c : MemoryChannel) := mkMemory (inbound c) (outbound c) (mtu c) true.

(** [make([]byte, len(data))] and [copy]. *)
Definition clone (data : bytes) : bytes := (copy (make_bytes (zlen data)) data).1.

(** The case [<-c.closed]. *)
Definition on_closed (c : MemoryChannel) (e : event) : list case :=
  if closed c then [(c, Between, e)] else [].

Definition ReadPacket (c : MemoryChannel) (buf : bytes) : list case :=
  match inbound c with
  | [] => []
  | pkt :: q => let '(buf, n) := copy buf pkt in [(set_inbound c q, Between, ReadOk n buf)]
  end ++ on_closed c ReadClosed.

(** The first [select] of [WritePacket] has a [default]. *)
Definition WritePacket (c : MemoryChannel) (data : bytes) : list case :=
  if closed c then [(c, Between, WriteClosed)] else [(c, AtSend (clone data), Silent)].
Definition WritePacket_send (c : MemoryChannel) (pkt : bytes) : list case :=
  (if zlen (outbound c) <? queueCap then [(set_outbound c (outbound c ++ [pkt]), Between, Wrote pkt)] else []) ++
  on_closed c WriteClosed.

(** Closing a closed channel panics. *)
Definition Close (c : MemoryChannel) : list case :=
  if closed c then [(c, Between, Closed)] else [(c, AtCloseDefault, Silent)].
Definition Close_default (c : MemoryChannel) : list case :=
  if closed c then [(c, Panicking, Panics)] else [(set_closed c, Between, Closed)].

Definition MTU (c : MemoryChannel) : Z := mtu c.

Definition Inject (c : MemoryChannel) (data : bytes) : list case :=
  if zlen (inbound c) <? queueCap
  then [(set_inbound c (inbound c ++ [clone data]), Between, Injected (clone data))] else [].

(** The case [pkt := <-c.outbound]. *)
Definition on_outbound (c : MemoryChannel) : list case :=
  match outbound c with
  | [] => []
  | pkt :: q => [(set_outbound c q, Between, Got (Some pkt))]
  end.

(** The timer of [Read] may fire at any time. *)
Definition Read (c : MemoryChannel) : list case := on_outbound c ++ [(c, Between, Got None)].
Definition TryRead (c : MemoryChannel) : list case :=
  match on_outbound c with [] => [(c, Between, Got None)] | cs => cs end.

(** The next steps of a goroutine. *)
Definition run (c : MemoryChannel) (p : position) : list case :=
  match p with
  | Between | Panicking => []
  | AtReadPacket buf => ReadPacket c buf
  | AtWritePacket data => WritePacket c data
  | AtSend pkt => WritePacket_send c pkt
  | AtClose => Close c
  | AtCloseDefault => Close_default c
  | AtInject data => Inject c data
  | AtRead => Read c
  | AtTryRead => TryRead c
  end.

(** The beginnings of the calls. *)
Definition entry (p : position) : bool :=
  match p with Between | AtSend _ | AtCloseDefault | Panicking => false | _ => true end.

Inductive step : MemoryChannel * list position → event → MemoryChannel * list position → Prop :=
| step_call c ps i p : ps !! i = Some Between → entry p = true → step (c, ps) Silent (c, <[i := p]> ps)
| step_run c ps i p c' p' e : ps !! i = Some p → (c', p', e) ∈ run c p → step (c, ps) e (c', <[i := p']> ps).

(** The runs of [n] goroutines, with what they show. *)
Inductive runs (m : Z) (n : nat) : list event → MemoryChannel * list position → Prop :=
| runs_start : runs m n [] (NewMemory m, replicate n Between)
| runs_step tr s e s' : runs m n tr s → step s e s' → runs m n (tr ++ [e]) s'.

(** * What was put in and taken out *)
Definition written (tr : list event) : list bytes := omap (λ e, if e is Wrote p then Some p else None) tr.
Definition injected (tr : list event) : list bytes := omap (λ e, if e is Injected p then Some p else None) tr.
Definition taken (tr : list event) : list bytes := omap (λ e, if e is Got (Some p) then Some p else None) tr.
Definition delivered (tr : list event) : list (Z * bytes) := omap (λ e, if e is ReadOk n b then Some (n, b) else None) tr.

Lemma omap_snoc {A B} (f : A → option B) l x : omap f (l ++ [x]) = omap f l ++ match f x with Some y => [y] | None => [] end.
Proof. rewrite omap_app. cbn. by destruct (f x). Qed.

Lemma clone_id data : clone data = data.
Proof.
  unfold clone. pose proof (zlen_nonneg data). rewrite copy_front, zdrop_all, app_nil_r by (rewrite zlen_make_bytes; lia). done.
Qed.

Record queues_ok (tr : list event) (c : MemoryChannel) : Prop := {
  qo_out : written tr = taken tr ++ outbound c;
  qo_in : ∃ pkts, injected tr = pkts ++ inbound c ∧
    Forall2 (λ pkt '(n, b), ∃ buf, memory_read pkt buf = Some (b, n)) pkts (delivered tr);
  qo_caps : zlen (inbound c) ≤ queueCap ∧ zlen (outbound c) ≤ queueCap }.

(** Steps that leave the queues alone. *)
Lemma queues_same tr c c' e :
  queues_ok tr c → inbound c' = inbound c → outbound c' = outbound c →
  match e with ReadOk _ _ | Wrote _ | Injected _ | Got (Some _) => False | _ => True end → queues_ok (tr ++ [e]) c'.
Proof.
  intros [Ho Hi Hc] E1 E2 He. split; unfold written, taken, injected, delivered in *; rewrite ?omap_snoc, ?E1, ?E2; [..|done];
    destruct e as [| | | | | | |[]|]; try done; by rewrite ?app_nil_r.
Qed.

Lemma queues_closed tr c c' p' e e' :
  queues_ok tr c → match e with ReadClosed | WriteClosed => True | _ => False end → (c', p', e') ∈ on_closed c e →
  queues_ok (tr ++ [e']) c'.
Proof.
  unfold on_closed. intros Hq He Hin. case_match; [|by apply elem_of_nil in Hin].
  apply list_elem_of_singleton in Hin as [= -> -> ->]. eapply queues_same; [done..|]. by destruct e.
Qed.

Lemma queues_outbound tr c c' p' e' :
  queues_ok tr c → (c', p', e') ∈ on_outbound c → queues_ok (tr ++ [e']) c'.
Proof.
  unfold on_outbound. intros [Ho Hi [Hc1 Hc2]] Hin. destruct (outbound c) as [|pkt q] eqn:E; [by apply elem_of_nil in Hin|].
  apply list_elem_of_singleton in Hin as [= -> -> ->]. rewrite zlen_cons in Hc2.
  split; unfold written, taken, injected, delivered in *; rewrite ?omap_snoc, ?app_nil_r; cbn [outbound inbound set_outbound].
  - by rewrite <- app_assoc.
  - done.
  - split; lia.
Qed.

Lemma run_queues tr c p c' p' e : queues_ok tr c → (c', p', e) ∈ run c p → queues_ok (tr ++ [e]) c'.
Proof.
  intros Hq Hin. destruct p as [|buf|data|pkt| | |data| | |]; cbn [run] in Hin; try by apply elem_of_nil in Hin.
  - unfold ReadPacket in Hin. apply elem_of_app in Hin as [Hin|Hin]; [|by eapply (queues_closed _ _ _ _ ReadClosed)].
    destruct Hq as [Ho (pkts & Hi & HF) [Hc1 Hc2]]. destruct (inbound c) as [|pkt q] eqn:E; [by apply elem_of_nil in Hin|].
    destruct (copy buf pkt) as [b n] eqn:Ec. apply list_elem_of_singleton in Hin as [= -> -> ->]. rewrite zlen_cons in Hc1.
    split; unfold written, taken, injected, delivered in *; rewrite ?omap_snoc, ?app_nil_r; cbn [outbound inbound set_inbound]; [done| |split; lia].
    exists (pkts ++ [pkt]). rewrite <- app_assoc. split; [done|]. apply Forall2_app; [done|]. apply Forall2_cons_2; [|constructor].
    exists buf. unfold memory_read. by rewrite Ec.
  - unfold WritePacket in Hin. case_match; apply list_elem_of_singleton in Hin as [= -> -> ->]; by eapply queues_same.
  - unfold WritePacket_send in Hin. apply elem_of_app in Hin as [Hin|Hin]; [|by eapply (queues_closed _ _ _ _ WriteClosed)].
    destruct Hq as [Ho Hi [Hc1 Hc2]]. destruct (Z.ltb_spec (zlen (outbound c)) queueCap); [|by apply elem_of_nil in Hin].
    apply list_elem_of_singleton in Hin as [= -> -> ->].
    split; unfold written, taken, injected, delivered in *; rewrite ?omap_snoc, ?app_nil_r; cbn [outbound inbound set_outbound].
    + by rewrite Ho, app_assoc.
    + done.
    + rewrite zlen_app, zlen_cons, zlen_nil. lia.
  - unfold Close in Hin. case_match; apply list_elem_of_singleton in Hin as [= -> -> ->]; by eapply queues_same.
  - unfold Close_default in Hin. case_match; apply list_elem_of_singleton in Hin as [= -> -> ->]; by eapply queues_same.
  - unfold Inject in Hin. destruct Hq as [Ho (pkts & Hi & HF) [Hc1 Hc2]].
    destruct (Z.ltb_spec (zlen (inbound c)) queueCap); [|by apply elem_of_nil in Hin].
    apply list_elem_of_singleton in Hin as [= -> -> ->].
    split; unfold written, taken, injected, delivered in *; rewrite ?omap_snoc, ?app_nil_r; cbn [outbound inbound set_inbound].
    + done.
    + exists pkts. by rewrite Hi, app_assoc.
    + rewrite zlen_app, zlen_cons, zlen_nil. lia.
  - unfold Read in Hin. apply elem_of_app in Hin as [Hin|Hin]; [by eapply queues_outbound|].
    apply list_elem_of_singleton in Hin as [= -> -> ->]. by eapply queues_same.
  - unfold TryRead in Hin. destruct (on_outbound c) eqn:E; [|rewrite <- E in Hin; by eapply queues_outbound].
    apply list_elem_of_singleton in Hin as [= -> -> ->]. by eapply queues_same.
Qed.

Lemma runs_queues m n tr s : runs m n tr s → queues_ok tr s.1.
Proof.
  induction 1 as [|tr s e s' _ IH Hs].
  - split; [done| |done]. exists []. split; [done|]. constructor.
  - destruct Hs as [c ps i p _ _|c ps i p c' p' e _ Hin]; cbn [fst] in *.
    + by eapply queues_same.
    + by eapply run_queues.
Qed.

(** The only call that can wait on a closed channel is [Inject], which has no
    case for it, into a full queue. *)
Lemma closed_waits c p :
  closed c = true → zlen (inbound c) ≤ queueCap → p ≠ Between → p ≠ Panicking →
  run c p = [] ↔ ∃ data, p = AtInject data ∧ zlen (inbound c) = queueCap.
Proof.
  intros Hc Hle H1 H2. destruct p as [|buf|data|pkt| | |data| | |]; cbn [run]; try done.
  6: { unfold Inject. destruct (Z.ltb_spec (zlen (inbound c)) queueCap); split; try done.
       - intros (? & _ & ?). lia.
       - intros _. exists data. split; [done|lia]. }
  all: split; [|by intros (? & ? & _)]; unfold ReadPacket, WritePacket, WritePacket_send, Close, Close_default, Read, TryRead, on_closed;
    rewrite ?Hc; try done.
  - by intros [_ ?]%app_nil.
  - by intros [_ ?]%app_nil.
  - by intros [_ ?]%app_nil.
  - by destruct (on_outbound c).
Qed.

(** C26: the memory channel is a pair of first-in first-out queues, whichever
    goroutines call it and however they are scheduled.  The packets that were
    written are those that [Read] and [TryRead] have returned, in that order,
    and then those in the queue; [ReadPacket] has delivered the injected
    packets in order, each cut to the buffer, and the rest is in the queue;
    neither queue exceeds its capacity.  Once it is closed, a [WritePacket]
    that begins fails, and every call in progress can go on but one: an
    [Inject] into a full queue waits until a packet is read. *)
Theorem memory_channel_fifo m n tr c ps :
  runs m n tr (c, ps) →
  written tr = taken tr ++ outbound c ∧
  (∃ pkts, injected tr = pkts ++ inbound c ∧
    Forall2 (λ pkt '(k, b), ∃ buf, memory_read pkt buf = Some (b, k)) pkts (delivered tr)) ∧
  zlen (inbound c) ≤ queueCap ∧ zlen (outbound c) ≤ queueCap ∧
  (closed c = true →
    (∀ data, WritePacket c data = [(c, Between, WriteClosed)]) ∧
    (∀ i p, ps !! i = Some p → p ≠ Between → p ≠ Panicking →
      run c p = [] ↔ ∃ data, p = AtInject data ∧ zlen (inbound c) = queueCap)).
Proof.
  intros [Ho Hi [Hc1 Hc2]]%runs_queues. split_and!; [done..|]. intros Hc. split.
  - intros data. unfold WritePacket. by rewrite Hc.
  - intros i p _ Hb Hp. by apply closed_waits.
Qed.

(** ** Replaying a schedule *)
Inductive choice := Calls (i : nat) (p : position) | Goes (i k : nat).

Definition act (s : MemoryChannel * list position) (ch : choice) : option (event * (MemoryChannel * list position)) :=
  let '(c, ps) := s in
  match ch with
  | Calls i p => if ps !! i is Some Between then if entry p then Some (Silent, (c, <[i := p]> ps)) else None else None
  | Goes i k => p ← ps !! i; '(c', p', e) ← run c p !! k; Some (e, (c', <[i := p']> ps))
  end.

Fixpoint replay (s : MemoryChannel * list position) (chs : list choice) : option (list event * (MemoryChannel * list position)) :=
  match chs with
  | [] => Some ([], s)
  | ch :: chs => '(e, s) ← act s ch; '(tr, s) ← replay s chs; Some (e :: tr, s)
  end.

Lemma act_step s ch e s' : act s ch = Some (e, s') → step s e s'.
Proof.
  destruct s as [c ps], ch as [i p|i k]; cbn [act].
  - destruct (ps !! i) as [[]|] eqn:Ei; try done. destruct (entry p) eqn:Ep; [|done]. intros [= <- <-]. by apply step_call.
  - destruct (ps !! i) as [p|] eqn:Ei; [|done]. cbn. destruct (run c p !! k) as [[[c' p'] e']|] eqn:Er; [|done].
    intros [= <- <-]. eapply step_run; [done|]. by eapply list_elem_of_lookup_2.
Qed.

Lemma replay_runs m n tr s chs tr' s' : runs m n tr s → replay s chs = Some (tr', s') → runs m n (tr ++ tr') s'.
Proof.
  revert tr s tr'. induction chs as [|ch chs IH]; intros tr s tr' Hr E; cbn [replay] in E.
  - injection E as <- <-. by rewrite app_nil_r.
  - destruct (act s ch) as [[e s1]|] eqn:Ea; [|done]. cbn in E. destruct (replay s1 chs) as [[tr1 s2]|] eqn:E1; [|done].
    injection E as <- <-. change (e :: tr1) with ([e] ++ tr1). rewrite app_assoc. eapply IH; [|done].
    eapply runs_step; [done|]. by eapply act_step.
Qed.

(** One goroutine writes a packet and another takes it; the first injects one,
    which a third reads into a short buffer. *)
Definition sample_schedule : list choice :=
  [Calls 0 (AtWritePacket [1; 2; 3]); Goes 0 0; Goes 0 0; Calls 1 AtTryRead; Goes 1 0;
   Calls 0 (AtInject [4; 5; 6]); Goes 0 0; Calls 2 (AtReadPacket [0; 0]); Goes 2 0].

Lemma memory_channel_fifo_witness :
  ∃ tr c ps, replay (NewMemory 1500, replicate 3 Between) sample_schedule = Some (tr, (c, ps)) ∧
    written tr = taken tr ++ outbound c ∧ taken tr = [[1; 2; 3]] ∧
    ∃ pkts, injected tr = pkts ++ inbound c ∧
      Forall2 (λ pkt '(k, b), ∃ buf, memory_read pkt buf = Some (b, k)) pkts (delivered tr) ∧ delivered tr = [(2, [4; 5])].
Proof.
  set (tr := [Silent; Silent; Wrote [1; 2; 3]; Silent; Got (Some [1; 2; 3]); Silent; Injected [4; 5; 6]; Silent; ReadOk 2 [4; 5]]).
  assert (replay (NewMemory 1500, replicate 3 Between) sample_schedule = Some (tr, (NewMemory 1500, replicate 3 Between))) as E
    by (vm_compute; reflexivity).
  destruct (memory_channel_fifo 1500 3 tr (NewMemory 1500) (replicate 3 Between)) as (E1 & (pkts & E2 & HF) & _).
  { apply (replay_runs _ _ [] _ sample_schedule _ _ (runs_start 1500 3) E). }
  exists tr, (NewMemory 1500), (replicate 3 Between). split; [exact E|]. split; [exact E1|]. split; [done|].
  exists pkts. split; [exact E2|]. split; [exact HF|done].
Defined.

(** Two calls of [Close] at the same time panic.  The check that the
    channel is still open and the closing are two steps: when both goroutines
    check before either closes, the second closes a closed channel. *)
Theorem concurrent_close_panics m :
  ∃ tr c ps, runs m 2 tr (c, ps) ∧ closed c = true ∧ Panics ∈ tr.
Proof.
  exists [Silent; Silent; Silent; Silent; Closed; Panics], (mkMemory [] [] m true), [Between; Panicking].
  split; [|split; [done|do 5 right; left]].
  apply (replay_runs m 2 [] (NewMemory m, replicate 2 Between)
    [Calls 0 AtClose; Calls 1 AtClose; Goes 0 0; Goes 1 0; Goes 0 0; Goes 1 0]); [constructor|done].
Qed.
