(* ===== verification/Seq.v ===== *)
(** Sequence-number arithmetic of [transport/tcp/rcv.go]: comparisons of
    32-bit sequence numbers modulo 2^32. *)
From S2P Require Import Prelude.

Definition seqGreaterThan (a b : Z) : bool := i32 (u32 (a - b)) >? 0.
Definition seqLessThan (a b : Z) : bool := i32 (u32 (a - b)) <? 0.
Definition seqWithinWindow (seq start wnd : Z) : bool :=
  negb (seqLessThan seq start) && seqLessThan seq (u32 (start + wnd)).

Lemma u32_sub_pos x y : u32 (u32 x - u32 y) = u32 (x - y).
Proof. by rewrite u32_u32_sub_l, u32_u32_sub_r. Qed.

Lemma i32_small d : -2147483648 ≤ d < 2147483648 → i32 (u32 d) = d.
Proof.
  intros H. unfold i32. rewrite u32_u32. unfold u32.
  destruct (Z.le_gt_cases 0 d).
  - rewrite !Z.mod_small by lia. case_if; lia.
  - replace (d mod 4294967296) with (d + 4294967296)
      by (apply (Z.mod_unique _ _ (-1)); lia).
    case_if; lia.
Qed.

(** On numbers that stand for unbounded positions less than 2^31 apart, the
    comparisons are those of the positions. *)
Lemma seqGreaterThan_pos x y :
  -2147483648 ≤ x - y < 2147483648 → seqGreaterThan (u32 x) (u32 y) = (x >? y).
Proof. intros H. unfold seqGreaterThan. rewrite u32_sub_pos, i32_small by done. lia. Qed.

Lemma seqLessThan_pos x y :
  -2147483648 ≤ x - y < 2147483648 → seqLessThan (u32 x) (u32 y) = (x <? y).
Proof. intros H. unfold seqLessThan. rewrite u32_sub_pos, i32_small by done. lia. Qed.

(** On two sequence numbers that stand for positions of the byte stream
    less than 2^31 apart, [seqLessThan] and [seqGreaterThan] compare the
    positions and [seqWithinWindow] tests membership in the window, whatever
    number of times the 32-bit counter has wrapped around. *)
Theorem seq_compare_positions x y w :
  -2147483648 ≤ x - y < 2147483648 → 0 ≤ w < 2147483648 → x - (y + w) < 2147483648 →
  -2147483648 ≤ x - (y + w) →
  seqGreaterThan (u32 x) (u32 y) = (x >? y) ∧
  seqLessThan (u32 x) (u32 y) = (x <? y) ∧
  seqWithinWindow (u32 x) (u32 y) w = (y <=? x) && (x <? y + w).
Proof.
  intros H Hw H1 H2. rewrite seqGreaterThan_pos, seqLessThan_pos by done.
  split; [done|]. split; [done|]. unfold seqWithinWindow.
  rewrite seqLessThan_pos by done. rewrite u32_u32_add_l, seqLessThan_pos by lia. lia.
Qed.

Lemma seq_compare_positions_witness :
  seqGreaterThan 3 4294967290 = true ∧ seqLessThan 3 4294967290 = false ∧
  seqWithinWindow 3 4294967290 100 = true.
Proof.
  pose proof (seq_compare_positions 4294967299 4294967290 100
    ltac:(lia) ltac:(lia) ltac:(lia) ltac:(lia)) as H. exact H.
Defined.
