(* ===== verification/TcpConn.v ===== *)
(** The state of a TCP connection: [transport/tcp/conn.go] ([TCPConn]),
    [snd.go] ([sender]), [rcv.go] ([receiver]), [state.go], [flow.go],
    [options.go], [stats.go], and the monad the connection's code runs in.

    A connection shares the handler, the stack and the pools with the others.
    What it touches of them is the [World]: the counters, the packets handed
    to the stack, the accept queue, and a number of ticks.  The environment
    [Env] gives the values of the sources of nondeterminism at each tick: the
    clock and the buffers the pools hand out.  Timers hold the duration they
    are armed with; any armed timer may fire. *)
From S2P Require Import Prelude.
From S2P Require Import Tcpip.
From S2P Require Import Checksum.
From S2P Require Import Header.
From S2P Require Import TcpHeader.
From S2P Require Import Packet.
From S2P Require Import Stack.
From S2P Require Import Ringbuf.
From S2P Require Import Seq.

(** * [flow.go], [state.go] *)
Record FlowID := mkFlowID {
  SrcAddr : Address; DstAddr : Address; SrcPort : Z; DstPort : Z }.
#[export] Instance FlowID_eq : EqDecision FlowID.
Proof. solve_decision. Defined.
#[export] Instance FlowID_countable : Countable FlowID.
Proof.
  apply (inj_countable' (λ f, (SrcAddr f, DstAddr f, SrcPort f, DstPort f))
    (λ t, mkFlowID t.1.1.1 t.1.1.2 t.1.2 t.2)). by intros [].
Defined.
Definition flow_reverse (f : FlowID) : FlowID :=
  mkFlowID (DstAddr f) (SrcAddr f) (DstPort f) (SrcPort f).

Inductive tcpState :=
| stateClosed | stateSynRcvd | stateEstablished | stateFinWait1 | stateFinWait2
| stateCloseWait | stateLastAck | stateTimeWait | stateClosing.
#[export] Instance tcpState_eq : EqDecision tcpState.
Proof. solve_decision. Defined.

Definition tcpState_String (s : tcpState) : string :=
  match s with
  | stateClosed => "CLOSED"
  | stateSynRcvd => "SYN_RCVD"
  | stateEstablished => "ESTABLISHED"
  | stateFinWait1 => "FIN_WAIT_1"
  | stateFinWait2 => "FIN_WAIT_2"
  | stateCloseWait => "CLOSE_WAIT"
  | stateLastAck => "LAST_ACK"
  | stateTimeWait => "TIME_WAIT"
  | stateClosing => "CLOSING"
  end.

(** * [stats.go] *)
Record TCPStats := mkTCPStats {
  ActiveConns : Z; TotalAccepted : Z; TotalClosed : Z; TotalReset : Z;
  SegmentsIn : Z; SegmentsOut : Z; PayloadBytesIn : Z; PayloadBytesOut : Z;
  ChecksumErrors : Z; DroppedInbound : Z; Retransmits : Z; FastRetransmits : Z;
  DupACKsIn : Z; ResetsSent : Z; ResetsReceived : Z; ZeroWindowProbes : Z;
  PAWSDrops : Z; TimeoutKeepalive : Z; TimeoutFinWait2 : Z; TimeoutSynRcvd : Z }.
#[export] Instance TCPStats_rebuild : Rebuild TCPStats := λ s,
  mkTCPStats (ActiveConns s) (TotalAccepted s) (TotalClosed s) (TotalReset s)
    (SegmentsIn s) (SegmentsOut s) (PayloadBytesIn s) (PayloadBytesOut s)
    (ChecksumErrors s) (DroppedInbound s) (Retransmits s) (FastRetransmits s)
    (DupACKsIn s) (ResetsSent s) (ResetsReceived s) (ZeroWindowProbes s)
    (PAWSDrops s) (TimeoutKeepalive s) (TimeoutFinWait2 s) (TimeoutSynRcvd s).
Definition noStats : TCPStats := mkTCPStats 0 0 0 0 0 0 0 0 0 0 0 0 0 0 0 0 0 0 0 0.

Record ConnSnapshot := mkSnapshot {
  sn_Flow : FlowID; sn_State : string; sn_SRTT : Z; sn_RTO : Z; sn_Cwnd : Z;
  sn_SSThresh : Z; sn_SndWnd : Z; sn_SndNxt : Z; sn_SndMSS : Z; sn_SndMaxWnd : Z;
  sn_RcvWnd : Z; sn_Unacked : Z; sn_OOO : Z; sn_ReadBufUsed : Z; sn_WriteBufUsed : Z;
  sn_BufCap : Z; sn_ReadBufCap : Z; sn_WriteBufCap : Z; sn_DSACKSeen : bool;
  sn_Retries : Z; sn_InRecovery : bool }.
#[export] Instance ConnSnapshot_rebuild : Rebuild ConnSnapshot := λ s,
  mkSnapshot (sn_Flow s) (sn_State s) (sn_SRTT s) (sn_RTO s) (sn_Cwnd s)
    (sn_SSThresh s) (sn_SndWnd s) (sn_SndNxt s) (sn_SndMSS s) (sn_SndMaxWnd s)
    (sn_RcvWnd s) (sn_Unacked s) (sn_OOO s) (sn_ReadBufUsed s) (sn_WriteBufUsed s)
    (sn_BufCap s) (sn_ReadBufCap s) (sn_WriteBufCap s) (sn_DSACKSeen s)
    (sn_Retries s) (sn_InRecovery s).

(** * [snd.go]: the send side *)
Record unackedSegment := mkUnacked {
  us_seq : Z;
  us_ref : option RefBuf;
  us_fin : bool;
  us_sentAt : Z;
  us_retransmitted : bool;
  us_sacked : bool }.
#[export] Instance unackedSegment_rebuild : Rebuild unackedSegment := λ s,
  mkUnacked (us_seq s) (us_ref s) (us_fin s) (us_sentAt s) (us_retransmitted s) (us_sacked s).

Record sender := mkSender {
  s_iss : Z; s_nxt : Z; s_una : Z; s_wnd : Z; s_mss : Z;
  s_rto : Z; s_srtt : Z; s_rttvar : Z; s_minRTO : Z; s_maxRTO : Z;
  s_unacked : list unackedSegment; s_retries : Z; s_maxRetries : Z;
  s_cwnd : Z; s_ssthresh : Z; s_dupACKCount : Z;
  s_inRecovery : bool; s_recoveryPoint : Z; s_dsackSeen : bool; s_maxWnd : Z }.
#[export] Instance sender_rebuild : Rebuild sender := λ s,
  mkSender (s_iss s) (s_nxt s) (s_una s) (s_wnd s) (s_mss s) (s_rto s) (s_srtt s)
    (s_rttvar s) (s_minRTO s) (s_maxRTO s) (s_unacked s) (s_retries s) (s_maxRetries s)
    (s_cwnd s) (s_ssthresh s) (s_dupACKCount s) (s_inRecovery s) (s_recoveryPoint s)
    (s_dsackSeen s) (s_maxWnd s).

(** * [rcv.go]: the receive side

    The receiver's [readBuf] is the connection's; it is kept there. *)
Record oooSegment := mkOoo { oo_seq : Z; oo_data : bytes }.

Record receiver := mkReceiver {
  r_irs : Z; r_nxt : Z; r_ooo : list oooSegment;
  r_finReceived : bool; r_finSeq : Z;
  r_dsackBlock : SACKBlock; r_hasDSACKBlock : bool;
  r_measureStart : option Z; r_bytesDelivered : Z; r_readBufSize : Z; r_maxBufSize : Z }.
#[export] Instance receiver_rebuild : Rebuild receiver := λ r,
  mkReceiver (r_irs r) (r_nxt r) (r_ooo r) (r_finReceived r) (r_finSeq r)
    (r_dsackBlock r) (r_hasDSACKBlock r) (r_measureStart r) (r_bytesDelivered r)
    (r_readBufSize r) (r_maxBufSize r).

(** * [conn.go]: the connection *)

(** The configuration fields copied into a connection. *)
Record ConnConfig := mkConnConfig {
  keepaliveIdle : Z; keepaliveInterval : Z; keepaliveCount : Z; finWait2Timeout : Z;
  synRcvdTimeout : Z; timeWaitDuration : Z; delayedACKTimeout : Z; maxZWPInterval : Z;
  rcvWndSize : Z; minRTO : Z; maxRTO : Z; initialRTO : Z; maxRetries : Z;
  initialSSThresh : Z; maxReadBufSize : Z; readBufSize : Z; writeBufSize : Z }.

(** A timer: the duration it is armed with. *)
Abbreviation timer := (option Z).

(** A channel of capacity one that only signals is a flag, as is a channel
    that is only closed and a [sync.Once]; [inbound] is its queue.
    [c_accepting] marks a connection that waits in [handleSynRcvd] for room
    in the accept queue. *)

Record TCPConn := mkConn {
  c_flow : FlowID;
  c_state : tcpState;
  c_iss : Z; c_irs : Z;
  c_sndWndScale : Z; c_rcvWndScale : Z;
  c_sackPermitted : bool; c_peerMSS : Z;
  c_tsEnabled : bool; c_tsRecent : Z; c_tsLastAckSent : Z;
  c_tsOffset : Z;
  c_noDelay : bool;
  c_unackedSegs : Z;
  c_zeroWindowProbing : bool; c_probeInterval : Z;
  c_keepaliveProbes : Z;
  c_writeShutdown : bool; c_readShutdown : bool; c_finPending : bool;
  c_snd : option sender; c_rcv : option receiver;
  c_readBuf : ringBuffer; c_writeBuf : ringBuffer;
  c_writeNotify : bool; c_windowNotify : bool;
  c_lastWndZero : bool;
  c_inbound : list PacketBuffer; c_inboundCap : Z;
  c_done : bool;
  c_closeOnce : bool; c_closeReadOnce : bool;
  c_closeCh : bool; c_forceCloseCh : bool;
  c_statsActive : bool;
  c_snapshot : ConnSnapshot;
  c_delayedACKTimer : timer; c_zeroWindowTimer : timer; c_keepaliveTimer : timer;
  c_timeWaitTimer : timer; c_finWait2Timer : timer; c_synRcvdTimer : timer;
  c_rtoTimer : timer;
  c_accepting : bool;
  c_cfg : ConnConfig }.
#[export] Instance TCPConn_rebuild : Rebuild TCPConn := λ c,
  mkConn (c_flow c) (c_state c) (c_iss c) (c_irs c) (c_sndWndScale c) (c_rcvWndScale c)
    (c_sackPermitted c) (c_peerMSS c) (c_tsEnabled c) (c_tsRecent c) (c_tsLastAckSent c)
    (c_tsOffset c) (c_noDelay c) (c_unackedSegs c) (c_zeroWindowProbing c) (c_probeInterval c)
    (c_keepaliveProbes c) (c_writeShutdown c) (c_readShutdown c) (c_finPending c)
    (c_snd c) (c_rcv c) (c_readBuf c) (c_writeBuf c) (c_writeNotify c) (c_windowNotify c)
    (c_lastWndZero c) (c_inbound c) (c_inboundCap c) (c_done c)
    (c_closeOnce c) (c_closeReadOnce c) (c_closeCh c) (c_forceCloseCh c)
    (c_statsActive c) (c_snapshot c) (c_delayedACKTimer c) (c_zeroWindowTimer c)
    (c_keepaliveTimer c) (c_timeWaitTimer c) (c_finWait2Timer c) (c_synRcvdTimer c)
    (c_rtoTimer c) (c_accepting c) (c_cfg c).

(** * The world and the environment *)

(** A call of the stack's [SendPacket] or [SendPacketGSO]. *)
Inductive sent :=
| SentPacket (pb : PacketBuffer) (src dst : Address) (proto : Z)
| SentGSO (buf : bytes) (ipOffset totalLen : Z) (src dst : Address) (proto : Z)
    (opts : PacketOptions).

Record World := mkWorld {
  w_stats : option TCPStats;
  w_sent : list sent;
  w_acceptQ : list FlowID;
  w_acceptCap : Z;
  w_ticks : nat }.
#[export] Instance World_rebuild : Rebuild World := λ w,
  mkWorld (w_stats w) (w_sent w) (w_acceptQ w) (w_acceptCap w) (w_ticks w).

(** [e_gso] is the GSO size limit when the channel supports GSO. *)
Record Env := mkEnv {
  e_mtu : Z;
  e_gso : option Z;
  e_tsOffset : Z;
  e_tsEpoch : Z;
  e_clock : nat → Z;
  e_packet : nat → PacketBuffer;
  e_refbuf : nat → RefBuf;
  e_gsobuf : nat → bytes }.

(** * The monad: a connection and the world it acts on *)
Record CS := mkCS { cs_conn : TCPConn; cs_world : World }.

Definition conn_m (A : Type) : Type := Env → CS → outcome (CS * A).

#[export] Instance conn_ret : MRet conn_m := λ A a _ s, Ret (s, a).
#[export] Instance conn_bind : MBind conn_m := λ A B f m e s,
  match m e s with
  | Ret (s, a) => f a e s
  | Panic => Panic
  | OutOfFuel => OutOfFuel
  end.

Definition getc : conn_m TCPConn := λ _ s, Ret (s, cs_conn s).
Definition setc (f : TCPConn → TCPConn) : conn_m unit :=
  λ _ s, Ret (mkCS (f (cs_conn s)) (cs_world s), tt).
Definition lift {A} (m : outcome A) : conn_m A :=
  λ _ s, match m with Ret a => Ret (s, a) | Panic => Panic | OutOfFuel => OutOfFuel end.
Definition skip : conn_m unit := mret tt.
Definition when_ (b : bool) (m : conn_m unit) : conn_m unit := if b then m else skip.
Definition asks {A} (f : Env → A) : conn_m A := λ e s, Ret (s, f e).

(** Dereferencing [c.snd] or [c.rcv]. *)
Definition get_snd : conn_m sender :=
  c ← getc; match c_snd c with Some s => mret s | None => lift Panic end.
Definition set_snd (f : sender → sender) : conn_m unit :=
  s ← get_snd; setc (λ c, c <| c_snd := Some (f s) |>).
Definition get_rcv : conn_m receiver :=
  c ← getc; match c_rcv c with Some r => mret r | None => lift Panic end.
Definition set_rcv (f : receiver → receiver) : conn_m unit :=
  r ← get_rcv; setc (λ c, c <| c_rcv := Some (f r) |>).

Definition tick {A} (oracle : Env → nat → A) : conn_m A := λ e s,
  let w := cs_world s in
  Ret (mkCS (cs_conn s) (w <| w_ticks := S (w_ticks w) |>), oracle e (w_ticks w)).
(** [time.Now()] *)
Definition time_now : conn_m Z := tick e_clock.
(** [h.now()]: milliseconds since the epoch, plus the offset. *)
Definition handler_now : conn_m Z :=
  t ← time_now;
  e ← asks (λ e, e);
  mret (u32 (u32 (Z.quot (t - e_tsEpoch e) 1000000) + e_tsOffset e)).

Definition count_ (f : TCPStats → TCPStats) : conn_m unit := λ _ s,
  let w := cs_world s in
  Ret (mkCS (cs_conn s) (w <| w_stats := f <$> w_stats w |>), tt).
Definition send_ (p : sent) : conn_m unit := λ _ s,
  let w := cs_world s in
  Ret (mkCS (cs_conn s) (w <| w_sent := w_sent w ++ [p] |>), tt).

(** One more of a 64-bit counter. *)
Abbreviation bump f := (λ st : TCPStats, st <| (f%function) := u64 (f%function st + 1) |>).

(** The buffers, read and written through the connection. *)
Definition with_writeBuf {A} (f : ringBuffer → outcome (ringBuffer * A)) : conn_m A :=
  c ← getc;
  '(rb, a) ← lift (f (c_writeBuf c));
  setc (λ c, c <| c_writeBuf := rb |>);;
  mret a.
Definition with_readBuf {A} (f : ringBuffer → outcome (ringBuffer * A)) : conn_m A :=
  c ← getc;
  '(rb, a) ← lift (f (c_readBuf c));
  setc (λ c, c <| c_readBuf := rb |>);;
  mret a.

(** * Running the monad *)
Section run.
Context (e : Env) (s : CS).

Lemma run_bind {A B} (m : conn_m A) (f : A → conn_m B) s' a :
  m e s = Ret (s', a) → (m ≫= f) e s = f a e s'.
Proof. intros E. unfold mbind, conn_bind. by rewrite E. Qed.
Lemma run_assoc {A B C} (m : conn_m A) (f : A → conn_m B) (g : B → conn_m C) :
  ((m ≫= f) ≫= g) e s = (m ≫= (λ x, f x ≫= g)) e s.
Proof. unfold mbind, conn_bind. by destruct (m e s) as [[]| |]. Qed.
Lemma run_mret {A B} (a : A) (f : A → conn_m B) : (mret a ≫= f) e s = f a e s.
Proof. done. Qed.
Lemma run_skip {B} (f : unit → conn_m B) : (skip ≫= f) e s = f tt e s.
Proof. done. Qed.
Lemma run_getc {B} (f : TCPConn → conn_m B) : (getc ≫= f) e s = f (cs_conn s) e s.
Proof. done. Qed.
Lemma run_setc {B} g (f : unit → conn_m B) :
  (setc g ≫= f) e s = f tt e (mkCS (g (cs_conn s)) (cs_world s)).
Proof. done. Qed.
Lemma run_asks {A B} (g : Env → A) (f : A → conn_m B) : (asks g ≫= f) e s = f (g e) e s.
Proof. done. Qed.
Lemma run_tick {A B} (o : Env → nat → A) (f : A → conn_m B) :
  (tick o ≫= f) e s =
  f (o e (w_ticks (cs_world s))) e
    (mkCS (cs_conn s) ((cs_world s) <| w_ticks := S (w_ticks (cs_world s)) |>)).
Proof. done. Qed.
Lemma run_lift {A B} (a : A) (f : A → conn_m B) : (lift (Ret a) ≫= f) e s = f a e s.
Proof. done. Qed.
Lemma run_count {B} g (f : unit → conn_m B) :
  (count_ g ≫= f) e s =
  f tt e (mkCS (cs_conn s) ((cs_world s) <| w_stats := g <$> w_stats (cs_world s) |>)).
Proof. done. Qed.
Lemma run_send {B} p (f : unit → conn_m B) :
  (send_ p ≫= f) e s =
  f tt e (mkCS (cs_conn s) ((cs_world s) <| w_sent := w_sent (cs_world s) ++ [p] |>)).
Proof. done. Qed.
Lemma run_get_snd {B} (f : sender → conn_m B) x :
  c_snd (cs_conn s) = Some x → (get_snd ≫= f) e s = f x e s.
Proof. intros E. unfold get_snd, mbind, conn_bind, getc. by rewrite E. Qed.
Lemma run_get_rcv {B} (f : receiver → conn_m B) x :
  c_rcv (cs_conn s) = Some x → (get_rcv ≫= f) e s = f x e s.
Proof. intros E. unfold get_rcv, mbind, conn_bind, getc. by rewrite E. Qed.
Lemma run_set_snd {B} g (f : unit → conn_m B) x :
  c_snd (cs_conn s) = Some x →
  (set_snd g ≫= f) e s = f tt e (mkCS ((cs_conn s) <| c_snd := Some (g x) |>) (cs_world s)).
Proof. intros E. unfold set_snd, get_snd, mbind, conn_bind, getc. by rewrite E. Qed.
Lemma run_set_rcv {B} g (f : unit → conn_m B) x :
  c_rcv (cs_conn s) = Some x →
  (set_rcv g ≫= f) e s = f tt e (mkCS ((cs_conn s) <| c_rcv := Some (g x) |>) (cs_world s)).
Proof. intros E. unfold set_rcv, get_rcv, mbind, conn_bind, getc. by rewrite E. Qed.

(** The same at the end of a run. *)
Lemma run_set_snd' g x : c_snd (cs_conn s) = Some x →
  set_snd g e s = Ret (mkCS ((cs_conn s) <| c_snd := Some (g x) |>) (cs_world s), tt).
Proof. intros E. unfold set_snd, get_snd, mbind, conn_bind, getc. by rewrite E. Qed.
Lemma run_set_rcv' g x : c_rcv (cs_conn s) = Some x →
  set_rcv g e s = Ret (mkCS ((cs_conn s) <| c_rcv := Some (g x) |>) (cs_world s), tt).
Proof. intros E. unfold set_rcv, get_rcv, mbind, conn_bind, getc. by rewrite E. Qed.
End run.

(** One step of a run: the first primitive of the goal's computation. *)
Ltac crun1 :=
  first
  [ rewrite run_assoc | rewrite run_getc | rewrite run_setc | rewrite run_asks
  | rewrite run_mret | rewrite run_skip | rewrite run_tick | rewrite run_lift
  | rewrite run_count | rewrite run_send
  | erewrite run_get_rcv by (cbn [cs_conn cs_world]; first [eassumption | reflexivity])
  | erewrite run_get_snd by (cbn [cs_conn cs_world]; first [eassumption | reflexivity])
  | erewrite run_set_rcv by (cbn [cs_conn cs_world]; first [eassumption | reflexivity])
  | erewrite run_set_snd by (cbn [cs_conn cs_world]; first [eassumption | reflexivity]) ];
  cbn [cs_conn cs_world].
Ltac crun := repeat crun1.

(** * A connection to evaluate the definitions on *)
Definition sample_flow : FlowID := mkFlowID 167772161 167772162 4000 80.
Definition sample_cfg : ConnConfig :=
  mkConnConfig 7200 75 9 60 75 60 40 60 65535 200 60000 1000 5 65535 65536 65536 65536.
Definition sample_conn (st : tcpState) (snd : option sender) (rcv : option receiver)
    (readBuf writeBuf : ringBuffer) : TCPConn :=
  mkConn sample_flow st 1000 5000 0 0 true 1460 false 0 0 0 false 0 false 0 0 false false false
    snd rcv readBuf writeBuf false false false [] 16 false false false false false false
    (mkSnapshot sample_flow "" 0 0 0 0 0 0 0 0 0 0 0 0 0 0 0 0 false 0 false)
    None None None None None None None false sample_cfg.
Definition sample_world : World := mkWorld None [] [] 16 0.
Definition sample_env : Env :=
  mkEnv 1500 None 0 0 Z.of_nat (λ _, pool_New) (λ _, refBufPool_New) (λ _, make_bytes GSOBufSize).
