(* ===== verification/Rcv.v ===== *)
(** [transport/tcp/rcv.go]: the receive side of a connection, except the
    functions that answer the peer ([handleData] and [deliverOOO], in
    [RcvData]): the windows, the out-of-order list and the SACK blocks. *)
From S2P Require Import Prelude.
From S2P Require Import Tcpip.
From S2P Require Import TcpHeader.
From S2P Require Import Packet.
From S2P Require Import Stack.
From S2P Require Import Ringbuf.
From S2P Require Import Seq.
From S2P Require Import TcpConn.

(** Auto-tuning is on when the buffer can grow beyond its capacity. *)
Definition newReceiver (irs : Z) (readBuf : ringBuffer) (readBufSize maxBufSize : Z) : receiver :=
  let cap := Cap readBuf in
  let tune := (readBufSize >? cap) || (maxBufSize >? cap) in
  mkReceiver irs (u32 (irs + 1)) [] false 0 (mkSACKBlock 0 0) false None 0
    (if tune then readBufSize else 0) (if tune then maxBufSize else 0).

Definition rcvWnd (c : TCPConn) : outcome Z :=
  free ← Free (c_readBuf c);
  if free <=? 0 then Ret 0 else Ret (u32 free).

Definition wnd (c : TCPConn) : outcome Z :=
  free ← Free (c_readBuf c);
  let mss := match c_snd c with Some s => s_mss s | None => 536 end in
  let threshold := Z.min mss (Z.quot (Cap (c_readBuf c)) 2) in
  if free <? threshold then Ret 0 else
  let scaled := Z.shiftr free (c_rcvWndScale c) in
  if scaled >? 65535 then Ret 65535 else Ret (u16 scaled).

(** * The out-of-order list *)
Definition oo_end (e : oooSegment) : Z := u32 (oo_seq e + u32 (zlen (oo_data e))).

(** The entry that already covers [start, end). *)
Definition covers (start end_ : Z) (e : oooSegment) : bool :=
  negb (seqLessThan start (oo_seq e)) && negb (seqGreaterThan end_ (oo_end e)).

(** [for i < len(r.ooo) && seqLessThan(r.ooo[i].seq, seq) { i++ }] *)
Fixpoint insertionPoint (ooo : list oooSegment) (seq : Z) : nat :=
  match ooo with
  | e :: r => if seqLessThan (oo_seq e) seq then S (insertionPoint r seq) else O
  | [] => O
  end.

(** Merging with the preceding entry: the position, the sequence number and
    the data to store there. *)
Definition mergePrev (ooo : list oooSegment) (i : nat) (seq : Z) (saved : bytes) :
    outcome (nat * Z * bytes) :=
  match i with
  | S j =>
      prev ← get ooo (Z.of_nat j);
      let prevEnd := oo_end prev in
      if negb (seqLessThan prevEnd seq) then
        let newEnd := u32 (seq + u32 (zlen saved)) in
        data ← (if seqGreaterThan newEnd prevEnd
                then rest ← slice_from saved (u32 (prevEnd - seq)); Ret (oo_data prev ++ rest)
                else Ret (oo_data prev));
        Ret (j, oo_seq prev, data)
      else Ret (i, seq, saved)
  | O => Ret (i, seq, saved)
  end.

(** An update in place, or an insertion. *)
Definition placeAt (ooo : list oooSegment) (i : nat) (seq : Z) (saved : bytes) : list oooSegment :=
  match ooo !! i with
  | Some e => if oo_seq e =? seq then <[i := mkOoo (oo_seq e) saved]> ooo
              else take i ooo ++ mkOoo seq saved :: drop i ooo
  | None => take i ooo ++ mkOoo seq saved :: drop i ooo
  end.

(** Merging with the entries that follow; each round removes one. *)
Fixpoint mergeNext (fuel : nat) (ooo : list oooSegment) (i : nat) : outcome (list oooSegment) :=
  match ooo !! i, ooo !! S i with
  | Some cur, Some next =>
      let curEnd := oo_end cur in
      if seqLessThan curEnd (oo_seq next) then Ret ooo else
      match fuel with
      | O => OutOfFuel
      | S fuel =>
          data ← (if seqGreaterThan (oo_end next) curEnd
                  then rest ← slice_from (oo_data next) (u32 (curEnd - oo_seq next));
                       Ret (oo_data cur ++ rest)
                  else Ret (oo_data cur));
          mergeNext fuel (take i ooo ++ mkOoo (oo_seq cur) data :: drop (i + 2) ooo) i
      end
  | _, _ => Ret ooo
  end.

Definition insertOOO (r : receiver) (seq : Z) (data : bytes) : outcome receiver :=
  let end_ := u32 (seq + u32 (zlen data)) in
  if existsb (covers seq end_) (r_ooo r) then
    Ret (r <| r_dsackBlock := mkSACKBlock seq end_ |> <| r_hasDSACKBlock := true |>)
  else
    '(i, seq, saved) ← mergePrev (r_ooo r) (insertionPoint (r_ooo r) seq) seq data;
    ooo ← mergeNext (length (r_ooo r)) (placeAt (r_ooo r) i seq saved) i;
    Ret (r <| r_ooo := ooo |>).

(** * SACK blocks *)
(** The ranges of the entries after [cur], adjacent ones joined. *)
Fixpoint coalesce (cur : SACKBlock) (ooo : list oooSegment) : list SACKBlock :=
  match ooo with
  | [] => [cur]
  | seg :: ooo =>
      if oo_seq seg <=? End_ cur then
        coalesce (if oo_end seg >? End_ cur then mkSACKBlock (Start cur) (oo_end seg) else cur) ooo
      else cur :: coalesce (mkSACKBlock (oo_seq seg) (oo_end seg)) ooo
  end.

Definition sackBlocks (tsEnabled : bool) (r : receiver) : receiver * list SACKBlock :=
  let hasDSACK := r_hasDSACKBlock r in
  if (zlen (r_ooo r) =? 0) && negb hasDSACK then (r, []) else
  let maxBlocks := if tsEnabled then 3 else 4 in
  let blocks := if hasDSACK then [r_dsackBlock r] else [] in
  let r := if hasDSACK
           then r <| r_hasDSACKBlock := false |> <| r_dsackBlock := mkSACKBlock 0 0 |> else r in
  match r_ooo r with
  | [] => (r, blocks)
  | e :: rest =>
      let ranges := coalesce (mkSACKBlock (oo_seq e) (oo_end e)) rest in
      let remaining := maxBlocks - zlen blocks in
      let n := Z.min (zlen ranges) remaining in
      (r, blocks ++ ztake n (reverse ranges))
  end.
