(* ===== verification/OooFacts.v ===== *)
(** Theorems on the receiver's out-of-order list ([Rcv]).  Sequence numbers
    are those of positions in the peer's byte stream, and the list is a set
    of spans of that stream: sorted, with gaps between them.  [insertOOO]
    adds the positions of a segment to the set and nothing else. *)
From S2P Require Import Prelude.
From S2P Require Import Tcpip.
From S2P Require Import TcpHeader.
From S2P Require Import Packet.
From S2P Require Import Stack.
From S2P Require Import Ringbuf.
From S2P Require Import Seq.
From S2P Require Import TcpConn.
From S2P Require Import Rcv.

(** Distances between the positions compared stay below this. *)
Definition span_limit : Z := 1073741824.

Section spans.
(** The peer's stream, and the sequence number of its first byte. *)
Context (stream : Z → Z) (base : Z).

(** [m] bytes of the stream from position [a]. *)
Definition piece (a m : Z) : bytes := stream <$> seqZ a m.
Definition seq_of (a : Z) : Z := u32 (base + a).

Lemma zlen_piece' a m : 0 ≤ m → zlen (piece a m) = m.
Proof. intros. unfold piece. rewrite zlen_map. unfold zlen. rewrite length_seqZ. lia. Qed.
Lemma piece_app a m k : 0 ≤ m → 0 ≤ k → piece a m ++ piece (a + m) k = piece a (m + k).
Proof. intros. unfold piece. by rewrite seqZ_app, fmap_app by lia. Qed.
Lemma zdrop_piece a m k : 0 ≤ k ≤ m → zdrop k (piece a m) = piece (a + k) (m - k).
Proof.
  intros. replace m with (k + (m - k)) at 1 by lia. rewrite <- piece_app by lia.
  by rewrite zdrop_app_ge, zdrop_0 by (rewrite ?zlen_piece'; lia).
Qed.
Lemma ztake_piece a m k : 0 ≤ k ≤ m → ztake k (piece a m) = piece a k.
Proof.
  intros. replace m with (k + (m - k)) at 1 by lia. rewrite <- piece_app by lia.
  by rewrite ztake_app_le, ztake_all by (rewrite ?zlen_piece'; lia).
Qed.

Lemma seq_less a b : -2147483648 ≤ a - b < 2147483648 → seqLessThan (seq_of a) (seq_of b) = (a <? b).
Proof. intros. unfold seq_of. rewrite seqLessThan_pos by lia. lia. Qed.
Lemma seq_greater a b :
  -2147483648 ≤ a - b < 2147483648 → seqGreaterThan (seq_of a) (seq_of b) = (a >? b).
Proof. intros. unfold seq_of. rewrite seqGreaterThan_pos by lia. lia. Qed.
Lemma seq_minus a b : u32 (seq_of a - seq_of b) = u32 (a - b).
Proof. unfold seq_of. rewrite u32_sub_pos. f_equal. lia. Qed.
Lemma seq_plus a m : u32 (seq_of a + u32 m) = seq_of (a + m).
Proof. unfold seq_of. autorewrite with u32. f_equal. lia. Qed.
Lemma seq_eqb a b : -2147483648 ≤ a - b < 2147483648 → (seq_of a =? seq_of b) = (a =? b).
Proof.
  intros H. unfold seq_of, u32. destruct (Z.eqb_spec a b) as [->|Hne]; [apply Z.eqb_refl|].
  apply Z.eqb_neq. intros E. apply Hne. mlia.
Qed.

(** * Spans *)
Abbreviation span := (Z * Z)%type.
Definition span_end (s : span) : Z := s.1 + s.2.
Definition in_span (q : Z) (s : span) : Prop := s.1 ≤ q < span_end s.
Definition covered (l : list span) (q : Z) : Prop := Exists (in_span q) l.

(** Non-empty spans between [lo] and [hi], in order and not adjacent. *)
Fixpoint spans_ok (lo hi : Z) (l : list span) : Prop :=
  match l with
  | [] => True
  | s :: l => lo < s.1 ∧ 0 < s.2 ∧ span_end s ≤ hi ∧ spans_ok (span_end s) hi l
  end.

Definition span_seg (s : span) : oooSegment := mkOoo (seq_of s.1) (piece s.1 s.2).

Lemma span_seg_end s : 0 ≤ s.2 < 4294967296 → oo_end (span_seg s) = seq_of (span_end s).
Proof.
  intros H. unfold oo_end. cbn [span_seg oo_seq oo_data]. rewrite zlen_piece' by lia.
  apply seq_plus.
Qed.

Lemma spans_ok_weaken lo lo' hi hi' l :
  spans_ok lo hi l → lo' ≤ lo → hi ≤ hi' → spans_ok lo' hi' l.
Proof.
  revert lo lo'. induction l as [|s l IH]; intros lo lo'; [done|]. cbn.
  intros (? & ? & ? & ?) ? ?. split_and!; [lia..|]. by apply (IH (span_end s)).
Qed.

Lemma spans_ok_app lo hi l k :
  spans_ok lo hi (l ++ k) ↔
  spans_ok lo hi l ∧ spans_ok (default lo (span_end <$> last l)) hi k.
Proof.
  revert lo. induction l as [|s l IH]; intros lo; [cbn; tauto|].
  cbn [app spans_ok]. rewrite IH. destruct l as [|s' l]; [cbn; tauto|].
  change (last (s :: s' :: l)) with (last (s' :: l)).
  destruct (last (s' :: l)) as [t|] eqn:E; [cbn; tauto|]. by apply last_None in E.
Qed.

Lemma spans_ok_in lo hi l s :
  spans_ok lo hi l → s ∈ l → lo < s.1 ∧ 0 < s.2 ∧ span_end s ≤ hi.
Proof.
  revert lo. induction l as [|t l IH]; intros lo; [by rewrite elem_of_nil|].
  cbn. intros (? & ? & ? & Hl) [->|Hin]%elem_of_cons; [done|].
  destruct (IH _ Hl Hin) as (? & ? & ?). unfold span_end in *. lia.
Qed.

Lemma spans_ok_last lo hi l : spans_ok lo hi l → lo ≤ default lo (span_end <$> last l).
Proof.
  intros Hok. destruct (last l) as [s|] eqn:E; cbn; [|lia]. apply last_Some in E as [l' ->].
  destruct (spans_ok_in _ _ _ s Hok) as (? & ? & ?); [set_solver|]. unfold span_end. lia.
Qed.

Lemma covered_app l k q : covered (l ++ k) q ↔ covered l q ∨ covered k q.
Proof. apply Exists_app. Qed.
Lemma covered_cons s l q : covered (s :: l) q ↔ in_span q s ∨ covered l q.
Proof. apply Exists_cons. Qed.

(** * Merging forward *)

(** One entry absorbs the ones it reaches. *)
Lemma lookup_mid {A B} (f : A → B) pre x post : (f <$> (pre ++ x :: post)) !! length pre = Some (f x).
Proof. by rewrite list_lookup_fmap, list_lookup_middle. Qed.
Lemma lookup_mid_S {A B} (f : A → B) pre x post :
  (f <$> (pre ++ x :: post)) !! S (length pre) = f <$> head post.
Proof.
  rewrite list_lookup_fmap, lookup_app_r by lia.
  replace (S (length pre) - length pre)%nat with 1%nat by lia. by destruct post.
Qed.

(** The union of a span and one that starts inside it or right after it. *)
Definition join (s t : span) : span := (s.1, Z.max s.2 (span_end t - s.1)).

Lemma join_data s t :
  s.1 ≤ t.1 ≤ span_end s → 0 < s.2 → 0 < t.2 → span_end s - s.1 < span_limit →
  span_end t - s.1 < span_limit →
  (if seqGreaterThan (oo_end (span_seg t)) (oo_end (span_seg s))
   then rest ← slice_from (oo_data (span_seg t)) (u32 (oo_end (span_seg s) - oo_seq (span_seg t)));
        Ret (oo_data (span_seg s) ++ rest)
   else Ret (oo_data (span_seg s))) = Ret (piece s.1 (join s t).2).
Proof.
  unfold span_limit, join. intros Hst Hs Ht Hls Hlt. unfold span_end in *.
  rewrite !span_seg_end by lia. unfold span_end. rewrite seq_greater by lia.
  cbn [span_seg oo_seq oo_data snd]. destruct (Z.gtb_spec (t.1 + t.2) (s.1 + s.2)).
  - rewrite seq_minus, u32_id by ulia. rewrite slice_from_ok by (rewrite zlen_piece'; lia).
    rewrite bind_Ret_l, zdrop_piece by lia. rewrite Z.max_r by lia.
    replace (t.1 + (s.1 + s.2 - t.1)) with (s.1 + s.2) by lia.
    rewrite piece_app by lia. do 2 f_equal. lia.
  - by rewrite Z.max_l by lia.
Qed.

Lemma join_in s t q : s.1 ≤ t.1 ≤ span_end s → 0 < s.2 → 0 < t.2 →
  in_span q (join s t) ↔ in_span q s ∨ in_span q t.
Proof. unfold in_span, join, span_end. cbn. lia. Qed.

Lemma mergeNext_spans pre s post fuel lo hi :
  (length post ≤ fuel)%nat → 0 < s.2 → span_end s ≤ hi → hi - s.1 < span_limit →
  s.1 ≤ lo + 1 → spans_ok lo hi post →
  ∃ m post', mergeNext fuel (span_seg <$> (pre ++ s :: post)) (length pre)
      = Ret (span_seg <$> (pre ++ (s.1, m) :: post')) ∧
    s.2 ≤ m ∧ s.1 + m ≤ hi ∧ spans_ok (s.1 + m) hi post' ∧
    ∀ q, covered ((s.1, m) :: post') q ↔ covered (s :: post) q.
Proof.
  revert s fuel lo. induction post as [|t post IH]; intros s fuel lo Hf Hs He Hl Hlo Hok.
  { exists s.2, []. destruct fuel; cbn [mergeNext]; rewrite lookup_mid, lookup_mid_S;
      destruct s; (split; [done|]); split_and!; try done; lia. }
  destruct fuel as [|fuel]; [cbn in Hf; lia|]. cbn [mergeNext]. rewrite lookup_mid, lookup_mid_S.
  cbn [head fmap option_fmap option_map]. destruct Hok as (Ht1 & Ht2 & Ht3 & Hok).
  unfold span_limit in Hl. rewrite (span_seg_end s) by (unfold span_end in *; lia).
  change (seqLessThan (seq_of (span_end s)) (oo_seq (span_seg t)))
    with (seqLessThan (seq_of (span_end s)) (seq_of t.1)). rewrite seq_less by (unfold span_end in *; lia).
  destruct (Z.ltb_spec (span_end s) t.1) as [Hgap|Hover].
  { exists s.2, (t :: post). destruct s as [a m]. cbn [fst snd] in *. unfold span_end in *.
    cbn [fst snd] in *. split_and!; try done; lia. }
  rewrite <- (span_seg_end s) by (unfold span_end in *; lia).
  rewrite join_data by (unfold span_end, span_limit in *; lia). rewrite bind_Ret_l.
  destruct (IH (join s t) fuel (span_end t)) as (m & post' & E & Hm & Hhi & Hok' & Hcov);
    [cbn in Hf; lia|unfold join, span_end, span_limit in *; cbn; lia..|done|].
  exists m, post'. cbn [fst join] in *. split_and!.
  - rewrite <- E. f_equal. rewrite !fmap_app, !fmap_cons, take_app_length'
      by by rewrite length_fmap. f_equal.
    rewrite drop_app_ge by (rewrite length_fmap; lia). rewrite length_fmap.
    by replace (length pre + 2 - length pre)%nat with 2%nat by lia.
  - unfold join in Hm. cbn in Hm. lia.
  - done.
  - done.
  - intros q. rewrite Hcov, !covered_cons, join_in by (unfold span_end in *; lia). tauto.
Qed.
(** * Inserting *)
Lemma insertionPoint_spans lo hi l p :
  spans_ok lo hi l → hi - lo < span_limit → lo < p ≤ hi →
  ∃ l1 l2, l = l1 ++ l2 ∧ insertionPoint (span_seg <$> l) (seq_of p) = length l1 ∧
    Forall (λ s, s.1 < p) l1 ∧ spans_ok (p - 1) hi l2.
Proof.
  unfold span_limit. revert lo. induction l as [|s l IH]; intros lo Hok Hl Hp.
  { by exists [], []. }
  destruct Hok as (H1 & H2 & H3 & Hok). cbn [fmap list_fmap insertionPoint].
  change (oo_seq (span_seg s)) with (seq_of s.1). unfold span_end in *. rewrite seq_less by lia.
  destruct (Z.ltb_spec s.1 p).
  - destruct (Z.lt_ge_cases (s.1 + s.2) p).
    + destruct (IH (s.1 + s.2)) as (l1 & l2 & -> & E & Hlt & Hok2); [done|lia..|].
      exists (s :: l1), l2. split; [done|]. split; [by rewrite E|]. by split; [constructor|].
    + exists [s], l. split; [done|]. split.
      * destruct l as [|t l]; [done|]. cbn. destruct Hok as (? & ? & ? & _). unfold span_end in *.
        change (oo_seq (span_seg t)) with (seq_of t.1). rewrite seq_less by lia.
        by rewrite (proj2 (Z.ltb_ge _ _)) by lia.
      * split; [by repeat constructor|]. eapply spans_ok_weaken; [exact Hok|lia..].
  - exists [], (s :: l). split; [done|]. split; [done|]. split; [done|].
    cbn. unfold span_end. split_and!; [lia..|done].
Qed.

Lemma covers_span p k s :
  - span_limit < p - s.1 < span_limit → 0 < k → 0 < s.2 →
  - span_limit < p + k - span_end s < span_limit → k < span_limit → s.2 < span_limit →
  covers (seq_of p) (seq_of (p + k)) (span_seg s) = (s.1 <=? p) && (p + k <=? span_end s).
Proof.
  unfold span_limit. intros. unfold covers. rewrite span_seg_end by lia.
  change (oo_seq (span_seg s)) with (seq_of s.1). rewrite seq_less, seq_greater by lia. lia.
Qed.

(** The segment starts after the end of the entries before it: it replaces an
    entry that starts with it, or goes in between. *)
Lemma place_fresh l1 l2 p k hi :
  spans_ok (p - 1) hi l2 → hi - p < span_limit → 0 < k →
  Forall (λ s, ¬ (s.1 ≤ p ∧ p + k ≤ span_end s)) l2 →
  ∃ post, placeAt (span_seg <$> (l1 ++ l2)) (length l1) (seq_of p) (piece p k)
      = span_seg <$> (l1 ++ (p, k) :: post) ∧
    spans_ok (p - 1) hi post ∧ (length post ≤ length l2)%nat ∧
    ∀ q, covered ((p, k) :: post) q ↔ covered l2 q ∨ p ≤ q < p + k.
Proof.
  unfold span_limit. intros Hok Hl Hk Hnc. unfold placeAt.
  assert (Hins : take (length l1) (span_seg <$> (l1 ++ l2)) ++ mkOoo (seq_of p) (piece p k)
      :: drop (length l1) (span_seg <$> (l1 ++ l2)) = span_seg <$> (l1 ++ (p, k) :: l2)).
  { by rewrite !fmap_app, take_app_length', drop_app_length' by by rewrite length_fmap. }
  assert (Hcov : ∀ l q, covered ((p, k) :: l) q ↔ covered l q ∨ p ≤ q < p + k).
  { intros l q. rewrite covered_cons. unfold in_span, span_end. cbn. tauto. }
  destruct l2 as [|t l2].
  { exists []. rewrite list_lookup_fmap, lookup_app_r, Nat.sub_diag by lia. cbn [lookup list_lookup fmap option_fmap option_map].
    rewrite Hins. by split_and!. }
  rewrite lookup_mid. change (oo_seq (span_seg t)) with (seq_of t.1).
  destruct Hok as (H1 & H2 & H3 & Hok). apply Forall_cons in Hnc as [Hnt Hnc]. unfold span_end in *.
  rewrite seq_eqb by lia. destruct (Z.eqb_spec t.1 p) as [E|E].
  - exists l2. rewrite fmap_app, fmap_cons, insert_app_r_alt, length_fmap, Nat.sub_diag
      by (rewrite length_fmap; lia). rewrite E. split; [by rewrite fmap_app|].
    split; [eapply spans_ok_weaken; [exact Hok|lia..]|]. split; [cbn; lia|].
    intros q. rewrite Hcov, covered_cons.
    assert (in_span q t → p ≤ q < p + k) by (unfold in_span, span_end; lia). tauto.
  - exists (t :: l2). split; [done|]. cbn [spans_ok]. unfold span_end. by split_and!; [lia..|done| |].
Qed.

(** It starts inside the entry before it, or right after it. *)
Lemma place_join l1 t l2 p k :
  placeAt (span_seg <$> (l1 ++ t :: l2)) (length l1) (seq_of t.1) (piece t.1 (join t (p, k)).2)
  = span_seg <$> (l1 ++ join t (p, k) :: l2).
Proof.
  unfold placeAt. rewrite lookup_mid. change (oo_seq (span_seg t)) with (seq_of t.1).
  rewrite Z.eqb_refl, fmap_app, fmap_cons, insert_app_r_alt, length_fmap, Nat.sub_diag
    by (rewrite length_fmap; lia). by rewrite fmap_app.
Qed.

Lemma mergePrev_spans lo hi l1 l2 p k :
  spans_ok lo hi (l1 ++ l2) → hi - lo < span_limit → lo < p → 0 < k → p + k ≤ hi →
  Forall (λ s, s.1 < p) l1 → spans_ok (p - 1) hi l2 →
  Forall (λ s, ¬ (s.1 ≤ p ∧ p + k ≤ span_end s)) (l1 ++ l2) →
  ∃ pre s post i seq saved,
    mergePrev (span_seg <$> (l1 ++ l2)) (length l1) (seq_of p) (piece p k) = Ret (i, seq, saved) ∧
    i = length pre ∧ placeAt (span_seg <$> (l1 ++ l2)) i seq saved = span_seg <$> (pre ++ s :: post) ∧
    spans_ok lo hi pre ∧ default lo (span_end <$> last pre) < s.1 ≤ p ∧
    0 < s.2 ∧ span_end s ≤ hi ∧ spans_ok (p - 1) hi post ∧ (length post ≤ length (l1 ++ l2))%nat ∧
    ∀ q, covered (pre ++ s :: post) q ↔ covered (l1 ++ l2) q ∨ p ≤ q < p + k.
Proof.
  intros Hok Hl Hlo Hk Hhi Hl1 Hl2 Hnc.
  destruct (place_fresh l1 l2 p k hi) as (post & Hpl & Hpost & Hlen & Hcov);
    [done|unfold span_limit in *; lia|done|by apply Forall_app in Hnc as []|].
  destruct l1 as [|t l1 _] using rev_ind.
  { exists [], (p, k), post, O, (seq_of p), (piece p k). cbn [length mergePrev app] in *.
    unfold span_end. cbn. by split_and!; try lia. }
  rewrite length_app. cbn [length]. rewrite Nat.add_1_r. cbn [mergePrev].
  rewrite <- !app_assoc in *. cbn [app] in *.
  rewrite (proj2 (get_Ret _ _ (span_seg t))) by (rewrite Nat2Z.id, lookup_mid; split; [lia|done]).
  rewrite bind_Ret_l. apply spans_ok_app in Hok as [Hok1 (Ht1 & Ht2 & Ht3 & Hok2)].
  apply Forall_app in Hl1 as [_ [Htp _]%Forall_cons].
  pose proof (spans_ok_last _ _ _ Hok1) as Hlast. unfold span_limit in Hl.
  rewrite (span_seg_end t) by (unfold span_end in *; lia).
  rewrite seq_less by (unfold span_end in *; lia). destruct (Z.ltb_spec (span_end t) p) as [Hlt|Hge]; cbn [negb].
  - exists (l1 ++ [t]), (p, k), post, (S (length l1)), (seq_of p), (piece p k).
    rewrite length_app, Nat.add_1_r in Hpl. rewrite <- !app_assoc. cbn [app length].
    rewrite length_app, last_snoc. cbn [length fst snd fmap option_fmap option_map default].
    split; [done|]. split; [lia|]. split; [done|].
    split. { apply spans_ok_app. by repeat split. }
    unfold span_end in *. cbn [fst snd]. split_and!; try done; try lia.
    { rewrite length_app. cbn. lia. }
    intros q. change (t :: (p, k) :: post) with ([t] ++ (p, k) :: post).
    change (t :: l2) with ([t] ++ l2). rewrite !covered_app, Hcov. tauto.
  - exists l1, (join t (p, k)), l2, (length l1), (seq_of t.1), (piece t.1 (join t (p, k)).2).
    rewrite <- (span_seg_end t) by (unfold span_end in *; lia). split.
    { rewrite <- (bind_Ret_l (piece t.1 (join t (p, k)).2) (λ data, Ret (length l1, seq_of t.1, data))).
      rewrite <- (join_data t (p, k)) by (unfold span_end, span_limit in *; cbn [fst snd]; lia). done. }
    split; [done|]. split; [apply place_join|]. split; [done|].
    unfold join, span_end in *. cbn [fst snd]. split_and!; try done; try lia.
    { rewrite length_app. cbn. lia. }
    intros q. rewrite !covered_app, !covered_cons.
    pose proof (join_in t (p, k) q) as Hj. unfold in_span, join, span_end in *. cbn [fst snd] in *.
    specialize (Hj ltac:(lia) ltac:(lia) ltac:(lia)). tauto.
Qed.
Lemma existsb_covers lo hi l p k :
  spans_ok lo hi l → hi - lo < span_limit → lo < p → 0 < k → p + k ≤ hi →
  existsb (covers (seq_of p) (seq_of (p + k))) (span_seg <$> l) = true ↔
  Exists (λ s, s.1 ≤ p ∧ p + k ≤ span_end s) l.
Proof.
  intros Hok Hl ???. rewrite existsb_exists, Exists_exists. split.
  - intros (e & Hin & Hc). apply list_elem_of_In, list_elem_of_fmap in Hin as (s & -> & Hs).
    destruct (spans_ok_in _ _ _ _ Hok Hs) as (? & ? & ?).
    rewrite covers_span in Hc by (unfold span_limit, span_end in *; lia).
    exists s. split; [done|lia].
  - intros (s & Hs & Hc). exists (span_seg s). split; [by apply list_elem_of_In, list_elem_of_fmap_2|].
    destruct (spans_ok_in _ _ _ _ Hok Hs) as (? & ? & ?).
    rewrite covers_span by (unfold span_limit, span_end in *; lia). lia.
Qed.

(** [insertOOO] adds the positions of the segment to the set. *)
Lemma insertOOO_spans r lo hi l p k :
  r_ooo r = span_seg <$> l → spans_ok lo hi l → hi - lo < span_limit →
  lo < p → 0 < k → p + k ≤ hi →
  ∃ r' l', insertOOO r (seq_of p) (piece p k) = Ret r' ∧
    r' = r <| r_dsackBlock := r_dsackBlock r' |> <| r_hasDSACKBlock := r_hasDSACKBlock r' |>
           <| r_ooo := span_seg <$> l' |> ∧
    spans_ok lo hi l' ∧ ∀ q, covered l' q ↔ covered l q ∨ p ≤ q < p + k.
Proof.
  intros Hr Hok Hl Hp Hk Hhi. unfold insertOOO. rewrite zlen_piece' by lia. rewrite seq_plus, Hr.
  pose proof (existsb_covers lo hi l p k Hok Hl Hp Hk Hhi) as Hex.
  destruct (existsb _ _).
  { destruct (proj1 (Exists_exists _ _) (proj1 Hex eq_refl)) as (s & Hs & Hc).
    eexists _, l. split; [done|]. split; [destruct r; cbn in *; by subst|]. split; [done|].
    intros q. split; [tauto|]. intros [?|Hq]; [done|]. apply Exists_exists. exists s.
    split; [done|]. unfold in_span. lia. }
  assert (Forall (λ s, ¬ (s.1 ≤ p ∧ p + k ≤ span_end s)) l) as Hnc.
  { apply Forall_Exists_neg. intros H%Hex. done. }
  destruct (insertionPoint_spans lo hi l p) as (l1 & l2 & -> & -> & Hl1 & Hl2); [done..|lia|].
  destruct (mergePrev_spans lo hi l1 l2 p k)
    as (pre & s & post & i & seq & saved & Em & -> & Ep & Hpre & Hs & Hs2 & He & Hpost & Hlen & Hcov);
    [done..|]. rewrite Em, bind_Ret_l. cbv beta iota. rewrite Ep, length_fmap.
  pose proof (spans_ok_last _ _ _ Hpre).
  destruct (mergeNext_spans pre s post (length (l1 ++ l2)) (p - 1) hi)
    as (m & post' & -> & Hm & Hmhi & Hok' & Hcov'); [lia|lia..|unfold span_limit in *; lia|lia|done|].
  rewrite bind_Ret_l. eexists _, (pre ++ (s.1, m) :: post'). split; [done|].
  split; [by destruct r|]. split.
  - apply spans_ok_app. split; [done|]. change (span_end (s.1, m)) with (s.1 + m) in *.
    cbn [spans_ok fst snd]. change (span_end (s.1, m)) with (s.1 + m). by split_and!; [lia..|].
  - intros q. rewrite <- Hcov, !covered_app, Hcov'. done.
Qed.
End spans.
