(* ===== verification/Segment.v ===== *)
(** [transport/tcp/segment.go] and the segment builders of [conn.go]: parsing
    an incoming segment and building the outgoing ones, byte for byte, into a
    pooled packet buffer. *)
From S2P Require Import Prelude.
From S2P Require Import Tcpip.
From S2P Require Import Checksum.
From S2P Require Import Header.
From S2P Require Import TcpHeader.
From S2P Require Import Packet.
From S2P Require Import Stack.
From S2P Require Import Ringbuf.
From S2P Require Import Seq.
From S2P Require Import TcpConn.
From S2P Require Import Rcv.
Import TCP.

(** * Incoming segments *)
Record segment := mkSegment {
  sg_flags : Z; sg_seq : Z; sg_ack : Z; sg_wnd : Z;
  sg_options : bytes; sg_payload : bytes;
  sg_tsVal : Z; sg_tsEcr : Z; sg_hasTS : bool }.
#[export] Instance segment_rebuild : Rebuild segment := λ s,
  mkSegment (sg_flags s) (sg_seq s) (sg_ack s) (sg_wnd s) (sg_options s) (sg_payload s)
    (sg_tsVal s) (sg_tsEcr s) (sg_hasTS s).

Definition parseSeg (pb : PacketBuffer) : outcome segment :=
  data ← pb_view pb (Data pb);
  dataOffset ← DataOffset data;
  payload ← (if dataOffset <? zlen data then slice_from data dataOffset else Ret []);
  flags ← Flags data;
  seq ← SequenceNumber data;
  ack ← AckNumber data;
  wnd ← WindowSize data;
  options ← Options data;
  Ret (mkSegment flags seq ack wnd options payload 0 0 false).

(** * Building segments *)

(** The header is a slice of the packet's array, so [hdr[:tcpLen]] reaches
    past it into the payload, up to the end of the array. *)
Definition setTCPChecksum (buf : bytes) (hdr : view) (src dst : Address) (tcpLen : Z) :
    outcome bytes :=
  buf ← view_update buf hdr (λ h, SetChecksum h 0);
  let partial := PseudoHeaderChecksum TCPProtocolNumber src dst tcpLen in
  covered ← slice buf (v_off hdr) (v_off hdr + tcpLen);
  view_update buf hdr (λ h, SetChecksum h (Checksum covered partial)).

Definition setTCPPartialChecksum (hdr : bytes) (src dst : Address) (tcpLen : Z) : outcome bytes :=
  let partial := PseudoHeaderChecksum TCPProtocolNumber src dst tcpLen in
  SetChecksum hdr partial.

(** The option bytes written so far: the array and [optLen]. *)
Abbreviation optbuf := (bytes * Z)%type.

(** [optLen += Encode...(optBuf[optLen:], ...)] *)
Definition encode_opt (o : optbuf) (enc : bytes → outcome (bytes * Z)) : outcome optbuf :=
  let '(optBuf, optLen) := o in
  tl ← slice_from optBuf optLen;
  '(tl, n) ← enc tl;
  Ret (ztake optLen optBuf ++ tl, optLen + n).

Definition put_nop (o : optbuf) : outcome optbuf :=
  let '(optBuf, optLen) := o in
  optBuf ← put optBuf optLen TCPOptionNOP;
  Ret (optBuf, optLen + 1).

(** [for optLen%4 != 0]: at most three rounds. *)
Fixpoint pad4 (fuel : nat) (o : optbuf) : outcome optbuf :=
  if o.2 mod 4 =? 0 then Ret o else
  match fuel with
  | O => OutOfFuel
  | S fuel => o ← put_nop o; pad4 fuel o
  end.

(** The timestamp option, when timestamps are enabled. *)
Definition encode_ts (o : optbuf) : conn_m optbuf :=
  c ← getc;
  if c_tsEnabled c then
    now ← handler_now;
    lift (encode_opt o (λ tl, EncodeTimestampOption tl now (c_tsRecent c)))
  else mret o.

(** [hdr.Encode(...)], and the options copied behind the fixed header. *)
Definition writeHeader (f : TCPFields) (o : optbuf) (h : bytes) : outcome bytes :=
  h ← Encode h f;
  if o.2 >? 0 then opts ← slice_to o.1 o.2; copy_at h TCPMinHeaderSize opts else Ret h.

(** The steps the builders have in common: take a packet buffer, append the
    payload if there is one, prepend the header, encode the fields, copy the
    options behind them, set the checksum. *)
Definition build_segment (pooled : PacketBuffer) (src dst : Address) (payload : option bytes)
    (f : TCPFields) (o : optbuf) (hdrSize tcpLen : Z) : outcome PacketBuffer :=
  let pb := NewPacketBuffer pooled MaxHeadroom in
  pb ← match payload with Some data => AppendData pb data | None => Ret pb end;
  '(pb, tcpBuf) ← Prepend pb hdrSize;
  buf ← view_update (pb_buf pb) tcpBuf (writeHeader f o);
  buf ← setTCPChecksum buf tcpBuf src dst tcpLen;
  Ret (pb <| pb_buf := buf |>).

Definition newPacket (payload : option bytes) (f : TCPFields) (o : optbuf) (hdrSize tcpLen : Z) :
    conn_m PacketBuffer :=
  c ← getc;
  pooled ← tick e_packet;
  lift (build_segment pooled (DstAddr (c_flow c)) (SrcAddr (c_flow c)) payload f o hdrSize tcpLen).

(** [c.handler.stack.SendPacket(pb, ...)]; its error is ignored. *)
Definition send_packet (pb : PacketBuffer) : conn_m unit :=
  c ← getc;
  send_ (SentPacket pb (DstAddr (c_flow c)) (SrcAddr (c_flow c)) TCPProtocolNumber).

Definition countSegmentOut : conn_m unit := count_ (bump SegmentsOut).
Definition countPayloadOut (n : Z) : conn_m unit :=
  count_ (λ st, st <| PayloadBytesOut := u64 (PayloadBytesOut st + n) |>).

(** The fields of a segment of this connection. *)
Definition conn_fields (c : TCPConn) (seq ack hdrSize flags wnd : Z) : TCPFields :=
  mkTCPFields (DstPort (c_flow c)) (SrcPort (c_flow c)) seq ack
    (u8 (Z.quot hdrSize 4)) flags wnd 0 0.

Definition updateTSLastAckSent : conn_m unit :=
  c ← getc;
  match c_rcv c with
  | Some r => when_ (c_tsEnabled c) (setc (λ c, c <| c_tsLastAckSent := r_nxt r |>))
  | None => skip
  end.

Definition sendSYNACK : conn_m unit :=
  c ← getc;
  mtu ← asks e_mtu;
  let mss := u16 (mtu - IPv4.IPv4MinHeaderSize - TCPMinHeaderSize) in
  o ← lift (encode_opt (make_bytes 24, 0) (λ tl, EncodeMSSOption tl mss));
  o ← (if c_rcvWndScale c >? 0 then
         o ← lift (put_nop o);
         lift (encode_opt o (λ tl, EncodeWSOption tl (c_rcvWndScale c)))
       else mret o);
  o ← (if c_sackPermitted c then lift (encode_opt o EncodeSACKPermittedOption) else mret o);
  o ← encode_ts o;
  o ← lift (pad4 4 o);
  let hdrSize := TCPMinHeaderSize + o.2 in
  pb ← newPacket None
    (conn_fields c (c_iss c) (u32 (c_irs c + 1)) hdrSize (Z.lor TCPFlagSYN TCPFlagACK)
       (rcvWndSize (c_cfg c))) o hdrSize (u16 hdrSize);
  countSegmentOut;;
  send_packet pb.

(** The SACK part of [sendACK]'s options. *)
Definition encode_sack (c : TCPConn) (o : optbuf) : conn_m optbuf :=
  match c_rcv c with
  | Some r =>
      if c_sackPermitted c then
        let '(r, blocks) := sackBlocks (c_tsEnabled c) r in
        setc (λ c, c <| c_rcv := Some r |>);;
        if zlen blocks >? 0 then lift (encode_opt o (λ tl, EncodeSACKBlocks tl blocks))
        else mret o
      else mret o
  | None => mret o
  end.

Definition sendACK : conn_m unit :=
  c ← getc;
  let seqNum := match c_snd c with Some s => s_nxt s | None => u32 (c_iss c + 1) end in
  let ackNum := match c_rcv c with Some r => r_nxt r | None => u32 (c_irs c + 1) end in
  w ← match c_rcv c with Some _ => lift (wnd c) | None => mret (rcvWndSize (c_cfg c)) end;
  o ← encode_ts (make_bytes 48, 0);
  o ← encode_sack c o;
  o ← lift (pad4 4 o);
  let hdrSize := TCPMinHeaderSize + o.2 in
  pb ← newPacket None (conn_fields c seqNum ackNum hdrSize TCPFlagACK w) o hdrSize (u16 hdrSize);
  countSegmentOut;;
  send_packet pb;;
  updateTSLastAckSent;;
  setc (λ c, c <| c_lastWndZero := w =? 0 |>).

Definition sendData (data : bytes) (seq : Z) : conn_m unit :=
  c ← getc;
  o ← encode_ts (make_bytes 12, 0);
  let hdrSize := TCPMinHeaderSize + o.2 in
  let tcpLen := u16 (hdrSize + zlen data) in
  r ← get_rcv;
  w ← lift (wnd c);
  pb ← newPacket (Some data) (conn_fields c seq (r_nxt r) hdrSize TCPFlagACK w) o hdrSize tcpLen;
  countSegmentOut;;
  countPayloadOut (zlen data);;
  send_packet pb;;
  updateTSLastAckSent;;
  setc (λ c, c <| c_lastWndZero := w =? 0 |>).

Definition gsoDataOffset (c : TCPConn) : Z :=
  IPv4.IPv4MinHeaderSize + TCPMinHeaderSize + (if c_tsEnabled c then 12 else 0).

Definition sendDataGSO (buf : bytes) (dataLen seq : Z) : conn_m unit :=
  c ← getc;
  o ← encode_ts (make_bytes 12, 0);
  let tcpHdrSize := TCPMinHeaderSize + o.2 in
  let ipHdrSize := IPv4.IPv4MinHeaderSize in
  let totalLen := ipHdrSize + tcpHdrSize + dataLen in
  let tcpLen := u16 (tcpHdrSize + dataLen) in
  r ← get_rcv;
  w ← lift (wnd c);
  buf ← lift (view_update buf (mkView ipHdrSize tcpHdrSize) (λ h,
    h ← writeHeader (conn_fields c seq (r_nxt r) tcpHdrSize TCPFlagACK w) o h;
    setTCPPartialChecksum h (DstAddr (c_flow c)) (SrcAddr (c_flow c)) tcpLen));
  s ← get_snd;
  let opts := mkPacketOptions GSOTCPv4 (u16 (s_mss s)) (u16 (ipHdrSize + tcpHdrSize))
                (u16 ipHdrSize) 16 in
  countSegmentOut;;
  countPayloadOut dataLen;;
  send_ (SentGSO buf 0 totalLen (DstAddr (c_flow c)) (SrcAddr (c_flow c)) TCPProtocolNumber opts);;
  updateTSLastAckSent;;
  setc (λ c, c <| c_lastWndZero := w =? 0 |>).

Definition sendFINSegment (seq : Z) : conn_m unit :=
  c ← getc;
  let ackNum := match c_rcv c with Some r => r_nxt r | None => u32 (c_irs c + 1) end in
  w ← match c_rcv c with Some _ => lift (wnd c) | None => mret (rcvWndSize (c_cfg c)) end;
  o ← encode_ts (make_bytes 12, 0);
  let hdrSize := TCPMinHeaderSize + o.2 in
  pb ← newPacket None (conn_fields c seq ackNum hdrSize (Z.lor TCPFlagFIN TCPFlagACK) w)
         o hdrSize (u16 hdrSize);
  countSegmentOut;;
  send_packet pb;;
  updateTSLastAckSent.

Definition sendRSTSegment (seqNum : Z) : conn_m unit :=
  c ← getc;
  pb ← newPacket None (conn_fields c seqNum 0 TCPMinHeaderSize TCPFlagRST 0)
         ([], 0) TCPMinHeaderSize TCPMinHeaderSize;
  countSegmentOut;;
  count_ (bump ResetsSent);;
  send_packet pb.

(** [seq = snd.una - 1], no data, to elicit an ACK. *)
Definition sendKeepaliveProbe : conn_m unit :=
  c ← getc;
  match c_snd c, c_rcv c with
  | Some s, Some r =>
      o ← encode_ts (make_bytes 12, 0);
      let hdrSize := TCPMinHeaderSize + o.2 in
      w ← lift (wnd c);
      pb ← newPacket None (conn_fields c (u32 (s_una s - 1)) (r_nxt r) hdrSize TCPFlagACK w)
             o hdrSize (u16 hdrSize);
      send_packet pb;;
      updateTSLastAckSent
  | _, _ => skip
  end.
