(* ===== verification/SegmentFacts.v ===== *)
(** Theorems on the segments a connection sends ([Segment]): every builder
    returns, what it puts into the packet verifies and parses back to what
    was sent, and nothing else of the connection changes. *)
From S2P Require Import Prelude.
From S2P Require Import Tcpip.
From S2P Require Import Checksum.
From S2P Require Import Header.
From S2P Require Import TcpHeader.
From S2P Require Import TcpOptions.
From S2P Require Import Packet.
From S2P Require Import Stack.
From S2P Require Import Ringbuf.
From S2P Require Import Seq.
From S2P Require Import TcpConn.
From S2P Require Import Rcv.
From S2P Require Import Segment.
Import TCP.

(** * The bytes of a segment *)
Definition with_csum (f : TCPFields) (c : Z) : TCPFields :=
  mkTCPFields (fSrcPort f) (fDstPort f) (fSeqNum f) (fAckNum f) (fDataOffset f) (fFlags f)
    (fWindowSize f) c (fUrgentPointer f).

Definition tcp_pseudo (src dst : Address) (n : Z) : Z :=
  PseudoHeaderChecksum TCPProtocolNumber src dst n.

Definition segment_csum (f : TCPFields) (opts data : bytes) (src dst : Address) : Z :=
  Checksum (hdr_bytes f ++ opts ++ data) (tcp_pseudo src dst (20 + zlen opts + zlen data)).

Definition segment_bytes (f : TCPFields) (opts data : bytes) (src dst : Address) : bytes :=
  hdr_bytes (with_csum f (segment_csum f opts data src dst)) ++ opts ++ data.

Lemma zlen_hdr_bytes f : zlen (hdr_bytes f) = 20.
Proof. done. Qed.

Lemma zlen_segment_bytes f opts data src dst :
  zlen (segment_bytes f opts data src dst) = 20 + zlen opts + zlen data.
Proof. unfold segment_bytes. rewrite !zlen_app, zlen_hdr_bytes. lia. Qed.

Lemma SetChecksum_hdr f c rest :
  SetChecksum (hdr_bytes f ++ rest) c = Ret (hdr_bytes (with_csum f c) ++ rest).
Proof. reflexivity. Qed.

Lemma with_csum_id f : with_csum f (fChecksum f) = f.
Proof. by destruct f. Qed.

Lemma writeHeader_val f optBuf opts junk :
  slice_to optBuf (zlen opts) = Ret opts → zlen junk = 20 + zlen opts →
  writeHeader f (optBuf, zlen opts) junk = Ret (hdr_bytes f ++ opts).
Proof.
  intros Hopts Lj. pose proof (zlen_nonneg opts). unfold writeHeader. cbn [fst snd].
  rewrite Encode_val by lia. rewrite bind_Ret_l. destruct (Z.gtb_spec (zlen opts) 0).
  - rewrite Hopts, bind_Ret_l, copy_at_ok; change TCPMinHeaderSize with 20; [|done|].
    + rewrite ztake_app_le, ztake_all by (rewrite zlen_hdr_bytes; lia).
      rewrite zdrop_all; [by rewrite app_nil_r|].
      rewrite zlen_app, zlen_hdr_bytes, zlen_zdrop; lia.
    + rewrite zlen_app, zlen_hdr_bytes, zlen_zdrop by lia. lia.
  - rewrite zdrop_all by lia. by rewrite (zlen_zero_inv opts) by lia.
Qed.

(** The checksum over the header and, past it, the payload. *)
Lemma setTCPChecksum_holds pb f opts data src dst :
  holds pb ((hdr_bytes f ++ opts) ++ data) → fChecksum f = 0 →
  ∃ buf, setTCPChecksum (pb_buf pb) (mkView (pb_headroom pb - pb_consumed pb) (20 + zlen opts))
      src dst (20 + zlen opts + zlen data) = Ret buf ∧
    holds (pb <| pb_buf := buf |>) (segment_bytes f opts data src dst).
Proof.
  intros Hp3 Hc. assert (Lh : ∀ f, zlen (hdr_bytes f ++ opts) = 20 + zlen opts).
  { intros. by rewrite zlen_app, zlen_hdr_bytes. }
  unfold setTCPChecksum.
  destruct (view_update_holds pb (20 + zlen opts) _ data (λ h, SetChecksum h 0)
    (hdr_bytes f ++ opts) Hp3) as (buf4 & E4 & Hp4); [done| |done|].
  { rewrite SetChecksum_hdr. by rewrite <- Hc, with_csum_id. }
  rewrite E4, bind_Ret_l. set (pb4 := pb <| pb_buf := buf4 |>) in *. cbn [v_off].
  pose proof (holds_len _ _ Hp4) as L4. rewrite !zlen_app, zlen_hdr_bytes in L4.
  assert (Esl : slice buf4 (pb_headroom pb - pb_consumed pb)
    (pb_headroom pb - pb_consumed pb + (20 + zlen opts + zlen data))
    = Ret ((hdr_bytes f ++ opts) ++ data)).
  { rewrite <- (holds_slice _ _ Hp4), AsSlice_eq. cbn. f_equal.
    change (pb_consumed pb4) with (pb_consumed pb) in L4. lia. }
  rewrite Esl, bind_Ret_l, <- app_assoc. fold (tcp_pseudo src dst (20 + zlen opts + zlen data)).
  fold (segment_csum f opts data src dst).
  destruct (view_update_holds pb4 (20 + zlen opts) _ data
    (λ h, SetChecksum h (segment_csum f opts data src dst)) _ Hp4 (Lh f) (SetChecksum_hdr _ _ _) (Lh _))
    as (buf5 & E5 & Hp5).
  change (pb_headroom pb - pb_consumed pb) with (pb_headroom pb4 - pb_consumed pb4).
  change buf4 with (pb_buf pb4). rewrite E5. exists buf5. split; [done|].
  unfold segment_bytes. by rewrite app_assoc.
Qed.

Lemma build_segment_spec pooled src dst payload f optBuf opts :
  slice_to optBuf (zlen opts) = Ret opts → zlen opts ≤ 40 → fChecksum f = 0 →
  let data := default [] payload in
  ∃ pb, build_segment pooled src dst payload f (optBuf, zlen opts) (20 + zlen opts)
          (20 + zlen opts + zlen data) = Ret pb ∧
    holds pb (segment_bytes f opts data src dst) ∧ pb_consumed pb + 20 ≤ pb_headroom pb.
Proof.
  intros Hopts Hmax Hc data. pose proof (zlen_nonneg opts). pose proof (zlen_nonneg data).
  unfold build_segment. destruct (NewPacketBuffer_headroom pooled MaxHeadroom) as (Eh & Ec & _).
  unfold MaxHeadroom in *.
  assert (∃ pb1, match payload with Some d => AppendData (NewPacketBuffer pooled 80) d
                 | None => Ret (NewPacketBuffer pooled 80) end = Ret pb1 ∧
    holds pb1 data ∧ pb_headroom pb1 = 80 ∧ pb_consumed pb1 = 0) as (pb1 & -> & Hp1 & Eh1 & Ec1).
  { destruct payload as [d|]; cbn in data.
    - destruct (AppendData_holds (NewPacketBuffer pooled 80) d) as (pb1 & E & Hp & ? & ? & _); [lia..|].
      exists pb1. split_and!; [done..|lia|lia].
    - eexists. split; [done|]. split; [by apply NewPacketBuffer_holds|done]. }
  rewrite bind_Ret_l.
  destruct (Prepend_front pb1 data (20 + zlen opts) Hp1)
    as (pb2 & junk & -> & Lj & Hp2 & Eh2 & Ec2 & _); [lia..|].
  rewrite bind_Ret_l.
  destruct (view_update_holds pb2 (20 + zlen opts) junk data (writeHeader f (optBuf, zlen opts)) _
    Hp2 Lj (writeHeader_val f optBuf opts junk Hopts Lj)) as (buf3 & E3 & Hp3).
  { by rewrite zlen_app, zlen_hdr_bytes. }
  rewrite E3, bind_Ret_l. set (pb3 := pb2 <| pb_buf := buf3 |>) in *.
  destruct (setTCPChecksum_holds pb3 f opts data src dst Hp3 Hc) as (buf4 & E4 & Hp4).
  change (pb_headroom pb2 - pb_consumed pb2) with (pb_headroom pb3 - pb_consumed pb3).
  change buf3 with (pb_buf pb3). rewrite E4, bind_Ret_l. eexists. split; [reflexivity|].
  split; [exact Hp4|]. change (pb_consumed pb2 + 20 ≤ pb_headroom pb2). lia.
Qed.

Lemma bytes_ok_hdr_bytes f : bytes_ok (hdr_bytes f).
Proof. unfold hdr_bytes. repeat apply Forall_cons_2; try apply u8_range; done. Qed.

Lemma segment_verifies f opts data src dst :
  bytes_ok opts → bytes_ok data → 20 + zlen opts + zlen data ≤ 65535 → fChecksum f = 0 →
  Checksum (segment_bytes f opts data src dst) (tcp_pseudo src dst (20 + zlen opts + zlen data)) = 0.
Proof.
  intros Ho Hd Hl Hc. set (b0 := hdr_bytes f ++ opts ++ data).
  apply (Checksum_filled b0 16 b0 _ _).
  - apply Forall_app; split; [apply bytes_ok_hdr_bytes|]. by apply Forall_app.
  - unfold sum_fits, b0. rewrite !zlen_app, zlen_hdr_bytes. lia.
  - apply PseudoHeaderChecksum_range.
  - by exists 8.
  - unfold b0. change (write16 (?x) 16 0) with (SetChecksum x 0). rewrite SetChecksum_hdr.
    by rewrite <- Hc, with_csum_id.
  - reflexivity.
Qed.

(** A segment in a received packet parses to what was built. *)
Lemma segment_parses pb f opts data src dst :
  pb_view pb (Data pb) = Ret (segment_bytes f opts data src dst) →
  fields_ok (with_csum f (segment_csum f opts data src dst)) →
  fDataOffset f * 4 = 20 + zlen opts →
  parseSeg pb = Ret (mkSegment (fFlags f) (fSeqNum f) (fAckNum f) (fWindowSize f) opts data 0 0 false).
Proof.
  intros Hv Hok Hoff. unfold parseSeg. rewrite Hv, bind_Ret_l.
  set (f' := with_csum f (segment_csum f opts data src dst)) in *.
  pose proof (zlen_segment_bytes f opts data src dst) as Hlen. unfold segment_bytes in *. fold f' in Hlen |- *.
  set (b := hdr_bytes f' ++ opts ++ data) in *.
  destruct (Encode_Decode_hdr f' (opts ++ data) Hok) as (Hdec & Hdo). fold b in Hdec, Hdo.
  pose proof (zlen_nonneg opts). pose proof (zlen_nonneg data).
  change (fDataOffset f') with (fDataOffset f) in Hdo. rewrite Hoff in Hdo.
  unfold Decode in Hdec. inv_outcome. unfold Options. rewrite Hdo, !bind_Ret_l, Hlen.
  assert (Hpay : (if 20 + zlen opts <? 20 + zlen opts + zlen data
     then slice_from b (20 + zlen opts) else Ret []) = Ret data).
  { destruct (Z.ltb_spec (20 + zlen opts) (20 + zlen opts + zlen data)).
    - rewrite slice_from_ok by lia. unfold b. rewrite app_assoc, zdrop_app_ge by (rewrite zlen_app, zlen_hdr_bytes; lia).
      rewrite zlen_app, zlen_hdr_bytes, Z.sub_diag, zdrop_0 by lia. done.
    - by rewrite (zlen_zero_inv data) by lia. }
  rewrite Hpay, bind_Ret_l, Ha4, bind_Ret_l, Ha1, bind_Ret_l, Ha2, bind_Ret_l, Ha5, bind_Ret_l.
  assert (Hopt : (if (20 + zlen opts <=? TCPMinHeaderSize) || (20 + zlen opts >? 20 + zlen opts + zlen data)
     then Ret [] else slice b TCPMinHeaderSize (20 + zlen opts)) = Ret opts).
  { unfold TCPMinHeaderSize. case_if; [by rewrite (zlen_zero_inv opts) by lia|].
    rewrite slice_ok by lia. unfold b. rewrite zdrop_app_ge by (rewrite zlen_hdr_bytes; lia).
    rewrite zlen_hdr_bytes, zdrop_0, ztake_app_le, ztake_all by lia. done. }
  rewrite Hopt. rewrite bind_Ret_l. reflexivity.
Qed.

(** * Option buffers

    The options written so far, in front of the rest of the array. *)
Lemma encode_opt_val w rest enc out n :
  zlen out = n → enc rest = Ret (out ++ zdrop n rest, n) →
  encode_opt (w ++ rest, zlen w) enc = Ret ((w ++ out) ++ zdrop n rest, zlen (w ++ out)).
Proof.
  intros Hn E. pose proof (zlen_nonneg w). pose proof (zlen_nonneg rest). unfold encode_opt.
  rewrite slice_from_ok by (rewrite zlen_app; lia).
  rewrite zdrop_app_ge, Z.sub_diag, zdrop_0, bind_Ret_l, E, bind_Ret_l by lia.
  rewrite ztake_app_le, ztake_all, zlen_app, app_assoc by lia. by rewrite Hn.
Qed.

Lemma put_nop_val w rest :
  0 < zlen rest →
  put_nop (w ++ rest, zlen w) = Ret ((w ++ [TCPOptionNOP]) ++ zdrop 1 rest, zlen (w ++ [TCPOptionNOP])).
Proof.
  intros Hr. pose proof (zlen_nonneg w). destruct rest as [|x rest]; [done|].
  unfold put_nop, put. destruct (Z.ltb_spec (zlen w) 0); [lia|].
  unfold zlen. rewrite Nat2Z.id, list_lookup_middle by done. rewrite bind_Ret_l.
  rewrite (insert_app_r_alt w), Nat.sub_diag, length_app by lia. cbn.
  rewrite <- app_assoc. cbn. do 2 f_equal. lia.
Qed.

Lemma pad4_step fuel w rest :
  0 < zlen rest → zlen w mod 4 ≠ 0 →
  pad4 (S fuel) (w ++ rest, zlen w) = pad4 fuel ((w ++ [TCPOptionNOP]) ++ zdrop 1 rest, zlen (w ++ [TCPOptionNOP])).
Proof.
  intros Hr Hm. cbn [pad4 snd]. rewrite (proj2 (Z.eqb_neq _ _)) by done.
  by rewrite put_nop_val by done.
Qed.

Lemma pad4_done fuel w rest : zlen w mod 4 = 0 → pad4 fuel (w ++ rest, zlen w) = Ret (w ++ rest, zlen w).
Proof. intros Hm. destruct fuel; cbn [pad4 snd]; by rewrite (proj2 (Z.eqb_eq _ _)) by done. Qed.

Lemma pad4_val w rest :
  (- zlen w) mod 4 ≤ zlen rest →
  ∃ rest', pad4 4 (w ++ rest, zlen w)
    = Ret ((w ++ pad_opt (zlen w)) ++ rest', zlen (w ++ pad_opt (zlen w))).
Proof.
  intros Hr. unfold pad_opt.
  assert (Hc : zlen w mod 4 = 0 ∨ zlen w mod 4 = 3 ∨ zlen w mod 4 = 2 ∨ zlen w mod 4 = 1) by mlia.
  assert (Hs : ∀ w', zlen (w' ++ [TCPOptionNOP]) = zlen w' + 1) by (intros; by rewrite zlen_app).
  destruct Hc as [E|[E|[E|E]]].
  - exists rest. replace ((- zlen w) mod 4) with 0 by mlia. cbn [Z.to_nat replicate].
    rewrite app_nil_r. by apply pad4_done.
  - exists (zdrop 1 rest). replace ((- zlen w) mod 4) with 1 by mlia. change (Z.to_nat 1) with 1%nat.
    cbn [replicate].
    rewrite pad4_step by mlia. apply pad4_done. rewrite Hs. mlia.
  - exists (zdrop 1 (zdrop 1 rest)). replace ((- zlen w) mod 4) with 2 by mlia.
    rewrite pad4_step by mlia. rewrite pad4_step by (rewrite ?Hs, ?zlen_zdrop; mlia).
    change (replicate (Z.to_nat 2) TCPOptionNOP) with ([TCPOptionNOP] ++ [TCPOptionNOP]).
    rewrite (app_assoc w). apply pad4_done. rewrite !Hs. mlia.
  - exists (zdrop 1 (zdrop 1 (zdrop 1 rest))). replace ((- zlen w) mod 4) with 3 by mlia.
    rewrite pad4_step by mlia. rewrite pad4_step by (rewrite ?Hs, ?zlen_zdrop; mlia).
    rewrite pad4_step by (rewrite ?Hs, ?zlen_zdrop; rewrite ?zlen_zdrop; mlia).
    change (replicate (Z.to_nat 3) TCPOptionNOP)
      with ([TCPOptionNOP] ++ [TCPOptionNOP] ++ [TCPOptionNOP]).
    rewrite (app_assoc w), (app_assoc (w ++ _)). apply pad4_done. rewrite !Hs. mlia.
Qed.


(** * What the builders do to the connection and the world *)
Definition conn_segment (c : TCPConn) (seq ack flags w : Z) (opts data : bytes) : bytes :=
  segment_bytes (conn_fields c seq ack (20 + zlen opts) flags w) opts data
    (DstAddr (c_flow c)) (SrcAddr (c_flow c)).

(** One packet is handed to the stack: it holds [seg] and has room for an IP
    header; the counters move by [g]. *)
Record emits (c : TCPConn) (w w' : World) (g : TCPStats → TCPStats) (seg : bytes) : Prop := {
  em_sent : ∃ pb, w_sent w' = w_sent w ++
      [SentPacket pb (DstAddr (c_flow c)) (SrcAddr (c_flow c)) TCPProtocolNumber] ∧
    holds pb seg ∧ pb_consumed pb + 20 ≤ pb_headroom pb;
  em_acceptQ : w_acceptQ w' = w_acceptQ w;
  em_cap : w_acceptCap w' = w_acceptCap w;
  em_stats : w_stats w' = g <$> w_stats w }.

Definition ticked (n : nat) (w : World) : World := w <| w_ticks := (n + w_ticks w)%nat |>.

Lemma encode_ts_run' e c w pre rest :
  12 ≤ zlen rest →
  ∃ n tv rest', encode_ts (pre ++ rest, zlen pre) e (mkCS c w)
    = Ret (mkCS c (ticked n w),
           ((pre ++ maybe (c_tsEnabled c) (ts_opt tv (c_tsRecent c))) ++ rest',
            zlen (pre ++ maybe (c_tsEnabled c) (ts_opt tv (c_tsRecent c))))) ∧
    is_u32 tv ∧ zlen rest' = zlen rest - (if c_tsEnabled c then 12 else 0).
Proof.
  intros Hr. unfold encode_ts. crun. destruct (c_tsEnabled c).
  - unfold handler_now, time_now. crun.
    exists 1%nat. eexists (u32 (u32 _ + e_tsOffset e)), (zdrop 12 rest).
    unfold lift.
    erewrite (encode_opt_val pre rest _ (ts_opt _ _) 12); [split; [reflexivity|]|done|by apply EncodeTimestampOption_val].
    split; [apply u32_range|]. rewrite zlen_zdrop; lia.
  - exists 0%nat, 0, rest. cbn [maybe]. rewrite app_nil_r. split; [by destruct w|]. split; [done|]. lia.
Qed.

Lemma encode_ts_run e c w rest :
  12 ≤ zlen rest →
  ∃ n tv rest', encode_ts (rest, 0) e (mkCS c w)
    = Ret (mkCS c (ticked n w),
           (maybe (c_tsEnabled c) (ts_opt tv (c_tsRecent c)) ++ rest',
            zlen (maybe (c_tsEnabled c) (ts_opt tv (c_tsRecent c))))) ∧
    is_u32 tv ∧ zlen rest' = zlen rest - (if c_tsEnabled c then 12 else 0).
Proof. apply (encode_ts_run' e c w []). Qed.

Lemma newPacket_run e c w payload f opts rest :
  zlen opts ≤ 40 → fChecksum f = 0 → let data := default [] payload in
  20 + zlen opts + zlen data ≤ 65535 →
  ∃ pb, newPacket payload f (opts ++ rest, zlen opts) (20 + zlen opts)
      (u16 (20 + zlen opts + zlen data)) e (mkCS c w) = Ret (mkCS c (ticked 1 w), pb) ∧
    holds pb (segment_bytes f opts data (DstAddr (c_flow c)) (SrcAddr (c_flow c))) ∧
    pb_consumed pb + 20 ≤ pb_headroom pb.
Proof.
  intros Ho Hc data Hl. pose proof (zlen_nonneg opts). pose proof (zlen_nonneg data).
  unfold newPacket. crun. rewrite u16_id by ulia.
  destruct (build_segment_spec (e_packet e (w_ticks w)) (DstAddr (c_flow c)) (SrcAddr (c_flow c))
    payload f (opts ++ rest) opts (slice_to_app opts rest) Ho Hc) as (pb & E & Hp).
  exists pb. unfold lift. fold data in E. by rewrite E.
Qed.

(** [Last.ACK.sent] after an acknowledgement. *)
Definition noteAck (c : TCPConn) : TCPConn :=
  match c_rcv c with
  | Some r => if c_tsEnabled c then c <| c_tsLastAckSent := r_nxt r |> else c
  | None => c
  end.

Lemma updateTSLastAckSent_run e c w :
  updateTSLastAckSent e (mkCS c w) = Ret (mkCS (noteAck c) w, tt).
Proof.
  unfold updateTSLastAckSent, noteAck. crun. destruct (c_rcv c); [|done].
  by destruct (c_tsEnabled c).
Qed.

Lemma wnd_val c : ring_ok (c_readBuf c) → ∃ w, wnd c = Ret w ∧ is_u16 w.
Proof.
  intros Hok. unfold wnd. rewrite Free_ok, bind_Ret_l by done. cbv zeta.
  case_if; [by exists 0|]. case_if; [by exists 65535|]. eexists. split; [done|]. apply u16_range.
Qed.

Lemma sackBlocks_len ts r : zlen (sackBlocks ts r).2 ≤ (if ts then 3 else 4).
Proof.
  unfold sackBlocks. case_if; [by destruct ts|].
  destruct (r_hasDSACKBlock r), (r_ooo _) as [|x l]; cbn [snd]; try by destruct ts.
  all: rewrite ?zlen_app; set (rg := coalesce _ _); pose proof (zlen_nonneg rg).
  all: change (zlen [?x]) with 1; rewrite ?zlen_nil.
  all: unfold ztake, zlen; rewrite length_take; destruct ts; lia.
Qed.

(** The receiver and the SACK blocks of the next ACK. *)
Definition ack_rcv (c : TCPConn) : option receiver :=
  match c_rcv c with
  | Some r => Some (if c_sackPermitted c then (sackBlocks (c_tsEnabled c) r).1 else r)
  | None => None
  end.
Definition ack_blocks (c : TCPConn) : list SACKBlock :=
  match c_rcv c with
  | Some r => if c_sackPermitted c then (sackBlocks (c_tsEnabled c) r).2 else []
  | None => []
  end.
Definition next_seq (c : TCPConn) : Z :=
  match c_snd c with Some s => s_nxt s | None => u32 (c_iss c + 1) end.
Definition next_ack (c : TCPConn) : Z :=
  match c_rcv c with Some r => r_nxt r | None => u32 (c_irs c + 1) end.
Definition adv_wnd (c : TCPConn) : outcome Z :=
  match c_rcv c with Some _ => wnd c | None => Ret (rcvWndSize (c_cfg c)) end.

(** The connection after an ACK that advertised [w]. *)
Definition acked (c : TCPConn) (w : Z) : TCPConn :=
  (noteAck (c <| c_rcv := ack_rcv c |>)) <| c_lastWndZero := w =? 0 |>.

Lemma conn_eta c : c <| c_rcv := c_rcv c |> = c.
Proof. by destruct c. Qed.

Lemma encode_sack_run e c w pre rest :
  37 - (if c_tsEnabled c then 8 else 0) ≤ zlen rest →
  ∃ rest', encode_sack c (pre ++ rest, zlen pre) e (mkCS c w)
    = Ret (mkCS (c <| c_rcv := ack_rcv c |>) w,
           ((pre ++ sack_opt (ack_blocks c)) ++ rest', zlen (pre ++ sack_opt (ack_blocks c)))) ∧
    3 ≤ zlen rest'.
Proof.
  intros Hr. unfold encode_sack, ack_rcv, ack_blocks.
  assert (H3 : 3 ≤ zlen rest) by (destruct (c_tsEnabled c); lia).
  destruct (c_rcv c) as [r|] eqn:Er; [destruct (c_sackPermitted c)|].
  - pose proof (sackBlocks_len (c_tsEnabled c) r) as Hl.
    destruct (sackBlocks (c_tsEnabled c) r) as [r' blocks]. cbn [fst snd] in *. crun.
    destruct blocks as [|b l].
    + exists rest. cbn [sack_opt]. rewrite app_nil_r. done.
    + assert (Hne : b :: l ≠ []) by done. set (bl := b :: l) in *. clearbody bl.
      assert (Hpos : 0 < zlen bl).
      { destruct bl; [done|]. rewrite zlen_cons. pose proof (zlen_nonneg bl). lia. }
      destruct (Z.gtb_spec (zlen bl) 0); [|lia].
      exists (zdrop (2 + zlen bl * 8) rest). unfold lift.
      erewrite (encode_opt_val pre rest _ (sack_opt bl) (2 + zlen bl * 8));
        [|by apply zlen_sack_opt|apply EncodeSACKBlocks_val; [done|destruct (c_tsEnabled c); lia..]].
      split; [done|]. rewrite zlen_zdrop; destruct (c_tsEnabled c); lia.
  - exists rest. cbn [sack_opt]. rewrite app_nil_r. unfold mret, conn_ret.
    split; [|done]. do 3 f_equal. rewrite <- Er. symmetry. apply conn_eta.
  - exists rest. cbn [sack_opt]. rewrite app_nil_r. unfold mret, conn_ret.
    split; [|done]. do 3 f_equal. rewrite <- Er. symmetry. apply conn_eta.
Qed.

Lemma sendACK_run e c w :
  ring_ok (c_readBuf c) → is_u16 (rcvWndSize (c_cfg c)) →
  ∃ w' wd tv, sendACK e (mkCS c w) = Ret (mkCS (acked c wd) w', tt) ∧
    adv_wnd c = Ret wd ∧ is_u16 wd ∧ is_u32 tv ∧
    emits c w w' (bump SegmentsOut)
      (conn_segment c (next_seq c) (next_ack c) TCPFlagACK wd
         (segment_opts (c_tsEnabled c) tv (c_tsRecent c) (ack_blocks c)) []).
Proof.
  intros Hok Hw. unfold sendACK. crun. fold (next_seq c). fold (next_ack c).
  assert (∃ wd, adv_wnd c = Ret wd ∧ is_u16 wd) as (wd & Ewd & Hwd).
  { unfold adv_wnd. destruct (c_rcv c); [by apply wnd_val|by eexists]. }
  rewrite (run_bind _ _ _ _ (mkCS c w) wd);
    [|unfold adv_wnd in Ewd; destruct (c_rcv c); [unfold lift; by rewrite Ewd|by injection Ewd as ->]].
  destruct (encode_ts_run e c w (make_bytes 48)) as (n & tv & rest & E1 & Htv & Hrest); [done|].
  rewrite (run_bind _ _ _ _ _ _ E1).
  destruct (encode_sack_run e c (ticked n w) (maybe (c_tsEnabled c) (ts_opt tv (c_tsRecent c))) rest)
    as (rest' & E2 & Hr3).
  { rewrite Hrest. change (zlen (make_bytes 48)) with 48. destruct (c_tsEnabled c); lia. }
  rewrite (run_bind _ _ _ _ _ _ E2).
  destruct (pad4_val (maybe (c_tsEnabled c) (ts_opt tv (c_tsRecent c)) ++ sack_opt (ack_blocks c))
    rest') as (rest'' & E3); [mlia|]. rewrite E3. crun. cbn [snd].
  fold (segment_opts (c_tsEnabled c) tv (c_tsRecent c) (ack_blocks c)).
  set (opts := segment_opts _ _ _ _). change TCPMinHeaderSize with 20.
  destruct (zlen_segment_opts (c_tsEnabled c) tv (c_tsRecent c) (ack_blocks c)) as [_ Hmax].
  { unfold ack_blocks. destruct (c_rcv c); [destruct (c_sackPermitted c)|];
      [apply sackBlocks_len|by destruct (c_tsEnabled c)..]. }
  fold opts in Hmax.
  destruct (newPacket_run e (c <| c_rcv := ack_rcv c |>) (ticked n w) None
    (conn_fields c (next_seq c) (next_ack c) (20 + zlen opts) TCPFlagACK wd) opts rest'')
    as (pb & E4 & Hp & Hroom); [done|done|cbn; rewrite zlen_nil; lia|].
  cbn [default] in E4, Hp. rewrite zlen_nil, Z.add_0_r in E4.
  rewrite (run_bind _ _ _ _ _ _ E4). unfold countSegmentOut, send_packet. crun.
  rewrite (run_bind _ _ _ _ _ _ (updateTSLastAckSent_run _ _ _)).
  do 3 eexists. split; [reflexivity|]. split; [done|]. split; [done|]. split; [exact Htv|].
  split; [exists pb; split; [reflexivity|split; done]|reflexivity..].
Qed.

(** The options of a segment without SACK blocks. *)
Lemma plain_opts ts v e : segment_opts ts v e [] = maybe ts (ts_opt v e).
Proof. by destruct ts. Qed.

Lemma zlen_plain_opts (ts : bool) v e : zlen (segment_opts ts v e []) = if ts then 12 else 0.
Proof. by destruct ts. Qed.

(** Up to the options of a data segment or a FIN. *)
Lemma encode_ts12_run e c w :
  ∃ n tv rest, is_u32 tv ∧
    encode_ts (make_bytes 12, 0) e (mkCS c w)
    = Ret (mkCS c (ticked n w),
        (segment_opts (c_tsEnabled c) tv (c_tsRecent c) [] ++ rest,
         zlen (segment_opts (c_tsEnabled c) tv (c_tsRecent c) []))).
Proof.
  destruct (encode_ts_run e c w (make_bytes 12)) as (n & tv & rest & E1 & Htv & _); [done|].
  exists n, tv, rest. by rewrite plain_opts.
Qed.

Definition sentData (c : TCPConn) (w : Z) : TCPConn := (noteAck c) <| c_lastWndZero := w =? 0 |>.

Definition countedData (n : Z) (st : TCPStats) : TCPStats :=
  (bump SegmentsOut st) <| PayloadBytesOut := u64 (PayloadBytesOut st + n) |>.

Lemma sendData_run e c w r data seq :
  ring_ok (c_readBuf c) → c_rcv c = Some r → zlen data ≤ 65503 →
  ∃ w' wd tv, sendData data seq e (mkCS c w) = Ret (mkCS (sentData c wd) w', tt) ∧
    wnd c = Ret wd ∧ is_u16 wd ∧ is_u32 tv ∧
    emits c w w' (countedData (zlen data))
      (conn_segment c seq (r_nxt r) TCPFlagACK wd
         (segment_opts (c_tsEnabled c) tv (c_tsRecent c) []) data).
Proof.
  intros Hok Hr Hl. unfold sendData. crun. destruct (wnd_val c Hok) as (wd & Ewd & Hwd).
  destruct (encode_ts12_run e c w) as (n & tv & rest & Htv & E1).
  rewrite (run_bind _ _ _ _ _ _ E1). crun. rewrite Ewd. crun. cbn [snd]. change TCPMinHeaderSize with 20.
  pose proof (zlen_plain_opts (c_tsEnabled c) tv (c_tsRecent c)) as Lo.
  set (opts := segment_opts _ _ _ _) in *.
  assert (Hm : zlen opts ≤ 12) by (destruct (c_tsEnabled c); lia).
  destruct (newPacket_run e c (ticked n w) (Some data)
    (conn_fields c seq (r_nxt r) (20 + zlen opts) TCPFlagACK wd) opts rest)
    as (pb & E4 & Hp & Hroom); [lia|done|cbn; lia|].
  cbn [default] in E4, Hp. unfold id in E4, Hp. rewrite (run_bind _ _ _ _ _ _ E4).
  unfold countSegmentOut, countPayloadOut, send_packet. crun.
  rewrite (run_bind _ _ _ _ _ _ (updateTSLastAckSent_run _ _ _)).
  do 3 eexists. split; [reflexivity|]. split; [done|]. split; [done|]. split; [exact Htv|].
  split; [exists pb; split; [reflexivity|split; done]|reflexivity..|].
  cbn. by destruct (w_stats w).
Qed.

Lemma sendFINSegment_run e c w seq :
  ring_ok (c_readBuf c) → is_u16 (rcvWndSize (c_cfg c)) →
  ∃ w' wd tv, sendFINSegment seq e (mkCS c w) = Ret (mkCS (noteAck c) w', tt) ∧
    adv_wnd c = Ret wd ∧ is_u16 wd ∧ is_u32 tv ∧
    emits c w w' (bump SegmentsOut)
      (conn_segment c seq (next_ack c) (Z.lor TCPFlagFIN TCPFlagACK) wd
         (segment_opts (c_tsEnabled c) tv (c_tsRecent c) []) []).
Proof.
  intros Hok Hw. unfold sendFINSegment. crun. fold (next_ack c).
  assert (∃ wd, adv_wnd c = Ret wd ∧ is_u16 wd) as (wd & Ewd & Hwd).
  { unfold adv_wnd. destruct (c_rcv c); [by apply wnd_val|by eexists]. }
  rewrite (run_bind _ _ _ _ (mkCS c w) wd);
    [|unfold adv_wnd in Ewd; destruct (c_rcv c); [unfold lift; by rewrite Ewd|by injection Ewd as ->]].
  destruct (encode_ts12_run e c w) as (n & tv & rest & Htv & E1).
  rewrite (run_bind _ _ _ _ _ _ E1). cbn [snd]. change TCPMinHeaderSize with 20.
  pose proof (zlen_plain_opts (c_tsEnabled c) tv (c_tsRecent c)) as Lo.
  set (opts := segment_opts _ _ _ _) in *.
  assert (Hm : zlen opts ≤ 12) by (destruct (c_tsEnabled c); lia).
  destruct (newPacket_run e c (ticked n w) None
    (conn_fields c seq (next_ack c) (20 + zlen opts) (Z.lor TCPFlagFIN TCPFlagACK) wd) opts rest)
    as (pb & E4 & Hp & Hroom); [lia|done|cbn [default]; change (zlen (@nil Z)) with 0; lia|].
  cbn [default] in E4, Hp. rewrite zlen_nil, Z.add_0_r in E4.
  rewrite (run_bind _ _ _ _ _ _ E4). unfold countSegmentOut, send_packet. crun.
  rewrite updateTSLastAckSent_run.
  do 3 eexists. split; [reflexivity|]. split; [done|]. split; [done|]. split; [exact Htv|].
  split; [exists pb; split; [reflexivity|split; done]|reflexivity..].
Qed.

Lemma sendRSTSegment_run e c w seq :
  ∃ w', sendRSTSegment seq e (mkCS c w) = Ret (mkCS c w', tt) ∧
    emits c w w' (λ st, bump ResetsSent (bump SegmentsOut st))
      (conn_segment c seq 0 TCPFlagRST 0 [] []).
Proof.
  unfold sendRSTSegment. crun. change TCPMinHeaderSize with 20.
  destruct (newPacket_run e c w None (conn_fields c seq 0 20 TCPFlagRST 0) [] [])
    as (pb & E4 & Hp & Hroom); [done..|].
  cbn [default] in E4, Hp. change (20 + zlen [] + zlen []) with 20 in E4. change (u16 20) with 20 in E4.
  rewrite (run_bind _ _ _ _ _ _ E4). unfold countSegmentOut, send_packet. crun.
  eexists. split; [reflexivity|].
  split; [exists pb; split; [reflexivity|split; done]|reflexivity..|].
  cbn. by destruct (w_stats w).
Qed.

(** The options of the SYN+ACK, up to the timestamp. *)
Definition synack_pre (c : TCPConn) (mss : Z) : bytes :=
  mss_opt mss ++ maybe (c_rcvWndScale c >? 0) (TCPOptionNOP :: ws_opt (c_rcvWndScale c)) ++
  maybe (c_sackPermitted c) sackperm_opt.

Lemma synack_opts_run {A} e c w mss (k : optbuf → conn_m A) :
  let pre := synack_pre c mss in
  (o ← lift (encode_opt (make_bytes 24, 0) (λ tl, EncodeMSSOption tl mss));
   o ← (if c_rcvWndScale c >? 0 then
         o ← lift (put_nop o);
         lift (encode_opt o (λ tl, EncodeWSOption tl (c_rcvWndScale c)))
       else mret o);
   o ← (if c_sackPermitted c then lift (encode_opt o EncodeSACKPermittedOption) else mret o);
   k o) e (mkCS c w) = k (pre ++ zdrop (zlen pre) (make_bytes 24), zlen pre) e (mkCS c w).
Proof.
  cbv zeta. unfold synack_pre. destruct (c_rcvWndScale c >? 0), (c_sackPermitted c); reflexivity.
Qed.

Lemma synack_room c mss tv :
  let pre := synack_pre c mss in
  let w := pre ++ maybe (c_tsEnabled c) (ts_opt tv (c_tsRecent c)) in
  zlen pre ≤ 10 ∧ (- zlen w) mod 4 ≤ 24 - zlen w.
Proof.
  cbv zeta. unfold synack_pre.
  destruct (c_rcvWndScale c >? 0), (c_sackPermitted c), (c_tsEnabled c); (split; done).
Qed.

Lemma sendSYNACK_run e c w :
  ∃ w' tv, sendSYNACK e (mkCS c w) = Ret (mkCS c w', tt) ∧ is_u32 tv ∧
    emits c w w' (bump SegmentsOut)
      (conn_segment c (c_iss c) (u32 (c_irs c + 1)) (Z.lor TCPFlagSYN TCPFlagACK)
         (rcvWndSize (c_cfg c))
         (synack_opts (u16 (e_mtu e - 40)) (c_rcvWndScale c) (c_sackPermitted c) (c_tsEnabled c)
            tv (c_tsRecent c)) []).
Proof.
  unfold sendSYNACK. crun. replace (e_mtu e - IPv4.IPv4MinHeaderSize - TCPMinHeaderSize)
    with (e_mtu e - 40) by (unfold IPv4.IPv4MinHeaderSize, TCPMinHeaderSize; lia).
  set (mss := u16 _). rewrite synack_opts_run. cbv zeta. set (pre := synack_pre c mss).
  pose proof (zlen_nonneg pre). destruct (synack_room c mss 0) as [Hpre _]. fold pre in Hpre.
  assert (Lr : zlen (zdrop (zlen pre) (make_bytes 24)) = 24 - zlen pre).
  { rewrite zlen_zdrop; change (zlen (make_bytes 24)) with 24; lia. }
  destruct (encode_ts_run' e c w pre (zdrop (zlen pre) (make_bytes 24)))
    as (n & tv & rest & E1 & Htv & Hrest); [lia|].
  rewrite (run_bind _ _ _ _ _ _ E1). destruct (synack_room c mss tv) as [_ Hpad]. fold pre in Hpad.
  destruct (pad4_val (pre ++ maybe (c_tsEnabled c) (ts_opt tv (c_tsRecent c))) rest) as (rest' & E2).
  { etransitivity; [exact Hpad|]. rewrite Hrest, Lr, zlen_app.
    destruct (c_tsEnabled c); cbn [maybe]; [change (zlen (ts_opt _ _)) with 12|rewrite zlen_nil]; lia. }
  rewrite E2. crun. cbn [snd]. change TCPMinHeaderSize with 20.
  assert (Eo : (pre ++ maybe (c_tsEnabled c) (ts_opt tv (c_tsRecent c))) ++
    pad_opt (zlen (pre ++ maybe (c_tsEnabled c) (ts_opt tv (c_tsRecent c)))) =
    synack_opts mss (c_rcvWndScale c) (c_sackPermitted c) (c_tsEnabled c) tv (c_tsRecent c)).
  { unfold synack_opts. cbv zeta. unfold pre, synack_pre.
    by rewrite <- (app_assoc (mss_opt mss)), <- (app_assoc (maybe (c_rcvWndScale c >? 0) _)). }
  rewrite Eo. set (opts := synack_opts _ _ _ _ _ _).
  destruct (zlen_synack_opts mss (c_rcvWndScale c) (c_sackPermitted c) (c_tsEnabled c) tv
    (c_tsRecent c)) as [_ Hmax]. fold opts in Hmax.
  destruct (newPacket_run e c (ticked n w) None (conn_fields c (c_iss c) (u32 (c_irs c + 1))
      (20 + zlen opts) (Z.lor TCPFlagSYN TCPFlagACK) (rcvWndSize (c_cfg c))) opts rest')
    as (pb & E4 & Hp & Hroom); [lia|done|cbn [default]; change (zlen (@nil Z)) with 0; lia|].
  cbn [default] in E4, Hp. rewrite zlen_nil, Z.add_0_r in E4.
  rewrite (run_bind _ _ _ _ _ _ E4). unfold countSegmentOut, send_packet. crun.
  do 2 eexists. split; [reflexivity|]. split; [exact Htv|].
  split; [exists pb; split; [reflexivity|split; done]|reflexivity..].
Qed.

Lemma sendKeepaliveProbe_run e c w s r :
  ring_ok (c_readBuf c) → c_snd c = Some s → c_rcv c = Some r →
  ∃ w' wd tv, sendKeepaliveProbe e (mkCS c w) = Ret (mkCS (noteAck c) w', tt) ∧
    wnd c = Ret wd ∧ is_u16 wd ∧ is_u32 tv ∧
    emits c w w' (λ st, st)
      (conn_segment c (u32 (s_una s - 1)) (r_nxt r) TCPFlagACK wd
         (segment_opts (c_tsEnabled c) tv (c_tsRecent c) []) []).
Proof.
  intros Hok Hs Hr. unfold sendKeepaliveProbe. crun. rewrite Hs, Hr.
  destruct (wnd_val c Hok) as (wd & Ewd & Hwd).
  destruct (encode_ts12_run e c w) as (n & tv & rest & Htv & E1).
  rewrite (run_bind _ _ _ _ _ _ E1). rewrite Ewd. crun. cbn [snd]. change TCPMinHeaderSize with 20.
  pose proof (zlen_plain_opts (c_tsEnabled c) tv (c_tsRecent c)) as Lo.
  set (opts := segment_opts _ _ _ _) in *.
  assert (Hm : zlen opts ≤ 12) by (destruct (c_tsEnabled c); lia).
  destruct (newPacket_run e c (ticked n w) None
    (conn_fields c (u32 (s_una s - 1)) (r_nxt r) (20 + zlen opts) TCPFlagACK wd) opts rest)
    as (pb & E4 & Hp & Hroom); [lia|done|cbn [default]; change (zlen (@nil Z)) with 0; lia|].
  cbn [default] in E4, Hp. rewrite zlen_nil, Z.add_0_r in E4.
  rewrite (run_bind _ _ _ _ _ _ E4). unfold send_packet. crun.
  rewrite updateTSLastAckSent_run.
  do 3 eexists. split; [reflexivity|]. split; [done|]. split; [done|]. split; [exact Htv|].
  split; [exists pb; split; [reflexivity|split; done]|reflexivity..|].
  cbn. by destruct (w_stats w).
Qed.

(** * One packet for many segments *)

(** The partial checksum of the large segment. *)
Definition partial_fields (c : TCPConn) (seq ack w n : Z) (opts : bytes) : TCPFields :=
  with_csum (conn_fields c seq ack (20 + zlen opts) TCPFlagACK w)
    (tcp_pseudo (DstAddr (c_flow c)) (SrcAddr (c_flow c)) (20 + zlen opts + n)).

Definition gso_opts (mss : Z) (opts : bytes) : PacketOptions :=
  mkPacketOptions GSOTCPv4 (u16 mss) (40 + zlen opts) 20 16.

Lemma sendDataGSO_run e c w r s (A H data rest : bytes) seq :
  ring_ok (c_readBuf c) → c_rcv c = Some r → c_snd c = Some s →
  zlen A = 20 → zlen H = 20 + (if c_tsEnabled c then 12 else 0) → zlen H + zlen data ≤ 65515 →
  ∃ w' wd tv, let opts := segment_opts (c_tsEnabled c) tv (c_tsRecent c) [] in
    sendDataGSO (A ++ H ++ data ++ rest) (zlen data) seq e (mkCS c w) = Ret (mkCS (sentData c wd) w', tt) ∧
    wnd c = Ret wd ∧ is_u16 wd ∧ is_u32 tv ∧
    w_sent w' = w_sent w ++ [SentGSO (A ++ (hdr_bytes (partial_fields c seq (r_nxt r) wd (zlen data) opts) ++ opts)
        ++ data ++ rest) 0 (40 + zlen opts + zlen data) (DstAddr (c_flow c)) (SrcAddr (c_flow c))
        TCPProtocolNumber (gso_opts (s_mss s) opts)] ∧
    w_acceptQ w' = w_acceptQ w.
Proof.
  intros Hok Hr Hs LA LH Hl. unfold sendDataGSO. crun. destruct (wnd_val c Hok) as (wd & Ewd & Hwd).
  destruct (encode_ts12_run e c w) as (n & tv & orest & Htv & E1).
  rewrite (run_bind _ _ _ _ _ _ E1). crun. rewrite Ewd. crun. cbn [snd]. change TCPMinHeaderSize with 20.
  pose proof (zlen_plain_opts (c_tsEnabled c) tv (c_tsRecent c)) as Lo. rewrite <- Lo in LH.
  set (opts := segment_opts (c_tsEnabled c) tv (c_tsRecent c) []) in *.
  pose proof (zlen_nonneg opts). pose proof (zlen_nonneg data). change IPv4.IPv4MinHeaderSize with 20.
  rewrite (u16_id (20 + zlen opts + zlen data)), (u16_id (20 + (20 + zlen opts))) by ulia.
  set (f := conn_fields c seq (r_nxt r) (20 + zlen opts) TCPFlagACK wd).
  assert (view_update (A ++ H ++ data ++ rest) (mkView 20 (20 + zlen opts)) (λ h,
    h ← writeHeader f (opts ++ orest, zlen opts) h;
    setTCPPartialChecksum h (DstAddr (c_flow c)) (SrcAddr (c_flow c)) (20 + zlen opts + zlen data)) =
    Ret (A ++ (hdr_bytes (partial_fields c seq (r_nxt r) wd (zlen data) opts) ++ opts) ++ data ++ rest)) as ->.
  { match goal with |- view_update _ _ ?g = _ =>
      pose proof (view_update_app A H (data ++ rest) (20 + zlen opts) g LH) as E end.
    rewrite LA in E. rewrite E.
    rewrite writeHeader_val by (done || apply slice_to_app). unfold setTCPPartialChecksum.
    by rewrite bind_Ret_l, SetChecksum_hdr, bind_Ret_l. }
  crun. unfold countSegmentOut, countPayloadOut. crun.
  rewrite (run_bind _ _ _ _ _ _ (updateTSLastAckSent_run _ _ _)).
  replace (20 + (20 + zlen opts)) with (40 + zlen opts) by lia.
  do 3 eexists. cbv zeta. split; [reflexivity|]. split; [done|]. split; [done|]. split; [exact Htv|]. by split.
Qed.

(** A segment from the peer of [sample_flow] in its IP packet, as the stack
    delivers it. *)
Definition sample_packet (seq ack flags : Z) (opts payload : bytes) : PacketBuffer :=
  let src := SrcAddr sample_flow in
  let dst := DstAddr sample_flow in
  let seg := segment_bytes (TCP.mkTCPFields (SrcPort sample_flow) (DstPort sample_flow) seq ack
    (5 + zlen opts / 4) flags 8192 0 0) opts payload src dst in
  match IPv4.Encode (make_bytes 20)
          (IPv4.mkIPv4Fields 0 (20 + zlen seg) 1 0 0 64 TCPProtocolNumber 0 src dst) with
  | Ret ip => mkPacketBuffer (ip ++ seg) 0 20 (Some (mkView 0 20)) None (Some (mkView 20 (zlen seg)))
  | _ => pool_New
  end.
