(* ===== verification/RcvData.v ===== *)
(** [transport/tcp/rcv.go], the functions that run inside the connection:
    delivery into the read buffer with its auto-tuning, [handleData],
    [deliverOOO], and [processFIN] of [conn.go] that it may call. *)
From S2P Require Import Prelude.
From S2P Require Import Tcpip.
From S2P Require Import TcpHeader.
From S2P Require Import Packet.
From S2P Require Import Stack.
From S2P Require Import Ringbuf.
From S2P Require Import Seq.
From S2P Require Import TcpConn.
From S2P Require Import Rcv.
From S2P Require Import Segment.

Definition senderSRTT (c : TCPConn) : Z :=
  match c_snd c with Some s => s_srtt s | None => 0 end.

Definition grow_readBuf (newCap : Z) : conn_m unit :=
  with_readBuf (λ rb, rb ← Grow rb newCap; Ret (rb, tt)).

Definition autoTuneCheck : conn_m unit :=
  c ← getc;
  r ← get_rcv;
  let curCap := Cap (c_readBuf c) in
  (if (r_readBufSize r >? 0) && (curCap <? r_readBufSize r) then
     let ceiling := r_readBufSize r in
     when_ ((r_bytesDelivered r >? 0) && (curCap <? ceiling))
       (grow_readBuf (Z.min (curCap * 2) ceiling))
   else
     let ceiling := r_maxBufSize r in
     let threshold := Z.quot curCap 2 in
     when_ ((r_bytesDelivered r >? threshold) && (curCap <? ceiling))
       (grow_readBuf (Z.min (curCap * 2) ceiling)));;
  now ← time_now;
  set_rcv (λ r, r <| r_measureStart := Some now |> <| r_bytesDelivered := 0 |>).

Definition autoTuneAccumulate (n : Z) : conn_m unit :=
  c ← getc;
  r ← get_rcv;
  if (r_maxBufSize r <=? 0) && (r_readBufSize r <=? 0) then skip else
  now ← time_now;
  let start := default now (r_measureStart r) in
  set_rcv (λ r, r <| r_measureStart := Some start |>
                  <| r_bytesDelivered := r_bytesDelivered r + n |>);;
  let srtt := senderSRTT c in
  if srtt <=? 0 then skip else
  if now - start <? srtt then skip else
  autoTuneCheck.

Definition deliver (data : bytes) : conn_m Z :=
  n ← with_readBuf (λ rb, WriteNoBlock rb data);
  when_ (n >? 0) (autoTuneAccumulate n);;
  mret n.

Definition countPayloadIn (n : Z) : conn_m unit :=
  when_ (n >? 0) (count_ (λ st, st <| PayloadBytesIn := u64 (PayloadBytesIn st + n) |>)).

Definition cancelDelayedACK : conn_m unit := setc (λ c, c <| c_delayedACKTimer := None |>).

Definition close_readBuf : conn_m unit := setc (λ c, c <| c_readBuf := CloseWrite (c_readBuf c) |>).
Definition close_writeBuf : conn_m unit := setc (λ c, c <| c_writeBuf := CloseWrite (c_writeBuf c) |>).
Definition set_state (st : tcpState) : conn_m unit := setc (λ c, c <| c_state := st |>).

Definition processFIN : conn_m unit :=
  set_rcv (λ r, r <| r_nxt := u32 (r_nxt r + 1) |>);;
  cancelDelayedACK;;
  sendACK;;
  c ← getc;
  when_ (negb (c_readShutdown c)) close_readBuf;;
  set_state stateCloseWait.

(** The loop of [deliverOOO]; each round drops the first entry or stops. *)
Fixpoint drainOOO (fuel : nat) : conn_m unit :=
  r ← get_rcv;
  match r_ooo r with
  | [] => skip
  | seg :: rest =>
      if seqGreaterThan (oo_seq seg) (r_nxt r) then skip else
      match fuel with
      | O => lift OutOfFuel
      | S fuel =>
          let overlap := u32 (r_nxt r - oo_seq seg) in
          let late := seqLessThan (oo_seq seg) (r_nxt r) in
          if late && (overlap >=? u32 (zlen (oo_data seg))) then
            set_rcv (λ r, r <| r_ooo := rest |>);;
            drainOOO fuel
          else
            data ← lift (if late then slice_from (oo_data seg) overlap else Ret (oo_data seg));
            let seq := if late then r_nxt r else oo_seq seg in
            n ← deliver data;
            countPayloadIn n;;
            set_rcv (λ r, r <| r_nxt := u32 (r_nxt r + u32 n) |>);;
            if n <? zlen data then
              kept ← lift (slice_from data n);
              set_rcv (λ r, r <| r_ooo := mkOoo (u32 (seq + u32 n)) kept :: rest |>)
            else
              set_rcv (λ r, r <| r_ooo := rest |>);;
              drainOOO fuel
      end
  end.

Definition deliverOOO : conn_m unit :=
  r ← get_rcv;
  drainOOO (length (r_ooo r));;
  r ← get_rcv;
  when_ (r_finReceived r && (r_nxt r =? r_finSeq r))
    (set_rcv (λ r, r <| r_finReceived := false |>);;
     processFIN).

(** What is left of a segment: its start and its data, or nothing. *)
Inductive trimmed := Trimmed (seq : Z) (data : bytes) | Duplicate | Outside.

(** The two trims of [handleData]: bytes already received, and bytes beyond
    the receive window. *)
Definition trimSegment (nxt wndSize seq : Z) (data : bytes) : outcome trimmed :=
  let late := seqLessThan seq nxt in
  let overlap := u32 (nxt - seq) in
  if late && (overlap >=? u32 (zlen data)) then Ret Duplicate else
  data ← (if late then slice_from data overlap else Ret data);
  let seq := if late then nxt else seq in
  if wndSize =? 0 then Ret Outside else
  let wndEnd := u32 (nxt + wndSize) in
  let segEnd := u32 (seq + u32 (zlen data)) in
  if negb (seqLessThan seq wndEnd) then Ret Outside else
  data ← (if seqGreaterThan segEnd wndEnd then slice_to data (u32 (wndEnd - seq)) else Ret data);
  Ret (Trimmed seq data).

Definition handleData (seq : Z) (data : bytes) : conn_m unit :=
  if zlen data =? 0 then skip else
  c ← getc;
  r ← get_rcv;
  w ← lift (rcvWnd c);
  t ← lift (trimSegment (r_nxt r) w seq data);
  match t with
  | Duplicate =>
      set_rcv (λ r, r <| r_dsackBlock := mkSACKBlock seq (u32 (seq + u32 (zlen data))) |>
                      <| r_hasDSACKBlock := true |>)
  | Outside => skip
  | Trimmed seq data =>
      if c_readShutdown c then
        when_ (seq =? r_nxt r) (set_rcv (λ r, r <| r_nxt := u32 (r_nxt r + u32 (zlen data)) |>))
      else if seq =? r_nxt r then
        n ← deliver data;
        countPayloadIn n;;
        set_rcv (λ r, r <| r_nxt := u32 (r_nxt r + u32 n) |>);;
        when_ (n >? 0) deliverOOO
      else if seqGreaterThan seq (r_nxt r) then
        r' ← lift (insertOOO r seq data);
        set_rcv (λ _, r')
      else skip
  end.
