(* ===== verification/RcvFacts.v ===== *)
(** Theorems on the receive side ([RcvData]): whatever segments of the peer's
    byte stream arrive, in any order, overlapping or repeated, the read
    buffer holds the stream, in order and once, up to the first byte that has
    not arrived. *)
From S2P Require Import Prelude.
From S2P Require Import Tcpip.
From S2P Require Import TcpHeader.
From S2P Require Import Packet.
From S2P Require Import Stack.
From S2P Require Import Ringbuf.
From S2P Require Import Seq.
From S2P Require Import TcpConn.
From S2P Require Import Rcv.
From S2P Require Import OooFacts.
From S2P Require Import Segment.
From S2P Require Import RcvData.

(** * What the receive path changes *)

(** The connection without its receive side. *)
Definition outside (c : TCPConn) : TCPConn :=
  c <| c_rcv := None |> <| c_readBuf := mkRing [] 0 0 false 0 0 false |>.

Definition quiet (s s' : CS) : Prop :=
  outside (cs_conn s') = outside (cs_conn s) ∧
  w_sent (cs_world s') = w_sent (cs_world s) ∧
  w_acceptQ (cs_world s') = w_acceptQ (cs_world s).

Lemma quiet_refl s : quiet s s.
Proof. done. Qed.
Lemma quiet_trans s1 s2 s3 : quiet s1 s2 → quiet s2 s3 → quiet s1 s3.
Proof. unfold quiet. intuition congruence. Qed.
Lemma quiet_readShutdown s s' : quiet s s' → c_readShutdown (cs_conn s') = c_readShutdown (cs_conn s).
Proof. intros [E _]. by apply (f_equal c_readShutdown) in E. Qed.

(** The receiver without its throughput measurement. *)
Definition untuned (r : receiver) : receiver :=
  r <| r_measureStart := None |> <| r_bytesDelivered := 0 |>.

(** The receive side is in order; [lim] bounds the buffer sizes. *)
Record rcv_ok (lim : Z) (s : CS) (r : receiver) : Prop := {
  ok_rcv : c_rcv (cs_conn s) = Some r;
  ok_ring : ring_ok (c_readBuf (cs_conn s));
  ok_lim : Cap (c_readBuf (cs_conn s)) ≤ lim;
  ok_size : r_readBufSize r ≤ lim;
  ok_max : r_maxBufSize r ≤ lim }.

(** The buffer may have grown. *)
Record tuned (lim : Z) (s s' : CS) (r r' : receiver) : Prop := {
  tu_quiet : quiet s s';
  tu_ok : rcv_ok lim s' r';
  tu_untuned : untuned r' = untuned r;
  tu_contents : contents (c_readBuf (cs_conn s')) = contents (c_readBuf (cs_conn s));
  tu_cap : Cap (c_readBuf (cs_conn s)) ≤ Cap (c_readBuf (cs_conn s'));
  tu_closed : rb_closed (c_readBuf (cs_conn s')) = rb_closed (c_readBuf (cs_conn s)) }.

Lemma tuned_refl lim s r : rcv_ok lim s r → tuned lim s s r r.
Proof. intros H. by split. Qed.

(** * Auto-tuning *)
Lemma grow_readBuf_run lim e s r newCap :
  rcv_ok lim s r → newCap ≤ lim →
  ∃ s', grow_readBuf newCap e s = Ret (s', tt) ∧ tuned lim s s' r r.
Proof.
  intros [Hr Hok Hl Hs Hm] Hn. destruct (Grow_ok _ newCap Hok) as (rb & E & Hok' & Hc & Hcap & Hcl & _).
  unfold grow_readBuf, with_readBuf. crun. rewrite E. cbn [mbind outcome_bind]. crun.
  eexists. split; [reflexivity|]. by split; cbn; try done; [split; cbn; try done|]; lia.
Qed.

Lemma autoTuneCheck_run lim e s r :
  rcv_ok lim s r → ∃ s' r', autoTuneCheck e s = Ret (s', tt) ∧ tuned lim s s' r r'.
Proof.
  intros H. pose proof H as [Hr Hok Hl Hs Hm]. unfold autoTuneCheck. crun.
  assert (∃ s1, (if (r_readBufSize r >? 0) && (Cap (c_readBuf (cs_conn s)) <? r_readBufSize r) then
     when_ ((r_bytesDelivered r >? 0) && (Cap (c_readBuf (cs_conn s)) <? r_readBufSize r))
       (grow_readBuf (Z.min (Cap (c_readBuf (cs_conn s)) * 2) (r_readBufSize r)))
   else
     when_ ((r_bytesDelivered r >? Z.quot (Cap (c_readBuf (cs_conn s))) 2) &&
            (Cap (c_readBuf (cs_conn s)) <? r_maxBufSize r))
       (grow_readBuf (Z.min (Cap (c_readBuf (cs_conn s)) * 2) (r_maxBufSize r)))) e s
     = Ret (s1, tt) ∧ tuned lim s s1 r r) as (s1 & E & Ht).
  { destruct (_ && _); unfold when_; (destruct (_ && _); [|by eexists; split; [|apply tuned_refl]]);
      apply grow_readBuf_run; (done || lia). }
  cbv zeta. rewrite (run_bind _ _ _ _ _ _ E). destruct Ht as [Hq [Hr' ? ? ? ?] ? ? ? ?].
  unfold time_now. crun. unfold set_rcv. crun. do 2 eexists. split; [reflexivity|].
  by split; cbn; try done; split.
Qed.

Lemma autoTuneAccumulate_run lim e s r n :
  rcv_ok lim s r → ∃ s' r', autoTuneAccumulate n e s = Ret (s', tt) ∧ tuned lim s s' r r'.
Proof.
  intros H. pose proof H as [Hr Hok Hl Hs Hm]. unfold autoTuneAccumulate. crun.
  destruct (_ && _). { exists s, r. split; [done|]. by apply tuned_refl. }
  unfold time_now. crun. cbv zeta.
  set (s1 := mkCS _ _). pose (r1 := default r (c_rcv (cs_conn s1))).
  assert (tuned lim s s1 r r1) as Ht by (by split; cbn; try done; split).
  destruct (_ <=? 0); [by exists s1, r1|]. destruct (_ <? _); [by exists s1, r1|].
  destruct (autoTuneCheck_run lim e s1 r1) as (s2 & r2 & E & Ht2); [apply Ht|].
  exists s2, r2. split; [done|]. destruct Ht, Ht2. split; try done; try congruence; try lia.
Qed.

(** * Delivery into the read buffer *)
Lemma WriteNoBlock_ok rb p :
  ring_ok rb → rb_closed rb = false → 0 < zlen p →
  ∃ rb', WriteNoBlock rb p = Ret (rb', Z.min (zlen p) (Cap rb - used rb)) ∧ ring_ok rb' ∧
    contents rb' = contents rb ++ ztake (Cap rb - used rb) p ∧
    Cap rb' = Cap rb ∧ rb_closed rb' = false.
Proof.
  intros Hok Hcl Hp. destruct (ring_step_ok rb (OpWriteNoBlock p)) as (rb' & o & E & Hok' & Hq);
    [done|exact Hp|]. cbn [ring_step queue_step] in *. rewrite abs_room in Hq by done. cbn [abs q_closed] in Hq.
  rewrite Hcl in Hq. apply bind_Ret in E as ([rb1 n] & E & [= <- <-]). injection Hq as Hc Hcap Hcl' Hn.
  exists rb1. rewrite abs_room in Hc by done. unfold abs in *. cbn in *. rewrite E. subst n.
  split_and!; congruence.
Qed.

(** [deliver] appends what fits, and lets nothing else change. *)
Record delivered (lim : Z) (s s' : CS) (r r' : receiver) (data : bytes) : Prop := {
  de_quiet : quiet s s';
  de_ok : rcv_ok lim s' r';
  de_untuned : untuned r' = untuned r;
  de_contents : contents (c_readBuf (cs_conn s')) = contents (c_readBuf (cs_conn s)) ++
    ztake (Cap (c_readBuf (cs_conn s)) - used (c_readBuf (cs_conn s))) data;
  de_cap : Cap (c_readBuf (cs_conn s)) ≤ Cap (c_readBuf (cs_conn s'));
  de_closed : rb_closed (c_readBuf (cs_conn s')) = false }.

Lemma deliver_run lim e s r data :
  rcv_ok lim s r → rb_closed (c_readBuf (cs_conn s)) = false → 0 < zlen data →
  ∃ s' r', deliver data e s
      = Ret (s', Z.min (zlen data) (Cap (c_readBuf (cs_conn s)) - used (c_readBuf (cs_conn s)))) ∧
    delivered lim s s' r r' data.
Proof.
  intros [Hr Hok Hl Hs Hm] Hcl Hd. unfold deliver, with_readBuf. crun.
  destruct (WriteNoBlock_ok _ data Hok Hcl Hd) as (rb & E & Hok' & Hc & Hcap & Hcl').
  rewrite E. crun. set (n := Z.min _ _). set (s1 := mkCS _ _).
  assert (rcv_ok lim s1 r) as H1 by (by split; cbn; rewrite ?Hcap).
  assert (∃ s2 r2, when_ (n >? 0) (autoTuneAccumulate n) e s1 = Ret (s2, tt) ∧ tuned lim s1 s2 r r2)
    as (s2 & r2 & E2 & [? ? ? Hc2 Hcap2 Hcl2]).
  { unfold when_. destruct (n >? 0); [by apply autoTuneAccumulate_run|].
    exists s1, r. split; [done|]. by apply tuned_refl. }
  rewrite (run_bind _ _ _ _ _ _ E2). exists s2, r2. split; [done|].
  subst s1. cbn in *. rewrite Hcap in Hcap2. by split; cbn; try done; congruence.
Qed.

(** * The receiver and the stream *)

(** The free space of the read buffer. *)
Definition room (s : CS) : Z := Cap (c_readBuf (cs_conn s)) - used (c_readBuf (cs_conn s)).
Definition unread (s : CS) : bytes := contents (c_readBuf (cs_conn s)).

(** The receiver without what arriving data changes. *)
Definition rest (r : receiver) : receiver :=
  untuned r <| r_nxt := 0 |> <| r_ooo := [] |>
            <| r_dsackBlock := mkSACKBlock 0 0 |> <| r_hasDSACKBlock := false |>.

Section stream.
Context (stream : Z → Z) (base lim : Z).
Hypothesis Hlim : lim < span_limit.
Local Abbreviation piece := (piece stream).
Local Abbreviation seq_of := (seq_of base).
Local Abbreviation span_seg := (span_seg stream base).

(** The bytes of the stream from [n] to [n'] have been added to the read
    buffer; the right edge of the window has not moved back. *)
Record evolves (s s' : CS) (r r' : receiver) (n n' : Z) : Prop := {
  ev_quiet : quiet s s';
  ev_rest : rest r' = rest r;
  ev_unread : unread s' = unread s ++ piece n (n' - n);
  ev_nxt : n ≤ n';
  ev_edge : n + room s ≤ n' + room s' }.

Lemma evolves_refl s r r' n : rest r' = rest r → evolves s s r r' n n.
Proof. intros. split; try done. by rewrite Z.sub_diag, app_nil_r. Qed.

Lemma evolves_trans s1 s2 s3 r1 r2 r3 n1 n2 n3 :
  evolves s1 s2 r1 r2 n1 n2 → evolves s2 s3 r2 r3 n2 n3 → evolves s1 s3 r1 r3 n1 n3.
Proof.
  intros [? ? E1 ? ?] [? ? E2 ? ?]. split; [by eapply quiet_trans|congruence| |lia..].
  rewrite E2, E1, <- app_assoc. f_equal. replace n2 with (n1 + (n2 - n1)) at 2 by lia.
  rewrite piece_app by lia. f_equal. lia.
Qed.

(** [n] is the next position expected and [l] the spans held back, between
    [lo] and [hi]. *)
Record stream_at (lo hi : Z) (s : CS) (r : receiver) (n : Z) (l : list (Z * Z)) : Prop := {
  st_ok : rcv_ok lim s r;
  st_open : rb_closed (c_readBuf (cs_conn s)) = false;
  st_nxt : r_nxt r = seq_of n;
  st_ooo : r_ooo r = span_seg <$> l;
  st_spans : spans_ok lo hi l;
  st_pos : lo ≤ n ≤ hi;
  st_fits : hi ≤ n + room s;
  st_near : hi - lo < span_limit }.

Lemma room_range s r : rcv_ok lim s r → 0 ≤ room s ≤ lim.
Proof. intros [? Hok ? ? ?]. unfold room. pose proof (used_range _ Hok). destruct Hok. lia. Qed.

(** Delivering the bytes expected next, as [handleData] and [deliverOOO] do. *)
Lemma deliver_advance {B} e s r n k (f : Z → conn_m B) :
  rcv_ok lim s r → rb_closed (c_readBuf (cs_conn s)) = false → r_nxt r = seq_of n →
  0 < k ≤ room s →
  ∃ s' r', (m ← deliver (piece n k); countPayloadIn m;;
            set_rcv (λ r, r <| r_nxt := u32 (r_nxt r + u32 m) |>);; f m) e s = f k e s' ∧
    rcv_ok lim s' r' ∧ rb_closed (c_readBuf (cs_conn s')) = false ∧
    r_nxt r' = seq_of (n + k) ∧ r_ooo r' = r_ooo r ∧ evolves s s' r r' n (n + k).
Proof.
  intros Hok Hcl Hn Hk. unfold room in Hk. assert (zlen (piece n k) = k) as Lk by (apply zlen_piece'; lia).
  destruct (deliver_run lim e s r (piece n k)) as (s1 & r1 & E & [Hq [Hr1 Hok1 ? ? ?] Hu Hc Hcap Hcl1]);
    [done..|lia|]. rewrite (run_bind _ _ _ _ _ _ E), Lk, Z.min_l by lia.
  unfold countPayloadIn, when_. rewrite (proj2 (Z.gtb_lt k 0)) by lia. crun.
  rewrite ztake_all in Hc by lia.
  assert (r_nxt r1 = r_nxt r ∧ r_ooo r1 = r_ooo r) as [E1 E2]
    by (split; [exact (f_equal r_nxt Hu)|exact (f_equal r_ooo Hu)]).
  exists (mkCS ((cs_conn s1) <| c_rcv := Some (r1 <| r_nxt := u32 (r_nxt r1 + u32 k) |>) |>)
     ((cs_world s1) <| w_stats := (λ st, st <| PayloadBytesIn := u64 (PayloadBytesIn st + k) |>)
        <$> w_stats (cs_world s1) |>)).
  eexists. split; [reflexivity|]. split; [by split; cbn|]. split; [done|].
  split. { cbn. by rewrite E1, Hn, seq_plus. } split; [done|].
  split; cbn.
  - destruct Hq as (Ho & ? & ?). by split.
  - unfold rest. exact (f_equal (λ x, x <| r_nxt := 0 |> <| r_ooo := [] |>
      <| r_dsackBlock := mkSACKBlock 0 0 |> <| r_hasDSACKBlock := false |>) Hu).
  - unfold unread. cbn. rewrite Hc. do 2 f_equal. lia.
  - lia.
  - unfold room. cbn. rewrite <- (zlen_contents _ Hok1), Hc, zlen_app, Lk, zlen_contents by apply Hok. lia.
Qed.
(** Replacing the list of spans held back. *)
Lemma set_ooo hi lo s r n l :
  rcv_ok lim s r → rb_closed (c_readBuf (cs_conn s)) = false → r_nxt r = seq_of n →
  spans_ok lo hi l → lo ≤ n ≤ hi → hi ≤ n + room s → hi - lo < span_limit →
  stream_at lo hi (mkCS ((cs_conn s) <| c_rcv := Some (r <| r_ooo := span_seg <$> l |>) |>) (cs_world s))
    (r <| r_ooo := span_seg <$> l |>) n l ∧
  evolves s (mkCS ((cs_conn s) <| c_rcv := Some (r <| r_ooo := span_seg <$> l |>) |>) (cs_world s))
    r (r <| r_ooo := span_seg <$> l |>) n n.
Proof.
  intros [] **. split; [by split; try done; split|].
  split; try done. change (unread s = unread s ++ piece n (n - n)). by rewrite Z.sub_diag, app_nil_r.
Qed.

Lemma drain_stops lo hi s r n l :
  stream_at lo hi s r n l → spans_ok n hi l →
  ∃ s' r' n' l', @Ret (CS * unit) (s, tt) = Ret (s', tt) ∧ stream_at n' hi s' r' n' l' ∧
    evolves s s' r r' n n' ∧ ∀ q, q < n' ∨ covered l' q ↔ q < n ∨ covered l q.
Proof.
  intros [] Hsp. exists s, r, n, l. split; [done|]. split; [split; try done; lia|].
  split; [by apply evolves_refl|]. done.
Qed.

(** The first entry reaches beyond the position expected: its bytes from
    there on all fit, and it is dropped. *)
Lemma drain_front e s r n t l lo hi (K : Z → conn_m unit) (m : conn_m unit) :
  stream_at lo hi s r n (t :: l) → t.1 ≤ n < span_end t →
  let data := piece n (span_end t - n) in
  ∃ s1 r1, (k ← deliver data; countPayloadIn k;;
            set_rcv (λ r, r <| r_nxt := u32 (r_nxt r + u32 k) |>);;
            if k <? zlen data then K k
            else set_rcv (λ r, r <| r_ooo := span_seg <$> l |>);; m) e s = m e s1 ∧
    stream_at (span_end t) hi s1 r1 (span_end t) l ∧ evolves s s1 r r1 n (span_end t).
Proof.
  intros [Hok Hop Hn Ho (Ht1 & Ht2 & Ht3 & Hsp) Hpos Hfit Hnear] Ht data.
  destruct (deliver_advance e s r n (span_end t - n) (λ k, if k <? zlen data then K k
      else set_rcv (λ r, r <| r_ooo := span_seg <$> l |>);; m))
    as (s1 & r1 & E & Hok1 & Hop1 & Hn1 & Ho1 & Hev); [done..|lia|].
  subst data. rewrite zlen_piece' in E |- * by lia. rewrite Z.ltb_irrefl in E.
  rewrite (run_set_rcv _ _ _ _ r1) in E by apply Hok1.
  replace (n + (span_end t - n)) with (span_end t) in * by lia.
  destruct (set_ooo hi (span_end t) s1 r1 (span_end t) l) as [Hst2 Hev2];
    [done..|lia|destruct Hev; lia|unfold span_end in *; lia|].
  eexists _, _. split; [exact E|]. split; [done|]. by eapply evolves_trans.
Qed.

Lemma drainOOO_run fuel e s r n l lo hi :
  stream_at lo hi s r n l → (length l ≤ fuel)%nat →
  ∃ s' r' n' l', drainOOO fuel e s = Ret (s', tt) ∧ stream_at n' hi s' r' n' l' ∧
    evolves s s' r r' n n' ∧ ∀ q, q < n' ∨ covered l' q ↔ q < n ∨ covered l q.
Proof.
  revert s r n l lo. induction fuel as [|fuel IH]; intros s r n l lo Hst Hf;
    pose proof Hst as [Hok Hop Hn Ho Hsp Hpos Hfit Hnear]; unfold span_limit in Hnear;
    cbn [drainOOO]; rewrite (run_get_rcv _ _ _ r) by apply Hok; rewrite Ho;
    (destruct l as [|t l]; cbn [fmap list_fmap]; [by eapply drain_stops|]); [cbn in Hf; lia|].
  destruct Hsp as (Ht1 & Ht2 & Ht3 & Hsp). change (oo_seq (span_seg t)) with (seq_of t.1).
  change (oo_data (span_seg t)) with (piece t.1 t.2). unfold span_end in *. rewrite Hn.
  rewrite seq_greater, seq_less, seq_minus by lia. rewrite zlen_piece' by lia.
  destruct (Z.gtb_spec t.1 n).
  { eapply drain_stops; [done|]. cbn. unfold span_end. by split_and!; [lia..|]. }
  assert (Hfront : ∀ K : Z → conn_m unit, t.1 ≤ n < span_end t →
    let data := piece n (span_end t - n) in
    ∃ s' r' n' l', (k ← deliver data; countPayloadIn k;;
            set_rcv (λ r, r <| r_nxt := u32 (r_nxt r + u32 k) |>);;
            if k <? zlen data then K k
            else set_rcv (λ r, r <| r_ooo := span_seg <$> l |>);; drainOOO fuel) e s = Ret (s', tt) ∧
      stream_at n' hi s' r' n' l' ∧
      evolves s s' r r' n n' ∧ ∀ q, q < n' ∨ covered l' q ↔ q < n ∨ covered (t :: l) q).
  { intros K Ht data. destruct (drain_front e s r n t l lo hi K (drainOOO fuel) Hst Ht)
      as (s1 & r1 & E1 & Hst1 & Hev1). destruct (IH _ _ _ _ _ Hst1) as (s' & r' & n' & l' & E & Hst' & Hev' & Hq);
      [cbn in Hf; lia|]. exists s', r', n', l'. rewrite <- E. split; [exact E1|]. split; [done|].
    split; [by eapply evolves_trans|]. intros q. rewrite Hq, covered_cons.
    assert (q < span_end t ↔ q < n ∨ in_span q t) by (unfold in_span, span_end in *; lia). tauto. }
  cbv zeta. destruct (Z.ltb_spec t.1 n) as [Hlate|Hnow]; cbn [andb]; rewrite ?u32_id by ulia.
  - destruct (Z.geb_spec (n - t.1) t.2) as [Hall|Hpart].
    + destruct (set_ooo hi (t.1 + t.2) s r n l) as [Hst1 Hev1]; [done..|lia|lia|unfold span_limit; lia|].
      rewrite (run_set_rcv _ _ _ _ r) by apply Hok.
      destruct (IH _ _ _ _ _ Hst1) as (s' & r' & n' & l' & E & Hst' & Hev' & Hq); [cbn in Hf; lia|].
      exists s', r', n', l'. split; [done|]. split; [done|]. split; [by eapply evolves_trans|].
      intros q. rewrite Hq, covered_cons.
      assert (in_span q t → q < n) by (unfold in_span, span_end; lia). tauto.
    + rewrite slice_from_ok by (rewrite zlen_piece'; lia). rewrite run_lift, zdrop_piece by lia.
      replace (t.1 + (n - t.1)) with n by lia. replace (t.2 - (n - t.1)) with (span_end t - n)
        by (unfold span_end; lia). cbv beta. apply Hfront. unfold span_end. lia.
  - rewrite run_lift. replace (piece t.1 t.2) with (piece n (span_end t - n))
      by (unfold span_end; f_equal; lia). apply Hfront. unfold span_end. lia.
Qed.
(** * An arriving segment *)
Lemma trimSegment_val n w p k :
  0 < k < span_limit → - span_limit < p - n < span_limit → 0 ≤ w < span_limit →
  trimSegment (seq_of n) w (seq_of p) (piece p k) = Ret (
    if p + k <=? n then Duplicate else
    if n + w <=? Z.max p n then Outside else
    Trimmed (seq_of (Z.max p n)) (piece (Z.max p n) (Z.min (p + k) (n + w) - Z.max p n))).
Proof.
  unfold span_limit. intros Hk Hp Hw. unfold trimSegment. rewrite seq_less, seq_minus by lia.
  rewrite zlen_piece', (u32_id k) by ulia.
  assert (Htail : ∀ a m, n ≤ a → 0 < m → a + m = p + k →
    (if w =? 0 then Ret Outside else
     if negb (seqLessThan (seq_of a) (u32 (seq_of n + w))) then Ret Outside else
     data ← (if seqGreaterThan (u32 (seq_of a + u32 (zlen (piece a m)))) (u32 (seq_of n + w))
             then slice_to (piece a m) (u32 (u32 (seq_of n + w) - seq_of a)) else Ret (piece a m));
     Ret (Trimmed (seq_of a) data)) =
    Ret (if n + w <=? a then Outside
         else Trimmed (seq_of a) (piece a (Z.min (p + k) (n + w) - a)))).
  { intros a m Ha Hm E. rewrite zlen_piece' by lia. rewrite seq_plus.
    replace (u32 (seq_of n + w)) with (seq_of (n + w)) by (rewrite <- seq_plus, (u32_id w) by ulia; done).
    rewrite seq_less, seq_greater, seq_minus by lia.
    destruct (Z.eqb_spec w 0); [by rewrite (proj2 (Z.leb_le _ _)) by lia|].
    destruct (Z.leb_spec (n + w) a); [by rewrite (proj2 (Z.ltb_ge _ _)) by lia|].
    rewrite (proj2 (Z.ltb_lt _ _)) by lia. cbn [negb]. destruct (Z.gtb_spec (a + m) (n + w)).
    - rewrite u32_id by ulia. rewrite slice_to_ok by (rewrite zlen_piece'; lia).
      rewrite bind_Ret_l, ztake_piece by lia. by rewrite Z.min_r by lia.
    - rewrite bind_Ret_l. do 3 f_equal. lia. }
  cbv zeta. destruct (Z.ltb_spec p n); cbn [andb].
  - rewrite u32_id by ulia. destruct (Z.geb_spec (n - p) k).
    { by rewrite (proj2 (Z.leb_le _ _)) by lia. }
    rewrite (proj2 (Z.leb_gt _ _)) by lia. rewrite slice_from_ok by (rewrite zlen_piece'; lia).
    rewrite bind_Ret_l, zdrop_piece by lia. replace (p + (n - p)) with n by lia.
    rewrite Z.max_r by lia. apply Htail; lia.
  - rewrite bind_Ret_l, (proj2 (Z.leb_gt _ _)), Z.max_l by lia. apply Htail; lia.
Qed.

(** The receive side is at position [n] of the stream, with the spans [l]
    held back, and the buffer is open. *)
Record stream_open (s : CS) (r : receiver) (n : Z) (l : list (Z * Z)) : Prop := {
  op_at : stream_at n (n + room s) s r n l;
  op_read : c_readShutdown (cs_conn s) = false }.

(** And the peer has not announced the end of its stream. *)
Record stream_inv (s : CS) (r : receiver) (n : Z) (l : list (Z * Z)) : Prop := {
  in_at : stream_at n (n + room s) s r n l;
  in_fin : r_finReceived r = false;
  in_read : c_readShutdown (cs_conn s) = false }.

Lemma stream_inv_open s r n l : stream_inv s r n l → stream_open s r n l.
Proof. by intros [? _ ?]. Qed.

Lemma stream_open_after s s' r r' n n' l' hi :
  stream_at n' hi s' r' n' l' → c_readShutdown (cs_conn s) = false →
  evolves s s' r r' n n' → stream_open s' r' n' l'.
Proof.
  intros [Hok ? ? ? Hsp ? ? ?] Hr [Hq Hrest ? ? ?]. pose proof (room_range _ _ Hok).
  split; [split; try done; [|lia..]|by rewrite (quiet_readShutdown _ _ Hq)].
  eapply spans_ok_weaken; [exact Hsp|lia..].
Qed.
(** A receiver that differs in the spans held back and the DSACK block. *)
Lemma replace_rcv s r r' n l l' :
  stream_open s r n l → rest r' = rest r → r_nxt r' = r_nxt r → r_ooo r' = span_seg <$> l' →
  spans_ok n (n + room s) l' →
  let s' := mkCS ((cs_conn s) <| c_rcv := Some r' |>) (cs_world s) in
  stream_open s' r' n l' ∧ evolves s s' r r' n n.
Proof.
  intros [[[? ? ? ? ?] ? Hn ? ? ? ? ?] Hr] Hrest En Eo Hsp s'.
  assert (r_readBufSize r' = r_readBufSize r ∧ r_maxBufSize r' = r_maxBufSize r) as (E1 & E2).
  { split_and!; [exact (f_equal r_readBufSize Hrest)|exact (f_equal r_maxBufSize Hrest)]. }
  split.
  - split; [|done]. split; try done; [|congruence]. split; cbn; try done; congruence.
  - split; try done. change (unread s = unread s ++ piece n (n - n)). by rewrite Z.sub_diag, app_nil_r.
Qed.

(** What [deliverOOO] does after its loop: the end of the stream may have been
    announced before all data was there. *)
Definition fin_check : conn_m unit :=
  r ← get_rcv;
  when_ (r_finReceived r && (r_nxt r =? r_finSeq r))
    (set_rcv (λ r, r <| r_finReceived := false |>);; processFIN).

Lemma deliverOOO_run e s r n l lo hi :
  stream_at lo hi s r n l →
  ∃ s' r' n' l', deliverOOO e s = fin_check e s' ∧ stream_at n' hi s' r' n' l' ∧
    evolves s s' r r' n n' ∧ ∀ q, q < n' ∨ covered l' q ↔ q < n ∨ covered l q.
Proof.
  intros Hst. destruct (drainOOO_run (length l) e s r n l lo hi Hst)
    as (s' & r' & n' & l' & E & Hst' & Hev & Hq); [done|].
  unfold deliverOOO. rewrite (run_get_rcv _ _ _ r) by apply Hst.
  rewrite (st_ooo _ _ _ _ _ _ Hst), length_fmap, (run_bind _ _ _ _ _ _ E).
  by exists s', r', n', l'.
Qed.

(** The two ways of accepting data: it starts at the position expected, or
    after a gap. *)
Lemma arrive_in_order e s r n l m :
  stream_open s r n l → 0 < m ≤ room s →
  ∃ s' r' n' l', (k ← deliver (piece n m); countPayloadIn k;;
      set_rcv (λ r, r <| r_nxt := u32 (r_nxt r + u32 k) |>);;
      when_ (k >? 0) deliverOOO) e s = fin_check e s' ∧
    stream_open s' r' n' l' ∧ evolves s s' r r' n n' ∧
    ∀ q, q < n' ∨ covered l' q ↔ q < n + m ∨ covered l q.
Proof.
  intros [[Hok Hop Hn Ho Hsp _ _ Hnear] Hr] Hm.
  destruct (deliver_advance e s r n m (λ k, when_ (k >? 0) deliverOOO))
    as (s1 & r1 & -> & Hok1 & Hop1 & Hn1 & Ho1 & Hev1); [done..|].
  unfold when_. rewrite (proj2 (Z.gtb_lt m 0)) by lia.
  destruct (deliverOOO_run e s1 r1 (n + m) l n (n + room s)) as (s' & r' & n' & l' & -> & Hst' & Hev & Hq).
  { split; try done; [by rewrite Ho1|lia|]. destruct Hev1; lia. }
  pose proof (evolves_trans _ _ _ _ _ _ _ _ _ Hev1 Hev) as Hev'.
  exists s', r', n', l'. split; [done|]. split; [by eapply stream_open_after|]. by split.
Qed.

Lemma arrive_ahead e s r n l p m :
  stream_open s r n l → n < p → 0 < m → p + m ≤ n + room s →
  ∃ s' r' l', (r' ← lift (insertOOO r (seq_of p) (piece p m)); set_rcv (λ _, r')) e s = Ret (s', tt) ∧
    stream_open s' r' n l' ∧ evolves s s' r r' n n ∧
    ∀ q, q < n ∨ covered l' q ↔ q < n ∨ covered l q ∨ p ≤ q < p + m.
Proof.
  intros Hinv. pose proof Hinv as [[Hok Hop Hn Ho Hsp Hpos _ Hnear] Hr]. intros Hp Hm Hfit.
  destruct (insertOOO_spans stream base r n (n + room s) l p m) as (r' & l' & E & Er & Hsp' & Hq);
    [done..|]. rewrite E, run_lift. destruct Hok as [Hrcv ? ? ? ?].
  rewrite (run_set_rcv' _ _ _ r) by done. eexists _, r', l'. split; [reflexivity|].
  apply and_assoc. split; [|intros q; rewrite Hq; tauto].
  apply (replace_rcv s r r' n l l'); try done; by rewrite Er.
Qed.

(** A segment is taken in; if it brought the position forward, the announced
    end of the stream is looked at again. *)
Lemma handleData_open e s r n l p k :
  stream_open s r n l → 0 < k < span_limit → - span_limit < p - n < span_limit →
  ∃ s' r' n' l' b, handleData (seq_of p) (piece p k) e s = when_ b fin_check e s' ∧
    stream_open s' r' n' l' ∧ evolves s s' r r' n n' ∧ (b = false → n' = n) ∧
    ∀ q, q < n' ∨ covered l' q ↔ q < n ∨ covered l q ∨ (p ≤ q < p + k ∧ q < n + room s).
Proof.
  intros Hinv Hk Hp. pose proof Hinv as [[Hok Hop Hn Ho Hsp _ _ Hnear] Hr].
  pose proof (room_range _ _ Hok) as Hroom. unfold handleData. rewrite zlen_piece' by lia.
  rewrite (proj2 (Z.eqb_neq k 0)) by lia. rewrite run_getc, (run_get_rcv _ _ _ r) by apply Hok.
  assert (rcvWnd (cs_conn s) = Ret (room s)) as ->.
  { unfold rcvWnd. rewrite Free_ok by apply Hok. rewrite bind_Ret_l. fold (room s).
    destruct (Z.leb_spec (room s) 0); f_equal; [lia|]. apply u32_id. unfold span_limit in *; ulia. }
  rewrite run_lift, Hn, trimSegment_val, run_lift by lia.
  destruct (Z.leb_spec (p + k) n) as [Hdup|Hnew].
  { rewrite (run_set_rcv' _ _ _ r) by apply Hok. eexists _, _, n, l, false. split; [reflexivity|].
    apply and_assoc. split; [by eapply replace_rcv|]. split; [done|].
    intros q. assert (p ≤ q < p + k ∧ q < n + room s → q < n) by lia. tauto. }
  destruct (Z.leb_spec (n + room s) (Z.max p n)) as [Hout|Hin].
  { exists s, r, n, l, false. split; [done|]. split; [done|]. split; [by apply evolves_refl|]. split; [done|].
    intros q. assert (p ≤ q < p + k ∧ q < n + room s → q < n) by lia. tauto. }
  rewrite Hr. unfold span_limit in *. rewrite (seq_eqb stream) by lia.
  set (m := Z.min (p + k) (n + room s) - Z.max p n).
  destruct (Z.eqb_spec (Z.max p n) n) as [E|Ha].
  { rewrite E. destruct (arrive_in_order e s r n l m) as (s' & r' & n' & l' & -> & ? & ? & Hq); [done|lia|].
    exists s', r', n', l', true. split_and!; try done. intros q. rewrite Hq.
    assert (q < n + m ↔ q < n ∨ (p ≤ q < p + k ∧ q < n + room s)) by lia. tauto. }
  rewrite seq_greater, (proj2 (Z.gtb_lt _ _)) by lia.
  destruct (arrive_ahead e s r n l (Z.max p n) m) as (s' & r' & l' & -> & ? & ? & Hq); [done|lia..|].
  exists s', r', n, l', false. split_and!; try done. intros q. rewrite Hq.
  assert (Z.max p n ≤ q < Z.max p n + m ↔ p ≤ q < p + k ∧ q < n + room s) by lia. tauto.
Qed.

Lemma handleData_run e s r n l p k :
  stream_inv s r n l → 0 < k < span_limit → - span_limit < p - n < span_limit →
  ∃ s' r' n' l', handleData (seq_of p) (piece p k) e s = Ret (s', tt) ∧
    stream_inv s' r' n' l' ∧ evolves s s' r r' n n' ∧
    ∀ q, q < n' ∨ covered l' q ↔ q < n ∨ covered l q ∨ (p ≤ q < p + k ∧ q < n + room s).
Proof.
  intros Hinv Hk Hp. destruct (handleData_open e s r n l p k (stream_inv_open _ _ _ _ Hinv) Hk Hp)
    as (s' & r' & n' & l' & b & E & [Hat Hr] & Hev & _ & Hq).
  assert (r_finReceived r' = false) as Hf.
  { rewrite <- (in_fin _ _ _ _ Hinv). exact (f_equal r_finReceived (ev_rest _ _ _ _ _ _ Hev)). }
  exists s', r', n', l'. split; [|by split; [split|]]. rewrite E. unfold when_, fin_check. destruct b; [|done].
  rewrite (run_get_rcv _ _ _ r') by apply Hat. by rewrite Hf.
Qed.

End stream.

(** * SACK blocks *)
Definition span_block (base : Z) (s : Z * Z) : SACKBlock :=
  mkSACKBlock (seq_of base s.1) (seq_of base (span_end s)).

Section sack.
Context (stream : Z → Z) (base hi : Z).
Hypothesis Hhi : base + hi < 4294967296.

Lemma seq_of_exact a : 0 ≤ base + a → a ≤ hi → seq_of base a = base + a.
Proof. intros. unfold seq_of. apply u32_id. ulia. Qed.

(** Without a wrap-around between them, distinct spans stay distinct. *)
Lemma coalesce_spans s l :
  0 ≤ base + s.1 → 0 < s.2 < span_limit → span_end s ≤ hi → spans_ok (span_end s) hi l →
  Forall (λ t, t.2 < span_limit) l →
  coalesce (span_block base s) (span_seg stream base <$> l) = span_block base <$> (s :: l).
Proof.
  revert s. induction l as [|t l IH]; intros s H0 Hs He Hok Hlen; [done|].
  destruct Hok as (H1 & H2 & H3 & Hok). apply Forall_cons in Hlen as [Ht Hlen].
  cbn [fmap list_fmap coalesce]. unfold span_limit in *.
  rewrite (span_seg_end stream base t) by lia.
  change (oo_seq (span_seg stream base t)) with (seq_of base t.1).
  change (End_ (span_block base s)) with (seq_of base (span_end s)). unfold span_end in *.
  rewrite (seq_of_exact t.1), (seq_of_exact (s.1 + s.2)), (proj2 (Z.leb_gt _ _)) by lia.
  rewrite <- (seq_of_exact t.1) by lia. cbn [fmap list_fmap]. f_equal.
  change (mkSACKBlock (seq_of base t.1) (seq_of base (t.1 + t.2))) with (span_block base t).
  apply IH; try done; lia.
Qed.
End sack.

(** C29: an ACK reports exactly what is held back.  When the sequence numbers
    of the spans held back do not wrap around, the SACK blocks are the pending
    duplicate block, if there is one, followed by the spans from the highest
    down, each from its first to one past its last sequence number, as many as
    the option space allows (three with timestamps, four without). *)
Theorem sack_blocks_report_spans stream base ts r lo hi l :
  r_ooo r = span_seg stream base <$> l → spans_ok lo hi l → hi - lo < span_limit →
  0 ≤ base + lo → base + hi < 4294967296 →
  (sackBlocks ts r).2 =
    (if r_hasDSACKBlock r then [r_dsackBlock r] else []) ++
    ztake ((if ts then 3 else 4) - (if r_hasDSACKBlock r then 1 else 0))
      (reverse (span_block base <$> l)).
Proof.
  intros Ho Hok Hnear Hlo Hhi. unfold sackBlocks. rewrite Ho. destruct l as [|s l].
  { cbn [fmap list_fmap]. rewrite reverse_nil. unfold ztake. rewrite take_nil, app_nil_r.
    by destruct (r_hasDSACKBlock r); cbn; rewrite ?Ho. }
  rewrite (proj2 (Z.eqb_neq (zlen (span_seg stream base <$> s :: l)) 0)).
  2:{ rewrite fmap_cons, zlen_cons. pose proof (zlen_nonneg (span_seg stream base <$> l)). lia. }
  assert (∀ b : bool, r_ooo (if b then r <| r_hasDSACKBlock := false |>
      <| r_dsackBlock := mkSACKBlock 0 0 |> else r) = span_seg stream base <$> s :: l) as Eo by by intros [].
  cbn [andb]. rewrite Eo. cbn [fmap list_fmap snd]. destruct Hok as (H1 & H2 & H3 & Hok). f_equal.
  assert (s.2 < span_limit ∧ Forall (λ t, t.2 < span_limit) l) as [Hs Hl].
  { unfold span_end, span_limit in *. split; [lia|]. apply Forall_forall. intros t Ht.
    destruct (spans_ok_in _ _ _ _ Hok Ht). unfold span_end in *. lia. }
  rewrite (span_seg_end stream base s) by (unfold span_limit in *; lia).
  change (mkSACKBlock (oo_seq (span_seg stream base s)) (seq_of base (span_end s))) with (span_block base s).
  rewrite (coalesce_spans stream base hi) by (done || lia). set (L := span_block base <$> s :: l).
  assert (zlen (reverse L) = zlen L) as EL by (unfold zlen; by rewrite length_reverse).
  assert (zlen (if r_hasDSACKBlock r then [r_dsackBlock r] else []) = if r_hasDSACKBlock r then 1 else 0)
    as -> by by destruct (r_hasDSACKBlock r).
  destruct (Z.min_spec (zlen L) ((if ts then 3 else 4) - (if r_hasDSACKBlock r then 1 else 0)))
    as [[? ->]|[? ->]]; [|done]. rewrite (ztake_all _ (reverse L)) by lia. symmetry. apply ztake_all. lia.
Qed.

Lemma sack_blocks_report_spans_witness :
  (sackBlocks false (mkReceiver 0 100 [mkOoo 103 [3; 4]; mkOoo 107 [7]] false 0 (mkSACKBlock 0 0)
     false None 0 0 0)).2 = [mkSACKBlock 107 108; mkSACKBlock 103 105].
Proof.
  etransitivity; [eapply (sack_blocks_report_spans (λ q, q) 100 false _ 0 10 [(3, 2); (7, 1)])|];
    try reflexivity; unfold span_limit; try lia. cbn. unfold span_end. cbn. lia.
Defined.

(** Across the wrap-around of the sequence numbers a span is left out.
    Two spans are held back, one before and one after the wrap; the ranges
    are joined with plain comparisons, and only the first is reported. *)
Example sack_block_lost_at_wrap :
  let r := mkReceiver 0 4294967270 [mkOoo 4294967276 [1; 2]; mkOoo 5 [3; 4]] false 0
             (mkSACKBlock 0 0) false None 0 0 0 in
  (sackBlocks false r).2 = [mkSACKBlock 4294967276 4294967278].
Proof. vm_compute. reflexivity. Qed.

(** * The claims on arriving data *)

(** C15: [handleData] refines the stream.  When [n] is the next position of
    the peer's stream expected and [l] are the spans held back, a segment with
    [k] bytes of the stream from position [p] leads to a state of the same
    kind: the read buffer gains exactly the stream's bytes from [n] to the new
    position [n'], the window's right edge does not move back, nothing is sent
    and no other field of the connection changes; and the positions received
    are those received before and the ones of the segment inside the window. *)
Theorem handleData_refines_stream stream base lim e s r n l p k :
  lim < span_limit → stream_inv stream base lim s r n l →
  0 < k < span_limit → - span_limit < p - n < span_limit →
  ∃ s' r' n' l', handleData (seq_of base p) (piece stream p k) e s = Ret (s', tt) ∧
    stream_inv stream base lim s' r' n' l' ∧ evolves stream s s' r r' n n' ∧
    ∀ q, q < n' ∨ covered l' q ↔ q < n ∨ covered l q ∨ (p ≤ q < p + k ∧ q < n + room s).
Proof. intros Hlim. by apply handleData_run. Qed.

(** A receiver at position 4 that holds back positions 6 and 7. *)
Definition sample_waiting : CS :=
  let r := mkReceiver 4294967290 4294967295 [mkOoo 1 [6; 7]] false 0 (mkSACKBlock 0 0) false None 0 0 0 in
  mkCS (sample_conn stateEstablished None (Some r) (mkRing [3; 0; 0; 0; 0; 0; 0; 0] 0 1 false 0 0 false)
          (mkRing [0] 0 0 false 0 0 false)) sample_world.

Lemma handleData_refines_stream_witness :
  ∃ s' r' n' l', handleData (seq_of 4294967291 2) (piece (λ q, q) 2 4) sample_env sample_waiting = Ret (s', tt) ∧
    stream_inv (λ q, q) 4294967291 100 s' r' n' l' ∧
    evolves (λ q, q) sample_waiting s'
      (mkReceiver 4294967290 4294967295 [mkOoo 1 [6; 7]] false 0 (mkSACKBlock 0 0) false None 0 0 0) r' 4 n' ∧
    ∀ q, q < n' ∨ covered l' q ↔
         q < 4 ∨ covered [(6, 2)] q ∨ (2 ≤ q < 2 + 4 ∧ q < 4 + room sample_waiting).
Proof.
  apply (handleData_refines_stream (λ q, q) 4294967291 100); unfold span_limit; try lia.
  split; [|reflexivity..]. split; try reflexivity; [split; try reflexivity|..]; cbn; try lia; try discriminate.
  - split; cbn; lia || done.
  - by vm_compute.
  - by vm_compute.
Defined.
