(* ===== verification/Snd.v ===== *)
(** [transport/tcp/snd.go]: the send side of a connection: segmentation of
    the write buffer, the queue of unacknowledged segments, the RTT
    estimator, retransmission, SACK and NewReno congestion control. *)
From S2P Require Import Prelude.
From S2P Require Import Tcpip.
From S2P Require Import Header.
From S2P Require Import TcpHeader.
From S2P Require Import Packet.
From S2P Require Import Stack.
From S2P Require Import Ringbuf.
From S2P Require Import Seq.
From S2P Require Import TcpConn.
From S2P Require Import Rcv.
From S2P Require Import Segment.
From S2P Require Import RcvData.

(** * The sender *)
Definition dataLen (s : unackedSegment) : Z :=
  match us_ref s with Some ref => RefBuf_Len ref | None => 0 end.

Record senderConfig := mkSenderConfig {
  sc_MinRTO : Z; sc_MaxRTO : Z; sc_InitialRTO : Z; sc_MaxRetries : Z; sc_InitialSSThresh : Z }.

Definition newSender (iss peerWnd wndScale mtu peerMSS : Z) (cfg : senderConfig) : sender :=
  let mss := mtu - IPv4.IPv4MinHeaderSize - TCPMinHeaderSize in
  let mss := if mss <=? 0 then 536 else mss in
  let pmss := if peerMSS =? 0 then 536 else peerMSS in
  let mss := if pmss <? mss then pmss else mss in
  let iw := Z.min (u32 (10 * u32 mss)) (Z.max (u32 (2 * u32 mss)) 14600) in
  let initialWnd := u32 (Z.shiftl peerWnd wndScale) in
  mkSender iss (u32 (iss + 1)) (u32 (iss + 1)) initialWnd mss
    (sc_InitialRTO cfg) 0 0 (sc_MinRTO cfg) (sc_MaxRTO cfg)
    [] 0 (sc_MaxRetries cfg) iw (sc_InitialSSThresh cfg) 0 false 0 false initialWnd.

Definition updateMaxWnd (w : Z) (s : sender) : sender :=
  if w >? s_maxWnd s then s <| s_maxWnd := w |> else s.

Definition effectiveWindow (s : sender) : Z :=
  let flightSize := u32 (s_nxt s - s_una s) in
  Z.min (s_cwnd s) (s_wnd s) - flightSize.

Definition hasUnacked (s : sender) : bool := zlen (s_unacked s) >? 0.

(** Jacobson/Karels (RFC 6298); Go's division truncates. *)
Definition updateRTT (measured : Z) (s : sender) : sender :=
  let s :=
    if s_srtt s =? 0 then
      s <| s_srtt := measured |> <| s_rttvar := Z.quot measured 2 |>
    else
      let diff := s_srtt s - measured in
      let diff := if diff <? 0 then - diff else diff in
      s <| s_rttvar := Z.quot (3 * s_rttvar s + diff) 4 |>
        <| s_srtt := Z.quot (7 * s_srtt s + measured) 8 |> in
  let rto := s_srtt s + 4 * s_rttvar s in
  s <| s_rto := Z.min (Z.max rto (s_minRTO s)) (s_maxRTO s) |>.

(** * Recording what was sent *)
Definition append_unacked (seg : unackedSegment) : conn_m unit :=
  set_snd (λ s, s <| s_unacked := s_unacked s ++ [seg] |>).

Definition recordSent (seq : Z) (ref : RefBuf) : conn_m unit :=
  let ref := IncRef ref in
  now ← time_now;
  append_unacked (mkUnacked seq (Some ref) false now false false).

Definition recordSentFIN (seq : Z) : conn_m unit :=
  now ← time_now;
  append_unacked (mkUnacked seq None true now false false).

(** [for len(data) > 0]; with an MSS of 0 the loop does not end. *)
Fixpoint recordGSOLoop (fuel : nat) (seq : Z) (data : bytes) (mss now : Z) : conn_m unit :=
  if zlen data >? 0 then
    match fuel with
    | O => lift OutOfFuel
    | S fuel =>
        let n := Z.min (zlen data) mss in
        pooled ← tick e_refbuf;
        let ref := GetRefBuf pooled in
        dst ← lift (slice_to (RefBuf_Buf ref) n);
        src ← lift (slice_to data n);
        let buf := (copy dst src).1 ++ zdrop n (RefBuf_Buf ref) in
        let ref := SetLen (ref <| rf_buf := buf |>) n in
        append_unacked (mkUnacked seq (Some ref) false now false false);;
        rest ← lift (slice_from data n);
        recordGSOLoop fuel (u32 (seq + u32 n)) rest mss now
    end
  else skip.

Definition recordSentGSO (seq : Z) (data : bytes) (mss : Z) : conn_m unit :=
  now ← time_now;
  recordGSOLoop (length data) seq data mss now.

(** * Sending *)

(** [writeBuf.ReadNoBlock(buf[lo:hi])]: the buffer with the bytes read. *)
Definition read_into (buf : bytes) (lo hi : Z) : conn_m (bytes * Z) :=
  dst ← lift (slice buf lo hi);
  d ← with_writeBuf (λ rb, ReadNoBlock rb (zlen dst));
  mret (ztake lo buf ++ d ++ zdrop (lo + zlen d) buf, zlen d).

(** One segment of at most [segSize] bytes taken from the write buffer, sent
    and recorded; [false] when there was nothing to read. *)
Definition sendSegment (segSize : Z) : conn_m bool :=
  pooled ← tick e_refbuf;
  let ref := GetRefBuf pooled in
  '(buf, n) ← read_into (RefBuf_Buf ref) 0 segSize;
  if n =? 0 then mret false else
  let ref := SetLen (ref <| rf_buf := buf |>) n in
  s ← get_snd;
  data ← lift (Bytes ref);
  sendData data (s_nxt s);;
  recordSent (s_nxt s) ref;;
  set_snd (λ s, s <| s_nxt := u32 (s_nxt s + u32 n) |>);;
  mret true.

Definition sendGSO (gsoMaxSize windowLeft available : Z) : conn_m bool :=
  c ← getc;
  s ← get_snd;
  pooled ← tick e_gsobuf;
  buf ← lift (GetGSOBuf pooled);
  let dataOffset := gsoDataOffset c in
  let gsoSize := Z.min (Z.min (Z.min windowLeft available) gsoMaxSize)
                       (Z.min (65535 - dataOffset) (GSOBufSize - dataOffset)) in
  '(buf, n) ← read_into buf dataOffset (dataOffset + gsoSize);
  if n =? 0 then _ ← lift (PutGSOBuf buf); mret false else
  data ← lift (slice buf dataOffset (dataOffset + n));
  recordSentGSO (s_nxt s) data (s_mss s);;
  sendDataGSO buf n (s_nxt s);;
  set_snd (λ s, s <| s_nxt := u32 (s_nxt s + u32 n) |>);;
  mret true.

(** The decision of one round of [sendPending]. *)
Inductive send_choice := Stop_ | ViaGSO (gsoMaxSize windowLeft available : Z) | OneSegment (segSize : Z).

Definition choose (gso : option Z) (c : TCPConn) (s : sender) (available : Z) : send_choice :=
  let windowLeft := effectiveWindow s in
  if windowLeft <=? 0 then Stop_ else
  if available <=? 0 then Stop_ else
  if negb (c_zeroWindowProbing c) &&
     (windowLeft <? Z.min (s_mss s) (Z.quot (s_maxWnd s) 2)) && (available >? windowLeft)
  then Stop_ else
  if negb (c_noDelay c) && hasUnacked s && (available <? s_mss s) then Stop_ else
  match gso with
  | Some gsoMaxSize =>
      if (available >? s_mss s) && (windowLeft >? s_mss s)
      then ViaGSO gsoMaxSize windowLeft available
      else OneSegment (Z.min (Z.min windowLeft available) (s_mss s))
  | None => OneSegment (Z.min (Z.min windowLeft available) (s_mss s))
  end.

(** The loop; every round that goes on has sent at least a byte. *)
Fixpoint sendLoop (fuel : nat) : conn_m unit :=
  c ← getc;
  s ← get_snd;
  gso ← asks e_gso;
  available ← lift (Len (c_writeBuf c));
  match choose gso c s available with
  | Stop_ => skip
  | ch =>
      match fuel with
      | O => lift OutOfFuel
      | S fuel =>
          more ← match ch with
                 | ViaGSO m w a => sendGSO m w a
                 | OneSegment n => sendSegment n
                 | Stop_ => mret false
                 end;
          if more : bool then sendLoop fuel else skip
      end
  end.

Definition sendPending : conn_m unit :=
  c ← getc;
  n ← lift (Len (c_writeBuf c));
  sendLoop (S (Z.to_nat n)).

(** * Acknowledgements and retransmission *)
Definition us_end (seg : unackedSegment) : Z :=
  if us_fin seg then u32 (us_seq seg + 1) else u32 (us_seq seg + u32 (dataLen seg)).

(** The segments left after [ack]. *)
Fixpoint removeLoop (l : list unackedSegment) (ack : Z) (rttMeasured : bool) :
    conn_m (list unackedSegment) :=
  match l with
  | [] => mret []
  | seg :: rest =>
      c ← getc;
      if negb (seqGreaterThan ack (us_seq seg)) then mret l else
      m ← (if negb rttMeasured && negb (c_tsEnabled c) && negb (us_retransmitted seg) then
             now ← time_now;
             set_snd (updateRTT (now - us_sentAt seg));;
             mret true
           else mret rttMeasured);
      if seqLessThan (us_end seg) ack || (us_end seg =? ack)
      then removeLoop rest ack m else mret l
  end.

Definition removeAcked (ack : Z) : conn_m unit :=
  s ← get_snd;
  l ← removeLoop (s_unacked s) ack false;
  set_snd (λ s, s <| s_unacked := l |>).

(** Mark the [i]-th unacknowledged segment as retransmitted. *)
Definition mark_retransmitted (i : nat) (seg : unackedSegment) : conn_m unit :=
  now ← time_now;
  set_snd (λ s, s <| s_unacked :=
    <[i := seg <| us_retransmitted := true |> <| us_sentAt := now |>]> (s_unacked s) |>).

(** [seg.ref.Bytes()]: a nil [ref] panics. *)
Definition ref_bytes (seg : unackedSegment) : outcome bytes :=
  match us_ref seg with Some ref => Bytes ref | None => Panic end.

Definition resend (i : nat) (seg : unackedSegment) : conn_m unit :=
  mark_retransmitted i seg;;
  if us_fin seg then sendFINSegment (us_seq seg)
  else data ← lift (ref_bytes seg); sendData data (us_seq seg).

Definition retransmitOldest : conn_m unit :=
  s ← get_snd;
  match s_unacked s with [] => skip | seg :: _ => resend 0 seg end.

Fixpoint firstUnSACKed (l : list unackedSegment) : option (nat * unackedSegment) :=
  match l with
  | [] => None
  | seg :: l =>
      if us_sacked seg then prod_map S id <$> firstUnSACKed l else Some (O, seg)
  end.

Definition retransmitFirstUnSACKed : conn_m unit :=
  s ← get_snd;
  match firstUnSACKed (s_unacked s) with
  | Some (i, seg) => resend i seg
  | None => skip
  end.

Definition closeDone : conn_m unit :=
  setc (λ c, if c_done c then c else c <| c_state := stateClosed |> <| c_done := true |>).

Definition abort : conn_m unit :=
  count_ (bump TotalReset);;
  c ← getc;
  match c_snd c with Some s => sendRSTSegment (s_nxt s) | None => skip end;;
  closeDone.

Definition handleRTO : conn_m unit :=
  s ← get_snd;
  if zlen (s_unacked s) =? 0 then skip else
  c ← getc;
  when_ (negb (c_zeroWindowProbing c)) (set_snd (λ s, s <| s_retries := s_retries s + 1 |>));;
  s ← get_snd;
  if negb (c_zeroWindowProbing c) && (s_retries s >? s_maxRetries s) then abort else
  set_snd (λ s, s <| s_inRecovery := false |> <| s_dupACKCount := 0 |>);;
  set_snd (λ s, s <| s_ssthresh := Z.max (s_cwnd s / 2) (u32 (2 * u32 (s_mss s))) |>);;
  set_snd (λ s, s <| s_cwnd := u32 (s_mss s) |>
                  <| s_rto := Z.min (s_rto s * 2) (s_maxRTO s) |>);;
  set_snd (λ s, s <| s_unacked := (λ seg, seg <| us_sacked := false |>) <$> s_unacked s |>);;
  count_ (bump Retransmits);;
  retransmitOldest.

(** The comparisons with the blocks are plain ones on [uint32]. *)
Definition sack_mark (blocks : list SACKBlock) (seg : unackedSegment) : unackedSegment :=
  if us_sacked seg then seg else
  let segEnd := u32 (us_seq seg + u32 (dataLen seg)) in
  if existsb (λ b, (us_seq seg >=? Start b) && (segEnd <=? End_ b)) blocks
  then seg <| us_sacked := true |> else seg.

Definition processSACKBlocks (blocks : list SACKBlock) (ack : Z) (s : sender) : sender :=
  let '(s, blocks) :=
    match blocks with
    | b :: rest => if negb (seqGreaterThan (End_ b) ack)
                   then (s <| s_dsackSeen := true |>, rest) else (s, blocks)
    | [] => (s, blocks)
    end in
  s <| s_unacked := sack_mark blocks <$> s_unacked s |>.

Definition sackedCount (l : list unackedSegment) : Z := zlen (filter us_sacked l).

Fixpoint sackLossLoop (n i : nat) : conn_m unit :=
  match n with
  | O => skip
  | S n =>
      s ← get_snd;
      match s_unacked s !! i with
      | None => skip
      | Some seg =>
          when_ (negb (us_sacked seg || us_retransmitted seg) &&
                 (sackedCount (drop (S i) (s_unacked s)) >=? 3))
            (mark_retransmitted i seg;;
             data ← lift (ref_bytes seg);
             sendData data (us_seq seg));;
          sackLossLoop n (S i)
      end
  end.

Definition sackLossDetection : conn_m unit :=
  s ← get_snd;
  sackLossLoop (length (s_unacked s)) 0.

Definition limitedTransmit : conn_m unit :=
  c ← getc;
  s ← get_snd;
  available ← lift (Len (c_writeBuf c));
  if available <=? 0 then skip else
  let flightSize := u32 (s_nxt s - s_una s) in
  if flightSize >=? s_wnd s then skip else
  let segSize := Z.min (Z.min available (s_mss s)) (s_wnd s - flightSize) in
  if segSize <=? 0 then skip else
  _ ← sendSegment segSize;
  skip.

Definition handleDupACK : conn_m unit :=
  count_ (bump DupACKsIn);;
  set_snd (λ s, s <| s_dupACKCount := s_dupACKCount s + 1 |>);;
  s ← get_snd;
  if s_inRecovery s then
    set_snd (λ s, s <| s_cwnd := u32 (s_cwnd s + u32 (s_mss s)) |>);;
    sendPending
  else if s_dupACKCount s <=? 2 then limitedTransmit
  else when_ (s_dupACKCount s =? 3)
    (count_ (bump FastRetransmits);;
     set_snd (λ s, s <| s_ssthresh := Z.max (s_cwnd s / 2) (u32 (2 * u32 (s_mss s))) |>);;
     set_snd (λ s, s <| s_cwnd := u32 (s_ssthresh s + u32 (3 * u32 (s_mss s))) |>
                     <| s_inRecovery := true |> <| s_recoveryPoint := s_nxt s |>);;
     retransmitFirstUnSACKed).

(** The congestion window after [acked] new bytes outside recovery; the
    division by a zero window panics. *)
Definition growCwnd (acked : Z) (s : sender) : outcome sender :=
  if s_cwnd s <? s_ssthresh s then
    let cwnd := u32 (s_cwnd s + acked) in
    Ret (s <| s_cwnd := if cwnd >? s_ssthresh s then s_ssthresh s else cwnd |>)
  else if s_cwnd s =? 0 then Panic
  else
    let increment := u32 (u32 (s_mss s) * acked) / s_cwnd s in
    let increment := if increment =? 0 then 1 else increment in
    Ret (s <| s_cwnd := u32 (s_cwnd s + increment) |>).

Definition handleACK (ack : Z) : conn_m unit :=
  s ← get_snd;
  if ack =? s_una s then handleDupACK else
  if negb (seqGreaterThan ack (s_una s)) || seqGreaterThan ack (s_nxt s) then skip else
  let acked := u32 (ack - s_una s) in
  set_snd (λ s, s <| s_una := ack |> <| s_retries := 0 |>);;
  removeAcked ack;;
  s ← get_snd;
  (if s_inRecovery s then
     when_ (seqLessThan ack (s_recoveryPoint s)) retransmitFirstUnSACKed;;
     set_snd (λ s', s' <| s_inRecovery := seqLessThan ack (s_recoveryPoint s) |>
                      <| s_cwnd := s_ssthresh s' |> <| s_dupACKCount := 0 |>)
   else
     set_snd (λ s, s <| s_dupACKCount := 0 |>);;
     s ← get_snd;
     s' ← lift (growCwnd acked s);
     set_snd (λ _, s'));;
  sendPending.
