(* ===== verification/SndFacts.v ===== *)
(** Theorems on the send side ([Snd]): the retransmission queue holds exactly
    the bytes sent and not acknowledged, every segment sent or resent carries
    the bytes of the application's stream that its sequence number says, and
    new data stays within the congestion window and the peer's window. *)
From S2P Require Import Prelude.
From S2P Require Import Tcpip.
From S2P Require Import Header.
From S2P Require Import TcpHeader.
From S2P Require Import TcpOptions.
From S2P Require Import Packet.
From S2P Require Import Stack.
From S2P Require Import Ringbuf.
From S2P Require Import Seq.
From S2P Require Import TcpConn.
From S2P Require Import Rcv.
From S2P Require Import OooFacts.
From S2P Require Import Segment.
From S2P Require Import SegmentFacts.
From S2P Require Import RcvData.
From S2P Require Import RcvFacts.
From S2P Require Import Snd.

(** Reading from a ring buffer without blocking. *)
Lemma ReadNoBlock_ok rb m :
  ring_ok rb → 0 < m →
  ∃ rb', ReadNoBlock rb m = Ret (rb', ztake m (contents rb)) ∧ ring_ok rb' ∧
    contents rb' = zdrop m (contents rb) ∧ Cap rb' = Cap rb ∧ rb_closed rb' = rb_closed rb.
Proof.
  intros Hok Hm. destruct (ring_step_ok rb (OpReadNoBlock m)) as (rb' & o & E & Hok' & Hq);
    [done|exact Hm|]. cbn [ring_step queue_step] in *.
  apply bind_Ret in E as ([rb1 d] & E & [= <- <-]). injection Hq as Hc Hcap Hcl Hd.
  exists rb1. cbn in *. rewrite E. subst d. split_and!; congruence.
Qed.

Lemma Bytes_front ref a b : rf_buf ref = a ++ b → rf_len ref = zlen a → Bytes ref = Ret a.
Proof. intros E El. unfold Bytes. rewrite E, El. apply slice_to_app. Qed.

Section sender.
(** The application's stream and the sequence number of its first byte. *)
Context (stream : Z → Z) (base : Z).
Local Abbreviation piece := (piece stream).
Local Abbreviation seq_of := (seq_of base).

(** * The retransmission queue *)

(** [seg] holds [k] bytes of the stream from position [p]. *)
Definition holds_piece (seg : unackedSegment) (p k : Z) : Prop :=
  us_fin seg = false ∧ us_seq seg = seq_of p ∧ 0 < k ≤ MaxPayloadSize ∧
  ∃ ref, us_ref seg = Some ref ∧ RefBuf_Len ref = k ∧ Bytes ref = Ret (piece p k).

(** The segments follow each other from position [a] to the end [n] of the
    data sent; a FIN, if one was sent, comes last and takes position [n]. *)
Fixpoint queue_at (a n : Z) (fin : bool) (l : list unackedSegment) : Prop :=
  match l with
  | [] => a = n + Z.b2z fin
  | seg :: l =>
      (∃ k, holds_piece seg a k ∧ a + k ≤ n ∧ queue_at (a + k) n fin l) ∨
      (us_fin seg = true ∧ us_seq seg = seq_of n ∧ us_ref seg = None ∧ fin = true ∧ a = n ∧ l = [])
  end.

(** Where the first segment that [v] does not cover entirely starts, in a queue
    from position [a]. *)
Fixpoint first_kept (a v : Z) (l : list unackedSegment) : Z :=
  match l with
  | [] => a
  | seg :: l =>
      let b := a + (if us_fin seg then 1 else dataLen seg) in
      if b <=? v then first_kept b v l else a
  end.

(** What is sent: a segment of [k] bytes of the stream from position [p], one
    packet of [k] bytes to be cut into segments of [mss] on the way, or the
    FIN that ends the stream at position [p]. *)
Inductive sent_item := SData (p k : Z) | SLarge (p k mss : Z) | SFin (p : Z).

(** The packet holds that. *)
Definition item_packet (flow : FlowID) (p : sent) (it : sent_item) : Prop :=
  ∃ c ack w opts, c_flow c = flow ∧ bytes_ok opts ∧ zlen opts ≤ 40 ∧ zlen opts mod 4 = 0 ∧
    match it with
    | SData q k => ∃ pb, p = SentPacket pb (DstAddr flow) (SrcAddr flow) TCPProtocolNumber ∧
        holds pb (conn_segment c (seq_of q) ack TCPFlagACK w opts (piece q k))
    | SLarge q k mss => ∃ A rest, zlen A = 20 ∧ 40 + zlen opts + k ≤ 65535 ∧ mss ≤ 65535 ∧
        p = SentGSO (A ++ (TCP.hdr_bytes (partial_fields c (seq_of q) ack w k opts) ++ opts) ++ piece q k ++ rest)
              0 (40 + zlen opts + k) (DstAddr flow) (SrcAddr flow) TCPProtocolNumber (gso_opts mss opts)
    | SFin q => ∃ pb, p = SentPacket pb (DstAddr flow) (SrcAddr flow) TCPProtocolNumber ∧
        holds pb (conn_segment c (seq_of q) ack (Z.lor TCPFlagFIN TCPFlagACK) w opts [])
    end.

(** Data that follows from [n] to [n'], in segments of at most [mss]. *)
Fixpoint data_run (mss n n' : Z) (l : list sent_item) : Prop :=
  match l with
  | [] => n = n'
  | SData p k :: l => p = n ∧ 0 < k ≤ mss ∧ data_run mss (n + k) n' l
  | SLarge p k m :: l => p = n ∧ 0 < k ∧ 0 < m ∧ m = mss ∧ data_run mss (n + k) n' l
  | SFin _ :: _ => False
  end.

(** What a channel and the pools promise: segmentation offload has a positive
    size limit, and buffers have their full size. *)
Record env_ok (e : Env) : Prop := {
  eo_refbuf : ∀ t, MaxPayloadSize ≤ zlen (rf_buf (e_refbuf e t));
  eo_gsobuf : ∀ t, zlen (e_gsobuf e t) = GSOBufSize;
  eo_gso : ∀ m, e_gso e = Some m → 0 < m }.

(** The sender without what sending changes. *)
Definition control (x : sender) : sender := x <| s_nxt := 0 |> <| s_unacked := [] |>.

(** * The send side and the stream *)

(** The largest window a peer can advertise. *)
Definition max_window : Z := 1073725440.
(** The queue may start up to a segment before the oldest byte missing. *)
Definition max_flight : Z := 1073726940.

(** The number of bytes written so far. *)
Context (total : Z).

(** [u] is the oldest position not acknowledged, [n] the end of the data
    sent, [a] the start of the retransmission queue; the write buffer holds
    what follows, up to all that is written. *)
Record snd_at (fin : bool) (s : CS) (x : sender) (rc : receiver) (a u n : Z) : Prop := {
  sa_snd : c_snd (cs_conn s) = Some x;
  sa_rcv : c_rcv (cs_conn s) = Some rc;
  sa_rring : ring_ok (c_readBuf (cs_conn s));
  sa_wring : ring_ok (c_writeBuf (cs_conn s));
  sa_write : contents (c_writeBuf (cs_conn s)) = piece n (used (c_writeBuf (cs_conn s)));
  sa_fin : fin = true → used (c_writeBuf (cs_conn s)) = 0;
  sa_una : s_una x = seq_of u;
  sa_nxt : s_nxt x = seq_of (n + Z.b2z fin);
  sa_pos : a ≤ u ≤ n + Z.b2z fin;
  sa_near : n - a ≤ max_flight;
  sa_queue : queue_at a n fin (s_unacked x);
  sa_mss : 0 < s_mss x ≤ MaxPayloadSize;
  sa_wnd : s_wnd x ≤ max_window;
  sa_cfg : is_u16 (rcvWndSize (c_cfg (cs_conn s)));
  sa_thresh : 0 < s_ssthresh x;
  sa_total : n + used (c_writeBuf (cs_conn s)) = total }.

(** The connection without its send side, except whether it is shut, and
    without what every segment updates. *)
Definition aside (c : TCPConn) : TCPConn :=
  c <| c_snd := None |> <| c_writeBuf := mkRing [] 0 0 false 0 0 (rb_closed (c_writeBuf c)) |>
    <| c_tsLastAckSent := 0 |> <| c_lastWndZero := false |>.

(** The segments [l] have been sent, and nothing else happened outside
    the send side. *)
Record sends (s s' : CS) (l : list sent_item) : Prop := {
  ss_aside : aside (cs_conn s') = aside (cs_conn s);
  ss_sent : ∃ ps, w_sent (cs_world s') = w_sent (cs_world s) ++ ps ∧
    Forall2 (item_packet (c_flow (cs_conn s))) ps l;
  ss_acceptQ : w_acceptQ (cs_world s') = w_acceptQ (cs_world s) }.

Lemma sends_refl s : sends s s [].
Proof. split; try done. exists []. by rewrite app_nil_r. Qed.
Lemma aside_flow c c' : aside c' = aside c → c_flow c' = c_flow c.
Proof. intros E. exact (f_equal c_flow E). Qed.
Lemma aside_cfg c c' : aside c' = aside c → c_cfg c' = c_cfg c.
Proof. intros E. exact (f_equal c_cfg E). Qed.
Lemma sends_trans s1 s2 s3 l l' : sends s1 s2 l → sends s2 s3 l' → sends s1 s3 (l ++ l').
Proof.
  intros [E1 (ps & Es & H1) A1] [E2 (ps' & Es' & H2) A2]. split; try congruence.
  exists (ps ++ ps'). rewrite Es', Es, app_assoc. split; [done|]. apply Forall2_app; [done|].
  by rewrite (aside_flow _ _ E1) in H2.
Qed.

Lemma queue_snoc a n l seg k :
  queue_at a n false l → holds_piece seg n k → queue_at a (n + k) false (l ++ [seg]).
Proof.
  intros Hq Hs. assert (0 < k) by apply Hs.
  revert a Hq. induction l as [|sg l IH]; intros a; cbn [queue_at app].
  - intros ->. left. exists k. rewrite !Z.add_0_r. by split_and!; [|lia|].
  - intros [(k' & Hp & Hle & Hq)|(_ & _ & _ & ? & _)]; [|done]. left. exists k'.
    split_and!; [done|lia|by apply IH].
Qed.
(** Only the sender has changed, and nothing was sent. *)
Definition nosnd (c : TCPConn) : TCPConn := c <| c_snd := None |>.
Definition idle (s s' : CS) : Prop :=
  nosnd (cs_conn s') = nosnd (cs_conn s) ∧ w_sent (cs_world s') = w_sent (cs_world s) ∧
  w_acceptQ (cs_world s') = w_acceptQ (cs_world s).

Lemma idle_trans s1 s2 s3 : idle s1 s2 → idle s2 s3 → idle s1 s3.
Proof. unfold idle. intuition congruence. Qed.

(** * Sending one segment *)
Lemma sentData_same c wd :
  aside (sentData c wd) = aside c ∧ c_snd (sentData c wd) = c_snd c ∧
  c_rcv (sentData c wd) = c_rcv c ∧ c_readBuf (sentData c wd) = c_readBuf c ∧
  c_writeBuf (sentData c wd) = c_writeBuf c.
Proof. unfold sentData, noteAck. destruct (c_rcv c) eqn:E, (c_tsEnabled c); by rewrite <- ?E. Qed.

Lemma read_into_run e s buf lo k d :
  ring_ok (c_writeBuf (cs_conn s)) → 0 ≤ lo → 0 < k → lo + k ≤ zlen buf →
  ztake k (contents (c_writeBuf (cs_conn s))) = d → zlen d = k →
  ∃ rb, read_into buf lo (lo + k) e s
      = Ret (mkCS ((cs_conn s) <| c_writeBuf := rb |>) (cs_world s), (ztake lo buf ++ d ++ zdrop (lo + k) buf, k)) ∧
    ring_ok rb ∧ contents rb = zdrop k (contents (c_writeBuf (cs_conn s))) ∧
    rb_closed rb = rb_closed (c_writeBuf (cs_conn s)).
Proof.
  intros Hok Hlo Hk Hbuf Hd Lk. destruct (ReadNoBlock_ok _ k Hok) as (rb & E & Hok' & Hc & _ & Hcl); [lia|].
  exists rb. unfold read_into, with_writeBuf. rewrite slice_ok by lia. crun.
  rewrite Z.add_simpl_l, zlen_ztake by (rewrite ?zlen_zdrop; lia). rewrite E. crun. rewrite Hd, Lk.
  by split_and!.
Qed.

(** The sender once [k] more bytes are sent and recorded. *)
Lemma snd_at_sent s c' w' x rc a u n k l :
  snd_at false s x rc a u n → 0 < k ≤ used (c_writeBuf (cs_conn s)) → n + k - a ≤ max_flight →
  aside c' = aside (cs_conn s) → c_rcv c' = c_rcv (cs_conn s) → c_readBuf c' = c_readBuf (cs_conn s) →
  ring_ok (c_writeBuf c') → contents (c_writeBuf c') = zdrop k (contents (c_writeBuf (cs_conn s))) →
  let x' := x <| s_unacked := l |> <| s_nxt := u32 (s_nxt x + u32 k) |> in
  c_snd c' = Some x' → queue_at a (n + k) false l →
  snd_at false (mkCS c' w') x' rc a u (n + k) ∧
  used (c_writeBuf c') = used (c_writeBuf (cs_conn s)) - k.
Proof.
  intros [Hx Hrc Hrr Hwr Hw _ Hu Hn Hpos Hnear Hq Hmss Hwnd Hcfg Hth Htot] Hk Hfl Ea Er Erb Hrb Hc x' Hx' Hl.
  assert (used (c_writeBuf c') = used (c_writeBuf (cs_conn s)) - k) as Hu'.
  { rewrite <- zlen_contents, Hc by done. rewrite Hw, zdrop_piece, zlen_piece' by lia. lia. }
  split; [|done]. split; cbn [cs_conn cs_world]; rewrite ?Er, ?Erb; try done; try (cbn in *; lia).
  - by rewrite Hc, Hu', Hw, zdrop_piece by lia.
  - change (u32 (s_nxt x + u32 k) = seq_of (n + k + 0)). by rewrite Hn, seq_plus, !Z.add_0_r.
  - by rewrite (aside_cfg _ _ Ea).
Qed.

Lemma sendSegment_run e s x rc a u n k :
  (∀ t, MaxPayloadSize ≤ zlen (rf_buf (e_refbuf e t))) →
  snd_at false s x rc a u n → 0 < k ≤ used (c_writeBuf (cs_conn s)) → k ≤ s_mss x →
  n + k - a ≤ max_flight →
  ∃ s' x', sendSegment k e s = Ret (s', true) ∧ snd_at false s' x' rc a u (n + k) ∧
    sends s s' [SData n k] ∧ control x' = control x ∧
    used (c_writeBuf (cs_conn s')) = used (c_writeBuf (cs_conn s)) - k.
Proof.
  intros Hpool Hat Hk Hkm Hfl'. pose proof Hat as [Hx Hrc Hrr Hwr Hw _ _ Hn _ _ Hq Hmss _ _ _ _].
  unfold sendSegment. rewrite run_tick. set (w1 := (cs_world s) <| w_ticks := _ |>).
  set (pooled := e_refbuf e _). specialize (Hpool (w_ticks (cs_world s))). fold pooled in Hpool.
  assert (Lp : zlen (piece n k) = k) by (apply zlen_piece'; lia).
  destruct (read_into_run e (mkCS (cs_conn s) w1) (rf_buf pooled) 0 k (piece n k))
    as (rb & E & Hrb & Hc & Hcl); [done|lia|lia|lia|cbn; by rewrite Hw, ztake_piece by lia|done|].
  rewrite Z.add_0_l, ztake_0 in E by lia.
  rewrite (run_bind _ _ _ _ _ _ E). rewrite (proj2 (Z.eqb_neq k 0)) by lia. cbn [cs_conn cs_world].
  rewrite (run_get_snd _ _ _ x) by done. set (ref := SetLen _ k).
  assert (Bytes ref = Ret (piece n k)) as Hbytes.
  { by apply (Bytes_front _ _ (zdrop k (rf_buf pooled))). }
  rewrite Hbytes, run_lift. set (c1 := (cs_conn s) <| c_writeBuf := rb |>).
  destruct (sendData_run e c1 w1 rc (piece n k) (s_nxt x)) as (w2 & wd & tv & Ed & _ & _ & _ & Hem);
    [done..|unfold MaxPayloadSize in *; lia|].
  rewrite (run_bind _ _ _ _ _ _ Ed). destruct (sentData_same c1 wd) as (Ea & Es & Er & Erb & Ewb).
  assert (aside c1 = aside (cs_conn s)) as Ha1 by (unfold aside, c1; cbn in *; by rewrite Hcl). rewrite Ha1 in Ea.
  set (c2 := sentData c1 wd) in *. clearbody c2. clear Ed E.
  assert (Hx2 : c_snd c2 = Some x) by (rewrite Es; exact Hx).
  unfold recordSent, time_now, append_unacked. crun.
  eexists _, _. split; [reflexivity|].
  match goal with |- snd_at _ (mkCS ?c _) _ _ _ _ _ ∧ _ => edestruct (snd_at_sent s c) as [Hat' Hu'] end;
    [exact Hat|done|done|exact Ea|exact Er|exact Erb| | |reflexivity| |].
  { cbn. by rewrite Ewb. }
  { cbn. by rewrite Ewb. }
  { apply queue_snoc; [done|]. split; [done|]. split; [cbn; by rewrite Hn, Z.add_0_r|].
    split; [lia|]. by exists (IncRef ref). }
  split; [exact Hat'|]. split; [|split; [done|exact Hu']].
  split; [exact Ea| |exact (em_acceptQ _ _ _ _ _ Hem)].
  destruct (em_sent _ _ _ _ _ Hem) as (pb & Esent & Hh & _). exists [SentPacket pb
    (DstAddr (c_flow c1)) (SrcAddr (c_flow c1)) TCPProtocolNumber]. split; [exact Esent|].
  rewrite Hn, Z.add_0_r in Hh. repeat constructor. eexists c1, _, wd, (segment_opts (c_tsEnabled c1) tv (c_tsRecent c1) []). split; [done|].
  rewrite zlen_plain_opts. split_and!; [apply bytes_ok_segment_opts|by destruct (c_tsEnabled c1)..|]. exists pb. split; [done|exact Hh].
Qed.
(** * Sending one large packet *)

(** The data goes into the queue in segments of the size it will be cut to. *)
Lemma recordGSOLoop_run fuel e s x a p k mss now :
  env_ok e → 0 < mss ≤ MaxPayloadSize → 0 ≤ k ≤ Z.of_nat fuel →
  c_snd (cs_conn s) = Some x → queue_at a p false (s_unacked x) →
  ∃ s' l, recordGSOLoop fuel (seq_of p) (piece p k) mss now e s = Ret (s', tt) ∧ idle s s' ∧
    c_snd (cs_conn s') = Some (x <| s_unacked := l |>) ∧ queue_at a (p + k) false l.
Proof.
  intros Hpool Hm. revert s x p k. induction fuel as [|fuel IH]; intros s x p k Hk Hx Hq.
  all: cbn [recordGSOLoop]; rewrite zlen_piece' by lia; destruct (Z.gtb_spec k 0) as [Hpos|]; try lia.
  1,3: exists s, (s_unacked x); replace k with 0 by lia; rewrite Z.add_0_r; split; [done|];
    split; [done|]; split; [rewrite Hx; by destruct x|done].
  set (m := Z.min k mss). rewrite run_tick. set (w1 := (cs_world s) <| w_ticks := _ |>).
  set (pooled := e_refbuf e _). pose proof (eo_refbuf _ Hpool (w_ticks (cs_world s))) as Hp. fold pooled in Hp.
  assert (zlen (piece p m) = m) as Lp by (apply zlen_piece'; lia).
  change (RefBuf_Buf (GetRefBuf pooled)) with (rf_buf pooled).
  rewrite !slice_to_ok, !run_lift by (rewrite ?zlen_piece'; lia). rewrite ztake_piece by lia.
  rewrite copy_front by (rewrite zlen_ztake; lia). set (ref := SetLen _ m).
  unfold append_unacked. crun. rewrite slice_from_ok, run_lift, zdrop_piece by (rewrite ?zlen_piece'; lia).
  rewrite seq_plus. set (seg := mkUnacked _ _ _ _ _ _). set (c1 := (cs_conn s) <| c_snd := _ |>).
  assert (holds_piece seg p m) as Hseg.
  { split; [done|]. split; [done|]. split; [lia|]. exists ref. split; [done|]. split; [done|].
    apply (Bytes_front _ (piece p m) (zdrop (zlen (piece p m)) (ztake m (rf_buf pooled)) ++ zdrop m (rf_buf pooled)));
      [cbn; by rewrite app_assoc|by rewrite Lp]. }
  destruct (IH (mkCS c1 w1) (x <| s_unacked := s_unacked x ++ [seg] |>) (p + m) (k - m)) as (s' & l & E & Hi & Hx' & Hq');
    [lia|done|by apply queue_snoc|].
  exists s', l. rewrite E. split; [done|]. split; [by eapply idle_trans; [|exact Hi]|]. split; [by rewrite Hx'|].
  by replace (p + m + (k - m)) with (p + k) in Hq' by lia.
Qed.
(** The window, the data and the packet bound the size. *)
Definition gso_size (c : TCPConn) (gsoMaxSize windowLeft available : Z) : Z :=
  Z.min (Z.min (Z.min windowLeft available) gsoMaxSize)
    (Z.min (65535 - gsoDataOffset c) (GSOBufSize - gsoDataOffset c)).

Lemma gso_buffer c (buf : bytes) :
  zlen buf = GSOBufSize → ∃ A H, ztake (gsoDataOffset c) buf = A ++ H ∧ zlen A = 20 ∧
    zlen H = 20 + (if c_tsEnabled c then 12 else 0).
Proof.
  intros Hb. set (off := gsoDataOffset c).
  assert (off = 40 + (if c_tsEnabled c then 12 else 0)) as Eo by reflexivity.
  assert (0 ≤ off - 40 ≤ 12) by (rewrite Eo; by destruct (c_tsEnabled c)). unfold GSOBufSize in Hb.
  exists (ztake 20 (ztake off buf)), (zdrop 20 (ztake off buf)).
  split; [symmetry; apply ztake_zdrop|]. rewrite zlen_zdrop, !zlen_ztake by (rewrite ?zlen_ztake; lia). lia.
Qed.

Lemma sendGSO_run e s x rc a u n m win :
  env_ok e → snd_at false s x rc a u n → 0 < m → 0 < win → n + win - a ≤ max_flight →
  0 < used (c_writeBuf (cs_conn s)) →
  let k := gso_size (cs_conn s) m win (used (c_writeBuf (cs_conn s))) in
  ∃ s' x', sendGSO m win (used (c_writeBuf (cs_conn s))) e s = Ret (s', true) ∧ snd_at false s' x' rc a u (n + k) ∧
    sends s s' [SLarge n k (s_mss x)] ∧ control x' = control x ∧
    used (c_writeBuf (cs_conn s')) = used (c_writeBuf (cs_conn s)) - k ∧ 0 < k ≤ win.
Proof.
  intros He Hat Hm Hwin Hfl Hav k. pose proof Hat as [Hx Hrc Hrr Hwr Hw _ _ Hn _ _ Hq Hmss _ _ _ _].
  unfold sendGSO. crun. set (w1 := (cs_world s) <| w_ticks := _ |>).
  pose proof (eo_gsobuf _ He (w_ticks (cs_world s))) as Lb. set (buf := e_gsobuf e _) in *.
  unfold GetGSOBuf. rewrite slice_to_ok, run_lift, ztake_all by (rewrite Lb; done).
  fold (gso_size (cs_conn s) m win (used (c_writeBuf (cs_conn s)))). fold k.
  destruct (gso_buffer (cs_conn s) buf Lb) as (A & H & EH & LA & LH).
  assert (gsoDataOffset (cs_conn s) = 20 + zlen H) as Eoff
    by (unfold gsoDataOffset, IPv4.IPv4MinHeaderSize, TCPMinHeaderSize; lia).
  assert (zlen H ≤ 32) by (rewrite LH; by destruct (c_tsEnabled _)). pose proof (zlen_nonneg H).
  assert (k = Z.min (Z.min (Z.min win (used (c_writeBuf (cs_conn s)))) m) (65515 - zlen H)) as Ek.
  { unfold k, gso_size, GSOBufSize. rewrite Eoff. lia. }
  clearbody k. assert (zlen (piece n k) = k) as Lp by (apply zlen_piece'; lia).
  unfold GSOBufSize in Lb.
  destruct (read_into_run e (mkCS (cs_conn s) w1) buf (gsoDataOffset (cs_conn s)) k (piece n k))
    as (rb & E & Hrb & Hc & Hcl); [done|lia|lia|lia|cbn; by rewrite Hw, ztake_piece by lia|done|].
  rewrite (run_bind _ _ _ _ _ _ E). cbv beta iota. rewrite (proj2 (Z.eqb_neq k 0)) by lia. rewrite EH.
  set (rest := zdrop _ buf). rewrite slice_mid, run_lift by (rewrite zlen_app; lia).
  unfold recordSentGSO, time_now. crun. cbn [cs_conn cs_world].
  set (w2 := w1 <| w_ticks := _ |>). set (c1 := (cs_conn s) <| c_writeBuf := rb |>).
  destruct (recordGSOLoop_run (length (piece n k)) e (mkCS c1 w2) x a n k (s_mss x) (e_clock e (w_ticks w1)))
    as (s2 & l & E2 & (Hc2 & Hw2 & Ha2) & Hx2 & Hq2); [done|done|unfold zlen in Lp; lia|done|done|].
  rewrite Z.add_0_r in Hn. rewrite Hn.
  rewrite (run_bind _ _ _ _ _ _ E2). destruct s2 as [c2 w2']. cbn [cs_conn cs_world] in *.
  assert (c_readBuf c2 = c_readBuf (cs_conn s)) as Hr2 by exact (f_equal c_readBuf Hc2).
  assert (c_rcv c2 = Some rc) as Hrc2 by (rewrite <- Hrc; exact (f_equal c_rcv Hc2)).
  assert (c_tsEnabled c2 = c_tsEnabled (cs_conn s)) as Ht2 by exact (f_equal c_tsEnabled Hc2).
  destruct (sendDataGSO_run e c2 w2' rc (x <| s_unacked := l |>) A H (piece n k) rest (seq_of n)) as (w3 & wd & tv & E3 & _ & _ & _ & Es & Ea);
    [by rewrite Hr2|done|done|done|by rewrite Ht2|lia|].
  rewrite Lp, app_assoc in E3. rewrite (run_bind _ _ _ _ _ _ E3).
  destruct (sentData_same c2 wd) as (Ea' & Es' & Er' & Erb' & Ewb'). set (c3 := sentData c2 wd) in *. clearbody c3.
  rewrite Hx2 in Es'. crun. eexists _, _. split; [reflexivity|].
  assert (c_writeBuf c2 = rb) as Hwb by exact (f_equal c_writeBuf Hc2).
  assert (aside c2 = aside (cs_conn s)) as Ha.
  { transitivity (aside c1); [exact (f_equal aside Hc2)|]. unfold aside, c1. cbn in *. by rewrite Hcl. }
  match goal with |- snd_at _ (mkCS ?c ?w) _ _ _ _ _ ∧ _ => edestruct (snd_at_sent s c w x rc a u n k l) as [Hat' Hu'] end;
    [exact Hat|lia|lia|etransitivity; [exact Ea'|exact Ha]|
    etransitivity; [exact Er'|congruence]|etransitivity; [exact Erb'|done]| | |reflexivity|exact Hq2|].
  { cbn. by rewrite Ewb', Hwb. }
  { cbn. by rewrite Ewb', Hwb. }
  split; [exact Hat'|]. split; [|split; [done|split; [exact Hu'|lia]]].
  split; [by transitivity (aside c2)| |cbn [cs_world]; by rewrite Ea, Ha2].
  eexists [_]. split; [cbn; rewrite Es, Hw2; reflexivity|]. repeat constructor.
  assert (c_flow c2 = c_flow (cs_conn s)) as Hf2 by exact (f_equal c_flow Hc2). rewrite <- Hf2.
  eexists c2, _, wd, (segment_opts (c_tsEnabled c2) tv (c_tsRecent c2) []). split; [done|].
  rewrite zlen_plain_opts. split_and!; [apply bytes_ok_segment_opts|by destruct (c_tsEnabled c2)..|]. eexists A, rest. split; [exact LA|]. rewrite Lp.
  unfold MaxPayloadSize in Hmss. split; [rewrite Ht2; lia|]. split; [lia|reflexivity].
Qed.
(** * Sending what the window allows *)
Lemma effectiveWindow_val fin s x rc a u n :
  snd_at fin s x rc a u n → effectiveWindow x = Z.min (s_cwnd x) (s_wnd x) - (n + Z.b2z fin - u).
Proof.
  intros [_ _ _ _ _ _ Hu Hn Hpos Hfl _ _ _ _]. unfold effectiveWindow. rewrite Hu, Hn.
  rewrite seq_minus, u32_id; [done|]. unfold max_flight in *. destruct fin; cbn in *; ulia.
Qed.

(** What a round decides. *)
Lemma choose_spec gso c x available :
  0 < s_mss x →
  match choose gso c x available with
  | OneSegment k => 0 < k ∧ k ≤ available ∧ k ≤ effectiveWindow x ∧ k ≤ s_mss x
  | Stop_ => True
  | ViaGSO m w v => gso = Some m ∧ w = effectiveWindow x ∧ 0 < w ∧ v = available ∧ 0 < v
  end.
Proof.
  intros Hm. unfold choose. destruct (Z.leb_spec (effectiveWindow x) 0); [done|].
  destruct (Z.leb_spec available 0); [done|]. destruct (_ && _ && _); [done|].
  destruct (_ && _ && _); [done|]. destruct gso; [|lia]. destruct (_ && _); [|lia]. split_and!; done || lia.
Qed.

(** A round that sends something. *)
Definition send_round (ch : send_choice) : conn_m bool :=
  match ch with ViaGSO m w v => sendGSO m w v | OneSegment k => sendSegment k | Stop_ => mret false end.

Lemma send_round_run e fin s x rc a u n :
  env_ok e → u - a < MaxPayloadSize → snd_at fin s x rc a u n →
  let ch := choose (e_gso e) (cs_conn s) x (used (c_writeBuf (cs_conn s))) in
  ch ≠ Stop_ →
  fin = false ∧ ∃ s' x' k it, send_round ch e s = Ret (s', true) ∧ snd_at false s' x' rc a u (n + k) ∧
    sends s s' [it] ∧ (∀ n' l, data_run (s_mss x) (n + k) n' l → data_run (s_mss x) n n' (it :: l)) ∧
    control x' = control x ∧ used (c_writeBuf (cs_conn s')) = used (c_writeBuf (cs_conn s)) - k ∧
    0 < k ≤ Z.min (s_cwnd x) (s_wnd x) - (n - u).
Proof.
  intros He Hfirst Hat ch Hne. pose proof (effectiveWindow_val _ _ _ _ _ _ _ Hat) as Hew.
  pose proof Hat as [_ _ _ _ _ Hfin _ _ _ _ _ Hmss Hwnd _].
  pose proof (choose_spec (e_gso e) (cs_conn s) x (used (c_writeBuf (cs_conn s))) ltac:(lia)) as Hch. fold ch in Hch.
  unfold max_flight, max_window, MaxPayloadSize in *. destruct ch as [|m w v|k]; [done|..].
  - destruct Hch as (Hg & -> & Hw & -> & Hv). pose proof (eo_gso _ He _ Hg).
    destruct fin; [rewrite Hfin in Hv by done; lia|]. cbn [Z.b2z] in *. split; [done|].
    destruct (sendGSO_run e s x rc a u n m (effectiveWindow x)) as (s1 & x1 & E1 & Hat1 & Hs1 & Hx1 & Hu1 & Hk);
      [done..|unfold max_flight; lia|done|].
    eexists s1, x1, _, _. split; [exact E1|]. split_and!; try done; try lia. intros n' l Hl. split_and!; try done; lia.
  - destruct Hch as (Hk & Hka & Hkw & Hkm). destruct fin; [rewrite Hfin in Hka by done; lia|]. cbn [Z.b2z] in *.
    split; [done|]. destruct (sendSegment_run e s x rc a u n k) as (s1 & x1 & E1 & Hat1 & Hs1 & Hx1 & Hu1);
      [apply He|done|lia|lia|unfold max_flight; lia|].
    exists s1, x1, k, (SData n k). split_and!; try done; try lia.
Qed.

Lemma sendLoop_run fuel e fin s x rc a u n :
  env_ok e → u - a < MaxPayloadSize → snd_at fin s x rc a u n → used (c_writeBuf (cs_conn s)) < Z.of_nat fuel →
  ∃ s' x' n' l, sendLoop fuel e s = Ret (s', tt) ∧ snd_at fin s' x' rc a u n' ∧
    sends s s' l ∧ data_run (s_mss x) n n' l ∧
    control x' = control x ∧
    (n' = n ∨ n' - u ≤ Z.min (s_cwnd x) (s_wnd x)) ∧ (fin = true → l = []).
Proof.
  intros He Hfirst. revert s x n. induction fuel as [|fuel IH]; intros s x n Hat Hf.
  { pose proof (used_range _ (sa_wring _ _ _ _ _ _ _ Hat)). lia. }
  pose proof (effectiveWindow_val _ _ _ _ _ _ _ Hat) as Hew.
  assert (Hstop : ∃ s' x' n' l, skip e s = Ret (s', tt) ∧ snd_at fin s' x' rc a u n' ∧
    sends s s' l ∧ data_run (s_mss x) n n' l ∧
    control x' = control x ∧
    (n' = n ∨ n' - u ≤ Z.min (s_cwnd x) (s_wnd x)) ∧ (fin = true → l = [])).
  { exists s, x, n, []. split_and!; try done; [apply sends_refl|by left]. }
  pose proof Hat as [Hx _ _ Hwr _ _ _ _ _ _ _ _ _ _]. pose proof (used_range _ Hwr).
  cbn [sendLoop]. rewrite run_getc, (run_get_snd _ _ _ x), run_asks by done.
  unfold Len. rewrite lenLocked_ok, run_lift by done.
  pose proof (send_round_run e fin s x rc a u n He Hfirst Hat) as Hr. cbv zeta in Hr.
  set (ch := choose _ _ _ _) in *.
  assert (ch = Stop_ ∨ ch ≠ Stop_) as [Ech|Hne] by (destruct ch; [by left|by right..]); [by rewrite Ech|].
  destruct (Hr Hne) as (-> & s1 & x1 & k & it & E1 & Hat1 & Hs1 & Hd1 & Hx1 & Hu1 & Hk1).
  assert (∃ s' x' n' l, (more ← send_round ch; if more : bool then sendLoop fuel else skip) e s = Ret (s', tt) ∧
    snd_at false s' x' rc a u n' ∧ sends s s' l ∧ data_run (s_mss x) n n' l ∧ control x' = control x ∧
    (n' = n ∨ n' - u ≤ Z.min (s_cwnd x) (s_wnd x)) ∧ (false = true → l = [])) as Hgo; [|by destruct ch].
  rewrite (run_bind _ _ _ _ _ _ E1).
  destruct (IH s1 x1 (n + k)) as (s' & x' & n' & l & E & Hat' & Hs' & Hp & Hx' & Hwin & _); [done|lia|].
  assert (s_mss x1 = s_mss x ∧ s_cwnd x1 = s_cwnd x ∧ s_wnd x1 = s_wnd x) as (Em & Ec & Ew).
  { split_and!; [exact (f_equal s_mss Hx1)|exact (f_equal s_cwnd Hx1)|exact (f_equal s_wnd Hx1)]. }
  rewrite Em in Hp. rewrite Ec, Ew in Hwin.
  exists s', x', n', (it :: l). split; [done|]. split; [done|].
  split; [by eapply (sends_trans s s1 s' [it])|]. split; [by apply Hd1|].
  split; [congruence|]. split; [|done]. right. destruct Hwin; lia.
Qed.

Lemma sendPending_run e fin s x rc a u n :
  env_ok e → u - a < MaxPayloadSize → snd_at fin s x rc a u n →
  ∃ s' x' n' l, sendPending e s = Ret (s', tt) ∧ snd_at fin s' x' rc a u n' ∧
    sends s s' l ∧ data_run (s_mss x) n n' l ∧
    control x' = control x ∧
    (n' = n ∨ n' - u ≤ Z.min (s_cwnd x) (s_wnd x)) ∧ (fin = true → l = []).
Proof.
  intros He Hfirst Hat. pose proof (sa_wring _ _ _ _ _ _ _ Hat) as Hwr.
  unfold sendPending, Len. rewrite run_getc, lenLocked_ok, run_lift by done.
  apply sendLoop_run; try done. pose proof (used_range _ Hwr). lia.
Qed.
(** * Acknowledgements *)

(** The sender without its round-trip estimate. *)
Definition untimed (x : sender) : sender := x <| s_srtt := 0 |> <| s_rttvar := 0 |> <| s_rto := 0 |>.

Lemma updateRTT_untimed m x : untimed (updateRTT m x) = untimed x.
Proof. unfold updateRTT. by destruct (s_srtt x =? 0). Qed.

Lemma us_end_piece seg p k : holds_piece seg p k → us_end seg = seq_of (p + k).
Proof.
  intros (Hf & Hs & Hk & ref & Hr & Hl & _). unfold us_end, dataLen. rewrite Hf, Hr, Hl, Hs. apply seq_plus.
Qed.

Lemma removeLoop_run e fin n v l a b s x :
  c_snd (cs_conn s) = Some x → queue_at a n fin l → a ≤ v ≤ n + Z.b2z fin → n - a ≤ max_flight →
  ∃ l' a' s' x', removeLoop l (seq_of v) b e s = Ret (s', l') ∧ queue_at a' n fin l' ∧
    a ≤ a' ≤ v ∧ v - a' < MaxPayloadSize ∧ idle s s' ∧
    c_snd (cs_conn s') = Some x' ∧ untimed x' = untimed x ∧ a' = first_kept a v l.
Proof.
  unfold max_flight. revert a b s x.
  induction l as [|seg l IH]; intros a b s x Hx Hq Hv Hn.
  { exists [], a, s, x. cbn in Hq. unfold MaxPayloadSize. by split_and!; [..|lia|lia| | | |]. }
  cbn [removeLoop]. rewrite run_getc.
  assert (∃ e1, us_seq seg = seq_of a ∧ us_end seg = seq_of e1 ∧ a < e1 ≤ n + Z.b2z fin ∧
    e1 - a ≤ MaxPayloadSize ∧ queue_at e1 n fin l ∧ e1 = a + (if us_fin seg then 1 else dataLen seg))
    as (e1 & Hs & He & Hle & Hmax & Hq' & Hsz).
  { destruct Hq as [(k & Hp & Hle & Hq')|(Hf & Hs & _ & -> & -> & ->)].
    - exists (a + k). rewrite (us_end_piece _ _ _ Hp). destruct Hp as (Hf & ? & ? & ref & Hr & Hl & _).
      unfold dataLen. rewrite Hf, Hr, Hl. by split_and!; [..|lia|destruct fin; cbn in *; lia|lia| |].
    - exists (n + 1). unfold us_end. rewrite Hf, Hs. cbn in *. unfold MaxPayloadSize.
      change 1 with (u32 1) at 1. rewrite seq_plus. by split_and!; [..|lia|lia|lia| |]. }
  cbn [first_kept]. rewrite <- Hsz.
  rewrite Hs, seq_greater by (destruct fin; cbn in *; lia).
  destruct (Z.gtb_spec v a) as [Hgt|Hge]; cbn [negb].
  2:{ exists (seg :: l), a, s, x. unfold MaxPayloadSize. rewrite (proj2 (Z.leb_gt e1 v)) by lia.
      by split_and!; [..|lia|lia| | | |]. }
  set (meas := if _ && _ then _ else _).
  assert (∃ s1 x1 m, meas e s = Ret (s1, m) ∧ idle s s1 ∧ c_snd (cs_conn s1) = Some x1 ∧ untimed x1 = untimed x)
    as (s1 & x1 & m & Em & Hi & Hx1 & Hu1).
  { subst meas. destruct (_ && _); [|by exists s, x, b]. unfold time_now. crun. do 3 eexists.
    split; [reflexivity|]. split; [done|]. split; [done|]. apply updateRTT_untimed. }
  rewrite (run_bind _ _ _ _ _ _ Em). clear Em meas.
  rewrite He, seq_less, (seq_eqb stream) by (destruct fin; cbn in *; lia).
  destruct (Z.ltb_spec e1 v), (Z.eqb_spec e1 v); cbn [orb]; try lia.
  3:{ exists (seg :: l), a, s1, x1. rewrite (proj2 (Z.leb_gt e1 v)) by lia. by split_and!; [..|lia|lia| | | |]. }
  all: destruct (IH e1 m s1 x1) as (l' & a' & s' & x' & E & Hq2 & Ha & Hlt & Hi' & Hx' & Hu' & Ea); [done..|lia|lia|];
    rewrite (proj2 (Z.leb_le e1 v)) by lia; exists l', a', s', x'; split_and!; try done; try lia; [by eapply idle_trans|congruence].
Qed.
(** * Retransmission *)

(** What a segment of the queue carries. *)
Definition content (seg : unackedSegment) : Z * option RefBuf * bool := (us_seq seg, us_ref seg, us_fin seg).

Lemma queue_content a n fin l l' :
  content <$> l' = content <$> l → queue_at a n fin l → queue_at a n fin l'.
Proof.
  revert a l'. induction l as [|seg l IH]; intros a [|seg' l'] E; try done.
  injection E as E1 E2 E3 El. cbn [queue_at]. unfold holds_piece. rewrite E1, E2, E3.
  intros [(k & Hp & Hle & Hq)|(? & ? & ? & ? & ? & ->)]; [left; exists k|right].
  - split_and!; try apply Hp; [done|by apply IH].
  - by destruct l'.
Qed.

(** The segments in flight. *)
Definition in_flight (fin : bool) (a n : Z) (it : sent_item) : Prop :=
  match it with
  | SData p k => a ≤ p ∧ 0 < k ∧ p + k ≤ n
  | SLarge p k mss => a ≤ p ∧ 0 < k ∧ p + k ≤ n ∧ 0 < mss
  | SFin p => fin = true ∧ p = n
  end.
Definition item_pos (it : sent_item) : Z := match it with SData p _ | SLarge p _ _ | SFin p => p end.

Definition carries_item (seg : unackedSegment) (it : sent_item) : Prop :=
  match it with
  | SData p k => holds_piece seg p k
  | SLarge _ _ _ => False
  | SFin p => us_fin seg = true ∧ us_seq seg = seq_of p
  end.

Lemma queue_lookup a n fin l i seg :
  queue_at a n fin l → l !! i = Some seg →
  ∃ it, carries_item seg it ∧ in_flight fin a n it ∧ (i = O → item_pos it = a).
Proof.
  revert a i. induction l as [|sg l IH]; intros a i Hq Hi; [done|].
  destruct Hq as [(k & Hp & Hle & Hq)|(Hf & Hs & _ & -> & -> & ->)].
  - assert (0 < k) by apply Hp. destruct i as [|i]; cbn in Hi.
    + injection Hi as ->. exists (SData a k). cbn. by split_and!; [|lia..|].
    + destruct (IH _ _ Hq Hi) as (it & Hc & Hfl & _). exists it. split; [done|]. split; [|done].
      destruct it; cbn in *; lia || done.
  - destruct i; [|by destruct i]. injection Hi as ->. exists (SFin n). by split_and!.
Qed.

Lemma noteAck_same c :
  aside (noteAck c) = aside c ∧ c_snd (noteAck c) = c_snd c ∧
  c_rcv (noteAck c) = c_rcv c ∧ c_readBuf (noteAck c) = c_readBuf c ∧
  c_writeBuf (noteAck c) = c_writeBuf c.
Proof. unfold noteAck. destruct (c_rcv c) eqn:E, (c_tsEnabled c); by rewrite <- ?E. Qed.
(** A segment goes out; the buffers and both sides stay as they are. *)
Record goes_out (s s' : CS) (it : sent_item) : Prop := {
  go_sends : sends s s' [it];
  go_snd : c_snd (cs_conn s') = c_snd (cs_conn s);
  go_rcv : c_rcv (cs_conn s') = c_rcv (cs_conn s);
  go_readBuf : c_readBuf (cs_conn s') = c_readBuf (cs_conn s);
  go_writeBuf : c_writeBuf (cs_conn s') = c_writeBuf (cs_conn s) }.

Lemma sends_emits c c' w w' g seg it :
  aside c' = aside c → emits c w w' g seg →
  (∃ ack wd opts, bytes_ok opts ∧ zlen opts ≤ 40 ∧ zlen opts mod 4 = 0 ∧ match it with
     | SData q k => seg = conn_segment c (seq_of q) ack TCPFlagACK wd opts (piece q k)
     | SLarge _ _ _ => False
     | SFin q => seg = conn_segment c (seq_of q) ack (Z.lor TCPFlagFIN TCPFlagACK) wd opts []
     end) →
  sends (mkCS c w) (mkCS c' w') [it].
Proof.
  intros Ea [(pb & Es & Hh & _) Eq _ _] (ack & wd & opts & Hbo & Hlo & Hmo & Hit). split; [done| |done].
  eexists [_]. split; [exact Es|]. repeat constructor. exists c, ack, wd, opts. split_and!; [done..|].
  destruct it; [|done|]; subst seg; by exists pb.
Qed.

Lemma send_item e c w rc seg it :
  c_rcv c = Some rc → ring_ok (c_readBuf c) → is_u16 (rcvWndSize (c_cfg c)) → carries_item seg it →
  ∃ c' w', (if us_fin seg then sendFINSegment (us_seq seg)
            else data ← lift (ref_bytes seg); sendData data (us_seq seg)) e (mkCS c w)
      = Ret (mkCS c' w', tt) ∧ goes_out (mkCS c w) (mkCS c' w') it.
Proof.
  intros Hrc Hok Hcfg Hit. destruct it as [p k|? ? ?|p]; cbn in Hit; [|done|].
  - destruct Hit as (-> & -> & Hk & ref & Er & _ & Eb). unfold ref_bytes. rewrite Er, Eb, run_lift.
    destruct (sendData_run e c w rc (piece p k) (seq_of p)) as (w' & wd & tv & E & _ & _ & _ & Hem); [done..| |].
    { rewrite zlen_piece'; unfold MaxPayloadSize in *; lia. }
    destruct (sentData_same c wd) as (? & ? & ? & ? & ?). exists (sentData c wd), w'. split; [done|].
    split; try done. eapply sends_emits; [done..|]. eexists _, wd, (segment_opts (c_tsEnabled c) tv (c_tsRecent c) []).
    rewrite zlen_plain_opts. split_and!; [apply bytes_ok_segment_opts|by destruct (c_tsEnabled c)..|reflexivity].
  - destruct Hit as (-> & ->).
    destruct (sendFINSegment_run e c w (seq_of p)) as (w' & wd & tv & E & _ & _ & _ & Hem); [done..|].
    destruct (noteAck_same c) as (? & ? & ? & ? & ?). exists (noteAck c), w'. split; [done|].
    split; try done. eapply sends_emits; [done..|]. eexists _, wd, (segment_opts (c_tsEnabled c) tv (c_tsRecent c) []).
    rewrite zlen_plain_opts. split_and!; [apply bytes_ok_segment_opts|by destruct (c_tsEnabled c)..|reflexivity].
Qed.

(** The flags of the segments in the queue and the congestion state play no
    part in [snd_at]. *)
Lemma snd_at_sender fin s s' x x' rc a u n :
  snd_at fin s x rc a u n → c_snd (cs_conn s') = Some x' →
  c_rcv (cs_conn s') = c_rcv (cs_conn s) → c_readBuf (cs_conn s') = c_readBuf (cs_conn s) →
  c_writeBuf (cs_conn s') = c_writeBuf (cs_conn s) → c_cfg (cs_conn s') = c_cfg (cs_conn s) →
  s_una x' = s_una x → s_nxt x' = s_nxt x → content <$> s_unacked x' = content <$> s_unacked x →
  s_mss x' = s_mss x → s_wnd x' = s_wnd x → (0 < s_ssthresh x → 0 < s_ssthresh x') →
  snd_at fin s' x' rc a u n.
Proof.
  intros [] Hx E1 E2 E3 E4 E5 E6 E7 E8 E9 E10. split; rewrite ?E1, ?E2, ?E3, ?E4, ?E5, ?E6, ?E8, ?E9; try done.
  - by eapply queue_content.
  - by apply E10.
Qed.

Lemma resend_run e fin s x rc a u n i seg :
  snd_at fin s x rc a u n → s_unacked x !! i = Some seg →
  ∃ s' x' it, resend i seg e s = Ret (s', tt) ∧ snd_at fin s' x' rc a u n ∧ sends s s' [it] ∧
    in_flight fin a n it ∧ (i = O → item_pos it = a) ∧
    x' <| s_unacked := [] |> = x <| s_unacked := [] |> ∧
    c_writeBuf (cs_conn s') = c_writeBuf (cs_conn s).
Proof.
  intros Hat Hi. pose proof Hat as [Hx Hrc Hrr _ _ _ _ _ _ _ Hq _ _ Hcfg].
  destruct (queue_lookup _ _ _ _ _ _ Hq Hi) as (it & Hit & Hfl & H0).
  unfold resend, mark_retransmitted, time_now. crun. set (c1 := (cs_conn s) <| c_snd := _ |>).
  set (w1 := (cs_world s) <| w_ticks := _ |>).
  destruct (send_item e c1 w1 rc seg it) as (c' & w' & E & [Hs Es Er Erb Ewb]); [done..|].
  rewrite E. cbn [cs_conn] in *. exists (mkCS c' w'), (default x (c_snd c1)), it. split; [reflexivity|].
  split; [|split; [|by split_and!]].
  - eapply (snd_at_sender _ s); [done|exact Es|done..| | | | | | |]; try done.
    + by rewrite (aside_cfg _ _ (ss_aside _ _ _ Hs)).
    + cbn. rewrite list_fmap_insert. apply list_insert_id. by rewrite list_lookup_fmap, Hi.
  - destruct Hs as [Ea Hsent Hacc]. split; [exact Ea|exact Hsent|exact Hacc].
Qed.
(** * Steps of the sender

    A step returns, keeps [snd_at] with the same oldest byte, and all it sends
    is stream data in its place, or the FIN, after which no data follows. *)
Definition sends_ok (fin : bool) (e : Env) (m : conn_m unit) (s : CS) (rc : receiver) (a u n : Z) : Prop :=
  ∃ s' x' n' l, m e s = Ret (s', tt) ∧ snd_at fin s' x' rc a u n' ∧ n ≤ n' ∧ (fin = true → n' = n) ∧
    sends s s' l ∧ Forall (in_flight fin a n') l.

Lemma sends_ok_skip fin e s x rc a u n : snd_at fin s x rc a u n → sends_ok fin e skip s rc a u n.
Proof. intros. exists s, x, n, []. split_and!; try done. apply sends_refl. Qed.

Lemma sends_ok_bind fin e m k s rc a u n :
  sends_ok fin e m s rc a u n →
  (∀ s' x' n', snd_at fin s' x' rc a u n' → sends_ok fin e k s' rc a u n') →
  sends_ok fin e (m;; k) s rc a u n.
Proof.
  intros (s1 & x1 & n1 & l1 & E1 & Hat1 & Hn1 & Hf1 & Hs1 & Hl1) Hk.
  destruct (Hk _ _ _ Hat1) as (s2 & x2 & n2 & l2 & E2 & Hat2 & Hn2 & Hf2 & Hs2 & Hl2).
  exists s2, x2, n2, (l1 ++ l2). rewrite (run_bind _ _ _ _ _ _ E1). split_and!; try done; [lia| | |].
  - intros Hf. by rewrite (Hf2 Hf), (Hf1 Hf).
  - by eapply sends_trans.
  - apply Forall_app. split; [|done]. eapply Forall_impl; [exact Hl1|].
    intros [p k'|p k' ?|p]; cbn; [lia..|]. intros [Ht ->]. by rewrite (Hf2 Ht).
Qed.

(** Steps of the sender record that leave the queue and the window alone. *)
Definition neutral (f : sender → sender) (x : sender) : Prop :=
  s_una (f x) = s_una x ∧ s_nxt (f x) = s_nxt x ∧ content <$> s_unacked (f x) = content <$> s_unacked x ∧
  s_mss (f x) = s_mss x ∧ s_wnd (f x) = s_wnd x ∧ (0 < s_ssthresh x → 0 < s_ssthresh (f x)).

Lemma set_snd_run e fin s x rc a u n f :
  snd_at fin s x rc a u n → neutral f x →
  set_snd f e s = Ret (mkCS ((cs_conn s) <| c_snd := Some (f x) |>) (cs_world s), tt) ∧
  snd_at fin (mkCS ((cs_conn s) <| c_snd := Some (f x) |>) (cs_world s)) (f x) rc a u n ∧
  sends s (mkCS ((cs_conn s) <| c_snd := Some (f x) |>) (cs_world s)) [].
Proof.
  intros Hat Hf. pose proof Hf as (? & ? & ? & ? & ? & ?).
  split; [by apply run_set_snd', Hat|]. split; [by eapply (snd_at_sender _ s)|].
  split; try done. exists []. by rewrite app_nil_r.
Qed.

Lemma sends_ok_set fin e f k s x rc a u n :
  snd_at fin s x rc a u n → neutral f x →
  (∀ s', snd_at fin s' (f x) rc a u n → c_writeBuf (cs_conn s') = c_writeBuf (cs_conn s) →
     sends_ok fin e k s' rc a u n) →
  sends_ok fin e (set_snd f;; k) s rc a u n.
Proof.
  intros Hat Hf Hk. destruct (set_snd_run e _ _ _ _ _ _ _ f Hat Hf) as (E & Hat1 & Hs1).
  destruct (Hk _ Hat1 eq_refl) as (s2 & x2 & n2 & l2 & E2 & Hat2 & Hn2 & Hf2 & Hs2 & Hl2).
  exists s2, x2, n2, l2. rewrite (run_bind _ _ _ _ _ _ E). split_and!; try done.
  by apply (sends_trans _ _ _ [] l2 Hs1).
Qed.

Lemma sends_ok_count fin e g k s x rc a u n :
  snd_at fin s x rc a u n →
  (∀ s', snd_at fin s' x rc a u n → c_writeBuf (cs_conn s') = c_writeBuf (cs_conn s) →
     sends_ok fin e k s' rc a u n) →
  sends_ok fin e (count_ g;; k) s rc a u n.
Proof.
  intros Hat Hk. set (s1 := mkCS (cs_conn s) ((cs_world s) <| w_stats := g <$> w_stats (cs_world s) |>)).
  destruct (Hk s1) as (s2 & x2 & n2 & l2 & E2 & Hat2 & Hn2 & Hf2 & Hs2 & Hl2); [by destruct Hat|done|].
  exists s2, x2, n2, l2. rewrite run_count. split_and!; try done.
  destruct Hs2 as [Ea Hsent Hacc]. by split.
Qed.
Lemma data_in_flight fin mss n n' l a :
  data_run mss n n' l → a ≤ n → n ≤ n' ∧ Forall (in_flight fin a n') l.
Proof.
  revert n. induction l as [|[p k|p k m|p] l IH]; intros n Hr Ha; cbn in Hr; [by subst|..|done].
  1: destruct Hr as (-> & Hk & Hr). 2: destruct Hr as (-> & Hk & Hm & _ & Hr).
  all: destruct (IH (n + k)) as [Hle Hl]; [done|lia|]; split; [lia|]; constructor; [cbn; lia|done].
Qed.

Lemma queue_start a n fin l : queue_at a n fin l → a ≤ n + Z.b2z fin.
Proof.
  revert a. induction l as [|seg l IH]; intros a; cbn [queue_at]; [lia|].
  intros [(k & Hp & _ & Hq%IH)|(_ & _ & _ & -> & -> & _)]; [|cbn; lia]. assert (0 < k) by apply Hp. lia.
Qed.

Section steps.
Context (e : Env) (fin : bool) (rc : receiver).
Hypothesis Henv : env_ok e.

Lemma sendPending_ok s x a u n :
  u - a < MaxPayloadSize → snd_at fin s x rc a u n → sends_ok fin e sendPending s rc a u n.
Proof.
  intros Hf Hat. destruct (sendPending_run e fin s x rc a u n)
    as (s' & x' & n' & l & E & Hat' & Hs & Hr & _ & _ & Hnil); [done..|].
  destruct fin eqn:Ef.
  - rewrite Hnil in * by done. cbn in Hr. subst n'. exists s', x', n, []. by split_and!.
  - destruct (data_in_flight false _ _ _ _ a Hr) as [Hle Hl].
    { pose proof (sa_pos _ _ _ _ _ _ _ Hat) as H. cbn in H. lia. }
    exists s', x', n', l. by split_and!.
Qed.

Lemma resend_ok s x a u n i seg :
  snd_at fin s x rc a u n → s_unacked x !! i = Some seg → sends_ok fin e (resend i seg) s rc a u n.
Proof.
  intros Hat Hi. destruct (resend_run e fin s x rc a u n i seg Hat Hi)
    as (s' & x' & it & E & Hat' & Hs & Hfl & _).
  exists s', x', n, [it]. split_and!; try done. by constructor.
Qed.

Lemma firstUnSACKed_lookup l i seg : firstUnSACKed l = Some (i, seg) → l !! i = Some seg.
Proof.
  revert i. induction l as [|sg l IH]; intros i; cbn; [done|].
  destruct (us_sacked sg); [|by intros [= <- <-]].
  destruct (firstUnSACKed l) as [[j sg']|]; [|done]. intros [= <- ->]. by apply IH.
Qed.

Lemma retransmitFirstUnSACKed_ok s x a u n :
  snd_at fin s x rc a u n → sends_ok fin e retransmitFirstUnSACKed s rc a u n.
Proof.
  intros Hat. pose proof (sa_snd _ _ _ _ _ _ _ Hat) as Hx.
  destruct (firstUnSACKed (s_unacked x)) as [[i seg]|] eqn:E.
  - destruct (resend_ok s x a u n i seg Hat) as (s' & x' & n' & l & Er & H); [by apply firstUnSACKed_lookup|].
    exists s', x', n', l. unfold retransmitFirstUnSACKed. rewrite (run_get_snd _ _ _ x), E by done. done.
  - exists s, x, n, []. unfold retransmitFirstUnSACKed. rewrite (run_get_snd _ _ _ x), E by done.
    split_and!; try done. apply sends_refl.
Qed.

Lemma retransmitOldest_ok s x a u n :
  snd_at fin s x rc a u n → sends_ok fin e retransmitOldest s rc a u n.
Proof.
  intros Hat. pose proof (sa_snd _ _ _ _ _ _ _ Hat) as Hx. unfold sends_ok, retransmitOldest.
  rewrite (run_get_snd _ _ _ x) by done. destruct (s_unacked x) as [|seg l] eqn:E.
  - by apply (sends_ok_skip _ _ _ x).
  - apply (resend_ok s x a u n 0 seg); [done|by rewrite E].
Qed.
Lemma sends_ok_get f s x a u n :
  snd_at fin s x rc a u n → sends_ok fin e (f x) s rc a u n → sends_ok fin e (get_snd ≫= f) s rc a u n.
Proof. intros Hat H. unfold sends_ok. by rewrite (run_get_snd _ _ _ x) by apply Hat. Qed.

Lemma limitedTransmit_ok s x a u n :
  u - a < MaxPayloadSize → snd_at fin s x rc a u n → sends_ok fin e limitedTransmit s rc a u n.
Proof.
  intros Hfirst Hat. pose proof (sends_ok_skip fin e _ _ _ _ _ _ Hat) as Hskip.
  pose proof Hat as [Hx _ _ Hwr _ Hfin Hu Hn Hpos Hnear _ Hmss Hwnd _].
  unfold sends_ok, limitedTransmit. rewrite run_getc, (run_get_snd _ _ _ x) by done.
  unfold Len. rewrite lenLocked_ok, run_lift, Hu, Hn, seq_minus by done.
  destruct (Z.leb_spec (used (c_writeBuf (cs_conn s))) 0) as [|Hav]; [exact Hskip|].
  destruct fin; [rewrite Hfin in Hav by done; lia|]. cbn [Z.b2z] in *. rewrite Z.add_0_r in *.
  rewrite u32_id by (unfold max_flight in *; ulia).
  destruct (Z.geb_spec (n - u) (s_wnd x)); [exact Hskip|]. set (k := Z.min _ _).
  destruct (Z.leb_spec k 0); [exact Hskip|].
  destruct (sendSegment_run e s x rc a u n k) as (s1 & x1 & E1 & Hat1 & Hs1 & _ & _);
    [apply Henv|done|lia|lia|unfold max_flight, max_window, MaxPayloadSize in *; lia|].
  rewrite (run_bind _ _ _ _ _ _ E1). exists s1, x1, (n + k), [SData n k].
  split_and!; try done; [lia|]. constructor; [cbn; lia|done].
Qed.

Lemma handleDupACK_ok s x a u n :
  u - a < MaxPayloadSize → snd_at fin s x rc a u n → sends_ok fin e handleDupACK s rc a u n.
Proof.
  intros Hfirst Hat. unfold handleDupACK.
  eapply sends_ok_count; [done|]. intros s1 Hat1 _. eapply sends_ok_set; [done|done|]. intros s2 Hat2 _.
  eapply sends_ok_get; [done|]. cbv zeta. destruct (s_inRecovery _).
  { eapply sends_ok_set; [done|done|]. intros s3 Hat3 _. by eapply sendPending_ok. }
  destruct (_ <=? 2); [by eapply limitedTransmit_ok|].
  unfold when_. destruct (_ =? 3); [|by eapply sends_ok_skip].
  eapply sends_ok_count; [done|]. intros s3 Hat3 _.
  assert (0 < s_mss x ≤ MaxPayloadSize) as Hmss by apply Hat. unfold MaxPayloadSize in Hmss.
  eapply sends_ok_set; [done| |]. { split_and!; try done. cbn. rewrite (u32_id (s_mss x)), u32_id by ulia. lia. }
  intros s4 Hat4 _.
  eapply sends_ok_set; [done|done|]. intros s5 Hat5 _. by eapply retransmitFirstUnSACKed_ok.
Qed.

(** The acknowledgement of [v]: the segments before it leave the queue. *)
Lemma removeAcked_run s x a v n :
  snd_at fin s x rc a v n →
  ∃ s' x' a', removeAcked (seq_of v) e s = Ret (s', tt) ∧ snd_at fin s' x' rc a' v n ∧
    a ≤ a' ∧ v - a' < MaxPayloadSize ∧ sends s s' [] ∧ a' = first_kept a v (s_unacked x).
Proof.
  intros [Hx Hrc Hrr Hwr Hw Hfin Hu Hn Hpos Hnear Hq Hmss Hwnd Hcfg Hth].
  unfold removeAcked. rewrite (run_get_snd _ _ _ x) by done.
  destruct (removeLoop_run e fin n v (s_unacked x) a false s x)
    as (l' & a' & s1 & x1 & E & Hq' & Ha' & Hlt & (Hi & Hsent & Hacc) & Hx1 & Hut & Ea); [done..|].
  rewrite (run_bind _ _ _ _ _ _ E), (run_set_snd' _ _ _ x1) by done.
  assert (s_una x1 = s_una x ∧ s_nxt x1 = s_nxt x ∧ s_mss x1 = s_mss x ∧ s_wnd x1 = s_wnd x ∧
    s_ssthresh x1 = s_ssthresh x) as (E1 & E2 & E3 & E4 & E5).
  { split_and!; [exact (f_equal s_una Hut)|exact (f_equal s_nxt Hut)|exact (f_equal s_mss Hut)
      |exact (f_equal s_wnd Hut)|exact (f_equal s_ssthresh Hut)]. }
  assert (c_rcv (cs_conn s1) = c_rcv (cs_conn s) ∧ c_readBuf (cs_conn s1) = c_readBuf (cs_conn s) ∧
    c_writeBuf (cs_conn s1) = c_writeBuf (cs_conn s) ∧ c_cfg (cs_conn s1) = c_cfg (cs_conn s))
    as (F1 & F2 & F3 & F4).
  { split_and!; [exact (f_equal c_rcv Hi)|exact (f_equal c_readBuf Hi)
      |exact (f_equal c_writeBuf Hi)|exact (f_equal c_cfg Hi)]. }
  eexists _, (x1 <| s_unacked := l' |>), a'. split; [reflexivity|]. split_and!; try done; [|lia|].
  - split; cbn; rewrite ?F1, ?F2, ?F3, ?F4, ?E1, ?E2, ?E3, ?E4, ?E5; try done; lia.
  - split; [|exists []; by rewrite app_nil_r|done].
    exact (f_equal (λ c, c <| c_writeBuf := mkRing [] 0 0 false 0 0 (rb_closed (c_writeBuf c)) |>
      <| c_tsLastAckSent := 0 |> <| c_lastWndZero := false |>) Hi).
Qed.
Lemma growCwnd_ok k x : 0 < s_ssthresh x → ∃ x', growCwnd k x = Ret x' ∧ neutral (λ _, x') x.
Proof.
  intros Hc. unfold growCwnd. destruct (Z.ltb_spec (s_cwnd x) (s_ssthresh x)); [by eexists|].
  rewrite (proj2 (Z.eqb_neq _ _)) by lia. by eexists.
Qed.

(** What follows the removal of the acknowledged segments. *)
Definition after_removal (acked ack : Z) (x : sender) : conn_m unit :=
  (if s_inRecovery x then
     when_ (seqLessThan ack (s_recoveryPoint x)) retransmitFirstUnSACKed;;
     set_snd (λ s', s' <| s_inRecovery := seqLessThan ack (s_recoveryPoint x) |>
                      <| s_cwnd := s_ssthresh s' |> <| s_dupACKCount := 0 |>)
   else
     set_snd (λ s, s <| s_dupACKCount := 0 |>);;
     s ← get_snd;
     s' ← lift (growCwnd acked s);
     set_snd (λ _, s'));;
  sendPending.

Lemma after_removal_ok acked ack s x a u n :
  u - a < MaxPayloadSize → snd_at fin s x rc a u n →
  sends_ok fin e (after_removal acked ack x) s rc a u n.
Proof.
  intros Hfirst Hat. unfold after_removal.
  eapply sends_ok_bind; [|intros; by eapply sendPending_ok].
  assert (Hend : ∀ f s x n, snd_at fin s x rc a u n → neutral f x → sends_ok fin e (set_snd f) s rc a u n).
  { intros f s1 x1 n1 Hat1 Hf. destruct (set_snd_run e _ _ _ _ _ _ _ f Hat1 Hf) as (E & Hat2 & Hs2).
    eexists _, _, n1, []. by split_and!. }
  destruct (s_inRecovery x).
  - eapply sends_ok_bind; [|intros; by eapply Hend].
    unfold when_. destruct (seqLessThan _ _); [by eapply retransmitFirstUnSACKed_ok|by eapply sends_ok_skip].
  - eapply sends_ok_set; [done|done|]. intros s1 Hat1 _. eapply sends_ok_get; [done|].
    match goal with |- context [growCwnd acked ?y] =>
      destruct (growCwnd_ok acked y (sa_thresh _ _ _ _ _ _ _ Hat)) as (x' & E & Hn) end.
    unfold sends_ok. rewrite E, run_lift. by eapply Hend.
Qed.

Lemma set_snd_acked s x a u n v :
  snd_at fin s x rc a u n → u ≤ v ≤ n + Z.b2z fin →
  ∃ s' x', set_snd (λ s, s <| s_una := seq_of v |> <| s_retries := 0 |>) e s = Ret (s', tt) ∧
    snd_at fin s' x' rc a v n ∧ sends s s' [] ∧ s_unacked x' = s_unacked x.
Proof.
  intros [] Hv. rewrite (run_set_snd' _ _ _ x) by done.
  eexists _, (x <| s_una := seq_of v |> <| s_retries := 0 |>). split; [reflexivity|].
  split; [split; try done; lia|]. split; [|done]. split; try done. exists []. by rewrite app_nil_r.
Qed.

Lemma handleACK_exact s x a u n v :
  u - a < MaxPayloadSize → snd_at fin s x rc a u n → -2147483648 ≤ v - u < 2147483648 →
  let new := (u <? v) && (v <=? n + Z.b2z fin) in
  let u' := if new then v else u in
  let a' := if new then first_kept a v (s_unacked x) else a in
  ∃ s' x' n' l, handleACK (seq_of v) e s = Ret (s', tt) ∧ snd_at fin s' x' rc a' u' n' ∧
    a ≤ a' ∧ u' - a' < MaxPayloadSize ∧ n ≤ n' ∧ sends s s' l ∧ Forall (in_flight fin a' n') l.
Proof.
  intros Hfirst Hat Hv new u' a'. pose proof Hat as [Hx _ _ _ _ _ Hu Hn Hpos Hnear _ _ _ _].
  unfold max_flight in *. unfold handleACK. rewrite (run_get_snd _ _ _ x), Hu, Hn by done.
  assert (0 ≤ Z.b2z fin ≤ 1) by (destruct fin; cbn; lia).
  rewrite (seq_eqb stream), (seq_greater _ v u) by lia. subst new u' a'.
  destruct (Z.eqb_spec v u) as [->|Hne].
  { destruct (handleDupACK_ok s x a u n Hfirst Hat) as (s' & x' & n' & l & E & Hat' & Hle & _ & Hs & Hl).
    rewrite Z.ltb_irrefl. cbn [andb]. exists s', x', n', l. split_and!; try done; lia. }
  assert (Hskip : ∃ s' x' n' l, skip e s = Ret (s', tt) ∧ snd_at fin s' x' rc a u n' ∧
    a ≤ a ∧ u - a < MaxPayloadSize ∧ n ≤ n' ∧ sends s s' l ∧ Forall (in_flight fin a n') l).
  { exists s, x, n, []. split_and!; try done. apply sends_refl. }
  destruct (Z.gtb_spec v u) as [Hgt|Hle]; cbn [negb orb]; [|by rewrite (proj2 (Z.ltb_ge _ _)) by lia].
  rewrite seq_greater, (proj2 (Z.ltb_lt _ _)) by lia. cbn [andb].
  destruct (Z.gtb_spec v (n + Z.b2z fin)), (Z.leb_spec v (n + Z.b2z fin)); try lia; [exact Hskip|].
  destruct (set_snd_acked s x a u n v Hat) as (s1 & x1 & E1 & Hat1 & Hs1 & Eq1); [lia|].
  rewrite (run_bind _ _ _ _ _ _ E1).
  destruct (removeAcked_run s1 x1 a v n Hat1) as (s2 & x2 & a' & E2 & Hat2 & Ha & Hf2 & Hs2 & Ea).
  rewrite Eq1 in Ea. rewrite <- Ea.
  rewrite (run_bind _ _ _ _ _ _ E2), (run_get_snd _ _ _ x2) by apply Hat2.
  destruct (after_removal_ok (u32 (seq_of v - seq_of u)) (seq_of v) s2 x2 a' v n Hf2 Hat2)
    as (s' & x' & n' & l & E & Hat' & Hle & _ & Hs & Hl).
  exists s', x', n', l. split; [exact E|]. split_and!; try done.
  apply (sends_trans _ _ _ [] l Hs1). by apply (sends_trans _ _ _ [] l Hs2).
Qed.
Lemma handleACK_run s x a u n v :
  u - a < MaxPayloadSize → snd_at fin s x rc a u n → -2147483648 ≤ v - u < 2147483648 →
  let u' := if (u <? v) && (v <=? n + Z.b2z fin) then v else u in
  ∃ s' x' a' n' l, handleACK (seq_of v) e s = Ret (s', tt) ∧ snd_at fin s' x' rc a' u' n' ∧
    a ≤ a' ∧ u' - a' < MaxPayloadSize ∧ n ≤ n' ∧ sends s s' l ∧ Forall (in_flight fin a' n') l.
Proof.
  intros Hf Hat Hv u'. destruct (handleACK_exact s x a u n v Hf Hat Hv) as (s' & x' & n' & l & H).
  by eexists s', x', _, n', l.
Qed.

(** * The retransmission timer *)
Lemma handleRTO_run s x a u n :
  snd_at fin s x rc a u n → s_unacked x ≠ [] →
  c_zeroWindowProbing (cs_conn s) = true ∨ s_retries x < s_maxRetries x →
  ∃ s' x' it, handleRTO e s = Ret (s', tt) ∧ snd_at fin s' x' rc a u n ∧ sends s s' [it] ∧
    in_flight fin a n it ∧ item_pos it = a ∧
    s_rto x' = Z.min (s_rto x * 2) (s_maxRTO x) ∧ s_cwnd x' = s_mss x ∧
    s_ssthresh x' = Z.max (s_cwnd x / 2) (2 * s_mss x).
Proof.
  intros Hat Hne Hretry. pose proof Hat as [Hx _ _ _ _ _ _ _ _ _ _ Hmss _ _].
  unfold MaxPayloadSize in Hmss. unfold handleRTO. rewrite (run_get_snd _ _ _ x) by done.
  rewrite (proj2 (Z.eqb_neq (zlen (s_unacked x)) 0)) by (intros E%zlen_zero_inv; done).
  rewrite run_getc. set (z := c_zeroWindowProbing (cs_conn s)) in *.
  set (x1 := if z then x else x <| s_retries := s_retries x + 1 |>).
  assert (∃ s1, when_ (negb z) (set_snd (λ s, s <| s_retries := s_retries s + 1 |>)) e s = Ret (s1, tt) ∧
    snd_at fin s1 x1 rc a u n ∧ sends s s1 []) as (s1 & E1 & Hat1 & Hs1).
  { subst x1. destruct z; cbn [negb when_].
    - exists s. split_and!; try done. apply sends_refl.
    - eexists. by apply (set_snd_run e fin s x rc a u n (λ s, s <| s_retries := s_retries s + 1 |>)). }
  rewrite (run_bind _ _ _ _ _ _ E1), (run_get_snd _ _ _ x1) by apply Hat1.
  assert (negb z && (s_retries x1 >? s_maxRetries x1) = false) as ->.
  { subst x1. destruct z; [done|]. destruct Hretry; [done|]. cbn. lia. }
  assert (s_mss x1 = s_mss x ∧ s_rto x1 = s_rto x ∧ s_maxRTO x1 = s_maxRTO x ∧ s_cwnd x1 = s_cwnd x ∧
    s_unacked x1 = s_unacked x) as (F1 & F2 & F3 & F4 & F5) by (by subst x1; destruct z).
  set (x2 := x1 <| s_inRecovery := false |> <| s_dupACKCount := 0 |>
    <| s_ssthresh := Z.max (s_cwnd x1 / 2) (u32 (2 * u32 (s_mss x1))) |>
    <| s_cwnd := u32 (s_mss x1) |> <| s_rto := Z.min (s_rto x1 * 2) (s_maxRTO x1) |>
    <| s_unacked := (λ seg, seg <| us_sacked := false |>) <$> s_unacked x1 |>).
  rewrite (run_set_snd _ _ _ _ _ (sa_snd _ _ _ _ _ _ _ Hat1)).
  do 3 (erewrite run_set_snd by reflexivity; cbn [cs_conn cs_world]). rewrite run_count.
  set (s2 := mkCS _ _).
  assert (snd_at fin s2 x2 rc a u n) as Hat2.
  { eapply (snd_at_sender fin s1); [exact Hat1|done..| | | |]; try done; cbn.
    - rewrite <- list_fmap_compose. by apply list_fmap_ext.
    - rewrite F1, (u32_id (s_mss x)), u32_id by ulia. lia. }
  assert (sends s s2 []) as Hs2.
  { apply (sends_trans _ s1 _ [] [] Hs1). split; try done. exists []. by rewrite app_nil_r. }
  unfold retransmitOldest. rewrite (run_get_snd _ _ _ x2) by done.
  destruct (s_unacked x2) as [|seg l] eqn:El.
  { cbn in El. apply fmap_nil_inv in El. congruence. }
  destruct (resend_run e fin s2 x2 rc a u n 0 seg) as (s' & x' & it & E & Hat' & Hs' & Hfl & Hpos & Ex & _);
    [done|by rewrite El|]. exists s', x', it. split; [exact E|]. split; [done|].
  split; [by apply (sends_trans _ _ _ [] [it] Hs2)|]. split; [done|]. split; [by apply Hpos|].
  assert (s_rto x' = s_rto x2 ∧ s_cwnd x' = s_cwnd x2 ∧ s_ssthresh x' = s_ssthresh x2) as (-> & -> & ->).
  { split_and!; [exact (f_equal s_rto Ex)|exact (f_equal s_cwnd Ex)|exact (f_equal s_ssthresh Ex)]. }
  cbn. rewrite F1, F2, F3, F4, !u32_id by ulia. done.
Qed.
End steps.
End sender.

(** * The claims on the sender *)

(** C16: [sendPending] sends the next bytes of the application's stream and
    nothing else.  With [u] the oldest byte not acknowledged and [n] the end of
    the data sent, it terminates without a panic after sending consecutive
    packets from [n] to some [n'], each with stream bytes at the sequence
    number of their position: at most an MSS of them, or more in one packet
    that the channel is told to cut at the MSS when it offers segmentation
    offload.  Either way the retransmission queue gets what was sent in
    segments of at most an MSS, the write buffer holds the rest, no field
    outside the send side changes but the acknowledgement bookkeeping, and new
    data stays within both the congestion window and the peer's window. *)
Theorem sendPending_sends_next stream base total e fin s x rc a u n :
  env_ok e → u - a < MaxPayloadSize → snd_at stream base total fin s x rc a u n →
  ∃ s' x' n' l, sendPending e s = Ret (s', tt) ∧ snd_at stream base total fin s' x' rc a u n' ∧
    sends stream base s s' l ∧ data_run (s_mss x) n n' l ∧ control x' = control x ∧
    (n' = n ∨ n' - u ≤ Z.min (s_cwnd x) (s_wnd x)) ∧ (fin = true → l = []).
Proof. apply sendPending_run. Qed.

(** C13: an acknowledgement removes from the retransmission queue exactly what
    it covers.  For an acknowledgement of position [v] in the data sent, the
    oldest byte becomes [v]; the queue afterwards starts with the first segment
    that is not entirely before [v], so all that are have left it, and it still
    holds every byte from there to the end of the data sent.  Old, repeated and
    premature acknowledgements leave the position and the start of the queue
    alone.  Whatever the handler sends or resends (duplicate acknowledgements,
    fast recovery, the newly opened window) is stream data in its place or the
    FIN. *)
Theorem handleACK_keeps_queue stream base total e fin s x rc a u n v :
  env_ok e → u - a < MaxPayloadSize → snd_at stream base total fin s x rc a u n →
  -2147483648 ≤ v - u < 2147483648 →
  let new := (u <? v) && (v <=? n + Z.b2z fin) in
  let u' := if new then v else u in
  let a' := if new then first_kept a v (s_unacked x) else a in
  ∃ s' x' n' l, handleACK (seq_of base v) e s = Ret (s', tt) ∧
    snd_at stream base total fin s' x' rc a' u' n' ∧ a ≤ a' ∧ u' - a' < MaxPayloadSize ∧ n ≤ n' ∧
    sends stream base s s' l ∧ Forall (in_flight fin a' n') l.
Proof. intros. by eapply handleACK_exact. Qed.

(** C28: the retransmission timer resends the oldest segment.  While retries
    are left (or a zero window is being probed), [handleRTO] sends exactly one
    segment, the one at the start of the queue, with its stream bytes; it
    doubles the timeout up to the maximum, sets the congestion window to one
    MSS and the threshold to half the old window, at least two MSS. *)
Theorem handleRTO_resends_oldest stream base total e fin s x rc a u n :
  snd_at stream base total fin s x rc a u n → s_unacked x ≠ [] →
  c_zeroWindowProbing (cs_conn s) = true ∨ s_retries x < s_maxRetries x →
  ∃ s' x' it, handleRTO e s = Ret (s', tt) ∧ snd_at stream base total fin s' x' rc a u n ∧
    sends stream base s s' [it] ∧ in_flight fin a n it ∧ item_pos it = a ∧
    s_rto x' = Z.min (s_rto x * 2) (s_maxRTO x) ∧ s_cwnd x' = s_mss x ∧
    s_ssthresh x' = Z.max (s_cwnd x / 2) (2 * s_mss x).
Proof. apply handleRTO_run. Qed.

(** A connection that has sent four bytes in two segments and has two left. *)
Definition sample_sent : sender :=
  let seg q d := mkUnacked q (Some (mkRefBuf (d ++ make_bytes 1498) 2 2)) false 0 false false in
  mkSender 1000 1005 1001 8 4 1000 0 0 200 60000 [seg 1001 [0; 1]; seg 1003 [2; 3]] 0 5 20 100 0 false 0 false 8.
Definition sample_sending : CS :=
  mkCS (sample_conn stateEstablished (Some sample_sent)
          (Some (mkReceiver 5000 5001 [] false 0 (mkSACKBlock 0 0) false None 0 0 0))
          (mkRing (make_bytes 8) 0 0 false 0 0 false)
          (mkRing [4; 5; 0; 0] 0 2 false 0 0 false)) sample_world.
Definition sample_receiver : receiver := mkReceiver 5000 5001 [] false 0 (mkSACKBlock 0 0) false None 0 0 0.

Lemma sample_sending_ok : snd_at (λ q, q) 1001 6 false sample_sending sample_sent sample_receiver 0 0 4.
Proof.
  split; try reflexivity; try done; try (split; cbn; done).
  cbn [queue_at sample_sent s_unacked].
  left. exists 2. split_and!; [|done|].
  { split; [done|]. split; [done|]. split; [done|]. by eexists. }
  left. exists 2. split_and!; [|done|done].
  split; [done|]. split; [done|]. split; [done|]. by eexists.
Qed.

(** A channel with segmentation offload. *)
Definition sample_offload : Env :=
  mkEnv 1500 (Some 65495) 0 0 Z.of_nat (λ _, pool_New) (λ _, refBufPool_New) (λ _, make_bytes GSOBufSize).

Lemma sample_offload_ok : env_ok sample_offload.
Proof. split; [done|done|]. by intros m [= <-]. Qed.

Lemma sendPending_sends_next_witness :
  ∃ s' x' n' l, sendPending sample_offload sample_sending = Ret (s', tt) ∧
    snd_at (λ q, q) 1001 6 false s' x' sample_receiver 0 0 n' ∧
    sends (λ q, q) 1001 sample_sending s' l ∧ data_run 4 4 n' l ∧ control x' = control sample_sent ∧
    (n' = 4 ∨ n' - 0 ≤ Z.min 20 8) ∧ (false = true → l = []).
Proof.
  exact (sendPending_sends_next _ _ 6 sample_offload false sample_sending sample_sent sample_receiver 0 0 4
    sample_offload_ok ltac:(done) sample_sending_ok).
Defined.

Lemma handleACK_keeps_queue_witness :
  ∃ s' x' n' l, handleACK (seq_of 1001 3) sample_offload sample_sending = Ret (s', tt) ∧
    snd_at (λ q, q) 1001 6 false s' x' sample_receiver 2 3 n' ∧ 0 ≤ 2 ∧ 3 - 2 < MaxPayloadSize ∧ 4 ≤ n' ∧
    sends (λ q, q) 1001 sample_sending s' l ∧ Forall (in_flight false 2 n') l.
Proof.
  exact (handleACK_keeps_queue _ _ 6 sample_offload false sample_sending sample_sent sample_receiver 0 0 4 3
    sample_offload_ok ltac:(done) sample_sending_ok ltac:(done)).
Defined.

Lemma handleRTO_resends_oldest_witness :
  ∃ s' x' it, handleRTO sample_env sample_sending = Ret (s', tt) ∧
    snd_at (λ q, q) 1001 6 false s' x' sample_receiver 0 0 4 ∧
    sends (λ q, q) 1001 sample_sending s' [it] ∧ in_flight false 0 4 it ∧ item_pos it = 0 ∧
    s_rto x' = 2000 ∧ s_cwnd x' = 4 ∧ s_ssthresh x' = 10.
Proof.
  exact (handleRTO_resends_oldest _ _ 6 sample_env false sample_sending sample_sent sample_receiver 0 0 4
    sample_sending_ok ltac:(done) (or_intror (eq_refl : 0 < 5))).
Defined.
