(* ===== verification/Conn.v ===== *)
(** [transport/tcp/conn.go], [conn_synrcvd.go], [conn_established.go] and
    [conn_closing.go]: the state machine of a connection, the calls of the
    application, and the [run] loop as one step per [select] case. *)
From S2P Require Import Prelude.
From S2P Require Import Tcpip.
From S2P Require Import Header.
From S2P Require Import TcpHeader.
From S2P Require Import Packet.
From S2P Require Import Stack.
From S2P Require Import Ringbuf.
From S2P Require Import Seq.
From S2P Require Import TcpConn.
From S2P Require Import Rcv.
From S2P Require Import Segment.
From S2P Require Import RcvData.
From S2P Require Import Snd.

(** * Snapshot and addresses *)
Definition updateSnapshot : conn_m unit :=
  c ← getc;
  ru ← lift (Len (c_readBuf c));
  wu ← lift (Len (c_writeBuf c));
  let snap := mkSnapshot (c_flow c) (tcpState_String (c_state c)) 0 0 0 0 0 0 0 0 0 0 0
    ru wu (Cap (c_readBuf c)) (Cap (c_readBuf c)) (Cap (c_writeBuf c)) false 0 false in
  let snap := match c_snd c with
    | Some s => snap <| sn_SRTT := s_srtt s |> <| sn_RTO := s_rto s |> <| sn_Cwnd := s_cwnd s |>
        <| sn_SSThresh := s_ssthresh s |> <| sn_SndWnd := s_wnd s |> <| sn_SndNxt := s_nxt s |>
        <| sn_SndMSS := s_mss s |> <| sn_SndMaxWnd := s_maxWnd s |>
        <| sn_Unacked := zlen (s_unacked s) |> <| sn_Retries := s_retries s |>
        <| sn_InRecovery := s_inRecovery s |> <| sn_DSACKSeen := s_dsackSeen s |>
    | None => snap
    end in
  snap ← match c_rcv c with
    | Some r => w ← lift (wnd c); mret (snap <| sn_RcvWnd := w |> <| sn_OOO := zlen (r_ooo r) |>)
    | None => mret snap
    end;
  setc (λ c, c <| c_snapshot := snap |>).

Definition SetNoDelay (noDelay : bool) (c : TCPConn) : TCPConn := c <| c_noDelay := noDelay |>.
Definition LocalAddr (c : TCPConn) : FullAddress :=
  mkFullAddress (DstAddr (c_flow c)) (DstPort (c_flow c)).
Definition RemoteAddr (c : TCPConn) : FullAddress :=
  mkFullAddress (SrcAddr (c_flow c)) (SrcPort (c_flow c)).

(** * Calls of the application *)

(** One round of the blocking [Read]; a round that returns data signals the
    run loop. *)
Definition Read_conn (plen : Z) (c : TCPConn) : outcome (TCPConn * read_round) :=
  '(rb, res) ← Read_round (c_readBuf c) plen;
  let c := c <| c_readBuf := rb |> in
  match res with
  | ReadReturns d _ => Ret (if zlen d >? 0 then c <| c_windowNotify := true |> else c, res)
  | ReadWaits _ => Ret (c, res)
  end.

(** What [Write] does before it enters the buffer's loop: [None] to go on. *)
Definition Write_start (c : TCPConn) : outcome (TCPConn * option rb_error) :=
  if c_writeShutdown c then Ret (c, Some errBufferClosed) else
  let size := writeBufSize (c_cfg c) in
  if (size >? 0) && (Cap (c_writeBuf c) <? size) then
    rb ← Grow (c_writeBuf c) size;
    Ret (c <| c_writeBuf := rb |>, None)
  else Ret (c, None).

Definition Write_conn (p : bytes) (written : Z) (c : TCPConn) : outcome (TCPConn * write_round) :=
  '(rb, res) ← Write_round (c_writeBuf c) p written;
  let c := c <| c_writeBuf := rb |> in
  match res with
  | WriteReturns n _ => Ret (if n >? 0 then c <| c_writeNotify := true |> else c, res)
  | _ => Ret (c, res)
  end.

Definition CloseWrite_conn (c : TCPConn) : TCPConn :=
  if c_closeOnce c then c else
  c <| c_closeOnce := true |> <| c_writeShutdown := true |>
    <| c_writeBuf := CloseWrite (c_writeBuf c) |> <| c_closeCh := true |>.

Definition CloseRead (c : TCPConn) : TCPConn :=
  if c_closeReadOnce c then c else
  c <| c_closeReadOnce := true |> <| c_readShutdown := true |>
    <| c_readBuf := CloseWrite (c_readBuf c) |>.

Definition Close_conn (c : TCPConn) : TCPConn := CloseWrite_conn c.

(** [ForceClose] closes [forceCloseCh] and then waits for [done]. *)
Definition ForceClose (c : TCPConn) : TCPConn := c <| c_forceCloseCh := true |>.

(** * Helpers of the run loop *)
Definition forceCloseFromRun : conn_m unit :=
  c ← getc;
  match c_snd c with
  | Some s => when_ (bool_decide (c_state c = stateEstablished)) (sendRSTSegment (s_nxt s))
  | None => skip
  end;;
  close_writeBuf;;
  close_readBuf;;
  closeDone.

Definition sendFIN : conn_m unit :=
  s ← get_snd;
  sendFINSegment (s_nxt s);;
  s ← get_snd;
  recordSentFIN (s_nxt s);;
  set_snd (λ s, s <| s_nxt := u32 (s_nxt s + 1) |>).

Definition checkZeroWindow : conn_m unit :=
  c ← getc;
  match c_snd c with
  | None => skip
  | Some s =>
      if c_zeroWindowProbing c then skip else
      if negb (s_wnd s =? 0) then skip else
      n ← lift (Len (c_writeBuf c));
      when_ (n >? 0)
        (setc (λ c, c <| c_zeroWindowProbing := true |> <| c_probeInterval := s_rto s |>
                      <| c_zeroWindowTimer := Some (s_rto s) |>))
  end.

Definition cancelZeroWindowProbe : conn_m unit :=
  c ← getc;
  when_ (c_zeroWindowProbing c)
    (setc (λ c, c <| c_zeroWindowProbing := false |> <| c_zeroWindowTimer := None |>)).

Definition sendZeroWindowProbe : conn_m unit :=
  count_ (bump ZeroWindowProbes);;
  c ← getc;
  match c_snd c with
  | None => skip
  | Some _ =>
      sent ← sendSegment 1;
      when_ (negb sent) cancelZeroWindowProbe
  end.

Definition resetKeepalive : conn_m unit :=
  setc (λ c, c <| c_keepaliveProbes := 0 |> <| c_keepaliveTimer := Some (keepaliveIdle (c_cfg c)) |>).

Definition handleRST : conn_m unit :=
  count_ (bump ResetsReceived);;
  set_state stateClosed;;
  closeDone.

Definition finalizeFIN : conn_m unit :=
  setc (λ c, c <| c_finPending := false |>);;
  c ← getc;
  match c_state c with
  | stateEstablished => sendFIN;; set_state stateFinWait1
  | stateCloseWait => sendFIN;; set_state stateLastAck
  | _ => skip
  end.

Definition handleClose : conn_m unit :=
  c ← getc;
  match c_state c with
  | stateEstablished | stateCloseWait =>
      when_ (bool_decide (is_Some (c_snd c))) sendPending;;
      c ← getc;
      pending ← match c_snd c with
                | Some _ => n ← lift (Len (c_writeBuf c)); mret (n >? 0)
                | None => mret false
                end;
      if pending : bool then setc (λ c, c <| c_finPending := true |>) else finalizeFIN
  | _ => skip
  end.

Definition enterTimeWait : conn_m unit :=
  set_state stateTimeWait;;
  c ← getc;
  when_ (negb (c_readShutdown c)) close_readBuf;;
  setc (λ c, c <| c_timeWaitTimer := Some (timeWaitDuration (c_cfg c)) |>).

(** * Segments by state *)
Definition measureRTTM (seg : segment) : conn_m unit :=
  c ← getc;
  match c_snd c with
  | None => skip
  | Some _ =>
      if c_tsEnabled c && sg_hasTS seg && negb (sg_tsEcr seg =? 0) then
        now ← handler_now;
        let rtt := u32 (now - sg_tsEcr seg) * 1000000 in
        when_ (rtt >? 0) (set_snd (updateRTT rtt))
      else skip
  end.

(** [uint32(seg.wnd) << c.sndWndScale] *)
Definition peer_window (c : TCPConn) (seg : segment) : Z :=
  u32 (Z.shiftl (sg_wnd seg) (c_sndWndScale c)).

Definition set_peer_window (seg : segment) : conn_m unit :=
  c ← getc; set_snd (λ s, s <| s_wnd := peer_window c seg |>).

Definition has_snd (c : TCPConn) : bool := bool_decide (is_Some (c_snd c)).
Definition has_rcv (c : TCPConn) : bool := bool_decide (is_Some (c_rcv c)).

Definition newEstablished (seg : segment) : conn_m unit :=
  c ← getc;
  mtu ← asks e_mtu;
  let cfg := c_cfg c in
  let s := newSender (c_iss c) (sg_wnd seg) (c_sndWndScale c) mtu (c_peerMSS c)
    (mkSenderConfig (minRTO cfg) (maxRTO cfg) (initialRTO cfg) (maxRetries cfg)
       (initialSSThresh cfg)) in
  let s := if c_tsEnabled c then s <| s_mss := s_mss s - 12 |> else s in
  let r := newReceiver (c_irs c) (c_readBuf c) (readBufSize cfg) (maxReadBufSize cfg) in
  setc (λ c, c <| c_snd := Some s |> <| c_rcv := Some r |>);;
  when_ (c_tsEnabled c)
    (setc (λ c, c <| c_tsLastAckSent := r_nxt r |>);;
     when_ (sg_hasTS seg) (setc (λ c, c <| c_tsRecent := sg_tsVal seg |>))).

(** [if st := c.stats; st != nil]: count the new connection. *)
Definition countAccepted : conn_m unit := λ e s,
  match w_stats (cs_world s) with
  | Some _ => (count_ (λ st, st <| ActiveConns := ActiveConns st + 1 |>
                                <| TotalAccepted := u64 (TotalAccepted st + 1) |>);;
               setc (λ c, c <| c_statsActive := true |>)) e s
  | None => Ret (s, tt)
  end.

(** [select { case acceptCh <- c: case <-c.done: }], when it can proceed. *)
Definition offer_accept : conn_m unit := λ _ s,
  let c := cs_conn s in let w := cs_world s in
  if c_done c then Ret (mkCS (c <| c_accepting := false |>) w, tt)
  else if zlen (w_acceptQ w) <? w_acceptCap w
  then Ret (mkCS (c <| c_accepting := false |>) (w <| w_acceptQ := w_acceptQ w ++ [c_flow c] |>), tt)
  else Ret (mkCS (c <| c_accepting := true |>) w, tt).

Definition handleSynRcvd (seg : segment) : conn_m unit :=
  c ← getc;
  if Has (sg_flags seg) TCPFlagACK then
    let rcvNxt := u32 (c_irs c + 1) in
    if u32 (sg_seq seg - rcvNxt) >=? rcvWndSize (c_cfg c) then sendACK else
    if negb (sg_ack seg =? u32 (c_iss c + 1)) then
      sendRSTSegment (sg_ack seg);;
      handleRST
    else
      set_state stateEstablished;;
      countAccepted;;
      setc (λ c, c <| c_synRcvdTimer := None |>);;
      newEstablished seg;;
      resetKeepalive;;
      when_ (zlen (sg_payload seg) >? 0) (handleData (sg_seq seg) (sg_payload seg);; sendACK);;
      offer_accept
  else if Has (sg_flags seg) TCPFlagSYN then sendSYNACK
  else skip.

Definition ackEstablished (seg : segment) : conn_m unit :=
  s ← get_snd;
  let oldWnd := s_wnd s in
  set_peer_window seg;;
  set_snd (λ s, updateMaxWnd (s_wnd s) s);;
  measureRTTM seg;;
  c ← getc;
  (if c_sackPermitted c && (zlen (sg_options seg) >? 0) then
     so ← lift (ParseSegmentOptions (sg_options seg));
     when_ (zlen (sgSACKBlocks so) >? 0)
       (set_snd (processSACKBlocks (sgSACKBlocks so) (sg_ack seg));; sackLossDetection)
   else skip);;
  handleACK (sg_ack seg);;
  s ← get_snd;
  when_ ((sg_ack seg =? s_una s) && (peer_window c seg >? oldWnd)) sendPending;;
  c ← getc;
  s ← get_snd;
  if (s_wnd s >? 0) && c_zeroWindowProbing c then
    cancelZeroWindowProbe;;
    sendPending
  else if s_wnd s =? 0 then
    n ← lift (Len (c_writeBuf c));
    when_ ((n >? 0) && negb (c_zeroWindowProbing c)) checkZeroWindow
  else skip.

(** The delayed-ACK decision for a segment that carried data. *)
Definition ackData (seg : segment) : conn_m unit :=
  setc (λ c, c <| c_unackedSegs := c_unackedSegs c + 1 |>);;
  c ← getc;
  let ahead := match c_rcv c with
               | Some r => seqGreaterThan (sg_seq seg) (r_nxt r) | None => false end in
  if ahead || (c_unackedSegs c >=? 2) then
    cancelDelayedACK;;
    sendACK;;
    setc (λ c, c <| c_unackedSegs := 0 |>)
  else setc (λ c, c <| c_delayedACKTimer := Some (delayedACKTimeout (c_cfg c)) |>).

Definition handleEstablished (seg : segment) : conn_m unit :=
  resetKeepalive;;
  c ← getc;
  when_ (Has (sg_flags seg) TCPFlagACK && has_snd c) (ackEstablished seg);;
  when_ ((zlen (sg_payload seg) >? 0) && has_rcv c) (handleData (sg_seq seg) (sg_payload seg));;
  c ← getc;
  fin ← match c_rcv c with
    | Some r =>
        if Has (sg_flags seg) TCPFlagFIN then
          let finSeq := u32 (sg_seq seg + u32 (zlen (sg_payload seg))) in
          if r_nxt r =? finSeq then processFIN;; mret true
          else set_rcv (λ r, r <| r_finReceived := true |> <| r_finSeq := finSeq |>);; mret false
        else mret false
    | None => mret false
    end;
  when_ (negb fin && (zlen (sg_payload seg) >? 0)) (ackData seg).

Definition handleFinWait1 (seg : segment) : conn_m unit :=
  c ← getc;
  ackOfFIN ← (if Has (sg_flags seg) TCPFlagACK && has_snd c then
                set_peer_window seg;;
                measureRTTM seg;;
                handleACK (sg_ack seg);;
                s ← get_snd;
                mret (negb (hasUnacked s))
              else mret false);
  c ← getc;
  when_ ((zlen (sg_payload seg) >? 0) && has_rcv c) (handleData (sg_seq seg) (sg_payload seg));;
  c ← getc;
  if Has (sg_flags seg) TCPFlagFIN && has_rcv c then
    set_rcv (λ r, r <| r_nxt := u32 (r_nxt r + 1) |>);;
    sendACK;;
    c ← getc;
    when_ (negb (c_readShutdown c)) close_readBuf;;
    if ackOfFIN : bool then enterTimeWait else set_state stateClosing
  else
    when_ (zlen (sg_payload seg) >? 0) sendACK;;
    when_ ackOfFIN
      (setc (λ c, c <| c_state := stateFinWait2 |>
                    <| c_finWait2Timer := Some (finWait2Timeout (c_cfg c)) |>)).

Definition handleFinWait2 (seg : segment) : conn_m unit :=
  c ← getc;
  when_ (Has (sg_flags seg) TCPFlagACK && has_snd c) (set_peer_window seg);;
  when_ ((zlen (sg_payload seg) >? 0) && has_rcv c)
    (handleData (sg_seq seg) (sg_payload seg);;
     setc (λ c, c <| c_finWait2Timer := Some (finWait2Timeout (c_cfg c)) |>));;
  if Has (sg_flags seg) TCPFlagFIN && has_rcv c then
    set_rcv (λ r, r <| r_nxt := u32 (r_nxt r + 1) |>);;
    sendACK;;
    enterTimeWait
  else when_ (zlen (sg_payload seg) >? 0) sendACK.

Definition handleCloseWait (seg : segment) : conn_m unit :=
  c ← getc;
  when_ (Has (sg_flags seg) TCPFlagACK && has_snd c)
    (set_peer_window seg;;
     set_snd (λ s, updateMaxWnd (s_wnd s) s);;
     measureRTTM seg;;
     handleACK (sg_ack seg)).

Definition handleClosing (seg : segment) : conn_m unit :=
  c ← getc;
  acked ← (if Has (sg_flags seg) TCPFlagACK && has_snd c then
             measureRTTM seg;;
             handleACK (sg_ack seg);;
             s ← get_snd;
             mret (negb (hasUnacked s))
           else mret false);
  if acked : bool then enterTimeWait
  else when_ (Has (sg_flags seg) TCPFlagFIN) sendACK.

Definition handleLastAck (seg : segment) : conn_m unit :=
  c ← getc;
  when_ (Has (sg_flags seg) TCPFlagACK && has_snd c)
    (s ← get_snd;
     when_ (negb (hasUnacked s) || seqGreaterThan (sg_ack seg) (s_una s))
       (handleACK (sg_ack seg);; closeDone)).

Definition handleTimeWait (seg : segment) : conn_m unit :=
  when_ (Has (sg_flags seg) TCPFlagFIN)
    (sendACK;;
     setc (λ c, c <| c_timeWaitTimer := Some (timeWaitDuration (c_cfg c)) |>)).

(** * The common pipeline *)
Definition withTimestamps (c : TCPConn) (seg : segment) : outcome segment :=
  if c_tsEnabled c && (zlen (sg_options seg) >? 0) then
    so ← ParseSegmentOptions (sg_options seg);
    if sgTSEnabled so then
      Ret (seg <| sg_hasTS := true |> <| sg_tsVal := sgTSVal so |> <| sg_tsEcr := sgTSecr so |>)
    else Ret seg
  else Ret seg.

Definition validateRST (seg : segment) : conn_m unit :=
  c ← getc;
  if bool_decide (c_state c = stateTimeWait) then skip else
  '(rcvNxt, w) ← match c_rcv c with
    | Some r => w ← lift (rcvWnd c); mret (r_nxt r, w)
    | None => mret (u32 (c_irs c + 1), rcvWndSize (c_cfg c))
    end;
  if sg_seq seg =? rcvNxt then handleRST
  else when_ (seqWithinWindow (sg_seq seg) rcvNxt w) sendACK.

Definition dispatchState (seg : segment) : conn_m unit :=
  c ← getc;
  match c_state c with
  | stateSynRcvd => handleSynRcvd seg
  | stateEstablished => handleEstablished seg
  | stateFinWait1 => handleFinWait1 seg
  | stateFinWait2 => handleFinWait2 seg
  | stateCloseWait => handleCloseWait seg
  | stateClosing => handleClosing seg
  | stateLastAck => handleLastAck seg
  | stateTimeWait => handleTimeWait seg
  | stateClosed => skip
  end.

Definition handleSegment (pb : PacketBuffer) : conn_m unit :=
  seg ← lift (parseSeg pb);
  c ← getc;
  seg ← lift (withTimestamps c seg);
  if c_tsEnabled c && sg_hasTS seg && negb (Has (sg_flags seg) TCPFlagRST) &&
     (i32 (u32 (sg_tsVal seg - c_tsRecent c)) <? 0)
  then count_ (bump PAWSDrops) else
  if Has (sg_flags seg) TCPFlagRST then validateRST seg else
  if Has (sg_flags seg) TCPFlagSYN && negb (bool_decide (c_state c = stateSynRcvd)) then sendACK else
  when_ (c_tsEnabled c && sg_hasTS seg && has_rcv c &&
         negb (seqGreaterThan (sg_seq seg) (c_tsLastAckSent c)))
    (setc (λ c, c <| c_tsRecent := sg_tsVal seg |>));;
  dispatchState seg.

(** * The run loop

    [run_start] is what precedes the loop.  Each case of the [select] is one
    event; [true] means that the loop returned. *)
Definition run_start : conn_m unit :=
  setc (λ c, c <| c_rtoTimer := None |> <| c_timeWaitTimer := None |>
               <| c_delayedACKTimer := None |> <| c_zeroWindowTimer := None |>
               <| c_finWait2Timer := None |> <| c_keepaliveTimer := None |>
               <| c_synRcvdTimer :=
                    if bool_decide (c_state c = stateSynRcvd)
                    then Some (synRcvdTimeout (c_cfg c)) else None |>);;
  updateSnapshot.

Definition arm_rto : conn_m unit :=
  s ← get_snd;
  when_ (hasUnacked s) (setc (λ c, c <| c_rtoTimer := Some (s_rto s) |>)).

(** What follows [handleSegment] in the [inbound] case. *)
Definition after_segment : conn_m unit :=
  updateSnapshot;;
  c ← getc;
  match c_snd c with
  | None => skip
  | Some s =>
      setc (λ c, c <| c_rtoTimer := if hasUnacked s then Some (s_rto s) else None |>);;
      when_ (c_finPending c)
        (sendPending;;
         c ← getc;
         n ← lift (Len (c_writeBuf c));
         when_ (n =? 0) finalizeFIN)
  end.

Definition on_inbound (pb : PacketBuffer) : conn_m bool :=
  handleSegment pb;;
  c ← getc;
  (if c_accepting c then skip else after_segment);;
  mret false.

(** A connection waiting in [handleSynRcvd] goes on once there is room. *)
Definition on_accept_room : conn_m bool :=
  offer_accept;;
  c ← getc;
  (if c_accepting c then skip else after_segment);;
  mret false.

Definition on_rto : conn_m bool :=
  setc (λ c, c <| c_rtoTimer := None |>);;
  c ← getc;
  match c_snd c with
  | None => mret false
  | Some _ =>
      handleRTO;;
      updateSnapshot;;
      c ← getc;
      when_ (negb (bool_decide (c_state c = stateClosed))) arm_rto;;
      mret false
  end.

Definition on_delayedACK : conn_m bool :=
  setc (λ c, c <| c_delayedACKTimer := None |>);;
  sendACK;;
  setc (λ c, c <| c_unackedSegs := 0 |>);;
  mret false.

Definition on_zeroWindow : conn_m bool :=
  setc (λ c, c <| c_zeroWindowTimer := None |>);;
  c ← getc;
  when_ (has_snd c && c_zeroWindowProbing c)
    (sendZeroWindowProbe;;
     setc (λ c, let i := Z.min (c_probeInterval c * 2) (maxZWPInterval (c_cfg c)) in
                c <| c_probeInterval := i |> <| c_zeroWindowTimer := Some i |>));;
  mret false.

Definition on_keepalive : conn_m bool :=
  setc (λ c, c <| c_keepaliveTimer := None |>);;
  c ← getc;
  match c_snd c with
  | Some s =>
      if negb (bool_decide (c_state c = stateEstablished)) then mret false else
      if hasUnacked s then
        setc (λ c, c <| c_keepaliveTimer := Some (keepaliveIdle (c_cfg c)) |>);; mret false
      else
        setc (λ c, c <| c_keepaliveProbes := c_keepaliveProbes c + 1 |>);;
        c ← getc;
        if c_keepaliveProbes c >? keepaliveCount (c_cfg c) then
          count_ (λ st, bump TotalReset (bump TimeoutKeepalive st));;
          sendRSTSegment (s_nxt s);;
          closeDone;;
          updateSnapshot;;
          mret true
        else
          sendKeepaliveProbe;;
          setc (λ c, c <| c_keepaliveTimer := Some (keepaliveInterval (c_cfg c)) |>);;
          mret false
  | None => mret false
  end.

Definition on_writeNotify : conn_m bool :=
  setc (λ c, c <| c_writeNotify := false |>);;
  c ← getc;
  when_ (has_snd c)
    (sendPending;;
     updateSnapshot;;
     resetKeepalive;;
     checkZeroWindow;;
     setc (λ c, if c_unackedSegs c >? 0
                then c <| c_delayedACKTimer := None |> <| c_unackedSegs := 0 |> else c);;
     arm_rto;;
     c ← getc;
     n ← lift (Len (c_writeBuf c));
     when_ (c_finPending c && (n =? 0)) finalizeFIN);;
  mret false.

Definition on_windowNotify : conn_m bool :=
  setc (λ c, c <| c_windowNotify := false |>);;
  c ← getc;
  w ← (if c_lastWndZero c && has_rcv c then lift (wnd c) else mret 0);
  when_ (w >? 0)
    (setc (λ c, c <| c_lastWndZero := false |>);;
     sendACK;;
     setc (λ c, c <| c_unackedSegs := 0 |>));;
  mret false.

Definition on_closeCh : conn_m bool :=
  setc (λ c, c <| c_closeCh := false |>);;
  handleClose;;
  updateSnapshot;;
  c ← getc;
  when_ (has_snd c) arm_rto;;
  mret false.

Definition on_forceClose : conn_m bool := forceCloseFromRun;; updateSnapshot;; mret true.

Definition on_synRcvdTimeout : conn_m bool :=
  setc (λ c, c <| c_synRcvdTimer := None |>);;
  c ← getc;
  if bool_decide (c_state c = stateSynRcvd) then
    count_ (bump TimeoutSynRcvd);; closeDone;; updateSnapshot;; mret true
  else mret false.

Definition on_finWait2Timeout : conn_m bool :=
  setc (λ c, c <| c_finWait2Timer := None |>);;
  c ← getc;
  if bool_decide (c_state c = stateFinWait2) then
    count_ (bump TimeoutFinWait2);; closeDone;; updateSnapshot;; mret true
  else mret false.

Inductive run_event :=
| EvInbound | EvAcceptRoom | EvRTO | EvDelayedACK | EvZeroWindow | EvKeepalive
| EvWriteNotify | EvWindowNotify | EvCloseCh | EvForceClose | EvSynRcvdTimeout
| EvFinWait2Timeout | EvTimeWait | EvDone.

(** Whether the case can be taken. *)
Definition ready (ev : run_event) (c : TCPConn) (w : World) : bool :=
  if c_accepting c then
    match ev with EvAcceptRoom => c_done c || (zlen (w_acceptQ w) <? w_acceptCap w) | _ => false end
  else
  match ev with
  | EvInbound => negb (zlen (c_inbound c) =? 0)
  | EvAcceptRoom => false
  | EvRTO => bool_decide (is_Some (c_rtoTimer c))
  | EvDelayedACK => bool_decide (is_Some (c_delayedACKTimer c))
  | EvZeroWindow => bool_decide (is_Some (c_zeroWindowTimer c))
  | EvKeepalive => bool_decide (is_Some (c_keepaliveTimer c))
  | EvWriteNotify => c_writeNotify c
  | EvWindowNotify => c_windowNotify c
  | EvCloseCh => c_closeCh c
  | EvForceClose => c_forceCloseCh c
  | EvSynRcvdTimeout => bool_decide (is_Some (c_synRcvdTimer c))
  | EvFinWait2Timeout => bool_decide (is_Some (c_finWait2Timer c))
  | EvTimeWait => bool_decide (is_Some (c_timeWaitTimer c))
  | EvDone => c_done c
  end.

Definition run_step (ev : run_event) : conn_m bool :=
  match ev with
  | EvInbound =>
      c ← getc;
      match c_inbound c with
      | pb :: rest => setc (λ c, c <| c_inbound := rest |>);; on_inbound pb
      | [] => mret false
      end
  | EvAcceptRoom => on_accept_room
  | EvRTO => on_rto
  | EvDelayedACK => on_delayedACK
  | EvZeroWindow => on_zeroWindow
  | EvKeepalive => on_keepalive
  | EvWriteNotify => on_writeNotify
  | EvWindowNotify => on_windowNotify
  | EvCloseCh => on_closeCh
  | EvForceClose => on_forceClose
  | EvSynRcvdTimeout => on_synRcvdTimeout
  | EvFinWait2Timeout => on_finWait2Timeout
  | EvTimeWait | EvDone => mret true
  end.

(** The deferred [closeDone] and [cleanup]; removing the connection from the
    handler's table is the caller's. *)
Definition run_exit : conn_m unit :=
  closeDone;;
  c ← getc;
  count_ (λ st, let st := bump TotalClosed st in
                if c_statsActive c then st <| ActiveConns := ActiveConns st - 1 |> else st);;
  setc (λ c, c <| c_inbound := [] |> <| c_rtoTimer := None |> <| c_timeWaitTimer := None |>
               <| c_delayedACKTimer := None |> <| c_zeroWindowTimer := None |>
               <| c_finWait2Timer := None |> <| c_keepaliveTimer := None |>
               <| c_synRcvdTimer := None |>).

(** [for (bufSize >> (16 + scale)) > 0 { scale++ }]: an [int] has 63 bits, so
    the condition is false after 47 rounds at the latest. *)
Fixpoint scaleLoop (fuel : nat) (bufSize scale : Z) : outcome Z :=
  match fuel with
  | O => OutOfFuel
  | S fuel =>
      if Z.shiftr bufSize (16 + scale) >? 0 then scaleLoop fuel bufSize (u8 (scale + 1)) else Ret scale
  end.

Definition calculateWindowScale (bufSize : Z) : outcome Z :=
  if bufSize <=? 65535 then Ret 0 else
  scale ← scaleLoop 48 bufSize 0;
  Ret (if scale >? MaxWndScale then MaxWndScale else scale).
