(* ===== verification/StreamFacts.v ===== *)
(** The byte stream seen by the application: segments that arrive and calls
    of [Read], in any interleaving, starting from a new connection. *)
From S2P Require Import Prelude.
From S2P Require Import Tcpip.
From S2P Require Import TcpHeader.
From S2P Require Import Packet.
From S2P Require Import Stack.
From S2P Require Import Ringbuf.
From S2P Require Import Seq.
From S2P Require Import TcpConn.
From S2P Require Import Rcv.
From S2P Require Import OooFacts.
From S2P Require Import Segment.
From S2P Require Import RcvData.
From S2P Require Import RcvFacts.
From S2P Require Import Conn.

(** A segment with [k] bytes of the stream from position [p], or a call of
    [Read] with a buffer of [m] bytes. *)
Inductive rcv_event := Arrives (p k : Z) | Reads (m : Z).

Definition read_data (res : read_round) : bytes :=
  match res with ReadReturns d _ => d | ReadWaits _ => [] end.

(** The final state and all bytes the application has read. *)
Fixpoint rcv_run (stream : Z → Z) (base : Z) (e : Env) (evs : list rcv_event) (s : CS) :
    outcome (CS * bytes) :=
  match evs with
  | [] => Ret (s, [])
  | Arrives p k :: evs =>
      '(s, _) ← handleData (seq_of base p) (piece stream p k) e s;
      rcv_run stream base e evs s
  | Reads m :: evs =>
      '(c, res) ← Read_conn m (cs_conn s);
      '(s, out) ← rcv_run stream base e evs (mkCS c (cs_world s));
      Ret (s, read_data res ++ out)
  end.

Definition event_ok (n : Z) (ev : rcv_event) : Prop :=
  match ev with
  | Arrives p k => 0 ≤ p ∧ 0 < k ∧ p + k ≤ n
  | Reads m => 0 < m
  end.

Definition received (evs : list rcv_event) (q : Z) : Prop :=
  ∃ p k, Arrives p k ∈ evs ∧ p ≤ q < p + k.

Lemma received_arrives p k evs q :
  received (Arrives p k :: evs) q ↔ p ≤ q < p + k ∨ received evs q.
Proof. unfold received. set_solver. Qed.
Lemma received_reads m evs q : received (Reads m :: evs) q ↔ received evs q.
Proof. unfold received. set_solver. Qed.

(** A round of [Read] changes the buffer and the signal to the loop only. *)
Lemma Read_conn_ring c m :
  ring_ok (c_readBuf c) → 0 < m →
  ∃ rb b res, Read_conn m c = Ret (c <| c_readBuf := rb |> <| c_windowNotify := b |>, res) ∧ ring_ok rb ∧
    read_data res ++ contents rb = contents (c_readBuf c) ∧ Cap rb = Cap (c_readBuf c) ∧
    rb_closed rb = rb_closed (c_readBuf c) ∧
    (res = ReadReturns [] (Some EOF) ∧ contents rb = [] ∧ rb_closed rb = true ∨
     ∀ d err, res = ReadReturns d err → err = None ∧ d ≠ []).
Proof.
  intros Hok Hm. set (rb := c_readBuf c) in *.
  destruct (ring_step_ok rb (OpRead m)) as (rb' & o & E & Hok' & Hq); [done|exact Hm|].
  apply bind_Ret in E as ([rb1 res] & E & [= -> Eo]). cbn [queue_step abs q_closed q_items] in Hq.
  exists rb', ((zlen (read_data res) >? 0) || c_windowNotify c), res. unfold Read_conn. fold rb. rewrite E, bind_Ret_l.
  split; [destruct res as [d err|]; cbn; [destruct (zlen d >? 0)|]; cbn; done|]. split; [done|].
  destruct (contents rb) as [|b d] eqn:Hc; [destruct (rb_closed rb) eqn:Hcl|].
  - injection Hq as Hc' Hcap Hcl' Ho. rewrite <- Ho in Eo. destruct res as [d' ?|]; [|done]. injection Eo as -> ->.
    split_and!; [cbn; congruence..|]. left. split_and!; congruence.
  - injection Hq as Hc' Hcap Hcl' Ho. rewrite <- Ho in Eo. destruct res; [done|].
    split_and!; [cbn; congruence..|]. by right.
  - injection Hq as Hc' Hcap Hcl' Ho. rewrite <- Ho in Eo. destruct res as [d' ?|]; [|done].
    injection Eo as -> ->. cbn [read_data]. rewrite <- Hc', Hc. split_and!; [apply ztake_zdrop|congruence..|].
    right. intros d1 err [= <- <-]. split; [done|]. unfold ztake. by destruct (Z.to_nat m) eqn:Hz; [lia|].
Qed.

Section stream.
Context (stream : Z → Z) (base lim : Z).
Hypothesis Hlim : lim < span_limit.

Lemma Read_conn_open s r n l m :
  stream_open stream base lim s r n l → 0 < m →
  ∃ c res, Read_conn m (cs_conn s) = Ret (c, res) ∧
    let s' := mkCS c (cs_world s) in
    stream_open stream base lim s' r n l ∧ read_data res ++ unread s' = unread s ∧ room s ≤ room s'.
Proof.
  intros [[[Hr Hok ? ? ?] Hcl ? ? Hsp ? ? ?] ?] Hm.
  destruct (Read_conn_ring (cs_conn s) m Hok Hm) as (rb' & b & res & -> & Hok' & Ec & Ecap & Ecl' & _).
  set (rb := c_readBuf (cs_conn s)) in *.
  set (s' := mkCS ((cs_conn s) <| c_readBuf := rb' |> <| c_windowNotify := b |>) (cs_world s)).
  assert (used rb' ≤ used rb) as Hu.
  { rewrite <- !zlen_contents by done. rewrite <- Ec, zlen_app. pose proof (zlen_nonneg (read_data res)). lia. }
  assert (room s ≤ room s') as Hroom by (unfold room; cbn; fold rb; lia).
  eexists _, res. split; [reflexivity|]. cbv zeta. fold s'. split; [|done].
  assert (rcv_ok lim s' r) as Hok2 by (split; try done; cbn; lia).
  pose proof (room_range _ _ _ Hok2).
  split; [split; try done; [by cbn; rewrite Ecl'| |lia..]|done]. eapply spans_ok_weaken; [exact Hsp|lia..].
Qed.

Lemma Read_conn_run s r n l m :
  stream_inv stream base lim s r n l → 0 < m →
  ∃ c res, Read_conn m (cs_conn s) = Ret (c, res) ∧
    let s' := mkCS c (cs_world s) in
    stream_inv stream base lim s' r n l ∧ read_data res ++ unread s' = unread s ∧ room s ≤ room s'.
Proof.
  intros Hinv Hm. destruct (Read_conn_open s r n l m (stream_inv_open _ _ _ _ _ _ _ Hinv) Hm)
    as (c & res & E & [] & ?). exists c, res. split; [done|]. split; [|done]. by destruct Hinv; split.
Qed.
Lemma rcv_run_ok e N evs s r n l :
  stream_inv stream base lim s r n l → Forall (event_ok N) evs → 0 ≤ n ≤ N → N < span_limit →
  (∀ q, covered l q → q < N) →
  ∃ s' r' n' l' out, rcv_run stream base e evs s = Ret (s', out) ∧
    stream_inv stream base lim s' r' n' l' ∧ n ≤ n' ∧
    out ++ unread s' = unread s ++ piece stream n (n' - n) ∧
    (∀ q, q < n' ∨ covered l' q → q < n ∨ covered l q ∨ received evs q) ∧
    (N ≤ n + room s → ∀ q, q < n ∨ covered l q ∨ received evs q → q < n' ∨ covered l' q).
Proof.
  revert s r n l. induction evs as [|ev evs IH]; intros s r n l Hinv Hevs Hn HN HlN.
  { exists s, r, n, l, []. rewrite Z.sub_diag, app_nil_r. unfold received.
    split_and!; try done; [tauto|]. intros _ q [?|[?|(? & ? & ?%elem_of_nil & _)]]; tauto. }
  apply Forall_cons in Hevs as [Hev Hevs]. destruct ev as [p k|m]; cbn [rcv_run event_ok] in *.
  - destruct (handleData_run stream base lim Hlim e s r n l p k)
      as (s1 & r1 & n1 & l1 & E & Hinv1 & [_ _ Hun Hle Hedge] & Hq); [done|lia..|].
    assert (HlN1 : ∀ q, q < n1 ∨ covered l1 q → q < N).
    { intros q [?|[?%HlN|?]]%Hq; lia. }
    destruct (IH _ _ _ _ Hinv1) as (s' & r' & n' & l' & out & E' & Hinv' & Hle' & Hout & H1 & H2); try done.
    { pose proof (HlN1 (n1 - 1)). lia. } { by eauto. }
    rewrite E, bind_Ret_l, E'. exists s', r', n', l', out. setoid_rewrite received_arrives.
    split_and!; try done; [lia| | |].
    + rewrite Hout, Hun, <- app_assoc. f_equal. replace n1 with (n + (n1 - n)) at 2 by lia.
      rewrite piece_app by lia. f_equal. lia.
    + intros q ?%H1. specialize (Hq q). tauto.
    + intros HNr q Hin. apply H2; [lia|]. specialize (Hq q). destruct Hin as [?|[?|[?|?]]]; try tauto.
      assert (q < n + room s) by lia. tauto.
  - destruct (Read_conn_run s r n l m) as (c & res & E & Hinv1 & Hun & Hroom); [done..|].
    rewrite E, bind_Ret_l.
    destruct (IH _ _ _ _ Hinv1) as (s' & r' & n' & l' & out & E' & Hinv' & Hle & Hout & H1 & H2); [done..|].
    rewrite E', bind_Ret_l. exists s', r', n', l', (read_data res ++ out).
    split_and!; try done; [by rewrite <- app_assoc, Hout, app_assoc, Hun| |].
    + intros q ?%H1. rewrite received_reads. tauto.
    + intros HNr q ?. apply H2; [lia|]. rewrite received_reads in *. tauto.
Qed.
End stream.

(** A new receiver with an empty buffer is at the start of the stream. *)
Lemma fresh_stream_inv stream irs s size rs ms :
  0 < size → newRingBuffer size = Ret (c_readBuf (cs_conn s)) →
  c_rcv (cs_conn s) = Some (newReceiver irs (c_readBuf (cs_conn s)) rs ms) →
  c_readShutdown (cs_conn s) = false →
  size < span_limit → rs < span_limit → ms < span_limit →
  ∃ lim, lim < span_limit ∧
    stream_inv stream (irs + 1) lim s (newReceiver irs (c_readBuf (cs_conn s)) rs ms) 0 [] ∧
    unread s = [] ∧ room s = size.
Proof.
  intros Hsz Hrb Hr Hsh Hs Hrs Hms.
  destruct (newRingBuffer_ok size) as (rb & E & Hok & Habs); [done|]. rewrite Hrb in E. injection E as <-.
  injection Habs as Hc Hcap Hcl. set (r := newReceiver _ _ _ _) in Hr |- *.
  set (lim := Z.max size (Z.max (Z.max rs 0) (Z.max ms 0))).
  assert (Hroom : room s = size).
  { unfold room. rewrite <- zlen_contents by done. rewrite Hc, Hcap. unfold zlen. cbn. lia. }
  exists lim. split; [unfold span_limit in *; lia|]. split; [|by split].
  split; [|done|done]. rewrite Hroom. split; try done; try lia.
  - split; try done; try lia; unfold r, newReceiver; cbn; destruct (_ || _); lia.
  - unfold seq_of. cbn. f_equal. lia.
Qed.

(** C8: the application reads the peer's stream, in order and each byte once.
    From a new connection, whatever segments of the stream arrive (in any
    order, overlapping, repeated) between whatever calls of [Read] that ask for
    at least one byte, nothing panics, and the bytes read so far followed by the ones in the read buffer
    are a prefix of the stream made of received bytes only; when the stream
    fits the buffer, it is the longest prefix received without a gap. *)
Theorem stream_in_order_once stream irs e evs s size rs ms N :
  0 < size → newRingBuffer size = Ret (c_readBuf (cs_conn s)) →
  c_rcv (cs_conn s) = Some (newReceiver irs (c_readBuf (cs_conn s)) rs ms) →
  c_readShutdown (cs_conn s) = false →
  size < span_limit → rs < span_limit → ms < span_limit →
  Forall (event_ok N) evs → 0 ≤ N < span_limit →
  ∃ s' out n, rcv_run stream (irs + 1) e evs s = Ret (s', out) ∧ 0 ≤ n ∧
    out ++ unread s' = piece stream 0 n ∧
    (∀ q, 0 ≤ q < n → received evs q) ∧
    (N ≤ size → ∀ m, (∀ q, 0 ≤ q < m → received evs q) → m ≤ n).
Proof.
  intros Hsz Hrb Hr Hsh Hs Hrs Hms Hevs HN.
  destruct (fresh_stream_inv stream irs s size rs ms) as (lim & Hlim & Hinv & Hun & Hroom); [done..|].
  destruct (rcv_run_ok stream (irs + 1) lim Hlim e N evs s _ 0 [] Hinv)
    as (s' & r' & n & l' & out & E & Hinv' & Hn & Hout & H1 & H2); [done|lia|lia|by intros q ?%Exists_nil|].
  exists s', out, n. rewrite Z.sub_0_r, Hun in Hout.
  split; [done|]. split; [done|]. split; [done|]. split.
  - intros q Hq. destruct (H1 q) as [?|[?%Exists_nil|?]]; [lia..|done|done].
  - intros HNs m Hm. destruct (Z.le_gt_cases m n) as [|Hgt]; [done|].
    destruct (H2 ltac:(lia) n) as [|Hcov]; [right; right; apply Hm; lia|lia|].
    apply Exists_exists in Hcov as (sp & Hin & Hsp).
    destruct (spans_ok_in _ _ _ _ (st_spans _ _ _ _ _ _ _ _ _ (in_at _ _ _ _ _ _ _ Hinv')) Hin).
    unfold in_span in Hsp. lia.
Qed.

Definition sample_stream (q : Z) : Z := q mod 251.
Definition sample_fresh : CS :=
  let rb := mkRing (make_bytes 64) 0 0 false 0 0 false in
  mkCS (sample_conn stateEstablished None (Some (newReceiver 5000 rb 0 0)) rb
          (mkRing (make_bytes 64) 0 0 false 0 0 false)) sample_world.

Lemma stream_in_order_once_witness :
  ∃ s' out n,
    rcv_run sample_stream 5001 sample_env [Arrives 10 10; Reads 4; Arrives 0 12; Reads 5] sample_fresh
      = Ret (s', out) ∧ 0 ≤ n ∧
    out ++ unread s' = piece sample_stream 0 n ∧
    (∀ q, 0 ≤ q < n → received [Arrives 10 10; Reads 4; Arrives 0 12; Reads 5] q) ∧
    (20 ≤ 64 → ∀ m, (∀ q, 0 ≤ q < m → received [Arrives 10 10; Reads 4; Arrives 0 12; Reads 5] q) → m ≤ n).
Proof.
  apply (stream_in_order_once sample_stream 5000 sample_env _ sample_fresh 64 0 0 20);
    try reflexivity; try (unfold span_limit; lia).
  repeat constructor; cbn; lia.
Defined.
