(* ===== verification/Transfer.v ===== *)
(** One direction of a connection from end to end: the sender's runs, and the
    receiver given any choice of the segments the sender put on the wire. *)
From S2P Require Import Prelude.
From S2P Require Import Tcpip.
From S2P Require Import TcpHeader.
From S2P Require Import Packet.
From S2P Require Import Stack.
From S2P Require Import Ringbuf.
From S2P Require Import Seq.
From S2P Require Import TcpConn.
From S2P Require Import Rcv.
From S2P Require Import OooFacts.
From S2P Require Import Segment.
From S2P Require Import SegmentFacts.
From S2P Require Import RcvData.
From S2P Require Import RcvFacts.
From S2P Require Import Snd.
From S2P Require Import SndFacts.
From S2P Require Import Conn.
From S2P Require Import StreamFacts.

(** * Runs of the sender *)

(** The application writes the next [k] bytes of its stream (one round of
    [Write]), the loop sends what the windows allow, an acknowledgement of
    position [v] arrives, or the retransmission timer expires. *)
Inductive snd_event := Writes (k : Z) | Sends | Acked (v : Z) | TimesOut.

(** What a round of [Write] from the start of its data took. *)
Definition taken (res : write_round) : Z := match res with WriteGoesOn n => n | _ => 0 end.

Section runs.
Context (stream : Z → Z) (base : Z).

(** [w] counts the bytes written so far.  A timeout with no retries left ends
    the connection, and the run is not followed further. *)
Definition snd_step (e : Env) (ev : snd_event) (s : CS) (w : Z) : outcome (CS * Z) :=
  match ev with
  | Writes k =>
      '(c, res) ← Write_conn (piece stream w k) 0 (cs_conn s);
      Ret (mkCS c (cs_world s), w + taken res)
  | Sends => '(s, _) ← sendPending e s; Ret (s, w)
  | Acked v => '(s, _) ← handleACK (seq_of base v) e s; Ret (s, w)
  | TimesOut =>
      match c_snd (cs_conn s) with
      | Some x =>
          if (zlen (s_unacked x) =? 0) || negb (c_zeroWindowProbing (cs_conn s) || (s_retries x <? s_maxRetries x))
          then Ret (s, w) else '(s, _) ← handleRTO e s; Ret (s, w)
      | None => Ret (s, w)
      end
  end.

Fixpoint snd_run (evs : list (Env * snd_event)) (s : CS) (w : Z) : outcome (CS * Z) :=
  match evs with
  | [] => Ret (s, w)
  | (e, ev) :: evs => '(s, w) ← snd_step e ev s w; snd_run evs s w
  end.

(** Acknowledgements are of positions in the first gigabyte. *)
Definition snd_event_ok (ev : Env * snd_event) : Prop :=
  env_ok ev.1 ∧
  match ev.2 with
  | Writes k => 0 < k
  | Acked v => 0 ≤ v < span_limit
  | _ => True
  end.

(** The packets sent between two states hold the segments [l]. *)
Definition puts_out (s s' : CS) (l : list sent_item) : Prop :=
  c_flow (cs_conn s') = c_flow (cs_conn s) ∧
  ∃ ps, w_sent (cs_world s') = w_sent (cs_world s) ++ ps ∧
    Forall2 (item_packet stream base (c_flow (cs_conn s))) ps l.

Lemma puts_out_refl s : puts_out s s [].
Proof. split; [done|]. exists []. by rewrite app_nil_r. Qed.
Lemma puts_out_trans s1 s2 s3 l l' : puts_out s1 s2 l → puts_out s2 s3 l' → puts_out s1 s3 (l ++ l').
Proof.
  intros (Hf & ps & E & H) (Hf' & ps' & E' & H'). split; [congruence|]. exists (ps ++ ps').
  rewrite E', E, app_assoc. split; [done|]. apply Forall2_app; [done|]. by rewrite <- Hf.
Qed.
Lemma sends_puts_out s s' l : sends stream base s s' l → puts_out s s' l.
Proof. intros [Ha Hs _]. split; [by apply aside_flow|done]. Qed.

(** The sender between its events. *)
Definition sending (s : CS) (w : Z) : Prop :=
  ∃ x rc a u n, snd_at stream base w false s x rc a u n ∧ 0 ≤ a ∧ u - a < MaxPayloadSize.

Definition in_stream (w : Z) (it : sent_item) : Prop :=
  match it with
  | SData p k => 0 ≤ p ∧ 0 < k ∧ p + k ≤ w
  | SLarge p k mss => 0 ≤ p ∧ 0 < k ∧ p + k ≤ w ∧ 0 < mss
  | SFin _ => False
  end.

(** A round of [Write] appends what it takes; [t] bytes were taken before. *)
Lemma Write_round_at rb w k t :
  ring_ok rb → 0 ≤ t ≤ k →
  ∃ rb' res, Write_round rb (piece stream (w - t) k) t = Ret (rb', res) ∧ ring_ok rb' ∧ rb_closed rb' = rb_closed rb ∧
    match res with
    | WriteGoesOn t' => t ≤ t' ≤ k ∧ rb_closed rb = false ∧ contents rb' = contents rb ++ piece stream w (t' - t)
    | _ => contents rb' = contents rb
    end.
Proof.
  intros Hok Hk. pose proof (used_range rb Hok).
  destruct (ring_step_ok rb (OpWrite (piece stream (w - t) k) t)) as (rb' & o & E & Hok' & Hq); [done|cbn; lia|].
  apply bind_Ret in E as ([rb1 res] & E & [= -> Eo]). exists rb', res. split; [exact E|]. split; [exact Hok'|].
  cbn [queue_step] in Hq. rewrite zlen_piece', abs_room in Hq by (done || lia).
  assert (∀ q', (abs rb, q') = (abs rb', o) → rb_closed rb' = rb_closed rb ∧ contents rb' = contents rb ∧ q' = o) as Hsame.
  { intros q' [= ? ? ? ?]. by split_and!. }
  destruct (Z.leb_spec k t).
  { destruct (Hsame _ Hq) as (? & ? & <-). split; [done|]. by destruct res. }
  destruct (q_closed (abs rb)) eqn:Hcl.
  { destruct (Hsame _ Hq) as (? & ? & <-). split; [done|]. by destruct res. }
  destruct (Z.eqb_spec (Cap rb - used rb) 0).
  { destruct (Hsame _ Hq) as (? & ? & <-). split; [done|]. by destruct res. }
  injection Hq as Hc _ Hcl' Ho. rewrite <- Ho in Eo. destruct res as [| |t']; try done. injection Eo as Et.
  split; [done|]. destruct Hok. split; [lia|]. split; [exact Hcl|]. rewrite <- Hc. f_equal. rewrite abs_room by done.
  rewrite zdrop_piece by lia. replace (w - t + t) with w by lia.
  destruct (Z.le_gt_cases (Cap rb - used rb) (k - t)); [rewrite ztake_piece by lia; f_equal; lia|].
  rewrite ztake_all by (rewrite zlen_piece'; lia). f_equal. lia.
Qed.

Lemma Write_round_takes rb w k :
  ring_ok rb → 0 < k →
  ∃ rb' res, Write_round rb (piece stream w k) 0 = Ret (rb', res) ∧ ring_ok rb' ∧
    0 ≤ taken res ≤ k ∧ contents rb' = contents rb ++ piece stream w (taken res).
Proof.
  intros Hok Hk. destruct (Write_round_at rb w k 0 Hok) as (rb' & res & E & Hok' & _ & Hres); [lia|].
  rewrite Z.sub_0_r in E. exists rb', res. split; [done|]. split; [done|].
  destruct res as [| |t']; cbn [taken]; [rewrite Hres, app_nil_r; by split; [lia|]..|].
  rewrite Z.sub_0_r in Hres. by destruct Hres as (? & _ & ?).
Qed.

Lemma write_step s w k :
  sending s w → 0 < k →
  ∃ c res, Write_conn (piece stream w k) 0 (cs_conn s) = Ret (c, res) ∧
    0 ≤ taken res ≤ k ∧ sending (mkCS c (cs_world s)) (w + taken res) ∧ c_flow c = c_flow (cs_conn s).
Proof.
  intros (x & rc & a & u & n & Hat & Ha & Hua) Hk.
  assert (ring_ok (c_writeBuf (cs_conn s))) as Hok by apply Hat.
  destruct (Write_round_takes _ w k Hok Hk) as (rb' & res & E & Hok' & Ht & Hc).
  unfold Write_conn. rewrite E, bind_Ret_l.
  assert (∀ b, sending (mkCS ((cs_conn s) <| c_writeBuf := rb' |> <| c_writeNotify := b |>) (cs_world s))
    (w + taken res)) as Hs.
  { intros b. pose proof Hat as [? ? ? _ Hcon ? ? ? ? ? ? ? ? ? ? Hw]. pose proof (used_range _ Hok).
    assert (used rb' = used (c_writeBuf (cs_conn s)) + taken res) as Hu.
    { rewrite <- !zlen_contents by done. rewrite Hc, zlen_app, zlen_piece' by lia. lia. }
    exists x, rc, a, u, n. split; [|split; lia]. split; try done; cbn; [|lia].
    rewrite Hc, Hcon, Hu, <- Hw. by rewrite piece_app by lia. }
  destruct res as [t err| |]; [destruct (t >? 0)|..].
  - eexists _, _. split; [reflexivity|]. split; [done|]. by split; [apply (Hs true)|].
  - eexists _, _. split; [reflexivity|]. split; [done|].
    by split; [apply (Hs (c_writeNotify (cs_conn s)))|].
  - eexists _, _. split; [reflexivity|]. split; [done|].
    by split; [apply (Hs (c_writeNotify (cs_conn s)))|].
  - eexists _, _. split; [reflexivity|]. split; [done|].
    by split; [apply (Hs (c_writeNotify (cs_conn s)))|].
Qed.

(** All that is in flight has been written. *)
Lemma snd_at_written w s x rc a u n : snd_at stream base w false s x rc a u n → u ≤ n ≤ w.
Proof.
  intros Hat. pose proof (used_range _ (sa_wring _ _ _ _ _ _ _ _ _ _ Hat)).
  destruct Hat as [? ? ? ? ? ? ? ? Hp]. cbn in Hp. lia.
Qed.
Lemma flight_in_stream w s x rc a u n l :
  snd_at stream base w false s x rc a u n → 0 ≤ a → Forall (in_flight false a n) l → Forall (in_stream w) l.
Proof.
  intros Hat%snd_at_written Ha Hl. eapply Forall_impl; [exact Hl|]. intros [p k|p k m|p]; cbn; [lia..|]. by intros [? _].
Qed.

Definition written_by (ev : snd_event) : Z := match ev with Writes k => k | _ => 0 end.

Lemma snd_step_ok e ev s w :
  sending s w → snd_event_ok (e, ev) → w < span_limit →
  ∃ s' w' l, snd_step e ev s w = Ret (s', w') ∧ sending s' w' ∧ w ≤ w' ≤ w + written_by ev ∧
    puts_out s s' l ∧ Forall (in_stream w') l.
Proof.
  intros Hs (Henv & Hev) Hw. cbn [fst snd] in *.
  destruct ev as [k| |v|]; cbn [snd_step written_by].
  - destruct (write_step s w k Hs Hev) as (c & res & E & Ht & Hs' & Hfl). rewrite E, bind_Ret_l.
    eexists _, _, []. split; [reflexivity|]. split; [done|]. split; [lia|]. split; [|done].
    split; [done|]. exists []. by rewrite app_nil_r.
  - destruct Hs as (x & rc & a & u & n & Hat & Ha & Hua).
    destruct (sendPending_run stream base w e false s x rc a u n) as (s' & x' & n' & l & E & Hat' & Hs & Hd & _);
      [done..|]. rewrite E, bind_Ret_l. exists s', w, l. split; [done|]. split; [by exists x', rc, a, u, n'|].
    split; [lia|]. split; [by apply sends_puts_out|].
    assert (a ≤ n) as Han by (pose proof (sa_pos _ _ _ _ _ _ _ _ _ _ Hat); cbn in *; lia).
    eapply flight_in_stream; [exact Hat'|done|]. by apply (data_in_flight false (s_mss x) n n' l a Hd Han).
  - destruct Hs as (x & rc & a & u & n & Hat & Ha & Hua). pose proof (sa_pos _ _ _ _ _ _ _ _ _ _ Hat) as Hp.
    pose proof (snd_at_written _ _ _ _ _ _ _ Hat). cbn [Z.b2z] in Hp.
    destruct (handleACK_run stream base w e false rc Henv s x a u n v)
      as (s' & x' & a' & n' & l & E & Hat' & Haa & Hua' & Hn & Hs & Hl); [done|done|unfold span_limit in *; lia|].
    rewrite E, bind_Ret_l. exists s', w, l. split; [done|].
    split; [eexists x', rc, a', _, n'; split; [exact Hat'|lia]|].
    split; [lia|]. split; [by apply sends_puts_out|]. eapply flight_in_stream; [exact Hat'|lia|done].
  - destruct Hs as (x & rc & a & u & n & Hat & Ha & Hua). rewrite (sa_snd _ _ _ _ _ _ _ _ _ _ Hat).
    assert (Hstay : ∃ s' w' l, Ret (s, w) = Ret (s', w') ∧ sending s' w' ∧ w ≤ w' ≤ w + 0 ∧
      puts_out s s' l ∧ Forall (in_stream w') l).
    { exists s, w, []. split; [done|]. split; [by exists x, rc, a, u, n|]. split; [lia|].
      split; [apply puts_out_refl|done]. }
    destruct (Z.eqb_spec (zlen (s_unacked x)) 0) as [|Hne]; cbn [orb]; [exact Hstay|].
    destruct (c_zeroWindowProbing _ || _) eqn:Eretry; cbn [negb]; [|exact Hstay].
    destruct (handleRTO_run stream base w e false rc s x a u n) as (s' & x' & it & E & Hat' & Hs & Hfl & _);
      [done|by intros E0; rewrite E0 in Hne|by apply orb_prop in Eretry as [?|?]; [left|right; lia]|].
    rewrite E, bind_Ret_l. exists s', w, [it]. split; [done|]. split; [by exists x', rc, a, u, n|].
    split; [lia|]. split; [by apply sends_puts_out|].
    eapply flight_in_stream; [exact Hat'|lia|]. by constructor.
Qed.

Lemma in_stream_weaken w w' it : in_stream w it → w ≤ w' → in_stream w' it.
Proof. destruct it; cbn; lia. Qed.

Definition total_written (evs : list (Env * snd_event)) : Z := foldr (λ ev n, written_by ev.2 + n) 0 evs.

Lemma written_by_nonneg e ev : snd_event_ok (e, ev) → 0 ≤ written_by ev.
Proof. intros (_ & H). destruct ev; cbn in *; lia. Qed.
Lemma total_written_nonneg evs : Forall snd_event_ok evs → 0 ≤ total_written evs.
Proof.
  induction 1 as [|[e ev] evs H%written_by_nonneg _ IH]; [done|].
  unfold total_written in *. cbn [foldr snd]. lia.
Qed.

Lemma snd_run_ok evs s w :
  sending s w → Forall snd_event_ok evs → w + total_written evs < span_limit →
  ∃ s' w' l, snd_run evs s w = Ret (s', w') ∧ sending s' w' ∧ w ≤ w' ∧ puts_out s s' l ∧
    Forall (in_stream w') l ∧ w' ≤ w + total_written evs.
Proof.
  revert s w. induction evs as [|[e ev] evs IH]; intros s w Hs Hok Hw; cbn [snd_run total_written foldr snd] in *.
  { exists s, w, []. split_and!; try done; [apply puts_out_refl|lia]. }
  apply Forall_cons in Hok as [Hev Hok]. fold (total_written evs) in *.
  pose proof (total_written_nonneg evs Hok). pose proof (written_by_nonneg _ _ Hev).
  destruct (snd_step_ok e ev s w Hs Hev) as (s1 & w1 & l1 & E1 & Hs1 & Hw1 & Hp1 & Hl1); [lia|].
  rewrite E1, bind_Ret_l.
  destruct (IH s1 w1 Hs1 Hok) as (s' & w' & l & E & Hs' & Hw' & Hp & Hl & Hle); [lia|].
  exists s', w', (l1 ++ l). split_and!; try done; [lia|by eapply puts_out_trans| |lia].
  apply Forall_app. split; [|done]. eapply Forall_impl; [exact Hl1|]. intros it Hit. by eapply in_stream_weaken.
Qed.
End runs.

(** * The other end *)

(** The [i]th segment of a large packet of [n] bytes from position [q]: [k]
    bytes from position [p]. *)
Definition cut (q n mss i p k : Z) : Prop :=
  0 ≤ i ∧ p = q + mss * i ∧ p < q + n ∧ k = Z.min mss (q + n - p).

(** The segments that arrive are among those sent or cut from a packet sent;
    losing, repeating and reordering them is up to the network. *)
Definition from_wire (l : list sent_item) (ev : rcv_event) : Prop :=
  match ev with
  | Arrives p k => SData p k ∈ l ∨ ∃ q n mss i, SLarge q n mss ∈ l ∧ cut q n mss i p k
  | Reads m => 0 < m
  end.

(** C2: a connection delivers what was written, in order and without
    invention.  One end sends: its application writes its stream in rounds of
    any size, the send loop, acknowledgements of any position (new, repeated or
    stale) and the retransmission timer interleave in any way, with or without
    segmentation offload.  The other end gets any choice of the segments put on
    the wire or cut from the large packets there, lost, repeated and reordered
    at will, between calls of [Read].  Then neither end panics, and
    what has been read and is ready to be read is a prefix of what was written;
    if everything written arrived and fits the free space the read buffer has
    at the start, it is all of it.  Reads ask for at least one byte. *)
Theorem transfer_delivers_prefix stream base lim s evs s2 r :
  sending stream base s 0 → Forall snd_event_ok evs → total_written evs < span_limit →
  lim < span_limit → stream_inv stream base lim s2 r 0 [] → unread s2 = [] →
  ∃ s' w l, snd_run stream base evs s 0 = Ret (s', w) ∧ puts_out stream base s s' l ∧
    (∀ e revs, Forall (from_wire l) revs →
     ∃ s2' out n, rcv_run stream base e revs s2 = Ret (s2', out) ∧ n ≤ w ∧
       out ++ unread s2' = piece stream 0 n ∧
       (w ≤ room s2 → (∀ q, 0 ≤ q < w → received revs q) → n = w)).
Proof.
  intros Hs Hevs Htot Hlim Hinv Hun.
  destruct (snd_run_ok stream base evs s 0 Hs Hevs) as (s' & w & l & E & _ & Hw & Hp & Hl & Hle); [lia|].
  exists s', w, l. split; [done|]. split; [done|]. intros e revs Hrevs.
  assert (Forall (event_ok w) revs) as Hok.
  { eapply Forall_impl; [exact Hrevs|]. intros [p k|m]; cbn; [|done]. intros Hin.
    rewrite Forall_forall in Hl. destruct Hin as [Hin|(q & n & mss & i & Hin & Hi & -> & Hlt & ->)].
    - exact (Hl _ Hin).
    - specialize (Hl _ Hin). cbn in Hl. nia. }
  destruct (rcv_run_ok stream base lim Hlim e w revs s2 r 0 [])
    as (s2' & r' & n & l' & out & E' & Hinv' & Hn & Hout & H1 & H2); [done..|lia|lia|by intros q ?%Exists_nil|].
  assert (∀ q, received revs q → q < w) as Hrw.
  { intros q (p & k & Hin & Hq). rewrite Forall_forall in Hok. specialize (Hok _ Hin). cbn in Hok. lia. }
  assert (n ≤ w) as Hnw.
  { destruct (Z.le_gt_cases n 0); [lia|]. destruct (H1 (n - 1)) as [|[?%Exists_nil|?%Hrw]]; try done; lia. }
  exists s2', out, n. split; [done|]. split; [done|]. split; [by rewrite Hout, Hun, Z.sub_0_r|].
  intros Hfit Hall. destruct (Z.le_gt_cases w n) as [|Hgt]; [lia|].
  destruct (H2 ltac:(lia) n) as [|Hcov]; [right; right; apply Hall; lia|lia|].
  apply Exists_exists in Hcov as (sp & Hin & Hsp).
  destruct (spans_ok_in _ _ _ _ (st_spans _ _ _ _ _ _ _ _ _ (in_at _ _ _ _ _ _ _ Hinv')) Hin).
  unfold in_span in Hsp. lia.
Qed.

(** A sender with its windows open and nothing written yet. *)
Definition sample_snd : CS :=
  let ring := mkRing (make_bytes 32) 0 0 false 0 0 false in
  mkCS (sample_conn stateEstablished
          (Some (mkSender 5000 5001 5001 64 8 1000 0 0 200 60000 [] 0 5 80 100 0 false 0 false 64))
          (Some sample_receiver) ring ring) sample_world.

Lemma sample_snd_sending : sending sample_stream 5001 sample_snd 0.
Proof.
  eexists _, _, 0, 0, 0. split; [|done]. split; try reflexivity; try done; try (split; cbn; done).
Qed.

Definition sample_run : list (Env * snd_event) :=
  (λ ev, (sample_offload, ev)) <$> [Writes 12; Sends; Acked 8; Writes 5; TimesOut; Sends].

Lemma sample_fresh_inv :
  stream_inv sample_stream 5001 64 sample_fresh (newReceiver 5000 (c_readBuf (cs_conn sample_fresh)) 0 0) 0 [].
Proof. split; [|done|done]. split; try done. Qed.

Lemma transfer_delivers_prefix_witness :
  ∃ s' w l, snd_run sample_stream 5001 sample_run sample_snd 0 = Ret (s', w) ∧
    puts_out sample_stream 5001 sample_snd s' l ∧ (w, zlen (w_sent (cs_world s'))) = (17, 2) ∧
    (∀ e revs, Forall (from_wire l) revs →
     ∃ s2' out n, rcv_run sample_stream 5001 e revs sample_fresh = Ret (s2', out) ∧ n ≤ w ∧
       out ++ unread s2' = piece sample_stream 0 n ∧
       (w ≤ room sample_fresh → (∀ q, 0 ≤ q < w → received revs q) → n = w)).
Proof.
  destruct (transfer_delivers_prefix sample_stream 5001 64 sample_snd sample_run sample_fresh
    (newReceiver 5000 (c_readBuf (cs_conn sample_fresh)) 0 0)) as (s' & w & l & E & Hp & H).
  - exact sample_snd_sending.
  - repeat (apply Forall_cons_2; [split; [exact sample_offload_ok|done]|]). apply Forall_nil_2.
  - vm_compute. reflexivity.
  - vm_compute. reflexivity.
  - exact sample_fresh_inv.
  - vm_compute. reflexivity.
  - exists s', w, l. split; [exact E|]. split; [exact Hp|]. split; [|exact H].
    apply (f_equal (λ o, match o with Ret (s, w) => (w, zlen (w_sent (cs_world s))) | _ => (0, 0) end)) in E.
    rewrite <- E. vm_compute. reflexivity.
Defined.
