(* ===== verification/Handshake.v ===== *)
(** The end of the three-way handshake: the connection it opens starts where
    the theorems on the two directions of data start. *)
From S2P Require Import Prelude.
From S2P Require Import Tcpip.
From S2P Require Import Header.
From S2P Require Import TcpHeader.
From S2P Require Import Packet.
From S2P Require Import Stack.
From S2P Require Import Ringbuf.
From S2P Require Import Seq.
From S2P Require Import TcpConn.
From S2P Require Import Rcv.
From S2P Require Import OooFacts.
From S2P Require Import Segment.
From S2P Require Import RcvData.
From S2P Require Import RcvFacts.
From S2P Require Import Snd.
From S2P Require Import SndFacts.
From S2P Require Import Conn.
From S2P Require Import StreamFacts.
From S2P Require Import Transfer.

(** A connection that waits for the last segment of the handshake, with
    buffers of sizes [rsize] and [wsize]. *)
Record half_open (c : TCPConn) (rsize wsize : Z) : Prop := {
  ho_read : newRingBuffer rsize = Ret (c_readBuf c);
  ho_write : newRingBuffer wsize = Ret (c_writeBuf c);
  ho_rsize : 0 < rsize < span_limit;
  ho_wsize : 0 < wsize;
  ho_limits : readBufSize (c_cfg c) < span_limit ∧ maxReadBufSize (c_cfg c) < span_limit;
  ho_shut : c_readShutdown c = false;
  ho_done : c_done c = false;
  ho_wnd : is_u16 (rcvWndSize (c_cfg c));
  ho_scale : 0 ≤ c_sndWndScale c ≤ MaxWndScale;
  ho_mss : c_peerMSS c = 0 ∨ 12 < c_peerMSS c;
  ho_thresh : 0 < initialSSThresh (c_cfg c) }.

(** The segment completes the handshake and carries no data. *)
Record completes (c : TCPConn) (seg : segment) : Prop := {
  co_flags : Has (sg_flags seg) TCPFlagACK = true;
  co_empty : sg_payload seg = [];
  co_seq : u32 (sg_seq seg - u32 (c_irs c + 1)) < rcvWndSize (c_cfg c);
  co_ack : sg_ack seg = u32 (c_iss c + 1);
  co_wnd : is_u16 (sg_wnd seg) }.

(** The segment size of the new sender. *)
Lemma newSender_mss iss w sc mtu pmss cfg :
  52 < mtu ≤ 1540 → pmss = 0 ∨ 12 < pmss → 12 < s_mss (newSender iss w sc mtu pmss cfg) ≤ 1500.
Proof.
  intros. unfold newSender. cbn. unfold IPv4.IPv4MinHeaderSize, TCPMinHeaderSize.
  repeat case_match; lia.
Qed.

Lemma peer_window_max w sc : is_u16 w → 0 ≤ sc ≤ MaxWndScale → u32 (Z.shiftl w sc) ≤ max_window.
Proof.
  intros Hw Hs. unfold MaxWndScale in Hs. unfold max_window. rewrite Z.shiftl_mul_pow2 by lia.
  assert (0 ≤ 2 ^ sc ≤ 2 ^ 14) as Hp by (split; [lia|apply Z.pow_le_mono_r; lia]).
  change (2 ^ 14) with 16384 in Hp. unfold is_u16 in Hw. rewrite u32_id; [nia|]. unfold is_u32. nia.
Qed.

(** What the handshake leaves alone. *)
Definition left_alone (c : TCPConn) :=
  (c_flow c, c_inbound c, c_inboundCap c, c_sndWndScale c,
   (c_finPending c, c_closeCh c, c_forceCloseCh c, c_writeShutdown c, c_done c, rb_closed (c_writeBuf c))).

(** What the connection has become. *)
Record opened (stream_out stream_in : Z → Z) (s s' : CS) (rsize : Z) : Prop := {
  op_state : c_state (cs_conn s') = stateEstablished;
  op_out : sending stream_out (c_iss (cs_conn s) + 1) s' 0;
  op_in : ∃ lim r, lim < span_limit ∧
    stream_inv stream_in (c_irs (cs_conn s) + 1) lim s' r 0 [] ∧ unread s' = [] ∧ room s' = rsize;
  op_accept : w_acceptQ (cs_world s') = w_acceptQ (cs_world s) ++ [c_flow (cs_conn s)];
  op_sent : w_sent (cs_world s') = w_sent (cs_world s);
  op_timer : c_synRcvdTimer (cs_conn s') = None;
  op_accepting : c_accepting (cs_conn s') = false;
  op_kept : left_alone (cs_conn s') = left_alone (cs_conn s) }.

(** [newEstablished] on a half-open connection. *)
Lemma newEstablished_run e s seg rsize wsize so si :
  half_open (cs_conn s) rsize wsize → is_u16 (sg_wnd seg) → 52 < e_mtu e ≤ 1540 →
  ∃ s', newEstablished seg e s = Ret (s', tt) ∧
    sending so (c_iss (cs_conn s) + 1) s' 0 ∧
    (∃ lim r, lim < span_limit ∧ stream_inv si (c_irs (cs_conn s) + 1) lim s' r 0 [] ∧
       unread s' = [] ∧ room s' = rsize) ∧
    c_state (cs_conn s') = c_state (cs_conn s) ∧ c_flow (cs_conn s') = c_flow (cs_conn s) ∧
    c_done (cs_conn s') = c_done (cs_conn s) ∧ c_synRcvdTimer (cs_conn s') = c_synRcvdTimer (cs_conn s) ∧
    cs_world s' = cs_world s ∧ left_alone (cs_conn s') = left_alone (cs_conn s).
Proof.
  intros [Hr Hw Hrs Hws [Hl1 Hl2] Hsh Hd Hwnd Hsc Hm Hth] Hsw Hmtu.
  set (c := cs_conn s) in *.
  set (x0 := newSender (c_iss c) (sg_wnd seg) (c_sndWndScale c) (e_mtu e) (c_peerMSS c)
    (mkSenderConfig (minRTO (c_cfg c)) (maxRTO (c_cfg c)) (initialRTO (c_cfg c)) (maxRetries (c_cfg c))
       (initialSSThresh (c_cfg c)))).
  set (x := if c_tsEnabled c then x0 <| s_mss := s_mss x0 - 12 |> else x0).
  set (r := newReceiver (c_irs c) (c_readBuf c) (readBufSize (c_cfg c)) (maxReadBufSize (c_cfg c))).
  assert (∃ a b, newEstablished seg e s = Ret (mkCS (c <| c_snd := Some x |> <| c_rcv := Some r |>
    <| c_tsLastAckSent := a |> <| c_tsRecent := b |>) (cs_world s), tt)) as (a & b & E).
  { exists (if c_tsEnabled c then r_nxt r else c_tsLastAckSent c),
      (if c_tsEnabled c && sg_hasTS seg then sg_tsVal seg else c_tsRecent c). unfold newEstablished. rewrite run_getc, run_asks. fold c x0 x r. rewrite run_setc.
    unfold when_. destruct (c_tsEnabled c), (sg_hasTS seg); reflexivity. }
  set (s' := mkCS _ (cs_world s)) in E. exists s'. split; [exact E|].
  destruct (newRingBuffer_ok rsize) as (rb & Er & Hokr & _); [lia|]. rewrite Hr in Er. injection Er as <-.
  destruct (newRingBuffer_ok wsize) as (rb & Ew & Hokw & Habs); [lia|]. rewrite Hw in Ew. injection Ew as <-.
  injection Habs as Hcw _ _. assert (used (c_writeBuf c) = 0) as Huw.
  { rewrite <- zlen_contents by done. by rewrite Hcw. }
  pose proof (newSender_mss (c_iss c) (sg_wnd seg) (c_sndWndScale c) (e_mtu e) (c_peerMSS c)
    (mkSenderConfig (minRTO (c_cfg c)) (maxRTO (c_cfg c)) (initialRTO (c_cfg c)) (maxRetries (c_cfg c))
       (initialSSThresh (c_cfg c))) Hmtu Hm) as Hmss. fold x0 in Hmss.
  assert (s_una x = u32 (c_iss c + 1) ∧ s_nxt x = u32 (c_iss c + 1) ∧ s_unacked x = [] ∧
    s_wnd x = u32 (Z.shiftl (sg_wnd seg) (c_sndWndScale c)) ∧ s_ssthresh x = initialSSThresh (c_cfg c) ∧
    0 < s_mss x ≤ 1500) as (E1 & E2 & E3 & E4 & E5 & E6).
  { assert (∀ m, s_mss (x0 <| s_mss := m |>) = m) as Hset by done.
    unfold x. destruct (c_tsEnabled c); split_and!; try done; rewrite ?Hset; clearbody x0; lia. }
  clearbody x. split_and!; try done.
  - exists x, r, 0, 0, 0. split; [|done].
    split; try done; cbn; fold c; rewrite ?E1, ?E2, ?E3, ?E4, ?E5, ?Huw, ?Hcw; try done; try lia.
    + unfold seq_of. by rewrite Z.add_0_r.
    + unfold seq_of. by rewrite Z.add_0_r.
    + by apply peer_window_max.
  - destruct (fresh_stream_inv si (c_irs c) s' rsize (readBufSize (c_cfg c)) (maxReadBufSize (c_cfg c)))
      as (lim & ? & ? & ? & ?); [lia|done..|lia|done|done|]. by exists lim, r.
Qed.

Lemma countAccepted_run e s :
  ∃ b st, countAccepted e s = Ret (mkCS ((cs_conn s) <| c_statsActive := b |>)
                                        ((cs_world s) <| w_stats := st |>), tt).
Proof.
  unfold countAccepted. destruct (w_stats (cs_world s)) as [stats|] eqn:Es.
  - rewrite run_count. eexists true, _. reflexivity.
  - exists (c_statsActive (cs_conn s)), None. destruct s as [c [stats sent q cap t]]. cbn in *. subst stats.
    by destruct c.
Qed.

Lemma handshake_run e s seg rsize wsize so si :
  half_open (cs_conn s) rsize wsize → completes (cs_conn s) seg → 52 < e_mtu e ≤ 1540 →
  zlen (w_acceptQ (cs_world s)) < w_acceptCap (cs_world s) →
  ∃ s', handleSynRcvd seg e s = Ret (s', tt) ∧ opened so si s s' rsize.
Proof.
  intros Hho [Hf Hp Hq Ha Hw] Hmtu Hroom. unfold handleSynRcvd. rewrite run_getc, Hf.
  destruct (Z.geb_spec (u32 (sg_seq seg - u32 (c_irs (cs_conn s) + 1))) (rcvWndSize (c_cfg (cs_conn s)))); [lia|].
  rewrite Ha, Z.eqb_refl. cbn [negb]. unfold set_state. rewrite run_setc.
  destruct (countAccepted_run e (mkCS ((cs_conn s) <| c_state := stateEstablished |>) (cs_world s)))
    as (b & st & E).
  rewrite (run_bind _ _ _ _ _ _ E), run_setc. cbn [cs_conn cs_world]. set (s2 := mkCS _ _).
  destruct (newEstablished_run e s2 seg rsize wsize so si)
    as (s3 & E3 & Hout & Hin & Hst & Hfl & Hd & Ht & Hw3 & Hctl); [by destruct Hho|done|done|].
  rewrite (run_bind _ _ _ _ _ _ E3). unfold resetKeepalive. rewrite run_setc, Hp.
  change (when_ (zlen (@nil Z) >? 0) _) with (@skip). rewrite run_skip.
  unfold offer_accept. cbn [cs_conn cs_world].
  assert (c_done (cs_conn s3) = false) as Ed by (rewrite Hd; exact (ho_done _ _ _ Hho)).
  assert ((zlen (w_acceptQ (cs_world s3)) <? w_acceptCap (cs_world s3)) = true) as Eq
    by (rewrite Hw3; cbn; lia).
  match goal with |- context [if c_done ?y then _ else _] => change (c_done y) with (c_done (cs_conn s3)) end.
  rewrite Ed, Eq.
  eexists. split; [reflexivity|]. split; try done.
  - destruct Hout as (x & rc & a & u & n & Hat & Hb). exists x, rc, a, u, n. split; [|exact Hb]. by destruct Hat.
  - destruct Hin as (lim & r & Hl & [[[]] ? ?] & Hun & Hr). exists lim, r. by split_and!.
  - cbn. by rewrite Hfl, Hw3.
  - cbn. by rewrite Hw3.
Qed.

(** C17: the segment that completes the handshake opens both directions of the
    connection.  A half-open connection whose peer announced a usable segment
    size, given an acceptable ACK, becomes ESTABLISHED: the sender starts with
    the first byte after our SYN and nothing written, the receiver expects the
    first byte after the peer's SYN with its whole buffer free, the connection
    is handed to the accept queue, its handshake timer is off, no packet is sent,
    and the queue of segments and the signals of the application are left
    alone. *)
Theorem handshake_opens_connection e s seg rsize wsize so si :
  half_open (cs_conn s) rsize wsize → completes (cs_conn s) seg → 52 < e_mtu e ≤ 1540 →
  zlen (w_acceptQ (cs_world s)) < w_acceptCap (cs_world s) →
  ∃ s', handleSynRcvd seg e s = Ret (s', tt) ∧ opened so si s s' rsize.
Proof. apply handshake_run. Qed.

(** A connection right after its SYN, and the ACK the peer sends. *)
Definition sample_half_open : CS :=
  let ring := mkRing (make_bytes 64) 0 0 false 0 0 false in
  mkCS (sample_conn stateSynRcvd None None ring ring) sample_world.
Definition sample_ack : segment := mkSegment TCPFlagACK 5001 1001 64 [] [] 0 0 false.

Lemma handshake_opens_connection_witness :
  ∃ s', handleSynRcvd sample_ack sample_env sample_half_open = Ret (s', tt) ∧
    opened (λ q, q) sample_stream sample_half_open s' 64.
Proof.
  apply (handshake_opens_connection sample_env sample_half_open sample_ack 64 64).
  - split; vm_compute; try done; try (split; done). right. reflexivity.
  - split; vm_compute; try done; split; done.
  - vm_compute. split; done.
  - vm_compute. reflexivity.
Defined.

(** * The window scale we announce *)
Lemma shiftr_pos b k : 0 ≤ b → 0 ≤ k → (Z.shiftr b k >? 0) = (2 ^ k <=? b).
Proof.
  intros Hb Hk. rewrite Z.shiftr_div_pow2 by done. assert (0 < 2 ^ k) by lia.
  destruct (Z.leb_spec (2 ^ k) b).
  - assert (1 ≤ b / 2 ^ k); [|lia]. apply Z.div_le_lower_bound; lia.
  - rewrite Z.div_small by lia. done.
Qed.

(** The loop stops at the first shift that makes the size fit 16 bits. *)
Lemma scaleLoop_spec fuel b sc :
  0 ≤ sc → sc + Z.of_nat fuel < 256 → 0 ≤ b < 2 ^ (16 + sc + Z.of_nat fuel) →
  ∃ sc', scaleLoop (S fuel) b sc = Ret sc' ∧
    sc ≤ sc' ∧ b < 2 ^ (16 + sc') ∧ (sc < sc' → 2 ^ (15 + sc') ≤ b).
Proof.
  revert sc. induction fuel as [|fuel IH]; intros sc Hs Hf Hb; cbn [scaleLoop]; rewrite shiftr_pos by lia.
  { rewrite Z.add_0_r in Hb. rewrite (proj2 (Z.leb_gt _ _)) by lia. exists sc. split_and!; done || lia. }
  destruct (Z.leb_spec (2 ^ (16 + sc)) b); [|exists sc; split_and!; done || lia].
  rewrite u8_id by ulia. destruct (IH (sc + 1)) as (sc' & E & H1 & H2 & H3); [lia|lia| |].
  { replace (16 + (sc + 1) + Z.of_nat fuel) with (16 + sc + Z.of_nat (S fuel)) by lia. lia. }
  exists sc'. split_and!; [done|lia|done|]. intros _. destruct (Z.eq_dec sc' (sc + 1)) as [->|].
  - by replace (15 + (sc + 1)) with (16 + sc) by lia.
  - apply H3. lia.
Qed.

(** C33: the window scale is the smallest that lets the window cover the
    buffer.  For every buffer size of the 63-bit range, the loop ends within
    its 48 rounds, the shift is at most 14 as RFC 7323 requires, the whole size can be
    advertised in 16 bits unless that limit was hit, and with a smaller shift
    it could not. *)
Theorem window_scale_minimal size :
  0 ≤ size < 2 ^ 63 →
  ∃ sc, calculateWindowScale size = Ret sc ∧
  0 ≤ sc ≤ MaxWndScale ∧ (Z.shiftr size sc ≤ 65535 ∨ sc = MaxWndScale) ∧
  (0 < sc → 65535 < Z.shiftr size (sc - 1)).
Proof.
  intros Hsz. unfold calculateWindowScale, MaxWndScale.
  destruct (Z.leb_spec size 65535); [exists 0; rewrite Z.shiftr_0_r; split_and!; done || lia|].
  destruct (scaleLoop_spec 47 size 0) as (k & E & H1 & H2 & H3); [lia|lia|cbn; lia|].
  rewrite E, bind_Ret_l. eexists. split; [reflexivity|].
  assert (0 < k) as Hk. { destruct (Z.eq_dec k 0) as [E0|]; [rewrite E0 in H2; lia|lia]. }
  specialize (H3 Hk).
  assert (∀ j, 0 ≤ j → j < k → 65535 < Z.shiftr size j) as Hmin.
  { intros j Hj0 Hj. rewrite Z.shiftr_div_pow2 by lia. assert (65536 ≤ size / 2 ^ j); [|lia].
    apply Z.div_le_lower_bound; [lia|]. change 65536 with (2 ^ 16). rewrite <- Z.pow_add_r by lia.
    transitivity (2 ^ (15 + k)); [|done]. apply Z.pow_le_mono_r; lia. }
  destruct (Z.gtb_spec k 14); (split_and!; [lia|lia| |]).
  - by right.
  - intros _. apply Hmin; lia.
  - left. rewrite Z.shiftr_div_pow2 by lia. assert (size / 2 ^ k < 65536); [|lia].
    apply Z.div_lt_upper_bound; [lia|]. change 65536 with (2 ^ 16). rewrite <- Z.pow_add_r by lia.
    by rewrite Z.add_comm.
  - intros _. apply Hmin; lia.
Qed.

Lemma window_scale_minimal_witness :
  ∃ sc, calculateWindowScale 4194304 = Ret sc ∧ 0 ≤ sc ≤ MaxWndScale ∧
    (Z.shiftr 4194304 sc ≤ 65535 ∨ sc = MaxWndScale) ∧ (0 < sc → 65535 < Z.shiftr 4194304 (sc - 1)).
Proof. apply (window_scale_minimal 4194304). split; [discriminate|reflexivity]. Defined.
