(* ===== verification/Endpoint.v ===== *)
(** One end of a connection whose handshake is over, with both directions of
    data: an invariant that every case of the [run] loop keeps, whatever the
    peer and the network do.  [Conversation] puts two of them together. *)
From S2P Require Import Prelude.
From S2P Require Import Tcpip.
From S2P Require Import Header.
From S2P Require Import TcpHeader.
From S2P Require Import TcpOptions.
From S2P Require Import Packet.
From S2P Require Import Stack.
From S2P Require Import Ringbuf.
From S2P Require Import Seq.
From S2P Require Import TcpConn.
From S2P Require Import Rcv.
From S2P Require Import OooFacts.
From S2P Require Import Segment.
From S2P Require Import SegmentFacts.
From S2P Require Import RcvData.
From S2P Require Import RcvFacts.
From S2P Require Import Snd.
From S2P Require Import SndFacts.
From S2P Require Import Conn.
From S2P Require Import Handshake.

(** [lia] from the hypotheses on integers only. *)
Ltac zlia :=
  repeat match goal with
    | H : ?P |- _ =>
        lazymatch type of P with Prop => idtac | _ => fail end;
        lazymatch P with
        | (_ ≤ _)%Z => fail | (_ < _)%Z => fail | (_ ≤ _ ∧ _)%Z => fail | (_ < _ ∧ _)%Z => fail | @eq Z _ _ => fail
        | _ => clear H
        end
    end; lia.

(** * The phase of an endpoint

    Whether its FIN has been sent, whether the end of the peer's stream has
    been taken in, and the next position of that stream it expects. *)
Record ep_phase := mkEp { ep_state : tcpState; ep_fin : bool; ep_eof : bool; ep_pos : Z }.
#[export] Instance ep_phase_rebuild : Rebuild ep_phase := λ E,
  mkEp (ep_state E) (ep_fin E) (ep_eof E) (ep_pos E).

Definition ep_coherent (E : ep_phase) : Prop :=
  match ep_state E with
  | stateEstablished => ep_fin E = false ∧ ep_eof E = false
  | stateFinWait1 | stateFinWait2 => ep_fin E = true ∧ ep_eof E = false
  | stateCloseWait => ep_fin E = false ∧ ep_eof E = true
  | stateClosing | stateLastAck | stateTimeWait => ep_fin E = true ∧ ep_eof E = true
  | stateClosed => True
  | stateSynRcvd => False
  end.

(** * Packets on the wire *)

(** What an endpoint that has been given [w] bytes may send: parts of them in
    their place, the FIN at their end, and segments without data. *)
Definition in_wire (w : Z) (fin : bool) (it : sent_item) : Prop :=
  match it with
  | SData p k => 0 ≤ p ∧ 0 < k ∧ p + k ≤ w
  | SLarge p k mss => 0 ≤ p ∧ 0 < k ∧ p + k ≤ w ∧ 0 < mss
  | SFin p => fin = true ∧ p = w
  end.

Inductive wire_packet (so : Z → Z) (bo w : Z) (fin : bool) (flow : FlowID) (p : sent) : Prop :=
| WireItem it : item_packet so bo flow p it → in_wire w fin it → wire_packet so bo w fin flow p
| WireControl pb c seq ack flags wd opts :
    c_flow c = flow → p = SentPacket pb (DstAddr flow) (SrcAddr flow) TCPProtocolNumber →
    holds pb (conn_segment c seq ack flags wd opts []) →
    bytes_ok opts → zlen opts ≤ 40 → zlen opts mod 4 = 0 → flags = TCPFlagACK ∨ flags = TCPFlagRST →
    wire_packet so bo w fin flow p.

(** A segment that may arrive when the peer has been given [W] bytes and has
    [ended] its stream or not: the acknowledgement, the window and the option
    bytes are arbitrary, data is in its place, a FIN is at the end, alone or
    behind data. *)
Record peer_seg (si : Z → Z) (bi W : Z) (ended : bool) (seg : segment) : Prop := {
  sk_ack : is_u32 (sg_ack seg);
  sk_wnd : is_u16 (sg_wnd seg);
  sk_opts : bytes_ok (sg_options seg);
  sk_data : sg_payload seg = [] ∨
    ∃ p k, sg_seq seg = seq_of bi p ∧ sg_payload seg = piece si p k ∧ 0 ≤ p ∧ 0 < k ∧ p + k ≤ W;
  sk_fin : Has (sg_flags seg) TCPFlagFIN = true →
    ended = true ∧ ∃ p, sg_seq seg = seq_of bi p ∧ sg_payload seg = piece si p (W - p) ∧ 0 ≤ p ≤ W }.

(** Running a computation from a state with [P] returns, in a state with [Q]. *)
Definition safe {A} (e : Env) (m : conn_m A) (P : CS → Prop) (Q : A → CS → Prop) : Prop :=
  ∀ s, P s → ∃ s' a, m e s = Ret (s', a) ∧ Q a s'.

Section safe.
Context (e : Env).
Lemma safe_bind {A B} (m : conn_m A) (f : A → conn_m B) P R Q :
  safe e m P R → (∀ a, safe e (f a) (R a) Q) → safe e (m ≫= f) P Q.
Proof.
  intros Hm Hf s Hs. destruct (Hm s Hs) as (s1 & a & E & H1). rewrite (run_bind _ _ _ _ _ _ E). by apply Hf.
Qed.
Lemma safe_ret {A} (a : A) (P : CS → Prop) (Q : A → CS → Prop) : (∀ s, P s → Q a s) → safe e (mret a) P Q.
Proof. intros H s Hs. by exists s, a; split; [|apply H]. Qed.
Lemma safe_skip (P : CS → Prop) : safe e skip P (λ _, P).
Proof. by apply safe_ret. Qed.
Lemma safe_getc {B} (f : TCPConn → conn_m B) (P : CS → Prop) Q :
  (∀ c, safe e (f c) (λ s, P s ∧ cs_conn s = c) Q) → safe e (getc ≫= f) P Q.
Proof. intros H s Hs. rewrite run_getc. by apply (H (cs_conn s)). Qed.
Lemma safe_asks {A B} (g : Env → A) (f : A → conn_m B) (P : CS → Prop) Q :
  safe e (f (g e)) P Q → safe e (asks g ≫= f) P Q.
Proof. intros H s Hs. rewrite run_asks. by apply H. Qed.
Lemma safe_weaken {A} (m : conn_m A) (P P' : CS → Prop) (Q Q' : A → CS → Prop) :
  safe e m P Q → (∀ s, P' s → P s) → (∀ a s, Q a s → Q' a s) → safe e m P' Q'.
Proof. intros H HP HQ s Hs. destruct (H s (HP s Hs)) as (s' & a & E & H'). exists s', a. by split; [|apply HQ]. Qed.
Lemma safe_pre {A} (m : conn_m A) (P P' : CS → Prop) Q : safe e m P Q → (∀ s, P' s → P s) → safe e m P' Q.
Proof. intros H HP. by eapply safe_weaken. Qed.
Lemma safe_when b m (P : CS → Prop) Q :
  (b = true → safe e m P Q) → (b = false → ∀ s, P s → Q tt s) → safe e (when_ b m) P Q.
Proof. intros H1 H2. destruct b; [by apply H1|]. apply safe_ret. by apply H2. Qed.
End safe.

(** Positions of a stream are told apart by their sequence numbers. *)
Lemma seq_of_inj bi a b : - span_limit < a - b < span_limit → seq_of bi a = seq_of bi b → a = b.
Proof.
  intros H E. apply Z.eqb_eq. rewrite <- (seq_eqb (λ _, 0) bi) by (unfold span_limit in *; lia). by apply Z.eqb_eq.
Qed.

Lemma near_end W m : 0 ≤ m ≤ W → 0 ≤ W < span_limit → - span_limit < W - m < span_limit.
Proof. lia. Qed.

(** Positions taken in stay below the end of the peer's stream. *)
Lemma held_below (cov cov' : Z → Prop) n n' p k rm W :
  (∀ q, q < n' ∨ cov' q ↔ q < n ∨ cov q ∨ (p ≤ q < p + k ∧ q < n + rm)) →
  n ≤ W → (∀ q, cov q → q < W) → p + k ≤ W → n' ≤ W ∧ ∀ q, cov' q → q < W.
Proof.
  intros H Hn Hc Hp. assert (∀ q, q < n' ∨ cov' q → q < W) as Hq.
  { intros q [?|[?%Hc|?]]%H; lia. }
  split; [|by intros; apply Hq; right]. specialize (Hq (n' - 1)). lia.
Qed.

(** Data that starts no later than expected and fits is all taken in. *)
Lemma all_taken l l' n n' p k rm hi :
  (∀ q, q < n' ∨ covered l' q ↔ q < n ∨ covered l q ∨ (p ≤ q < p + k ∧ q < n + rm)) →
  spans_ok n' hi l' → n ≤ n' → p ≤ n → p + k ≤ n + rm → p + k ≤ n'.
Proof.
  intros H Hok Hn Hp Hk. destruct (Z.le_gt_cases (p + k) n') as [?|Hlt]; [done|]. exfalso.
  destruct (proj2 (H n')) as [?|Hc]; [right; right; lia|lia|]. unfold covered in Hc.
  apply Exists_exists in Hc as (t & Ht & [? _]). destruct (spans_ok_in _ _ _ t Hok Ht) as (? & _). lia.
Qed.

(** * The invariant *)
Section endpoint.
(** The two streams and the sequence numbers of their first bytes, and the
    largest size of the read buffer. *)
Context (so si : Z → Z) (bo bi lim : Z).
Hypothesis Hlim : lim < span_limit.
(** What this end was given to send and whether it may close; what the peer
    was given, and whether its stream has ended; how far the receive window
    reaches at least. *)
Context (w W : Z) (mine ended : bool) (edge : Z).
Hypothesis Hmax : w ≤ max_flight.
Hypothesis HW : 0 ≤ W < span_limit.

(** Still open: the positions received are positions of the peer's stream,
    and a FIN that was seen early, by an end that does not close, is waiting
    for the rest of it. *)
Record rcv_open (m : Z) (s : CS) (rc : receiver) (l : list (Z * Z)) : Prop := {
  ro_open : stream_open si bi lim s rc m l;
  ro_pos : 0 ≤ m ≤ W;
  ro_held : ∀ q, covered l q → q < W;
  ro_edge : edge ≤ m + room s;
  ro_fin : r_finReceived rc = true → mine = false ∧ ended = true ∧ r_finSeq rc = seq_of bi W ∧ m ≠ W }.

(** Once the end of the stream was reached, nothing more is taken in. *)
Definition rcv_side (E : ep_phase) (s : CS) (rc : receiver) : Prop :=
  if ep_eof E then ended = true ∧ ep_pos E = W else ∃ l, rcv_open (ep_pos E) s rc l.

(** The control fields: only an end that may close has its write side shut. *)
Record ctl (E : ep_phase) (c : TCPConn) : Prop := {
  ct_state : c_state c = ep_state E;
  ct_done : c_done c = bool_decide (ep_state E = stateClosed);
  ct_accepting : c_accepting c = false;
  ct_force : c_forceCloseCh c = false;
  ct_syn : c_synRcvdTimer c = None;
  ct_scale : 0 ≤ c_sndWndScale c ≤ MaxWndScale;
  ct_read : c_readShutdown c = false;
  ct_shut : ep_fin E || c_finPending c || c_closeCh c = true → rb_closed (c_writeBuf c) = true ∧ mine = true }.

(** What no case of the loop changes. *)
Definition frame (c : TCPConn) : FlowID * list PacketBuffer * Z * bool * bool :=
  (c_flow c, c_inbound c, c_inboundCap c, c_writeShutdown c, rb_closed (c_writeBuf c)).

(** The endpoint, and what happened since it was in state [s0]. *)
Context (E0 : ep_phase) (s0 : CS).

Record J (E : ep_phase) (s : CS) : Prop := {
  j_sides : ∃ x rc a u n, snd_at so bo w (ep_fin E) s x rc a u n ∧ 0 ≤ a ∧ u - a < MaxPayloadSize ∧
    rcv_side E s rc;
  j_ctl : ctl E (cs_conn s);
  j_pos : ep_pos E0 ≤ ep_pos E;
  j_unread : unread s = unread s0 ++ piece si (ep_pos E0) (ep_pos E - ep_pos E0);
  j_sent : ∃ ps, w_sent (cs_world s) = w_sent (cs_world s0) ++ ps ∧
    Forall (wire_packet so bo w (ep_fin E) (c_flow (cs_conn s0))) ps;
  j_frame : frame (cs_conn s) = frame (cs_conn s0);
  j_fin : ep_fin E0 = true → ep_fin E = true;
  j_eof : ep_eof E0 = true → ep_eof E = true }.

Abbreviation kept e m E := (safe e m (J E) (λ _, J E)).

Lemma j_flow E s : J E s → c_flow (cs_conn s) = c_flow (cs_conn s0).
Proof. intros H. exact (f_equal (λ t, t.1.1.1.1) (j_frame _ _ H)). Qed.

(** ** Steps that touch neither side *)
Definition vital (c : TCPConn) :=
  (c_snd c, c_rcv c, c_readBuf c, c_writeBuf c, c_cfg c, c_readShutdown c, frame c,
   (c_state c, c_done c, c_accepting c, c_forceCloseCh c, c_synRcvdTimer c, c_sndWndScale c,
    c_finPending c, c_closeCh c)).

Lemma snd_at_same fin s s' x rc a u n :
  snd_at so bo w fin s x rc a u n → c_snd (cs_conn s') = c_snd (cs_conn s) → c_rcv (cs_conn s') = c_rcv (cs_conn s) →
  c_readBuf (cs_conn s') = c_readBuf (cs_conn s) → c_writeBuf (cs_conn s') = c_writeBuf (cs_conn s) →
  c_cfg (cs_conn s') = c_cfg (cs_conn s) → snd_at so bo w fin s' x rc a u n.
Proof. intros [] E1 E2 E3 E4 E5. split; rewrite ?E1, ?E2, ?E3, ?E4, ?E5; done. Qed.

Lemma rcv_side_same E s s' rc :
  rcv_side E s rc → c_rcv (cs_conn s') = c_rcv (cs_conn s) → c_readBuf (cs_conn s') = c_readBuf (cs_conn s) →
  c_readShutdown (cs_conn s') = c_readShutdown (cs_conn s) → rcv_side E s' rc.
Proof.
  intros H E1 E2 E3. unfold rcv_side in *. destruct (ep_eof E).
  - done.
  - destruct H as (l & [[[[] ? ? ? ? ? ? ?] ?] ? ? ? ?]). exists l.
    assert (room s' = room s) as Er by (unfold room; by rewrite E2).
    split; rewrite ?Er; try done. split; [|by rewrite E3]. split; rewrite ?E2, ?Er; try done. by split; rewrite ?E1, ?E2.
Qed.

Lemma J_vital E s s' :
  J E s → vital (cs_conn s') = vital (cs_conn s) → w_sent (cs_world s') = w_sent (cs_world s) → J E s'.
Proof.
  intros [(x & rc & a & u & n & Hat & Ha & Hu & Hr) [] ? Hun ? ? ? ?] Ev Es.
  injection Ev as E1 E2 E3 E4 E5 E6 F1 F2 F3 F4 _ E7 E8 E9 E10 E11 E12 E13 E14.
  split; try done.
  - exists x, rc, a, u, n. split; [by eapply snd_at_same|]. split; [done|]. split; [done|]. by eapply rcv_side_same.
  - split; rewrite ?E4, ?E6, ?E7, ?E8, ?E9, ?E10, ?E11, ?E12, ?E13, ?E14; done.
  - unfold unread in *. by rewrite E3.
  - by rewrite Es.
  - unfold frame in *. rewrite F1, F2, F3, F4, E4. done.
Qed.

Lemma kept_setc e E f : (∀ c, vital (f c) = vital c) → kept e (setc f) E.
Proof. intros Hf s Hs. eexists _, tt. split; [reflexivity|]. eapply J_vital; [exact Hs|apply Hf|done]. Qed.
Lemma kept_count e E g : kept e (count_ g) E.
Proof. intros s Hs. eexists _, tt. split; [reflexivity|]. by eapply J_vital. Qed.
Lemma kept_tick {A} e E (o : Env → nat → A) : safe e (tick o) (J E) (λ _, J E).
Proof. intros s Hs. eexists _, _. split; [reflexivity|]. by eapply J_vital. Qed.

(** ** Steps of the send side *)
Lemma flight_in_wire fin s x rc a u n it :
  snd_at so bo w fin s x rc a u n → 0 ≤ a → in_flight fin a n it → in_wire w fin it.
Proof.
  intros [_ _ _ Hok _ Hf _ _ _ _ _ _ _ _ _ Ht] Ha. pose proof (used_range _ Hok).
  destruct it as [p k|p k mss|p]; cbn; [lia..|]. intros [-> ->]. rewrite Hf in Ht by done. split; [done|lia].
Qed.

Lemma wire_fin fin fin' flow p :
  wire_packet so bo w fin flow p → (fin = true → fin' = true) → wire_packet so bo w fin' flow p.
Proof. intros [it Hp Hw|] Hf; [econstructor; [exact Hp|]|by eapply WireControl]. destruct it; cbn in *; naive_solver. Qed.

Definition with_fin (E : ep_phase) (fin : bool) : ep_phase := mkEp (ep_state E) fin (ep_eof E) (ep_pos E).

Lemma J_sends_fin E fin s s' x' rc a' u' n' l :
  J E s → c_rcv (cs_conn s) = Some rc → snd_at so bo w fin s' x' rc a' u' n' → 0 ≤ a' →
  u' - a' < MaxPayloadSize → sends so bo s s' l → Forall (in_flight fin a' n') l →
  (ep_fin E = true → fin = true) →
  (fin = true → ep_fin E = true ∨ (rb_closed (c_writeBuf (cs_conn s)) = true ∧ mine = true)) →
  J (with_fin E fin) s'.
Proof.
  intros H Hrc Hat Ha Hu [Ea (ps & Es & Hps) _] Hl Hmono Hsh.
  pose proof (j_flow _ _ H) as Hflow. destruct H as [(x & rc1 & a & u & n & Hat0 & _ & _ & Hr) [] ? Hun (ps0 & Es0 & Hps0) Hfr ? ?].
  assert (rc1 = rc) as -> by (pose proof (sa_rcv _ _ _ _ _ _ _ _ _ _ Hat0); congruence).
  assert (c_readBuf (cs_conn s') = c_readBuf (cs_conn s)) as Erb by exact (f_equal c_readBuf Ea).
  assert (rb_closed (c_writeBuf (cs_conn s')) = rb_closed (c_writeBuf (cs_conn s))) as Ewc
    by exact (f_equal (λ c, rb_closed (c_writeBuf c)) Ea).
  split; cbn [with_fin ep_fin ep_eof ep_pos]; try done.
  - exists x', rc, a', u', n'. split; [done|]. split; [done|]. split; [done|].
    change (rcv_side E s' rc).
    eapply rcv_side_same; [done|exact (f_equal c_rcv Ea)|done|exact (f_equal c_readShutdown Ea)].
  - split; try done; cbn [with_fin ep_fin ep_state]; rewrite ?Ewc.
    + by rewrite <- ct_state0; exact (f_equal c_state Ea).
    + by rewrite <- ct_done0; exact (f_equal c_done Ea).
    + by rewrite <- ct_accepting0; exact (f_equal c_accepting Ea).
    + by rewrite <- ct_force0; exact (f_equal c_forceCloseCh Ea).
    + by rewrite <- ct_syn0; exact (f_equal c_synRcvdTimer Ea).
    + assert (c_sndWndScale (cs_conn s') = c_sndWndScale (cs_conn s)) as -> by exact (f_equal c_sndWndScale Ea). done.
    + by rewrite <- ct_read0; exact (f_equal c_readShutdown Ea).
    + assert (c_finPending (cs_conn s') = c_finPending (cs_conn s)) as -> by exact (f_equal c_finPending Ea).
      assert (c_closeCh (cs_conn s') = c_closeCh (cs_conn s)) as -> by exact (f_equal c_closeCh Ea).
      destruct fin; [|by destruct (ep_fin E); [specialize (Hmono eq_refl)|]].
      intros _. destruct Hsh as [Hf|]; [done| |done]. by rewrite Hf in ct_shut0; apply ct_shut0.
  - unfold unread in *. by rewrite Erb.
  - exists (ps0 ++ ps). rewrite Es, Es0, app_assoc. split; [done|]. apply Forall_app. split.
    { eapply Forall_impl; [exact Hps0|]. intros p Hp. by eapply wire_fin. }
    rewrite Hflow in Hps. clear Es. induction Hps as [|p it ps l Hp Hps IH]; [done|].
    apply Forall_cons in Hl as [Hit Hl]. constructor; [|by apply IH].
    econstructor; [exact Hp|]. by eapply flight_in_wire.
  - rewrite <- Hfr. exact (f_equal frame Ea).
  - auto.
Qed.

Lemma J_sends E s s' x' rc a' u' n' l :
  J E s → c_rcv (cs_conn s) = Some rc → snd_at so bo w (ep_fin E) s' x' rc a' u' n' → 0 ≤ a' →
  u' - a' < MaxPayloadSize → sends so bo s s' l → Forall (in_flight (ep_fin E) a' n') l → J E s'.
Proof.
  intros. assert (J (with_fin E (ep_fin E)) s') as H'; [|by destruct E]. eapply J_sends_fin; try done. by left.
Qed.

(** A step that sends and keeps the oldest byte. *)
Lemma kept_sends e E op :
  (∀ s x rc a u n, snd_at so bo w (ep_fin E) s x rc a u n → u - a < MaxPayloadSize →
     sends_ok so bo w (ep_fin E) e op s rc a u n) → kept e op E.
Proof.
  intros Hop s Hs. pose proof Hs as [(x & rc & a & u & n & Hat & Ha & Hu & Hr) _ _ _ _ _ _ _].
  destruct (Hop s x rc a u n Hat Hu) as (s' & x' & n' & l & E1 & Hat' & _ & _ & Hse & Hl).
  exists s', tt. split; [done|]. eapply J_sends; [done|apply Hat|done..].
Qed.

Lemma kept_sendPending e E : env_ok e → kept e sendPending E.
Proof. intros He. apply kept_sends. intros. by eapply sendPending_ok. Qed.

Lemma kept_set_snd e E f : (∀ x, neutral f x) → kept e (set_snd f) E.
Proof.
  intros Hf. apply kept_sends. intros s x rc a u n Hat _.
  destruct (set_snd_run so bo w e _ _ _ _ _ _ _ f Hat (Hf x)) as (E1 & Hat' & Hs).
  eexists _, _, n, []. by split_and!.
Qed.

(** Every acknowledgement number stands for a position near the oldest byte. *)
Lemma ack_position ack u : is_u32 ack → ∃ v, ack = seq_of bo v ∧ -2147483648 ≤ v - u < 2147483648.
Proof.
  intros Ha. unfold is_u32, seq_of, u32 in *. set (d := (ack - bo - u) mod 4294967296).
  assert (0 ≤ d < 4294967296) as Hd by (apply Z.mod_pos_bound; lia).
  exists (if d <? 2147483648 then u + d else u + d - 4294967296).
  assert (ack = (bo + (u + d)) mod 4294967296) as E.
  { unfold d. rewrite Z.add_assoc, Zplus_mod_idemp_r. replace (bo + u + (ack - bo - u)) with ack by lia.
    symmetry. by apply Z.mod_small. }
  destruct (Z.ltb_spec d 2147483648); (split; [|lia]); [done|].
  rewrite E at 1. rewrite <- (Z_mod_plus_full _ (-1)). f_equal. lia.
Qed.

Lemma kept_handleACK e E ack : env_ok e → is_u32 ack → kept e (handleACK ack) E.
Proof.
  intros He Hack s Hs. pose proof Hs as [(x & rc & a & u & n & Hat & Ha & Hu & Hr) _ _ _ _ _ _ _].
  destruct (ack_position ack u Hack) as (v & -> & Hv).
  destruct (handleACK_run so bo w e (ep_fin E) rc He s x a u n v Hu Hat Hv)
    as (s' & x' & a' & n' & l & E1 & Hat' & Haa & Hua & _ & Hse & Hl).
  exists s', tt. split; [done|]. eapply J_sends; [done|apply Hat|exact Hat'|lia|done..].
Qed.

(** Loss detection from SACK blocks; no FIN is in the queue yet. *)
Lemma sackLossLoop_ok e rc k i s x a u n :
  snd_at so bo w false s x rc a u n → sends_ok so bo w false e (sackLossLoop k i) s rc a u n.
Proof.
  revert i s x n. induction k as [|k IH]; intros i s x n Hat; cbn [sackLossLoop].
  { by eapply sends_ok_skip. }
  eapply sends_ok_get; [done|]. destruct (s_unacked x !! i) as [seg|] eqn:Ei; [|by eapply sends_ok_skip].
  eapply sends_ok_bind; [|intros s' x' n' Hat'; by eapply IH].
  unfold when_. destruct (_ && _); [|by eapply sends_ok_skip].
  destruct (queue_lookup so bo _ _ _ _ _ _ (sa_queue _ _ _ _ _ _ _ _ _ _ Hat) Ei) as (it & Hc & Hfl & _).
  assert (us_fin seg = false) as Hf.
  { destruct it as [p q|p q m|p]; cbn in *; [by destruct Hc|done|by destruct Hfl]. }
  pose proof (resend_ok so bo w e false rc s x a u n i seg Hat Ei) as Hr.
  unfold resend in Hr. rewrite Hf in Hr. exact Hr.
Qed.

Lemma kept_sackLossDetection e E : ep_fin E = false → kept e sackLossDetection E.
Proof.
  intros Hf. apply kept_sends. rewrite Hf. intros s x rc a u n Hat _. unfold sackLossDetection.
  eapply sends_ok_get; [done|]. by eapply sackLossLoop_ok.
Qed.

(** The peer's window. *)
Lemma kept_set_peer_window e E seg : is_u16 (sg_wnd seg) → kept e (set_peer_window seg) E.
Proof.
  intros Hw s Hs. pose proof Hs as [(x & rc & a & u & n & Hat & Ha & Hu & Hr) Hc _ _ _ _ _ _].
  unfold set_peer_window. rewrite run_getc, (run_set_snd' _ _ _ x) by apply Hat.
  eexists _, tt. split; [reflexivity|].
  eapply (J_sends E s _ (x <| s_wnd := peer_window (cs_conn s) seg |>) rc a u n []); try done; [apply Hat| |].
  - destruct Hat. split; try done. apply peer_window_max; [done|apply Hc].
  - split; try done. exists []. by rewrite app_nil_r.
Qed.

(** ** Segments without data *)
Lemma J_emit E c wo w' g seq ack flags wd opts :
  J E (mkCS c wo) → emits c wo w' g (conn_segment c seq ack flags wd opts []) →
  bytes_ok opts → zlen opts ≤ 40 → zlen opts mod 4 = 0 → flags = TCPFlagACK ∨ flags = TCPFlagRST → J E (mkCS c w').
Proof.
  intros H [(pb & Es & Hh & _) _ _ _] Hbo Hlo Hmo Hfl. pose proof (j_flow _ _ H) as Hf.
  destruct H as [(x & rc & a & u & n & Hat & Ha & Hu & Hr) ? ? ? (ps & Eps & Hps) ? ? ?]. split; try done.
  - exists x, rc, a, u, n. split; [by eapply snd_at_same|]. split; [done|]. split; [done|]. by eapply rcv_side_same.
  - cbn [cs_world] in *. eexists (ps ++ [_]). rewrite Es, Eps, app_assoc. split; [reflexivity|].
    apply Forall_app. split; [done|]. repeat constructor. rewrite <- Hf. by eapply (WireControl _ _ _ _ _ _ pb c).
Qed.

Lemma J_rcv E c wo rc rc' :
  J E (mkCS c wo) → c_rcv c = Some rc → rest rc' = rest rc → r_nxt rc' = r_nxt rc → r_ooo rc' = r_ooo rc →
  J E (mkCS (c <| c_rcv := Some rc' |>) wo).
Proof.
  intros [(x & rc1 & a & u & n & Hat & Ha & Hu & Hr) ? ? ? ? ? ? ?] Hrc Hrest En Eo.
  assert (rc1 = rc) as -> by (pose proof (sa_rcv _ _ _ _ _ _ _ _ _ _ Hat); cbn in *; congruence).
  split; try done; [|by destruct j_ctl0]. exists x, rc', a, u, n. split; [by destruct Hat; split|].
  split; [done|]. split; [done|]. unfold rcv_side in *. destruct (ep_eof E); [by destruct Hr|].
  destruct Hr as (l & [Hop ? ? Hfin]). exists l.
  destruct (replace_rcv si bi lim _ _ rc' _ _ l Hop Hrest En) as [Hop' _];
    [rewrite Eo; apply Hop|apply Hop|]. split; try done.
  rewrite (f_equal r_finReceived Hrest : r_finReceived rc' = r_finReceived rc).
  by rewrite (f_equal r_finSeq Hrest : r_finSeq rc' = r_finSeq rc).
Qed.

Lemma sackBlocks_rest ts r : rest (sackBlocks ts r).1 = rest r ∧ r_nxt (sackBlocks ts r).1 = r_nxt r ∧
  r_ooo (sackBlocks ts r).1 = r_ooo r.
Proof.
  unfold sackBlocks. destruct (_ && _); [done|]. destruct (r_hasDSACKBlock r); cbn [r_ooo].
  all: match goal with |- context [match ?o with [] => _ | _ :: _ => _ end] => destruct o eqn:Eo end; by split_and!.
Qed.

Lemma J_acked E c wo wd : J E (mkCS c wo) → J E (mkCS (acked c wd) wo).
Proof.
  intros H. destruct (j_sides _ _ H) as (x & rc & a & u & n & Hat & _).
  pose proof (sa_rcv _ _ _ _ _ _ _ _ _ _ Hat : c_rcv c = Some rc) as Hrc.
  assert (J E (mkCS (c <| c_rcv := ack_rcv c |>) wo)) as H1.
  { unfold ack_rcv. rewrite Hrc. destruct (sackBlocks_rest (c_tsEnabled c) rc) as (? & ? & ?).
    destruct (c_sackPermitted c); by eapply J_rcv. }
  eapply J_vital; [exact H1| |done]. unfold acked, noteAck, ack_rcv. rewrite Hrc. cbn [cs_conn c_rcv].
  by destruct (c_tsEnabled _).
Qed.

Lemma kept_sendACK e E : kept e sendACK E.
Proof.
  intros [c wo] H. pose proof H as [(x & rc & a & u & n & Hat & _) _ _ _ _ _ _ _].
  destruct (sendACK_run e c wo) as (w' & wd & tv & E1 & _ & _ & _ & Hem); [apply Hat..|].
  exists (mkCS (acked c wd) w'), tt. split; [done|]. apply J_acked.
  destruct (zlen_segment_opts (c_tsEnabled c) tv (c_tsRecent c) (ack_blocks c)) as [Hm Hl].
  { unfold ack_blocks. destruct (c_rcv c), (c_sackPermitted c); try apply sackBlocks_len; by destruct (c_tsEnabled c). }
  eapply J_emit; [done|exact Hem|apply bytes_ok_segment_opts|lia| |by left]. by apply Z.mod_divide.
Qed.

Lemma kept_sendRST e E q : kept e (sendRSTSegment q) E.
Proof.
  intros [c wo] H. destruct (sendRSTSegment_run e c wo q) as (w' & E1 & Hem).
  exists (mkCS c w'), tt. split; [done|]. eapply J_emit; [done|exact Hem|done|done|done|by right].
Qed.

Lemma kept_sendKeepaliveProbe e E : kept e sendKeepaliveProbe E.
Proof.
  intros [c wo] H. pose proof H as [(x & rc & a & u & n & Hat & _) _ _ _ _ _ _ _].
  destruct (sendKeepaliveProbe_run e c wo x rc) as (w' & wd & tv & E1 & _ & _ & _ & Hem); [apply Hat..|].
  exists (mkCS (noteAck c) w'), tt. split; [done|].
  assert (J E (mkCS c w')) as H1.
  { eapply J_emit; [done|exact Hem|apply bytes_ok_segment_opts| | |by left]; rewrite zlen_plain_opts; by destruct (c_tsEnabled c). }
  eapply J_vital; [exact H1| |done]. unfold noteAck. destruct (c_rcv c) eqn:Er; [|done]. by destruct (c_tsEnabled c).
Qed.

(** ** Composing steps *)
Definition Jc (E : ep_phase) (c : TCPConn) (s : CS) : Prop := J E s ∧ cs_conn s = c.
(** In some phase. *)
Definition JJ (s : CS) : Prop := ∃ E, ep_coherent E ∧ J E s.

Lemma J_JJ E s : ep_coherent E → J E s → JJ s.
Proof. by exists E. Qed.
Lemma Jc_J E c s : Jc E c s → J E s.
Proof. by intros []. Qed.

Section compose.
Context (e : Env) (E : ep_phase).

Lemma then_ {A B} (m : conn_m A) (f : A → conn_m B) Q :
  safe e m (J E) (λ _, J E) → (∀ a, safe e (f a) (J E) Q) → safe e (m ≫= f) (J E) Q.
Proof. intros Hm Hf. by eapply safe_bind. Qed.
Lemma got {B} (f : TCPConn → conn_m B) Q : (∀ c, safe e (f c) (Jc E c) Q) → safe e (getc ≫= f) (J E) Q.
Proof. apply safe_getc. Qed.
Lemma forget {A} (m : conn_m A) c Q : safe e m (J E) Q → safe e m (Jc E c) Q.
Proof. intros H. eapply safe_pre; [exact H|apply Jc_J]. Qed.
Lemma got_ {B} (f : TCPConn → conn_m B) Q : (∀ c, safe e (f c) (J E) Q) → safe e (getc ≫= f) (J E) Q.
Proof. intros H. apply got. intros c. by apply forget. Qed.
Lemma got_snd {B} (f : sender → conn_m B) Q : (∀ x, safe e (f x) (J E) Q) → safe e (get_snd ≫= f) (J E) Q.
Proof.
  intros H s Hs. pose proof Hs as [(x & rc & a & u & n & Hat & _) _ _ _ _ _ _ _].
  rewrite (run_get_snd _ _ _ x) by apply Hat. by apply H.
Qed.
Lemma got_len {B} c (f : Z → conn_m B) Q :
  safe e (f (used (c_writeBuf c))) (Jc E c) Q → safe e (lift (Len (c_writeBuf c)) ≫= f) (Jc E c) Q.
Proof.
  intros H s Hs. pose proof Hs as [[(x & rc & a & u & n & Hat & _) _ _ _ _ _ _ _] <-].
  unfold Len. rewrite lenLocked_ok, run_lift by apply Hat. by apply H.
Qed.
Lemma finally (m : conn_m unit) : ep_coherent E → safe e m (J E) (λ _, J E) → safe e m (J E) (λ _, JJ).
Proof. intros Hco H. eapply safe_weaken; [exact H|done|]. intros a s. by apply J_JJ. Qed.
Lemma kept_skip : kept e skip E.
Proof. apply safe_skip. Qed.
Lemma kept_when b m : kept e m E → kept e (when_ b m) E.
Proof. intros H. by apply safe_when. Qed.
Lemma kept_lift {A} (a : A) : safe e (lift (Ret a)) (J E) (λ _, J E).
Proof. intros s Hs. by exists s, a. Qed.

Lemma J_sides_some s : J E s →
  ring_ok (c_readBuf (cs_conn s)) ∧ ring_ok (c_writeBuf (cs_conn s)) ∧ is_Some (c_snd (cs_conn s)) ∧ is_Some (c_rcv (cs_conn s)).
Proof.
  intros [(x & rc & a & u & n & Hat & _) _ _ _ _ _ _ _]. split_and!; [apply Hat|apply Hat|exists x; apply Hat|exists rc; apply Hat].
Qed.
Lemma Jc_has_snd c s : Jc E c s → has_snd c = true.
Proof. intros [H <-]. apply bool_decide_true. by apply (J_sides_some s H). Qed.
Lemma Jc_has_rcv c s : Jc E c s → has_rcv c = true.
Proof. intros [H <-]. apply bool_decide_true. by apply (J_sides_some s H). Qed.

Lemma kept_updateSnapshot : kept e updateSnapshot E.
Proof.
  intros s Hs. destruct (J_sides_some s Hs) as (Hr & Hw & [x Hx] & [rc Hrc]).
  unfold updateSnapshot, Len. rewrite run_getc, (lenLocked_ok (c_readBuf (cs_conn s))), run_lift by done.
  rewrite (lenLocked_ok (c_writeBuf (cs_conn s))), run_lift by done.
  rewrite Hx, Hrc. destruct (wnd_val (cs_conn s) Hr) as (wd & Ew & _). rewrite Ew. crun.
  eexists _, tt. split; [reflexivity|]. by eapply J_vital.
Qed.

Lemma kept_resetKeepalive : kept e resetKeepalive E.
Proof. by apply kept_setc. Qed.
Lemma kept_cancelDelayedACK : kept e cancelDelayedACK E.
Proof. by apply kept_setc. Qed.
Lemma kept_cancelZeroWindowProbe : kept e cancelZeroWindowProbe E.
Proof. apply got_. intros c. apply kept_when. by apply kept_setc. Qed.
Lemma kept_arm_rto : kept e arm_rto E.
Proof. apply got_snd. intros x. apply kept_when. by apply kept_setc. Qed.

Lemma kept_checkZeroWindow : kept e checkZeroWindow E.
Proof.
  apply got. intros c. destruct (c_snd c) as [x|]; [|apply forget, kept_skip].
  destruct (c_zeroWindowProbing c); [apply forget, kept_skip|].
  destruct (negb _); [apply forget, kept_skip|]. apply got_len, forget, kept_when. by apply kept_setc.
Qed.

Lemma neutral_updateRTT m x : neutral (updateRTT m) x.
Proof.
  unfold updateRTT. split_and!; try (by destruct (s_srtt x =? 0)).
Qed.
Lemma neutral_updateMaxWnd f x : neutral (λ s, updateMaxWnd (f s) s) x.
Proof. unfold updateMaxWnd, neutral. by destruct (_ >? _). Qed.
Lemma neutral_SACK blocks ack x : neutral (processSACKBlocks blocks ack) x.
Proof.
  unfold processSACKBlocks. set (mark := sack_mark).
  assert (∀ bs (l : list unackedSegment), content <$> (mark bs <$> l) = content <$> l) as Hm.
  { intros bs l. rewrite <- list_fmap_compose. apply list_fmap_ext. intros _ seg _. unfold mark, sack_mark, compose.
    destruct (us_sacked seg); [done|]. by destruct (existsb _ _). }
  destruct blocks as [|b bs]; [|destruct (negb _)]; split_and!; try done; cbn; apply Hm.
Qed.

Lemma kept_measureRTTM seg : kept e (measureRTTM seg) E.
Proof.
  apply got_. intros c. destruct (c_snd c) as [x|]; [|apply kept_skip]. destruct (_ && _ && _); [|apply kept_skip].
  unfold handler_now, time_now. intros s Hs. crun.
  match goal with |- ∃ s' a, when_ ?b ?m _ ?s1 = _ ∧ _ => apply (kept_when b m) end; [|by eapply J_vital].
  apply kept_set_snd. intros. apply neutral_updateRTT.
Qed.

Lemma kept_ackEstablished seg :
  env_ok e → ep_fin E = false → is_u16 (sg_wnd seg) → is_u32 (sg_ack seg) →
  bytes_ok (sg_options seg) → kept e (ackEstablished seg) E.
Proof.
  intros He Hf Hwn Hack Hopt. unfold ackEstablished. apply got_snd. intros x.
  apply then_; [by apply kept_set_peer_window|intros _].
  apply then_; [apply kept_set_snd; intros; apply neutral_updateMaxWnd|intros _].
  apply then_; [apply kept_measureRTTM|intros _]. apply got_. intros c.
  apply then_; [|intros _].
  { destruct (_ && _); [|apply kept_skip].
    destruct (ParseSegmentOptions_total (sg_options seg) Hopt) as (so' & -> & _).
    apply then_; [apply kept_lift|intros so2]. apply kept_when.
    apply then_; [apply kept_set_snd; intros; apply neutral_SACK|intros _]. by apply kept_sackLossDetection. }
  apply then_; [by apply kept_handleACK|intros _]. apply got_snd. intros x2.
  apply then_; [by apply kept_when, kept_sendPending|intros _]. apply got. intros c2.
  eapply safe_bind with (R := λ _, Jc E c2).
  { intros s Hs. destruct (J_sides_some s (proj1 Hs)) as (_ & _ & [x3 Hx3] & _).
    exists s, x3. split; [|done]. unfold get_snd. by rewrite run_getc, Hx3. }
  intros x3. destruct (_ && _).
  { apply forget, then_; [apply kept_cancelZeroWindowProbe|intros _]. by apply kept_sendPending. }
  destruct (_ =? 0); [|apply forget, kept_skip]. apply got_len, forget, kept_when, kept_checkZeroWindow.
Qed.

(** The probe takes the next byte, if there is one. *)
Lemma kept_sendSegment1 : env_ok e → safe e (sendSegment 1) (J E) (λ _, J E).
Proof.
  intros He s Hs. pose proof Hs as [(x & rc & a & u & n & Hat & Ha & Hu & Hr) _ _ _ _ _ _ _].
  pose proof (sa_wring _ _ _ _ _ _ _ _ _ _ Hat) as Hok. pose proof (used_range _ Hok).
  destruct (Z.eq_dec (used (c_writeBuf (cs_conn s))) 0) as [E0'|Hne].
  - unfold sendSegment. rewrite run_tick. set (w1 := (cs_world s) <| w_ticks := _ |>). set (pooled := e_refbuf e _).
    pose proof (eo_refbuf e He (w_ticks (cs_world s))) as Hp. fold pooled in Hp. unfold MaxPayloadSize in Hp.
    unfold read_into, with_writeBuf. change (RefBuf_Buf (GetRefBuf pooled)) with (rf_buf pooled).
    rewrite slice_ok by lia. crun.
    destruct (ReadNoBlock_ok _ 1 Hok) as (rb & E1 & Hok' & Hc & Hcap & Hcl); [lia|].
    assert (contents (c_writeBuf (cs_conn s)) = []) as Hnil.
    { apply zlen_zero_inv. rewrite zlen_contents by done. done. }
    rewrite Hnil in E1, Hc. change (1 - 0) with 1. rewrite zdrop_0, zlen_ztake by lia. rewrite E1. crun.
    eexists _, false. split; [reflexivity|].
    assert (used rb = 0) as Hu0. { rewrite <- zlen_contents by done. rewrite Hc. done. }
    eapply (J_sends E s _ x rc a u n []); try done; [apply Hat| |].
    + destruct Hat. split; try done; cbn; rewrite ?Hu0; try done; lia || by rewrite Hc.
    + split; [|exists []; by rewrite app_nil_r|done]. unfold aside. cbn. by rewrite Hcl.
  - destruct (ep_fin E) eqn:Ef; [exfalso; apply Hne; by apply (sa_fin _ _ _ _ _ _ _ _ _ _ Hat)|].
    pose proof (sa_total _ _ _ _ _ _ _ _ _ _ Hat). pose proof (sa_mss _ _ _ _ _ _ _ _ _ _ Hat).
    pose proof (sa_pos _ _ _ _ _ _ _ _ _ _ Hat).
    destruct (sendSegment_run so bo w e s x rc a u n 1 (eo_refbuf e He) Hat) as (s' & x' & E1 & Hat' & Hse & _);
      [lia|lia|lia|]. exists s', true. split; [done|].
    eapply J_sends; [done|apply Hat|by rewrite Ef|done|done|done|]. rewrite Ef. constructor; [cbn in *; lia|done].
Qed.

Lemma kept_sendZeroWindowProbe : env_ok e → kept e sendZeroWindowProbe E.
Proof.
  intros He. apply then_; [apply kept_count|intros _]. apply got_. intros c. destruct (c_snd c); [|apply kept_skip].
  eapply then_; [by apply kept_sendSegment1|intros b]. apply kept_when, kept_cancelZeroWindowProbe.
Qed.
End compose.

(** ** The end of the connection *)
Definition closed (E : ep_phase) : ep_phase := E <| ep_state := stateClosed |>.

Lemma J_state E st c c' wo wo' :
  J E (mkCS c wo) → ctl (E <| ep_state := st |>) c' →
  (c_snd c', c_rcv c', c_readBuf c', c_writeBuf c', c_cfg c', c_readShutdown c', frame c') =
  (c_snd c, c_rcv c, c_readBuf c, c_writeBuf c, c_cfg c, c_readShutdown c, frame c) →
  w_sent wo' = w_sent wo → J (E <| ep_state := st |>) (mkCS c' wo').
Proof.
  intros [(x & rc & a & u & n & Hat & Ha & Hu & Hr) ? ? Hun ? ? ? ?] Hc Ev Es.
  injection Ev as E1 E2 E3 E4 E5 E6 F1 F2 F3 F4 _. split; try done.
  - exists x, rc, a, u, n. split; [by eapply snd_at_same|]. split; [done|]. split; [done|].
    change (rcv_side E (mkCS c' wo') rc). by eapply rcv_side_same.
  - unfold unread in *. cbn in *. by rewrite E3.
  - cbn in *. by rewrite Es.
  - unfold frame in *. cbn in *. by rewrite F1, F2, F3, F4, E4.
Qed.

Lemma safe_closeDone e E : safe e closeDone (J E) (λ _, J (closed E)).
Proof.
  intros [c wo] H. eexists _, tt. split; [reflexivity|]. cbn [cs_conn cs_world].
  pose proof (j_ctl _ _ H) as []. cbn [cs_conn] in *. unfold closed.
  destruct (c_done c) eqn:Ed.
  - symmetry in ct_done0. apply bool_decide_eq_true in ct_done0.
    destruct E as [st f eo m]. cbn in ct_done0. subst st. exact H.
  - eapply (J_state E); [exact H| |done|done]. by split.
Qed.

Lemma safe_handleRST e E : safe e handleRST (J E) (λ _, J (closed E)).
Proof.
  apply then_; [apply kept_count|intros _]. intros [c wo] H. unfold set_state. rewrite run_setc. eexists _, tt.
  split; [reflexivity|]. cbn [cs_conn cs_world]. pose proof (j_ctl _ _ H) as []. cbn [cs_conn] in *.
  assert (∀ b, J (closed E) (mkCS (c <| c_state := stateClosed |> <| c_done := true |> <| c_statsActive := b |>) wo)) as Hj.
  { intros b. eapply (J_state E); [exact H| |done|done]. by split. }
  specialize (Hj (c_statsActive c)). eapply J_vital; [exact Hj| |done]. destruct (c_done c) eqn:Ed; cbn; rewrite ?Ed; done.
Qed.

Lemma safe_handleRTO e E : env_ok e → ep_coherent E → safe e handleRTO (J E) (λ _, JJ).
Proof.
  intros He Hco s Hs. pose proof Hs as [(x & rc & a & u & n & Hat & Ha & Hu & Hr) _ _ _ _ _ _ _].
  destruct (s_unacked x) as [|seg l] eqn:El.
  { unfold handleRTO. rewrite (run_get_snd _ _ _ x) by apply Hat. rewrite El. exists s, tt. by split; [|exists E]. }
  assert (s_unacked x ≠ []) as Hne by by rewrite El.
  destruct (negb (c_zeroWindowProbing (cs_conn s)) && (s_retries x + 1 >? s_maxRetries x)) eqn:Eab.
  - apply andb_prop in Eab as [Hz Hre]. unfold handleRTO. rewrite (run_get_snd _ _ _ x) by apply Hat.
    rewrite El. change (zlen (seg :: l) =? 0) with false. cbv iota. rewrite run_getc, Hz. unfold when_.
    rewrite (run_set_snd _ _ _ _ x) by apply Hat. erewrite run_get_snd by reflexivity. cbn [s_retries s_maxRetries].
    cbn in Hre |- *. rewrite Hre. cbn [andb].
    match goal with |- ∃ s' a, abort _ ?s1 = _ ∧ _ => assert (J E s1) as H1 end.
    { destruct (kept_set_snd e E (λ s, s <| s_retries := s_retries s + 1 |>) ltac:(done) s Hs) as (s1 & [] & E1 & H1).
      rewrite (run_set_snd' _ _ _ x) in E1 by apply Hat. by injection E1 as <-. }
    apply (safe_weaken e abort (J E) (J E) (λ _, J (closed E))); [|done|by intros _ ? ?; exists (closed E)|exact H1].
    apply then_; [apply kept_count|intros _]. apply got_. intros c. apply then_; [|intros _; apply safe_closeDone].
    destruct (c_snd c); [apply kept_sendRST|apply kept_skip].
  - destruct (handleRTO_run so bo w e (ep_fin E) rc s x a u n Hat Hne) as (s' & x' & it & E1 & Hat' & Hse & Hfl & _).
    { apply andb_false_iff in Eab as [?%negb_false_iff|?]; [by left|right; lia]. }
    exists s', tt. split; [done|]. exists E. split; [done|]. eapply J_sends; [done|apply Hat|done..|]. by constructor.
Qed.

(** ** Arriving data *)
Lemma snd_at_rcv fin s s' x rc rc' a u n :
  snd_at so bo w fin s x rc a u n → c_snd (cs_conn s') = c_snd (cs_conn s) → c_rcv (cs_conn s') = Some rc' →
  ring_ok (c_readBuf (cs_conn s')) → c_writeBuf (cs_conn s') = c_writeBuf (cs_conn s) →
  c_cfg (cs_conn s') = c_cfg (cs_conn s) → snd_at so bo w fin s' x rc' a u n.
Proof. intros [] E1 E2 E3 E4 E5. split; rewrite ?E1, ?E2, ?E3, ?E4, ?E5; done. Qed.

Lemma piece_join a b c : a ≤ b → b ≤ c → piece si a (b - a) ++ piece si b (c - b) = piece si a (c - a).
Proof.
  intros. replace (c - a) with ((b - a) + (c - b)) by lia. rewrite <- piece_app by lia.
  by replace (a + (b - a)) with b by lia.
Qed.

Definition at_pos (E : ep_phase) (m : Z) : ep_phase := mkEp (ep_state E) (ep_fin E) (ep_eof E) m.

(** The receive side has moved on to position [n]. *)
Lemma J_received E s s1 r1 n l :
  J E s → ep_eof E = false → quiet s s1 → unread s1 = unread s ++ piece si (ep_pos E) (n - ep_pos E) →
  rcv_open n s1 r1 l → ep_pos E ≤ n → J (at_pos E n) s1.
Proof.
  intros [(x & rc & a & u & n0 & Hat & Ha & Hu & Hr) [] Hpos Hun Hs Hfr ? ?] He (Ho & Es & _) Eu Hop Hle.
  assert (frame (cs_conn s1) = frame (cs_conn s)) as Ef by exact (f_equal frame Ho).
  split; cbn [at_pos ep_state ep_fin ep_eof ep_pos]; try done.
  - exists x, r1, a, u, n0. split_and!; try done.
    + eapply snd_at_rcv; [exact Hat|exact (f_equal c_snd Ho)| | |exact (f_equal c_writeBuf Ho)|exact (f_equal c_cfg Ho)];
        apply Hop.
    + unfold rcv_side. cbn. rewrite He. by exists l.
  - assert (c_readShutdown (cs_conn s1) = false) as Hrs by apply Hop.
    assert (c_writeBuf (cs_conn s1) = c_writeBuf (cs_conn s)) as Ewb by exact (f_equal c_writeBuf Ho).
    split; cbn; rewrite ?Ewb; try done.
    + rewrite <- ct_state0. exact (f_equal c_state Ho).
    + rewrite <- ct_done0. exact (f_equal c_done Ho).
    + rewrite <- ct_accepting0. exact (f_equal c_accepting Ho).
    + rewrite <- ct_force0. exact (f_equal c_forceCloseCh Ho).
    + rewrite <- ct_syn0. exact (f_equal c_synRcvdTimer Ho).
    + assert (c_sndWndScale (cs_conn s1) = c_sndWndScale (cs_conn s)) as -> by exact (f_equal c_sndWndScale Ho). done.
    + assert (c_finPending (cs_conn s1) = c_finPending (cs_conn s)) as -> by exact (f_equal c_finPending Ho).
      assert (c_closeCh (cs_conn s1) = c_closeCh (cs_conn s)) as -> by exact (f_equal c_closeCh Ho). done.
  - by transitivity (ep_pos E).
  - by rewrite Eu, Hun, <- app_assoc, piece_join.
  - by rewrite Es.
  - congruence.
Qed.

(** The end of the peer's stream. *)
Definition at_end (E : ep_phase) : ep_phase := mkEp (ep_state E) (ep_fin E) true W.
Definition in_state (E : ep_phase) (st : tcpState) : ep_phase := mkEp st (ep_fin E) (ep_eof E) (ep_pos E).

(** Nothing depends on the receiver any more. *)
Lemma J_no_rcv E c wo rc rc' rb :
  J E (mkCS c wo) → c_rcv c = Some rc → ended = true → ep_pos E = W → ring_ok rb → contents rb = contents (c_readBuf c) →
  J (at_end E) (mkCS (c <| c_rcv := Some rc' |> <| c_readBuf := rb |>) wo).
Proof.
  intros [(x & rc1 & a & u & n & Hat & Ha & Hu & Hr) [] ? Hun ? ? ? ?] Hrc Hend Hm Hrb Hc.
  split; cbn [at_end ep_fin ep_eof ep_pos]; try done.
  - exists x, rc', a, u, n. split_and!; try done. by eapply snd_at_rcv.
  - by rewrite <- Hm.
  - unfold unread in *. cbn in *. by rewrite Hc, Hun, Hm.
Qed.

Lemma safe_nxt e E :
  ep_pos E = W → ended = true →
  safe e (set_rcv (λ r, r <| r_nxt := u32 (r_nxt r + 1) |>)) (J E) (λ _, J (at_end E)).
Proof.
  intros Hm Hend [c wo] H. pose proof H as [(x & rc & a & u & n & Hat & _) _ _ _ _ _ _ _].
  rewrite (run_set_rcv' _ _ _ rc) by apply Hat. eexists _, tt. split; [reflexivity|].
  eapply J_vital; [eapply (J_no_rcv E c wo rc _ (c_readBuf c)); try done; apply Hat|by destruct c|done].
Qed.

Lemma kept_close_readBuf e E : ep_eof E = true → kept e close_readBuf E.
Proof.
  intros He [c wo] H. eexists _, tt. split; [reflexivity|].
  pose proof H as [(x & rc & a & u & n & Hat & _ & _ & Hr) _ _ _ _ _ _ _]. unfold rcv_side in Hr. rewrite He in Hr.
  destruct Hr as [Hend Hm]. pose proof (sa_rring _ _ _ _ _ _ _ _ _ _ Hat : ring_ok (c_readBuf c)) as Hok.
  assert (J (at_end E) (mkCS (c <| c_rcv := Some rc |> <| c_readBuf := CloseWrite (c_readBuf c) |>) wo)) as H1.
  { eapply (J_no_rcv E c wo rc); try done; [apply Hat|by destruct Hok]. }
  replace (at_end E) with E in H1 by (destruct E; cbn in *; by subst).
  eapply J_vital; [exact H1| |done]. unfold vital. cbn. by rewrite (sa_rcv _ _ _ _ _ _ _ _ _ _ Hat : c_rcv c = Some rc).
Qed.

Lemma safe_set_state e E st :
  ep_state E ≠ stateClosed → st ≠ stateClosed → safe e (set_state st) (J E) (λ _, J (in_state E st)).
Proof.
  intros H1 H2 [c wo] H. eexists _, tt. split; [reflexivity|]. pose proof (j_ctl _ _ H) as []. cbn [cs_conn] in *.
  change (in_state E st) with (E <| ep_state := st |>). eapply J_state; [exact H| |done|done]. split; try done.
  cbn. by rewrite ct_done0, !bool_decide_eq_false_2.
Qed.

Lemma safe_processFIN e E :
  ep_state E ≠ stateClosed → ep_pos E = W → ended = true →
  safe e processFIN (J E) (λ _, J (in_state (at_end E) stateCloseWait)).
Proof.
  intros Hst Hm Hend. apply (safe_bind _ _ _ _ (λ _, J (at_end E))); [by apply safe_nxt|intros _].
  apply then_; [apply kept_cancelDelayedACK|intros _]. apply then_; [apply kept_sendACK|intros _].
  apply got_. intros c. apply then_; [by apply kept_when, kept_close_readBuf|intros _]. by apply safe_set_state.
Qed.

Lemma safe_enterTimeWait e E :
  ep_eof E = true → ep_state E ≠ stateClosed → safe e enterTimeWait (J E) (λ _, J (in_state E stateTimeWait)).
Proof.
  intros He Hst. apply (safe_bind _ _ _ _ (λ _, J (in_state E stateTimeWait))); [by apply safe_set_state|intros _]. apply got_. intros c.
  apply then_; [by apply kept_when, kept_close_readBuf|intros _]. by apply kept_setc.
Qed.

(** Data at its place in the peer's stream: the receive side moves on, or
    reaches an end that was announced before. *)
Definition after_data (E : ep_phase) (p k : Z) (s : CS) : Prop :=
  (∃ m, J (at_pos E m) s ∧ (p ≤ ep_pos E → p + k ≤ edge → p + k ≤ m)) ∨
  (mine = false ∧ ep_state E = stateEstablished ∧ J (in_state (at_end E) stateCloseWait) s).

Lemma fin_seen E s :
  J E s → ep_coherent E → ep_eof E = false → mine = false → ep_state E ≠ stateClosed → ep_state E = stateEstablished.
Proof.
  intros [_ [] _ _ _ _ _ _] Hco He Hm Hc. unfold ep_coherent in Hco.
  destruct (ep_state E); try done; destruct Hco as [Hf ?]; try congruence;
    rewrite Hf in ct_shut0; destruct ct_shut0 as [_ ?]; done || congruence.
Qed.

Lemma safe_handleData e E p k :
  ep_coherent E → ep_eof E = false → ep_state E ≠ stateClosed → 0 ≤ p → 0 < k → p + k ≤ W →
  safe e (handleData (seq_of bi p) (piece si p k)) (J E) (λ _, after_data E p k).
Proof.
  intros Hco He Hc Hp Hk Hpk s Hs. pose proof Hs as [(x & rc & a & u & n0 & Hat & Ha & Hu & Hr) _ _ _ _ _ _ _].
  unfold rcv_side in Hr. rewrite He in Hr. destruct Hr as (l & [Hop Hpos Hheld Hedge Hfin]).
  destruct (handleData_open si bi lim Hlim e s rc (ep_pos E) l p k Hop) as (s1 & r1 & n1 & l1 & b & -> & Hop1 & Hev & Hb & Hq);
    [clear - Hk Hpk Hp HW; lia|clear - Hk Hpk Hp HW Hpos; unfold span_limit in *; lia|].
  destruct (held_below (covered l) (covered l1) _ _ _ _ _ W Hq) as [Hn1 Hheld1]; [apply Hpos|done|done|].
  pose proof Hev as [Hqu Hrest Hun Hle Hed].
  assert (r_finReceived r1 = r_finReceived rc ∧ r_finSeq r1 = r_finSeq rc) as [Ef Eq]
    by (split; [exact (f_equal r_finReceived Hrest)|exact (f_equal r_finSeq Hrest)]).
  assert (0 ≤ n1 ≤ W) as Hn by (clear - Hn1 Hle Hpos; lia).
  assert (edge ≤ n1 + room s1) as Hedge1 by by transitivity (ep_pos E + room s).
  assert (p ≤ ep_pos E → p + k ≤ edge → p + k ≤ n1) as Hall.
  { intros ? ?. eapply all_taken; [exact Hq|apply Hop1|done|done|]. by transitivity edge. }
  assert ((r_finReceived r1 = true → n1 ≠ W) → after_data E p k s1) as Hgo.
  { intros Hne. left. exists n1. split; [|done]. eapply (J_received E s s1 r1 n1 l1); try done. split; try done.
    intros Hf. rewrite Eq. destruct Hfin as (? & ? & ? & _); [congruence|]. by split_and!; [..|apply Hne]. }
  destruct b; [|exists s1, tt; split; [done|]; apply Hgo; rewrite Ef; intros (_ & _ & _ & ?)%Hfin; by rewrite Hb].
  unfold fin_check, when_. pose proof (ok_rcv _ _ _ (st_ok _ _ _ _ _ _ _ _ _ (op_at _ _ _ _ _ _ _ Hop1))) as Hr1.
  rewrite (run_get_rcv _ _ _ r1) by done. destruct (r_finReceived r1) eqn:Ef1; [|by exists s1, tt; split; [|apply Hgo]].
  destruct Hfin as (Hm & Hend & Hfs & _); [congruence|].
  rewrite (st_nxt _ _ _ _ _ _ _ _ _ (op_at _ _ _ _ _ _ _ Hop1)), Eq, Hfs, (seq_eqb si)
    by (clear - Hn HW; unfold span_limit in *; lia).
  destruct (Z.eqb_spec n1 W) as [->|Hne]; [|by exists s1, tt; split; [|apply Hgo]].
  cbn [andb]. rewrite (run_set_rcv _ _ _ _ r1) by done.
  destruct (safe_processFIN e (at_pos E W) Hc eq_refl Hend (mkCS ((cs_conn s1) <| c_rcv := Some (r1 <| r_finReceived := false |>) |>) (cs_world s1)))
    as (s2 & [] & E2 & H2); [|exists s2, tt; split; [exact E2|]; right; split; [done|]; split; [by eapply fin_seen|exact H2]].
  eapply (J_received E s _ (r1 <| r_finReceived := false |>) W l1); try done.
  destruct Hop1 as [[[] ? ? ? ? ? ? ?] ?]. by split.
Qed.

(** ** Closing this end's stream *)

(** Only an end that may close ever gets there. *)
Definition shut : Prop := rb_closed (c_writeBuf (cs_conn s0)) = true ∧ mine = true.

Lemma J_closed E s : J E s → rb_closed (c_writeBuf (cs_conn s)) = rb_closed (c_writeBuf (cs_conn s0)).
Proof. intros H. exact (f_equal (λ t, t.2) (j_frame _ _ H)). Qed.
Lemma J_shut E s : J E s → ep_fin E || c_finPending (cs_conn s) || c_closeCh (cs_conn s) = true → shut.
Proof. intros H [??]%(ct_shut _ _ (j_ctl _ _ H)). split; [|done]. by rewrite <- (J_closed E s). Qed.

Lemma J_flags E c wo b1 b2 :
  J E (mkCS c wo) → (b1 || b2 = true → shut) → J E (mkCS (c <| c_finPending := b1 |> <| c_closeCh := b2 |>) wo).
Proof.
  intros H Hsh. pose proof (J_closed _ _ H) as Hcl. pose proof (J_shut _ _ H) as Hs. cbn [cs_conn] in *.
  pose proof (j_ctl _ _ H) as []. cbn [cs_conn] in *.
  assert (J (E <| ep_state := ep_state E |>) (mkCS (c <| c_finPending := b1 |> <| c_closeCh := b2 |>) wo)) as H1;
    [|by destruct E].
  eapply J_state; [exact H| |done|done]. destruct E as [st f eo m]; split; try done. cbn. rewrite Hcl.
  intros Hb. apply orb_prop in Hb as [[Hb|Hb]%orb_prop|Hb].
  - rewrite Hb in Hs. by apply Hs.
  - apply Hsh. by rewrite Hb.
  - apply Hsh. by rewrite Hb, orb_true_r.
Qed.

Lemma queue_snoc_fin a n l seg :
  queue_at so bo a n false l → us_fin seg = true → us_seq seg = seq_of bo n → us_ref seg = None →
  queue_at so bo a n true (l ++ [seg]).
Proof.
  intros Hq H1 H2 H3. revert a Hq. induction l as [|sg l IH]; intros a; cbn [queue_at app].
  - intros ->. right. split_and!; try done. apply Z.add_0_r.
  - intros [(k & Hp & Hle & Hq)|(_ & _ & _ & ? & _)]; [|done]. left. exists k. split_and!; [done|done|by apply IH].
Qed.

Lemma sendFIN_run e s x rc a u n :
  snd_at so bo w false s x rc a u n → used (c_writeBuf (cs_conn s)) = 0 →
  ∃ s' x', sendFIN e s = Ret (s', tt) ∧ snd_at so bo w true s' x' rc a u n ∧ sends so bo s s' [SFin n].
Proof.
  intros Hat Hu. destruct s as [c wo]. pose proof Hat as [Hx Hrc Hrr _ _ _ Huna Hn Hpos _ Hq _ _ Hcfg _ _].
  unfold sendFIN. rewrite (run_get_snd _ _ _ x) by done. cbn [Z.b2z] in Hn. rewrite Z.add_0_r in Hn.
  destruct (send_item so bo e c wo rc (mkUnacked (seq_of bo n) None true 0 false false) (SFin n))
    as (c' & wo' & E1 & [[Ea Hse Hac] E2 E3 E4 E5]); [done..|by split|].
  cbn [us_fin us_seq] in E1. cbn [cs_conn cs_world] in *. rewrite Hn, (run_bind _ _ _ _ _ _ E1).
  assert (c_snd c' = Some x) as Hx' by congruence. unfold recordSentFIN, append_unacked, time_now.
  rewrite (run_get_snd _ _ _ x) by done. rewrite run_assoc, run_tick. rewrite (run_set_snd _ _ _ _ x) by done.
  erewrite run_set_snd' by reflexivity. eexists _, _. split; [reflexivity|]. split.
  - destruct Hat. cbn [cs_conn] in *. split; cbn; rewrite ?E3, ?E4, ?E5; try done.
    + rewrite Hn, <- (u32_id 1) by done. by rewrite seq_plus.
    + cbn in *. lia.
    + rewrite Hn. by apply queue_snoc_fin.
    + by rewrite (aside_cfg _ _ Ea).
  - split; [|done|done]. unfold aside in *. cbn. exact Ea.
Qed.

Lemma safe_sendFIN e E :
  shut → ep_fin E = false →
  safe e sendFIN (λ s, J E s ∧ used (c_writeBuf (cs_conn s)) = 0) (λ _, J (with_fin E true)).
Proof.
  intros [Hcl Hm] Hf s [Hs Hu]. pose proof Hs as [(x & rc & a & u & n & Hat & Ha & Hua & Hr) _ _ _ _ _ _ _].
  rewrite Hf in Hat. destruct (sendFIN_run e s x rc a u n Hat Hu) as (s' & x' & E2 & Hat2 & Hse).
  exists s', tt. split; [done|]. eapply (J_sends_fin E true); try done; [apply Hat|by repeat constructor|].
  intros _. right. split; [|done]. by rewrite (J_closed E s).
Qed.

(** Nothing is left to send. *)
Definition drained (E : ep_phase) (s : CS) : Prop := J E s ∧ used (c_writeBuf (cs_conn s)) = 0.

Lemma safe_finalizeFIN e E : shut → ep_coherent E → safe e finalizeFIN (drained E) (λ _, JJ).
Proof.
  intros Hsh Hco [c wo] [Hs Hu]. unfold finalizeFIN. rewrite run_setc, run_getc. cbn [cs_conn cs_world] in *.
  assert (J E (mkCS (c <| c_finPending := false |>) wo)) as H1.
  { eapply J_vital; [apply (J_flags E c wo false (c_closeCh c) Hs)|done|done]. by intros _. }
  set (c1 := c <| c_finPending := false |>) in *. pose proof (ct_state _ _ (j_ctl _ _ H1) : c_state c1 = _) as Est.
  destruct (c_state c1) eqn:Ec; try (by exists (mkCS c1 wo), tt; split; [|exists E]);
    unfold ep_coherent in Hco; rewrite <- Est in Hco; destruct Hco as [Hf He].
  - destruct (safe_sendFIN e E Hsh Hf (mkCS c1 wo)) as (s2 & [] & E2 & H2); [done|]. rewrite (run_bind _ _ _ _ _ _ E2).
    destruct (safe_set_state e (with_fin E true) stateFinWait1) with (s := s2) as (s3 & [] & E3 & H3);
      [by cbn; rewrite <- Est|done..|]. exists s3, tt. split; [done|]. eapply J_JJ; [|exact H3]. by split.
  - destruct (safe_sendFIN e E Hsh Hf (mkCS c1 wo)) as (s2 & [] & E2 & H2); [done|]. rewrite (run_bind _ _ _ _ _ _ E2).
    destruct (safe_set_state e (with_fin E true) stateLastAck) with (s := s2) as (s3 & [] & E3 & H3);
      [by cbn; rewrite <- Est|done..|]. exists s3, tt. split; [done|]. eapply J_JJ; [|exact H3]. by split.
Qed.

Lemma safe_handleClose e E : env_ok e → shut → ep_coherent E → safe e handleClose (J E) (λ _, JJ).
Proof.
  intros He Hsh Hco. apply got. intros c.
  assert (safe e (when_ (bool_decide (is_Some (c_snd c))) sendPending;;
      c ← getc;
      pending ← match c_snd c with
                | Some _ => n ← lift (Len (c_writeBuf c)); mret (n >? 0)
                | None => mret false
                end;
      if pending : bool then setc (λ c, c <| c_finPending := true |>) else finalizeFIN) (J E) (λ _, JJ)) as Hgo.
  { apply then_; [by apply kept_when, kept_sendPending|intros _]. apply got. intros c1 s Hs.
    destruct (J_sides_some E s (proj1 Hs)) as (_ & Hw & [x Hx] & _). destruct Hs as [Hs <-]. rewrite Hx.
    unfold Len. rewrite lenLocked_ok, run_assoc, run_lift, run_mret by done.
    destruct (Z.gtb_spec (used (c_writeBuf (cs_conn s))) 0) as [Hgt|Hle].
    - eexists _, tt. split; [reflexivity|]. exists E. split; [done|]. destruct s as [c1 wo].
      eapply J_vital; [apply (J_flags E c1 wo true (c_closeCh c1) Hs)|done|done]. done.
    - apply (safe_finalizeFIN e E Hsh Hco). split; [done|]. pose proof (used_range _ Hw). clear - Hle H. lia. }
  destruct (c_state c); try (apply forget; exact Hgo); by apply forget, finally, kept_skip.
Qed.


(** ** Segments by state *)
Lemma kept_ackData e E seg : kept e (ackData seg) E.
Proof.
  apply then_; [by apply kept_setc|intros _]. apply got_. intros c. cbv zeta.
  destruct (_ || _); [|by apply kept_setc]. apply then_; [apply kept_cancelDelayedACK|intros _].
  apply then_; [apply kept_sendACK|intros _]. by apply kept_setc.
Qed.

(** A FIN that comes before all data is noted; one that comes again does no
    harm. *)
Lemma kept_late_fin e E q :
  (ep_eof E = false → mine = false ∧ q = seq_of bi W ∧ ep_pos E ≠ W ∧ ended = true) →
  kept e (set_rcv (λ r, r <| r_finReceived := true |> <| r_finSeq := q |>)) E.
Proof.
  intros Hq [c wo] Hs. pose proof Hs as [(x & rc & a & u & n & Hat & Ha & Hu & Hr) _ _ _ _ _ _ _].
  rewrite (run_set_rcv' _ _ _ rc) by apply Hat. eexists _, tt. split; [reflexivity|]. cbn [cs_conn cs_world].
  unfold rcv_side in Hr. destruct (ep_eof E) eqn:He.
  - destruct Hr as [Hend Hm]. replace E with (at_end E) by (destruct E; cbn in *; by subst).
    eapply J_vital; [eapply (J_no_rcv E c wo rc _ (c_readBuf c)); try done; apply Hat|by destruct c|done].
  - destruct Hq as (Hm & -> & Hne & Hend); [done|]. destruct Hr as (l & [[[[] ? ? ? ? ? ? ?] ?] ? ? ? ?]).
    assert (J (at_pos E (ep_pos E)) (mkCS (c <| c_rcv := Some (rc <| r_finReceived := true |>
      <| r_finSeq := seq_of bi W |>) |>) wo)) as H1; [|by destruct E].
    eapply (J_received E (mkCS c wo) _ (rc <| r_finReceived := true |> <| r_finSeq := seq_of bi W |>) _ l); try done.
    rewrite Z.sub_diag. symmetry. apply app_nil_r.
Qed.

Lemma got_both {B} e E (f : TCPConn → conn_m B) Q :
  (∀ c, has_snd c = true → has_rcv c = true → safe e (f c) (J E) Q) → safe e (getc ≫= f) (J E) Q.
Proof.
  intros H. apply got. intros c s Hs. apply (H c); [by eapply Jc_has_snd|by eapply Jc_has_rcv|apply Hs].
Qed.

Section segment.
Context (e : Env) (seg : segment) (E : ep_phase).
Hypothesis He : env_ok e.
Hypothesis Hseg : peer_seg si bi W ended seg.
Hypothesis Hco : ep_coherent E.
(** An end that may close gets the FIN in order only, and has room for the
    data before it. *)
Definition fin_in_order : Prop :=
  mine = true → Has (sg_flags seg) TCPFlagFIN = true → ep_eof E = false →
  ∃ p, sg_seq seg = seq_of bi p ∧ 0 ≤ p ≤ ep_pos E ∧ sg_payload seg = piece si p (W - p) ∧ W ≤ edge.
Hypothesis Hord : fin_in_order.

(** What a segment that may carry data does to the receive side. *)
Definition taken_in (s : CS) : Prop :=
  (∃ m, J (at_pos E m) s ∧ 0 ≤ m ≤ W ∧ (mine = true → Has (sg_flags seg) TCPFlagFIN = true → m = W)) ∨
  (mine = false ∧ ep_state E = stateEstablished ∧ J (in_state (at_end E) stateCloseWait) s).

Lemma J_pos E' s : J E' s → ep_eof E' = false → 0 ≤ ep_pos E' ≤ W.
Proof.
  intros [(x & rc & a & u & n & _ & _ & _ & Hr) _ _ _ _ _ _ _] Heo. unfold rcv_side in Hr. rewrite Heo in Hr.
  by destruct Hr as (l & [? ? ? ? ?]).
Qed.

Lemma payload_gtb : sg_payload seg ≠ [] → (zlen (sg_payload seg) >? 0) = true.
Proof. destruct (sg_payload seg); [done|]. intros _. rewrite zlen_cons. pose proof (zlen_nonneg l). lia. Qed.

Lemma piece_nil p k : piece si p k = [] → k ≤ 0.
Proof. intros H%(f_equal zlen). destruct (Z.le_gt_cases k 0); [done|]. rewrite zlen_piece' in H by lia. change (zlen []) with 0 in H. lia. Qed.

Lemma safe_data :
  ep_eof E = false → ep_state E ≠ stateClosed →
  safe e (when_ ((zlen (sg_payload seg) >? 0) && true) (handleData (sg_seq seg) (sg_payload seg))) (J E) (λ _, taken_in).
Proof.
  intros Heo Hc s Hs. pose proof (J_pos E s Hs Heo) as Hpos.
  destruct (decide (sg_payload seg = [])) as [Hp|Hp].
  { rewrite Hp. exists s, tt. split; [done|]. left. exists (ep_pos E). split; [by destruct E|]. split; [done|].
    intros Hm Hf. destruct (Hord Hm Hf Heo) as (p & _ & Hpp & Hpl & _). rewrite Hp in Hpl. symmetry in Hpl.
    apply piece_nil in Hpl. clear - Hpl Hpp Hpos. lia. }
  rewrite payload_gtb by done. cbn [andb when_].
  assert (∃ p k, sg_seq seg = seq_of bi p ∧ sg_payload seg = piece si p k ∧ 0 ≤ p ∧ 0 < k ∧ p + k ≤ W ∧
    (mine = true → Has (sg_flags seg) TCPFlagFIN = true → p ≤ ep_pos E ∧ p + k = W ∧ W ≤ edge)) as (p & k & Hse & Hpl & H0 & Hk & HpW & Hfin).
  { destruct (mine && Has (sg_flags seg) TCPFlagFIN) eqn:Hb.
    - apply andb_prop in Hb as [Hm Hf]. destruct (Hord Hm Hf Heo) as (p & Hse & Hpp & Hpl & Hed).
      exists p, (W - p). assert (0 < W - p). { destruct (Z.lt_ge_cases 0 (W - p)); [done|]. destruct Hp. rewrite Hpl.
        unfold piece. by rewrite seqZ_nil. }
      split_and!; try done; [apply Hpp|clear; lia|]. intros _ _. split_and!; [apply Hpp|clear; lia|done].
    - destruct (sk_data _ _ _ _ _ Hseg) as [?|(p & k & ? & ? & ? & ? & ?)]; [done|]. exists p, k.
      split_and!; try done. intros Hm Hf. by rewrite Hm, Hf in Hb. }
  rewrite Hse, Hpl. destruct (safe_handleData e E p k Hco Heo Hc H0 Hk HpW s Hs) as (s1 & [] & E1 & [(m & H1 & Hm1)|?]).
  - exists s1, tt. split; [done|]. left. exists m. split; [done|]. pose proof (J_pos _ _ H1 Heo) as Hpm. cbn in Hpm.
    split; [done|]. intros Hm Hf. destruct (Hfin Hm Hf) as (Hle & HW' & Hed). rewrite HW' in Hm1.
    specialize (Hm1 Hle Hed). clear - Hm1 Hpm. lia.
  - exists s1, tt. split; [done|]. by right.
Qed.

Lemma fin_seq : Has (sg_flags seg) TCPFlagFIN = true →
  ended = true ∧ u32 (sg_seq seg + u32 (zlen (sg_payload seg))) = seq_of bi W.
Proof.
  intros Hf. destruct (sk_fin _ _ _ _ _ Hseg Hf) as (Hend & p & -> & -> & Hp). split; [done|].
  rewrite zlen_piece', seq_plus by (clear - Hp; lia). f_equal. clear. lia.
Qed.

(** What [handleEstablished] does with the FIN flag. *)
Definition takeFIN : conn_m bool :=
  c ← getc;
  match c_rcv c with
  | Some r =>
      if Has (sg_flags seg) TCPFlagFIN then
        let finSeq := u32 (sg_seq seg + u32 (zlen (sg_payload seg))) in
        if r_nxt r =? finSeq then processFIN;; mret true
        else set_rcv (λ r, r <| r_finReceived := true |> <| r_finSeq := finSeq |>);; mret false
      else mret false
  | None => mret false
  end.

Lemma safe_takeFIN : ep_state E = stateEstablished → safe e takeFIN taken_in (λ _, JJ).
Proof.
  intros Hst s Ht. unfold takeFIN. rewrite run_getc.
  pose proof Hco as Hco'. unfold ep_coherent in Hco'. rewrite Hst in Hco'. destruct Hco' as [Hf Heo].
  assert (JJ s) as HJ.
  { destruct Ht as [(m & H1 & _)|(_ & _ & H1)]; eapply J_JJ; try exact H1; unfold ep_coherent; cbn; by rewrite ?Hst. }
  destruct (c_rcv (cs_conn s)) as [r|] eqn:Hr; [|by exists s, false].
  destruct (Has (sg_flags seg) TCPFlagFIN) eqn:Hfin; [|by exists s, false].
  destruct (fin_seq Hfin) as [Hend ->]. cbv zeta.
  assert (∃ E', J E' s ∧ ep_fin E' = false ∧ ep_state E' ≠ stateClosed ∧ ep_coherent E' ∧
    (r_nxt r = seq_of bi W → ep_pos E' = W) ∧
    (r_nxt r ≠ seq_of bi W → ep_eof E' = false → mine = false ∧ seq_of bi W = seq_of bi W ∧ ep_pos E' ≠ W ∧ ended = true))
    as (E' & H1 & Hf' & Hc & Hco' & Hy & Hn).
  { destruct Ht as [(m & H1 & Hm & Hw)|(Hm & _ & H1)]; (eexists; split; [exact H1|]); cbn; rewrite ?Hst; split_and!; try done;
      unfold ep_coherent; cbn; rewrite ?Hst; try done.
    - intros Hn. destruct H1 as [(x & rc & a & u & n & Hat & _ & _ & Hrs) _ _ _ _ _ _ _]. unfold rcv_side in Hrs.
      cbn in Hrs. rewrite Heo in Hrs. destruct Hrs as (l & [[[Hok _ Hnx _ _ _ _ _] _] _ _ _ _]).
      pose proof (ok_rcv _ _ _ Hok) as Hr'. rewrite Hr in Hr'. injection Hr' as ->. rewrite Hn in Hnx.
      symmetry. by eapply seq_of_inj; [apply near_end|].
    - intros Hn _. assert (m ≠ W) as Hne.
      { intros ->. destruct H1 as [(x & rc & a & u & n & Hat & _ & _ & Hrs) _ _ _ _ _ _ _]. unfold rcv_side in Hrs.
        cbn in Hrs. rewrite Heo in Hrs. destruct Hrs as (l & [[[Hok _ Hnx _ _ _ _ _] _] _ _ _ _]).
        pose proof (ok_rcv _ _ _ Hok) as Hr'. rewrite Hr in Hr'. by injection Hr' as ->. }
      split_and!; try done. apply not_true_is_false. intros Hm1. by apply Hne, Hw. }
  destruct (Z.eqb_spec (r_nxt r) (seq_of bi W)) as [Hq|Hq].
  - destruct (safe_processFIN e E' Hc (Hy Hq) Hend s H1) as (s1 & [] & E1 & H2).
    rewrite (run_bind _ _ _ _ _ _ E1). exists s1, true. split; [done|]. eapply J_JJ; [|exact H2]. by split.
  - destruct (kept_late_fin e E' (seq_of bi W) (Hn Hq) s H1) as (s1 & [] & E1 & H2).
    rewrite (run_bind _ _ _ _ _ _ E1). exists s1, false. split; [done|]. by eapply J_JJ.
Qed.

Lemma kept_JJ {A} (m : conn_m A) : (∀ E, safe e m (J E) (λ _, J E)) → safe e m JJ (λ _, JJ).
Proof. intros H s (E' & ? & Hs). destruct (H E' s Hs) as (s' & a & E1 & H1). exists s', a. by split; [|exists E']. Qed.

Lemma safe_handleEstablished : ep_state E = stateEstablished → safe e (handleEstablished seg) (J E) (λ _, JJ).
Proof.
  intros Hst. pose proof Hco as Hco'. unfold ep_coherent in Hco'. rewrite Hst in Hco'. destruct Hco' as [Hf Heo].
  apply then_; [apply kept_resetKeepalive|intros _]. apply got_both. intros c -> ->.
  apply then_; [apply kept_when, kept_ackEstablished; by destruct Hseg|intros _].
  apply (safe_bind _ _ _ _ (λ _, taken_in)); [apply safe_data; congruence|intros _].
  intros s Hs. destruct (safe_takeFIN Hst s Hs) as (s1 & b & E1 & H1).
  pose proof (run_bind e s takeFIN (λ fin, when_ (negb fin && (zlen (sg_payload seg) >? 0)) (ackData seg)) s1 b E1) as Er.
  unfold takeFIN in Er. rewrite run_assoc, run_getc in Er. rewrite run_getc. cbv zeta in Er |- *. rewrite Er.
  apply (kept_JJ _ (λ E, kept_when e E _ _ (kept_ackData e E seg)) s1 H1).
Qed.

Lemma safe_closingData :
  ep_eof E = false → ep_state E ≠ stateClosed → ep_state E ≠ stateEstablished → ep_fin E = true →
  safe e (when_ ((zlen (sg_payload seg) >? 0) && true) (handleData (sg_seq seg) (sg_payload seg)))
    (J E) (λ _ s, ∃ m, J (at_pos E m) s ∧ (Has (sg_flags seg) TCPFlagFIN = true → m = W)).
Proof.
  intros Heo Hc Hst Hf s Hs. destruct (J_shut E s Hs) as [_ Hm]; [by rewrite Hf|].
  destruct (safe_data Heo Hc s Hs) as (s1 & [] & E1 & [(m & H1 & _ & Hw)|(_ & ? & _)]); [|done].
  exists s1, tt. split; [done|]. exists m. split; [done|]. auto.
Qed.

Lemma safe_set_state_timer E' st t :
  ep_state E' ≠ stateClosed → st ≠ stateClosed →
  safe e (setc (λ c, c <| c_state := st |> <| c_finWait2Timer := Some (t c) |>)) (J E') (λ _, J (in_state E' st)).
Proof.
  intros H1 H2 s Hs. destruct (safe_set_state e E' st H1 H2 s Hs) as (s1 & [] & E1 & Hs1).
  eexists _, tt. split; [reflexivity|]. injection E1 as <-. by eapply J_vital.
Qed.

Lemma safe_handleFinWait1 : ep_state E = stateFinWait1 → safe e (handleFinWait1 seg) (J E) (λ _, JJ).
Proof.
  intros Hst. pose proof Hco as Hco'. unfold ep_coherent in Hco'. rewrite Hst in Hco'. destruct Hco' as [Hf Heo].
  apply got_. intros c. apply then_.
  { destruct (_ && _); [|by apply safe_ret]. destruct Hseg.
    apply then_; [by apply kept_set_peer_window|intros _]. apply then_; [apply kept_measureRTTM|intros _].
    apply then_; [by apply kept_handleACK|intros _]. apply got_snd. intros x. by apply safe_ret. }
  intros b. apply got_both. intros c1 _ ->. eapply safe_bind; [apply safe_closingData; congruence|].
  intros _ s (m & Hs & Hw). revert s Hs. apply got_both. intros c2 _ ->. rewrite andb_true_r.
  assert (ep_coherent (at_pos E m)) as Hcm by by unfold ep_coherent; cbn; rewrite Hst.
  destruct (Has (sg_flags seg) TCPFlagFIN) eqn:Hfin.
  - destruct (fin_seq Hfin) as [Hend _]. rewrite (Hw eq_refl).
    apply (safe_bind _ _ _ _ (λ _, J (at_end E))); [by apply (safe_nxt e (at_pos E W))|intros _].
    apply then_; [apply kept_sendACK|intros _]. apply got_. intros c3.
    apply then_; [by apply kept_when, kept_close_readBuf|intros _].
    assert (ep_state (at_end E) ≠ stateClosed) by (cbn; congruence). destruct b.
    + eapply safe_weaken; [by apply (safe_enterTimeWait e (at_end E))|done|]. intros ? s H1. eapply J_JJ; [|exact H1]. by split.
    + eapply safe_weaken; [by apply (safe_set_state e (at_end E))|done|]. intros ? s H1. eapply J_JJ; [|exact H1]. by split.
  - apply then_; [apply kept_when, kept_sendACK|intros _]. destruct b; [|by apply finally, kept_skip].
    eapply safe_weaken; [apply (safe_set_state_timer (at_pos E m) stateFinWait2 (λ c, finWait2Timeout (c_cfg c)))|done|];
      [by cbn; rewrite Hst|done|]. intros ? s H1. eapply J_JJ; [|exact H1]. by split.
Qed.

Lemma safe_handleFinWait2 : ep_state E = stateFinWait2 → safe e (handleFinWait2 seg) (J E) (λ _, JJ).
Proof.
  intros Hst. pose proof Hco as Hco'. unfold ep_coherent in Hco'. rewrite Hst in Hco'. destruct Hco' as [Hf Heo].
  apply got_both. intros c -> ->. apply then_; [destruct Hseg; by apply kept_when, kept_set_peer_window|intros _].
  apply (safe_bind _ _ _ _ (λ _ s, ∃ m, J (at_pos E m) s ∧ (Has (sg_flags seg) TCPFlagFIN = true → m = W))).
  { pose proof safe_closingData as Hd. unfold when_ in *. destruct (_ && _); [|apply Hd; congruence].
    eapply safe_bind; [apply Hd; congruence|]. intros _ s (m & Hs & Hw). eexists _, tt. split; [reflexivity|].
    exists m. split; [|done]. by eapply J_vital. }
  intros _ s (m & Hs & Hw). revert s Hs. rewrite andb_true_r.
  assert (ep_coherent (at_pos E m)) as Hcm by by unfold ep_coherent; cbn; rewrite Hst.
  destruct (Has (sg_flags seg) TCPFlagFIN) eqn:Hfin; [|by apply finally, kept_when, kept_sendACK].
  destruct (fin_seq Hfin) as [Hend _]. rewrite (Hw eq_refl).
  apply (safe_bind _ _ _ _ (λ _, J (at_end E))); [by apply (safe_nxt e (at_pos E W))|intros _].
  apply then_; [apply kept_sendACK|intros _].
  eapply safe_weaken; [apply (safe_enterTimeWait e (at_end E)); [done|cbn; congruence]|done|].
  intros ? s H1. eapply J_JJ; [|exact H1]. by split.
Qed.

Lemma kept_handleCloseWait : kept e (handleCloseWait seg) E.
Proof.
  destruct Hseg. apply got_. intros c. apply kept_when.
  apply then_; [by apply kept_set_peer_window|intros _].
  apply then_; [apply kept_set_snd; intros; apply neutral_updateMaxWnd|intros _].
  apply then_; [apply kept_measureRTTM|intros _]. by apply kept_handleACK.
Qed.

Lemma safe_handleClosing : ep_state E = stateClosing → safe e (handleClosing seg) (J E) (λ _, JJ).
Proof.
  intros Hst. pose proof Hco as Hco'. unfold ep_coherent in Hco'. rewrite Hst in Hco'. destruct Hco' as [Hf Heo].
  apply got_. intros c. apply then_.
  { destruct (_ && _); [|by apply safe_ret]. destruct Hseg.
    apply then_; [apply kept_measureRTTM|intros _].
    apply then_; [by apply kept_handleACK|intros _]. apply got_snd. intros x. by apply safe_ret. }
  intros b. destruct b; [|by apply finally, kept_when, kept_sendACK].
  eapply safe_weaken; [apply (safe_enterTimeWait e E); [done|congruence]|done|].
  intros ? s H1. eapply J_JJ; [|exact H1]. by split.
Qed.

Lemma safe_handleLastAck : safe e (handleLastAck seg) (J E) (λ _, JJ).
Proof.
  apply got_. intros c. apply safe_when; [intros _|by intros; eapply J_JJ].
  apply got_snd. intros x. apply safe_when; [intros _|by intros; eapply J_JJ].
  apply then_; [by apply kept_handleACK; destruct Hseg|intros _].
  eapply safe_weaken; [apply (safe_closeDone e E)|done|]. intros ? s H1. by eapply J_JJ; [|exact H1].
Qed.

Lemma kept_handleTimeWait : kept e (handleTimeWait seg) E.
Proof. apply kept_when, then_; [apply kept_sendACK|intros _]. by apply kept_setc. Qed.

Lemma safe_validateRST : safe e (validateRST seg) (J E) (λ _, JJ).
Proof.
  apply got. intros c s [Hs <-]. destruct (J_sides_some E s Hs) as (Hr & _ & _ & [rc Hrc]).
  destruct (bool_decide (c_state (cs_conn s) = stateTimeWait)); [by exists s, tt; split; [|exists E]|].
  rewrite Hrc. unfold rcvWnd. rewrite Free_ok by done. rewrite bind_Ret_l.
  match goal with |- context [lift (if ?b then Ret ?x else Ret ?y)] =>
    replace (if b then Ret x else Ret y) with (Ret (if b then x else y)) by by destruct b end.
  rewrite run_assoc, run_lift, run_mret. destruct (_ =? _).
  - destruct (safe_handleRST e E s Hs) as (s1 & [] & -> & H1). exists s1, tt. by split; [|exists (closed E)].
  - by apply (finally e E _ Hco (kept_when e E _ _ (kept_sendACK e E))).
Qed.

Lemma safe_dispatchState : safe e (dispatchState seg) (J E) (λ _, JJ).
Proof.
  apply got. intros c s [Hs <-]. rewrite (ct_state _ _ (j_ctl _ _ Hs)).
  destruct (ep_state E) eqn:Est.
  - by apply (finally e E _ Hco (kept_skip e E)).
  - unfold ep_coherent in Hco. by rewrite Est in Hco.
  - by apply safe_handleEstablished.
  - by apply safe_handleFinWait1.
  - by apply safe_handleFinWait2.
  - by apply (finally e E _ Hco kept_handleCloseWait).
  - by apply safe_handleLastAck.
  - by apply (finally e E _ Hco kept_handleTimeWait).
  - by apply safe_handleClosing.
Qed.
End segment.

Lemma peer_seg_stamped seg so' :
  peer_seg si bi W ended seg →
  peer_seg si bi W ended (seg <| sg_hasTS := true |> <| sg_tsVal := sgTSVal so' |> <| sg_tsEcr := sgTSecr so' |>).
Proof. by intros []. Qed.

Lemma withTimestamps_ok c seg E :
  peer_seg si bi W ended seg → fin_in_order seg E →
  ∃ seg', withTimestamps c seg = Ret seg' ∧ peer_seg si bi W ended seg' ∧ fin_in_order seg' E.
Proof.
  intros H Ho. unfold withTimestamps. destruct (_ && _); [|by eexists].
  destruct (ParseSegmentOptions_total (sg_options seg) (sk_opts _ _ _ _ _ H)) as (so' & -> & _). rewrite bind_Ret_l.
  destruct (sgTSEnabled so'); eexists; (split; [reflexivity|]); (split; [|exact Ho]); [by apply peer_seg_stamped|done].
Qed.

Lemma safe_handleSegment e E pb seg :
  env_ok e → ep_coherent E → parseSeg pb = Ret seg → peer_seg si bi W ended seg → fin_in_order seg E →
  safe e (handleSegment pb) (J E) (λ _, JJ).
Proof.
  intros He Hco Hpb Hseg Ho s Hs. unfold handleSegment. rewrite Hpb, run_lift, run_getc.
  destruct (withTimestamps_ok (cs_conn s) seg E Hseg Ho) as (seg' & -> & Hseg' & Ho'). rewrite run_lift.
  destruct (_ && _ && _ && _); [by apply (finally e E _ Hco (kept_count e E _))|].
  destruct (Has _ TCPFlagRST); [by apply (safe_validateRST e seg' E)|].
  destruct (_ && _); [by apply (finally e E _ Hco (kept_sendACK e E))|].
  revert s Hs. intros s. match goal with |- context [when_ ?b ?m] => generalize b end. intros b. revert s.
  apply then_; [by apply kept_when, kept_setc|intros _]. by apply safe_dispatchState.
Qed.

(** ** The cases of the loop *)
Section loop.
Context (e : Env).
Hypothesis He : env_ok e.

Lemma from_JJ {A} (m : conn_m A) Q : (∀ E, ep_coherent E → safe e m (J E) Q) → safe e m JJ Q.
Proof. intros H s (E & Hco & Hs). by apply (H E Hco). Qed.
Lemma jthen {A B} (m : conn_m A) (f : A → conn_m B) Q :
  (∀ E, ep_coherent E → safe e m (J E) (λ _, JJ)) → (∀ a, safe e (f a) JJ Q) → safe e (m ≫= f) JJ Q.
Proof. intros Hm Hf. eapply safe_bind; [by apply from_JJ|exact Hf]. Qed.
Lemma jkeep {A B} (m : conn_m A) (f : A → conn_m B) Q :
  (∀ E, safe e m (J E) (λ _, J E)) → (∀ a, safe e (f a) JJ Q) → safe e (m ≫= f) JJ Q.
Proof. intros Hm Hf. eapply safe_bind; [by apply kept_JJ|exact Hf]. Qed.
Lemma jgot {B} (f : TCPConn → conn_m B) Q :
  (∀ c, is_Some (c_snd c) → has_snd c = true → has_rcv c = true → (c_finPending c || c_closeCh c = true → shut) →
        ring_ok (c_readBuf c) ∧ ring_ok (c_writeBuf c) → safe e (f c) (λ s, JJ s ∧ cs_conn s = c) Q) →
  safe e (getc ≫= f) JJ Q.
Proof.
  intros H s (E & Hco & Hs). rewrite run_getc. destruct (J_sides_some E s Hs) as (? & ? & ? & ?).
  apply (H (cs_conn s)); try done; [by apply bool_decide_true..| |by split; [exists E|]].
  intros Hb. apply (J_shut E s Hs). by rewrite <- orb_assoc, Hb, orb_true_r.
Qed.
Lemma jforget {A} (m : conn_m A) c Q : safe e m JJ Q → safe e m (λ s, JJ s ∧ cs_conn s = c) Q.
Proof. intros H. eapply safe_pre; [exact H|]. by intros s []. Qed.
Lemma jret {A} (a : A) : safe e (mret a) JJ (λ _, JJ).
Proof. by apply safe_ret. Qed.
Lemma jkeep_ (m : conn_m unit) : (∀ E, kept e m E) → safe e m JJ (λ _, JJ).
Proof. apply kept_JJ. Qed.

Lemma safe_drain : shut → safe e (c ← getc; n ← lift (Len (c_writeBuf c)); when_ (n =? 0) finalizeFIN) JJ (λ _, JJ).
Proof.
  intros Hsh s (E & Hco & Hs). destruct (J_sides_some E s Hs) as (_ & Hw & _). rewrite run_getc. unfold Len.
  rewrite lenLocked_ok, run_lift by done. destruct (Z.eqb_spec (used (c_writeBuf (cs_conn s))) 0) as [Hu|].
  - by apply (safe_finalizeFIN e E Hsh Hco).
  - by exists s, tt; split; [|exists E].
Qed.

Lemma safe_after_segment : safe e after_segment JJ (λ _, JJ).
Proof.
  apply jkeep; [apply kept_updateSnapshot|intros _]. apply jgot. intros c [x Hx] _ _ Hsh _. apply jforget. rewrite Hx.
  apply jkeep; [intros E; by apply kept_setc|intros _]. destruct (c_finPending c); [|by apply safe_ret].
  apply jkeep; [intros E; by apply kept_sendPending|intros _]. by apply safe_drain, Hsh.
Qed.

Lemma safe_on_inbound E pb seg :
  ep_coherent E → parseSeg pb = Ret seg → peer_seg si bi W ended seg → fin_in_order seg E →
  safe e (on_inbound pb) (J E) (λ _, JJ).
Proof.
  intros Hco Hp Hs Ho. eapply safe_bind; [by eapply safe_handleSegment|intros ?]. apply jgot. intros c _ _ _ _ _.
  apply jforget. eapply safe_bind; [|intros ?; by apply jret].
  destruct (c_accepting c); [by apply safe_ret|apply safe_after_segment].
Qed.

Lemma safe_on_rto : safe e on_rto JJ (λ _, JJ).
Proof.
  apply jkeep; [intros E; by apply kept_setc|intros _]. apply jgot. intros c [x ->] _ _ _ _. apply jforget.
  apply jthen; [intros E Hco; by apply safe_handleRTO|intros _].
  apply jkeep; [apply kept_updateSnapshot|intros _]. apply jgot. intros c' _ _ _ _ _. apply jforget.
  apply jkeep; [intros E; apply kept_when, kept_arm_rto|intros _]. apply jret.
Qed.

Lemma safe_on_delayedACK : safe e on_delayedACK JJ (λ _, JJ).
Proof.
  apply jkeep; [intros E; by apply kept_setc|intros _]. apply jkeep; [apply kept_sendACK|intros _].
  apply jkeep; [intros E; by apply kept_setc|intros _]. apply jret.
Qed.

Lemma safe_on_zeroWindow : safe e on_zeroWindow JJ (λ _, JJ).
Proof.
  apply jkeep; [intros E; by apply kept_setc|intros _]. apply jgot. intros c _ _ _ _ _. apply jforget.
  apply jkeep; [|intros _; apply jret]. intros E. apply kept_when, then_; [by apply kept_sendZeroWindowProbe|intros _].
  by apply kept_setc.
Qed.

Lemma safe_close : safe e (closeDone;; updateSnapshot;; mret true) JJ (λ _, JJ).
Proof.
  apply jthen.
  { intros E _. eapply safe_weaken; [apply (safe_closeDone e E)|done|]. intros ? s H1. by eapply J_JJ; [|exact H1]. }
  intros _. apply jkeep; [apply kept_updateSnapshot|intros _]. apply jret.
Qed.

Lemma safe_on_keepalive : safe e on_keepalive JJ (λ _, JJ).
Proof.
  apply jkeep; [intros E; by apply kept_setc|intros _]. apply jgot. intros c [x ->] _ _ _ _. apply jforget.
  destruct (negb _); [apply jret|]. destruct (hasUnacked x).
  { apply jkeep; [intros E; by apply kept_setc|intros _]. apply jret. }
  apply jkeep; [intros E; by apply kept_setc|intros _]. apply jgot. intros c' _ _ _ _ _. apply jforget. destruct (_ >? _).
  - apply jkeep; [intros E; apply kept_count|intros _]. apply jkeep; [intros E; apply kept_sendRST|intros _]. apply safe_close.
  - apply jkeep; [intros E; apply kept_sendKeepaliveProbe|intros _].
    apply jkeep; [intros E; by apply kept_setc|intros _]. apply jret.
Qed.

Lemma safe_on_writeNotify : safe e on_writeNotify JJ (λ _, JJ).
Proof.
  apply jkeep; [intros E; by apply kept_setc|intros _]. apply jgot. intros c _ -> _ _ _. apply jforget.
  eapply safe_bind; [|intros ?; apply jret]. cbn [when_].
  apply jkeep; [intros E; by apply kept_sendPending|intros _]. apply jkeep; [apply kept_updateSnapshot|intros _].
  apply jkeep; [intros E; apply kept_resetKeepalive|intros _]. apply jkeep; [apply kept_checkZeroWindow|intros _].
  apply jkeep; [intros E; apply kept_setc; intros c'; by destruct (_ >? _)|intros _].
  apply jkeep; [apply kept_arm_rto|intros _]. intros s Hs.
  destruct (c_finPending (cs_conn s)) eqn:Hfp.
  - assert (shut) as Hsh. { destruct Hs as (E & _ & Hs). apply (J_shut E s Hs). by rewrite Hfp, orb_true_r. }
    pose proof (safe_drain Hsh s Hs) as Hd. rewrite run_getc in Hd |- *. by rewrite Hfp.
  - rewrite run_getc, Hfp. destruct Hs as (E & Hco & Hs). destruct (J_sides_some E s Hs) as (_ & Hw & _). unfold Len.
    rewrite lenLocked_ok, run_lift by done. by exists s, tt; split; [|exists E].
Qed.

Lemma safe_on_windowNotify : safe e on_windowNotify JJ (λ _, JJ).
Proof.
  apply jkeep; [intros E; by apply kept_setc|intros _]. apply jgot. intros c _ _ _ _ [Hr _]. apply jforget.
  apply jkeep.
  { intros E. destruct (_ && _); [|by apply safe_ret]. destruct (wnd_val c Hr) as (wd & -> & _). apply kept_lift. }
  intros v. apply jkeep; [|intros _; apply jret]. intros E. apply kept_when.
  apply then_; [by apply kept_setc|intros _]. apply then_; [apply kept_sendACK|intros _]. by apply kept_setc.
Qed.

Lemma safe_on_closeCh : shut → safe e on_closeCh JJ (λ _, JJ).
Proof.
  intros Hsh. apply jkeep.
  { intros E [c wo] Hs. eexists _, tt. split; [reflexivity|].
    eapply J_vital; [apply (J_flags E c wo (c_finPending c) false Hs)|done|done]. by intros _. }
  intros _. apply jthen; [intros E Hco; by apply safe_handleClose|intros _].
  apply jkeep; [apply kept_updateSnapshot|intros _]. apply jgot. intros c _ _ _ _ _. apply jforget.
  apply jkeep; [intros E; apply kept_when, kept_arm_rto|intros _]. apply jret.
Qed.

Lemma safe_on_finWait2Timeout : safe e on_finWait2Timeout JJ (λ _, JJ).
Proof.
  apply jkeep; [intros E; by apply kept_setc|intros _]. apply jgot. intros c _ _ _ _ _. apply jforget.
  destruct (bool_decide _); [|apply jret]. apply jkeep; [intros E; apply kept_count|intros _]. apply safe_close.
Qed.

(** Every case that can be taken, other than a segment that arrived. *)
Lemma safe_run_step ev s :
  JJ s → ev ≠ EvInbound → ready ev (cs_conn s) (cs_world s) = true → ∃ s' b, run_step ev e s = Ret (s', b) ∧ JJ s'.
Proof.
  intros Hs Hne Hre. pose proof Hs as (E & Hco & HJ). pose proof (j_ctl _ _ HJ) as []. unfold ready in Hre.
  rewrite ct_accepting0 in Hre. destruct ev; try done; cbn [run_step].
  - by apply safe_on_rto.
  - by apply safe_on_delayedACK.
  - by apply safe_on_zeroWindow.
  - by apply safe_on_keepalive.
  - by apply safe_on_writeNotify.
  - by apply safe_on_windowNotify.
  - apply safe_on_closeCh; [|done]. apply (J_shut E s HJ). by rewrite Hre, orb_true_r.
  - congruence.
  - by rewrite ct_syn0 in Hre.
  - by apply safe_on_finWait2Timeout.
  - by exists s, true.
  - by exists s, true.
Qed.

(** After the loop. *)
Lemma safe_leave s : JJ s → ∃ s' E, run_exit e s = Ret (s', tt) ∧ c_inbound (cs_conn s') = [] ∧
  ep_state E = stateClosed ∧ J E (mkCS ((cs_conn s') <| c_inbound := c_inbound (cs_conn s0) |>) (cs_world s')).
Proof.
  intros (E & Hco & Hs). unfold run_exit. destruct (safe_closeDone e E s Hs) as (s1 & [] & E1 & H1).
  rewrite (run_bind _ _ _ _ _ _ E1), run_getc, run_count. eexists _, (closed E). split; [reflexivity|].
  split; [done|]. split; [done|].
  assert (c_inbound (cs_conn s1) = c_inbound (cs_conn s0)) as Hi by exact (f_equal (λ t, t.1.1.1.2) (j_frame _ _ H1)).
  pose proof (j_ctl _ _ H1) as []. eapply J_vital; [exact H1| |done]. unfold vital, frame. cbn. by rewrite Hi, ct_syn0.
Qed.
End loop.
End endpoint.
