(* ===== verification/Conversation.v ===== *)
(** A whole conversation of a connection after its handshake: segments that
    arrive from the peer, the cases of the [run] loop, and the calls of the
    application, interleaved in any way.  [Endpoint] has the invariant that
    each case of the loop keeps; here the loop runs with its queue of
    segments and with the application around it. *)
From S2P Require Import Prelude.
From S2P Require Import Tcpip.
From S2P Require Import Header.
From S2P Require Import TcpHeader.
From S2P Require Import TcpOptions.
From S2P Require Import Packet.
From S2P Require Import Stack.
From S2P Require Import Ringbuf.
From S2P Require Import Seq.
From S2P Require Import TcpConn.
From S2P Require Import Rcv.
From S2P Require Import OooFacts.
From S2P Require Import Segment.
From S2P Require Import SegmentFacts.
From S2P Require Import RcvData.
From S2P Require Import RcvFacts.
From S2P Require Import Snd.
From S2P Require Import SndFacts.
From S2P Require Import Conn.
From S2P Require Import StreamFacts.
From S2P Require Import Transfer.
From S2P Require Import Handshake.
From S2P Require Import Endpoint.

(** * The conversation *)

(** The connection, the call of [Write] in progress with the bytes it has
    taken so far, how much of the stream was written, what was read, whether
    [Read] has returned [io.EOF], and whether the loop has returned. *)
Record talk := mkTalk {
  tk_cs : CS; tk_writing : option (bytes * Z); tk_written : Z; tk_read : bytes; tk_eof : bool; tk_left : bool }.
#[export] Instance talk_rebuild : Rebuild talk := λ t,
  mkTalk (tk_cs t) (tk_writing t) (tk_written t) (tk_read t) (tk_eof t) (tk_left t).
Definition tk_conn (t : talk) : TCPConn := cs_conn (tk_cs t).
Definition set_conn (c : TCPConn) (t : talk) : talk := t <| tk_cs := mkCS c (cs_world (tk_cs t)) |>.

Inductive talk_event :=
| TSegment (pb : PacketBuffer)
| TLoop (ev : run_event)
| TRead (n : Z)
| TWrite (k : Z)
| TWriteRound
| TNoDelay (b : bool)
| TCloseWrite.

Definition is_EOF (res : read_round) : bool :=
  match res with ReadReturns _ (Some EOF) => true | _ => false end.

(** The non-blocking send to [inbound] in [HandlePacket]; once the loop has
    returned, the connection is not in the table any more. *)
Definition enqueue_segment (pb : PacketBuffer) (t : talk) : talk :=
  let c := tk_conn t in
  if negb (tk_left t) && (zlen (c_inbound c) <? c_inboundCap c)
  then set_conn (c <| c_inbound := c_inbound c ++ [pb] |>) t else t.

(** A case of the loop, and what is deferred if it returns. *)
Definition loop_step (e : Env) (ev : run_event) (t : talk) : outcome talk :=
  if tk_left t || negb (ready ev (tk_conn t) (cs_world (tk_cs t))) then Ret t else
  '(s, b) ← run_step ev e (tk_cs t);
  if b : bool then '(s, _) ← run_exit e s; Ret (t <| tk_cs := s |> <| tk_left := true |>)
  else Ret (t <| tk_cs := s |>).

(** A round of [Read]; waiting is left to the caller, or ends with an error
    when the connection is done. *)
Definition read_step (n : Z) (t : talk) : outcome talk :=
  '(c, res) ← Read_conn n (tk_conn t);
  Ret ((set_conn c t) <| tk_read := tk_read t ++ read_data res |> <| tk_eof := tk_eof t || is_EOF res |>).

(** The start of [Write] with data [p]. *)
Definition write_start (p : bytes) (t : talk) : outcome talk :=
  match tk_writing t with
  | Some _ => Ret t
  | None =>
      '(c, err) ← Write_start (tk_conn t);
      Ret ((set_conn c t) <| tk_writing := match err with None => Some (p, 0) | Some _ => None end |>)
  end.

(** A round of its loop.  A call that has to wait returns when the connection
    is done. *)
Definition write_round_step (t : talk) : outcome talk :=
  match tk_writing t with
  | None => Ret t
  | Some (p, n) =>
      '(c, res) ← Write_conn p n (tk_conn t);
      let t := set_conn c t in
      match res with
      | WriteReturns _ _ => Ret (t <| tk_writing := None |>)
      | WriteGoesOn n' => Ret (t <| tk_writing := Some (p, n') |> <| tk_written := tk_written t + (n' - n) |>)
      | WriteWaits _ =>
          if c_done c then
            Ret ((set_conn (if n >? 0 then c <| c_writeNotify := true |> else c) t) <| tk_writing := None |>)
          else Ret t
      end
  end.

Section conversation.
(** The application writes its stream. *)
Context (so : Z → Z).

Definition talk_step (e : Env) (ev : talk_event) (t : talk) : outcome talk :=
  match ev with
  | TSegment pb => Ret (enqueue_segment pb t)
  | TLoop ev => loop_step e ev t
  | TRead n => read_step n t
  | TWrite k => write_start (piece so (tk_written t) k) t
  | TWriteRound => write_round_step t
  | TNoDelay b => Ret (set_conn (SetNoDelay b (tk_conn t)) t)
  | TCloseWrite => Ret (set_conn (CloseWrite_conn (tk_conn t)) t)
  end.

Fixpoint talk_run (evs : list (Env * talk_event)) (t : talk) : outcome talk :=
  match evs with
  | [] => Ret t
  | (e, ev) :: evs => t ← talk_step e ev t; talk_run evs t
  end.

(** * What is asked of the peer and of the network *)

(** The FIN of the segment is next, or behind data that is next and fits the
    read buffer. *)
Definition fin_fits (c : TCPConn) (seg : segment) : bool :=
  match c_rcv c, rcvWnd c with
  | Some r, Ret w =>
      negb (seqGreaterThan (sg_seq seg) (r_nxt r)) &&
      negb (seqGreaterThan (u32 (sg_seq seg + u32 (zlen (sg_payload seg)))) (u32 (r_nxt r + u32 w)))
  | _, _ => false
  end.

(** An end that has closed its side gets the peer's FIN in order; and it does
    not close while a FIN it got early is waiting for data. *)
Definition timely (ev : talk_event) (t : talk) : bool :=
  let c := tk_conn t in
  match ev with
  | TLoop EvInbound =>
      match c_inbound c with
      | pb :: _ =>
          match parseSeg pb with
          | Ret seg => negb (c_writeShutdown c && Has (sg_flags seg) TCPFlagFIN && negb (rb_closed (c_readBuf c))) ||
                       fin_fits c seg
          | _ => true
          end
      | [] => true
      end
  | TCloseWrite => rb_closed (c_readBuf c) || negb (from_option r_finReceived false (c_rcv c))
  | _ => true
  end.

Fixpoint orderly (evs : list (Env * talk_event)) (t : talk) : bool :=
  match evs with
  | [] => true
  | (e, ev) :: evs =>
      timely ev t && match talk_step e ev t with Ret t' => orderly evs t' | _ => true end
  end.

(** The packet is a segment of a peer whose stream [si] has [W] bytes. *)
Definition conforms (si : Z → Z) (bi W : Z) (ended : bool) (pb : PacketBuffer) : Prop :=
  ∃ seg, parseSeg pb = Ret seg ∧ peer_seg si bi W ended seg.

Definition talk_event_ok (si : Z → Z) (bi W : Z) (ended : bool) (ev : Env * talk_event) : Prop :=
  env_ok ev.1 ∧
  match ev.2 with
  | TSegment pb => conforms si bi W ended pb
  | TRead n => 0 < n
  | TWrite k => 0 ≤ k
  | _ => True
  end.

Definition to_write (ev : talk_event) : Z := match ev with TWrite k => k | _ => 0 end.
Definition total_to_write (evs : list (Env * talk_event)) : Z := foldr (λ ev n, to_write ev.2 + n) 0 evs.
End conversation.

(** * The invariant *)
Section facts.
Context (so si : Z → Z) (bo bi lim W : Z) (ended : bool).
Hypothesis Hlim : lim < span_limit.
Hypothesis HW : 0 ≤ W < span_limit.
(** The connection and the packets sent when it was opened. *)
Context (flow : FlowID) (sent0 : list sent).

(** Both sides of the connection when [w] bytes were written. *)
Definition sides (w : Z) (mine : bool) (E : ep_phase) (s : CS) : Prop :=
  ∃ x rc a u n, snd_at so bo w (ep_fin E) s x rc a u n ∧ 0 ≤ a ∧ u - a < MaxPayloadSize ∧
    rcv_side si bi lim W mine ended 0 E s rc.

Record talks (E : ep_phase) (t : talk) : Prop := {
  tl_phase : ep_coherent E;
  tl_sides : sides (tk_written t) (c_writeShutdown (tk_conn t)) E (tk_cs t);
  tl_ctl : ctl (c_writeShutdown (tk_conn t)) E (tk_conn t);
  tl_read : tk_read t ++ unread (tk_cs t) = piece si 0 (ep_pos E);
  tl_sent : ∃ ps, w_sent (cs_world (tk_cs t)) = sent0 ++ ps ∧
    Forall (wire_packet so bo (tk_written t) (ep_fin E) flow) ps;
  tl_flow : c_flow (tk_conn t) = flow;
  tl_inbound : Forall (conforms si bi W ended) (c_inbound (tk_conn t));
  tl_shut : c_writeShutdown (tk_conn t) = true → rb_closed (c_writeBuf (tk_conn t)) = true;
  tl_writing : match tk_writing t with
    | Some (p, n) => 0 ≤ n ≤ zlen p ∧ p = piece so (tk_written t - n) (zlen p)
    | None => True
    end;
  tl_eof : tk_eof t = true → ep_eof E = true ∧ unread (tk_cs t) = [] }.

(** ** From the endpoint and back *)
Lemma talks_J edge E t :
  talks E t → (edge = 0 ∨ edge ≤ ep_pos E + room (tk_cs t)) →
  J so si bo bi lim (tk_written t) W (c_writeShutdown (tk_conn t)) ended edge E (tk_cs t) E (tk_cs t).
Proof.
  intros [_ (x & rc & a & u & n & Hat & Ha & Hu & Hr)] Hed. split; try done.
  - exists x, rc, a, u, n. split_and!; try done. unfold rcv_side in *. destruct (ep_eof E); [done|].
    destruct Hr as (l & []). exists l. split; try done. by destruct Hed as [->|].
  - by rewrite Z.sub_diag, app_nil_r.
  - exists []. by rewrite app_nil_r.
Qed.

Lemma side_edge mine edge E s rc :
  rcv_side si bi lim W mine ended edge E s rc → rcv_side si bi lim W mine ended 0 E s rc.
Proof.
  unfold rcv_side. destruct (ep_eof E); [done|]. intros (l & [Hop Hp ? ? ?]). exists l. split; try done.
  pose proof (room_range _ _ _ (st_ok _ _ _ _ _ _ _ _ _ (op_at _ _ _ _ _ _ _ Hop))). zlia.
Qed.

Lemma sides_pos w mine E s : sides w mine E s → 0 ≤ ep_pos E ≤ W.
Proof.
  intros (x & rc & a & u & n & _ & _ & _ & Hr). unfold rcv_side in Hr.
  destruct (ep_eof E); [destruct Hr as [_ ->]; lia|]. by destruct Hr as (l & [? ? ? ? ?]).
Qed.

(** The talk with its connection in state [s]. *)
Definition with_cs (s : CS) (left : bool) (t : talk) : talk :=
  mkTalk s (tk_writing t) (tk_written t) (tk_read t) (tk_eof t) left.

(** A step of the loop from [t]. *)
Lemma J_talks edge E t E' s' left :
  talks E t → ep_coherent E' →
  J so si bo bi lim (tk_written t) W (c_writeShutdown (tk_conn t)) ended edge E (tk_cs t) E' s' →
  talks E' (with_cs s' left t).
Proof.
  intros [] Hco [(x0 & rc0 & a0 & u0 & n0 & Hat0 & Ha0 & Hu0 & Hr0) Hctl Hpos Hun (ps & Es & Hps) Hfr Hfin Heof]. destruct tl_sent0 as (ps0 & Es0 & Hps0).
  assert (sides (tk_written t) (c_writeShutdown (tk_conn t)) E' s') as Hsides.
  { exists x0, rc0, a0, u0, n0. split_and!; try done. by eapply side_edge. }
  assert (c_writeShutdown (cs_conn s') = c_writeShutdown (tk_conn t)) as Em by exact (f_equal (λ f, f.1.2) Hfr).
  assert (rb_closed (c_writeBuf (cs_conn s')) = rb_closed (c_writeBuf (tk_conn t))) as Ec by exact (f_equal (λ f, f.2) Hfr).
  assert (c_inbound (cs_conn s') = c_inbound (tk_conn t)) as Ei by exact (f_equal (λ f, f.1.1.1.2) Hfr).
  assert (c_flow (cs_conn s') = c_flow (tk_conn t)) as Ef by exact (f_equal (λ f, f.1.1.1.1) Hfr).
  pose proof (sides_pos _ _ _ _ tl_sides0) as H0. pose proof (sides_pos _ _ _ _ Hsides) as H1.
  unfold tk_conn in *. split; unfold tk_conn, with_cs; cbn [tk_cs tk_written tk_read tk_writing tk_eof];
    rewrite ?Em, ?Ec, ?Ei, ?Ef; try done.
  - rewrite Hun, app_assoc, tl_read0. rewrite <- (Z.sub_0_r (ep_pos E)) at 1. rewrite piece_join by (apply H0 || exact Hpos).
    by rewrite Z.sub_0_r.
  - exists (ps0 ++ ps). rewrite Es, Es0, app_assoc. split; [done|]. apply Forall_app. split.
    + eapply Forall_impl; [exact Hps0|]. intros p Hp. by eapply wire_fin.
    + by rewrite <- tl_flow0.
  - intros [He Hu]%tl_eof0. split; [by apply Heof|]. rewrite Hun, Hu.
    destruct tl_sides0 as (x & rc & a & u & n & _ & _ & _ & Hr). unfold rcv_side in Hr. rewrite He in Hr.
    destruct Hr as [_ HE]. replace (ep_pos E' - ep_pos E) with 0 by zlia. done.
Qed.

(** ** The application *)

(** Changes outside the two sides and the control fields. *)
Lemma talks_same E t c' :
  talks E t → vital c' = vital (tk_conn t) → talks E (set_conn c' t).
Proof.
  intros H Hv. pose proof (J_talks 0 E t E (mkCS c' (cs_world (tk_cs t))) (tk_left t) H (tl_phase _ _ H)) as H'.
  apply H'. eapply J_vital; [by apply talks_J; [|left]|done|done].
Qed.

Lemma enqueue_ok E pb t : talks E t → conforms si bi W ended pb → talks E (enqueue_segment pb t).
Proof.
  intros H Hpb. unfold enqueue_segment. destruct (_ && _); [|done]. destruct H as [? (x & rc & a & u & n & Hat & Ha & Hu & Hr) [] ? ? ? ? ? ? ?].
  split; try done; [|by apply Forall_app; split; [|constructor]].
  exists x, rc, a, u, n. split_and!; try done. by eapply snd_at_same. by eapply rcv_side_same.
Qed.

Lemma read_ok E n t : talks E t → 0 < n → ∃ t', read_step n t = Ret t' ∧ talks E t' ∧ tk_written t' = tk_written t ∧ tk_writing t' = tk_writing t.
Proof.
  intros H Hn. destruct H as [Hco (x & rc & a & u & n0 & Hat & Ha & Hu & Hr) [] Hrd ? ? ? ? ? Heof].
  pose proof (sa_rring _ _ _ _ _ _ _ _ _ _ Hat) as Hok. fold (tk_conn t) in Hok.
  destruct (Read_conn_ring (tk_conn t) n Hok Hn) as (rb & b & res & E1 & Hok' & Hc & Hcap & Hcl & Heo).
  unfold read_step. rewrite E1, bind_Ret_l. eexists. split; [reflexivity|]. split; [|done].
  assert (rcv_side si bi lim W (c_writeShutdown (tk_conn t)) ended 0 E
    (mkCS ((tk_conn t) <| c_readBuf := rb |> <| c_windowNotify := b |>) (cs_world (tk_cs t))) rc) as Hr'.
  { unfold rcv_side in *. destruct (ep_eof E); [done|]. destruct Hr as (l & [Hop ? ? ? ?]). exists l.
    destruct (Read_conn_open si bi lim Hlim (tk_cs t) rc (ep_pos E) l n Hop Hn) as (c2 & res2 & E2 & Hop2 & _ & Hroom).
    fold (tk_conn t) in E2. rewrite E1 in E2. injection E2 as <- <-. split; try done.
    etrans; [eassumption|]. by apply Z.add_le_mono_l. }
  split; try done.
  - exists x, rc, a, u, n0. split_and!; try done. by eapply snd_at_rcv; try done; apply Hat.
  - cbn. rewrite <- app_assoc. unfold unread in *. cbn. fold (tk_conn t) in *. by rewrite Hc.
  - cbn. intros [[He Hun]%Heof|Hi]%orb_prop.
    + split; [done|]. unfold unread in *. fold (tk_conn t) in *. rewrite Hun in Hc. cbn. by apply app_nil in Hc as [_ ?].
    + destruct Heo as [(-> & Hnil & Hclo)|Hno]; [|by destruct res as [d [er|]|]; try done; destruct (Hno d (Some er) eq_refl)].
      split; [|exact Hnil]. destruct (ep_eof E) eqn:He; [done|]. unfold rcv_side in Hr. rewrite He in Hr.
      destruct Hr as (l & [[[? Hop ? ? ? ? ? ?] ?] ? ? ? ?]). unfold tk_conn in *. congruence.
Qed.

(** New bytes in the write buffer. *)
Lemma talks_written E t rb b d wr :
  talks E t → ring_ok rb → rb_closed rb = rb_closed (c_writeBuf (tk_conn t)) →
  contents rb = contents (c_writeBuf (tk_conn t)) ++ piece so (tk_written t) d → 0 ≤ d →
  (rb_closed rb = true → d = 0) →
  (match wr with Some (p, n) => 0 ≤ n ≤ zlen p ∧ p = piece so (tk_written t + d - n) (zlen p) | None => True end) →
  talks E (mkTalk (mkCS ((tk_conn t) <| c_writeBuf := rb |> <| c_writeNotify := b |>) (cs_world (tk_cs t)))
    wr (tk_written t + d) (tk_read t) (tk_eof t) (tk_left t)).
Proof.
  intros [Hco (x & rc & a & u & n & Hat & Ha & Hu & Hr) [] Hrd (ps & Es & Hps) ? ? Hsh ? ?] Hok Hcl Hc Hd Hcd Hwr.
  assert (ep_fin E = true → d = 0) as Hf.
  { intros Hf. apply Hcd. rewrite Hcl. apply ct_shut. by rewrite Hf. }
  pose proof (sa_wring _ _ _ _ _ _ _ _ _ _ Hat) as Hok0. fold (tk_conn t) in Hok0.
  assert (used rb = used (c_writeBuf (tk_conn t)) + d) as Hus.
  { rewrite <- !zlen_contents by done. rewrite Hc, zlen_app, zlen_piece' by zlia. zlia. }
  split; try done; cbn; fold (tk_conn t) in *; rewrite ?Hcl; try done.
  - exists x, rc, a, u, n. split_and!; try done; [|by eapply rcv_side_same].
    destruct Hat. unfold tk_conn in *. split; try done; cbn.
    + rewrite Hus, Hc, sa_write, <- sa_total. by rewrite piece_app by (zlia || apply used_range; done).
    + intros Hf'. rewrite Hus, sa_fin, Hf by done. done.
    + zlia.
  - by split; cbn; rewrite ?Hcl.
  - exists ps. split; [done|]. eapply Forall_impl; [exact Hps|]. intros p [it Hp Hw|]; [|by eapply WireControl].
    econstructor; [exact Hp|]. destruct it; cbn in *; [zlia..|]. destruct Hw as [Hf' ->]. rewrite Hf by done. split; [done|zlia].
Qed.

Lemma writing_ok E t : talks E t → ∃ t', write_round_step t = Ret t' ∧ talks E t' ∧
  match tk_writing t, tk_writing t' with
  | Some (p, n), Some (p', n') => tk_written t' - n' = tk_written t - n ∧ zlen p' = zlen p
  | Some (p, n), None => tk_written t' = tk_written t
  | None, w => w = None ∧ tk_written t' = tk_written t
  end.
Proof.
  intros H. unfold write_round_step. destruct (tk_writing t) as [[p n]|] eqn:Hw; [|by exists t; rewrite Hw].
  pose proof (tl_writing _ _ H) as Hwr. rewrite Hw in Hwr. destruct Hwr as [Hn Hp].
  pose proof (tl_sides _ _ H) as (x & rc & a & u & n0 & Hat & _).
  pose proof (sa_wring _ _ _ _ _ _ _ _ _ _ Hat) as Hok. fold (tk_conn t) in Hok.
  destruct (Write_round_at so (c_writeBuf (tk_conn t)) (tk_written t) (zlen p) n Hok Hn)
    as (rb & res & E1 & Hok' & Hcl & Hres). rewrite <- Hp in E1. unfold Write_conn. rewrite E1, bind_Ret_l.
  assert (Hsame : ∀ b wr, match wr with Some (p, n) => 0 ≤ n ≤ zlen p ∧ p = piece so (tk_written t - n) (zlen p) | None => True end →
    contents rb = contents (c_writeBuf (tk_conn t)) →
    talks E (mkTalk (mkCS ((tk_conn t) <| c_writeBuf := rb |> <| c_writeNotify := b |>) (cs_world (tk_cs t)))
      wr (tk_written t) (tk_read t) (tk_eof t) (tk_left t))).
  { intros b wr Hwr Hc. rewrite <- (Z.add_0_r (tk_written t)) at 1. eapply talks_written; try done.
    - rewrite Hc. by rewrite app_nil_r.
    - by rewrite Z.add_0_r. }
  destruct res as [m err|g|n'].
  - destruct (m >? 0); eexists; (split; [reflexivity|]); (split; [|done]).
    + by apply (Hsame true None).
    + by apply (Hsame (c_writeNotify (tk_conn t)) None).
  - rewrite bind_Ret_l. cbn [c_done]. match goal with |- context [if c_done ?c then _ else _] => destruct (c_done c) end.
    + destruct (n >? 0); eexists; (split; [reflexivity|]); (split; [|done]).
      * by apply (Hsame true None).
      * by apply (Hsame (c_writeNotify (tk_conn t)) None).
    + eexists. split; [reflexivity|]. split; [|cbn; by rewrite Hw].
      apply (Hsame (c_writeNotify (tk_conn t)) (tk_writing t)); [by rewrite Hw|done].
  - destruct Hres as (Hn' & Hop & Hc). eexists. split; [reflexivity|]. split; [|cbn; split; [zlia|done]].
    apply (talks_written E t rb (c_writeNotify (tk_conn t)) (n' - n) (Some (p, n'))); try done; [zlia|congruence|].
    split; [zlia|]. rewrite Hp at 1. f_equal. zlia.
Qed.

Definition budget (t : talk) : Z :=
  tk_written t + match tk_writing t with Some (p, n) => zlen p - n | None => 0 end.

Lemma write_start_ok E k t : talks E t → 0 ≤ k →
  ∃ t', write_start (piece so (tk_written t) k) t = Ret t' ∧ talks E t' ∧ budget t' ≤ budget t + k.
Proof.
  intros H Hk. unfold write_start. destruct (tk_writing t) as [[p n]|] eqn:Hw.
  { exists t. split_and!; try done. zlia. }
  pose proof (tl_sides _ _ H) as (x & rc & a & u & n0 & Hat & _).
  pose proof (sa_wring _ _ _ _ _ _ _ _ _ _ Hat) as Hok. fold (tk_conn t) in Hok.
  assert (∀ rb wr, ring_ok rb → rb_closed rb = rb_closed (c_writeBuf (tk_conn t)) →
    contents rb = contents (c_writeBuf (tk_conn t)) → wr = None ∨ wr = Some (piece so (tk_written t) k, 0) →
    talks E (mkTalk (mkCS ((tk_conn t) <| c_writeBuf := rb |> <| c_writeNotify := c_writeNotify (tk_conn t) |>) (cs_world (tk_cs t)))
      wr (tk_written t) (tk_read t) (tk_eof t) (tk_left t)) ∧
    tk_written t + match wr with Some (p, n) => zlen p - n | None => 0 end ≤ budget t + k) as Hgo.
  { intros rb wr Hrb Hcl Hc Hwr. unfold budget. rewrite Hw. split.
    - rewrite <- (Z.add_0_r (tk_written t)) at 1. eapply talks_written; try done.
      + rewrite Hc. by rewrite app_nil_r.
      + destruct Hwr as [->| ->]; [done|]. rewrite zlen_piece' by done. split; [zlia|]. f_equal. zlia.
    - destruct Hwr as [->| ->]; [zlia|]. rewrite zlen_piece' by done. zlia. }
  unfold Write_start. destruct (c_writeShutdown (tk_conn t)).
  - eexists. split; [reflexivity|]. destruct (Hgo _ None Hok eq_refl eq_refl (or_introl eq_refl)) as [H1 H2].
    split; [|exact H2]. unfold tk_conn in *. by destruct t as [[[] ?] ? ? ? ? ?].
  - destruct (_ && _).
    + destruct (Grow_ok (c_writeBuf (tk_conn t)) (writeBufSize (c_cfg (tk_conn t))) Hok) as (rb & -> & Hrb & Hc & _ & Hcl & _).
      eexists. split; [reflexivity|]. apply (Hgo rb (Some (piece so (tk_written t) k, 0))); try done. by right.
    + eexists. split; [reflexivity|].
      destruct (Hgo _ (Some (piece so (tk_written t) k, 0)) Hok eq_refl eq_refl (or_intror eq_refl)) as [H1 H2].
      split; [|exact H2]. unfold tk_conn in *. by destruct t as [[[] ?] ? ? ? ? ?].
Qed.

Lemma close_ok E t : talks E t → timely TCloseWrite t = true → talks E (set_conn (CloseWrite_conn (tk_conn t)) t).
Proof.
  intros H Ht. unfold CloseWrite_conn. destruct (c_closeOnce (tk_conn t)).
  { apply talks_same; done. }
  destruct H as [Hco (x & rc & a & u & n & Hat & Ha & Hu & Hr) [] Hrd ? ? ? Hsh ? ?]. split; try done.
  - exists x, rc, a, u, n. split_and!; try done.
    + destruct Hat as [? ? ? [] ]. by split.
    + unfold rcv_side in *. cbn. destruct (ep_eof E); [done|]. destruct Hr as (l & [[[[] ? ? ? ? ? ? ?] ?] ? ? ? ?]). exists l.
      split; try done. unfold timely, tk_conn in Ht. rewrite st_open, ok_rcv in Ht. cbn in Ht.
      apply negb_true_iff in Ht. congruence.
Qed.

(** ** The loop *)

(** The loop goes on, or returns and cleans up. *)
Lemma after_step e edge E t s' (b : bool) :
  talks E t → JJ so si bo bi lim (tk_written t) W (c_writeShutdown (tk_conn t)) ended edge E (tk_cs t) s' →
  ∃ t' E', (if b then '(s, _) ← run_exit e s'; Ret (t <| tk_cs := s |> <| tk_left := true |>)
            else Ret (t <| tk_cs := s' |>)) = Ret t' ∧ talks E' t' ∧ budget t' = budget t.
Proof.
  intros H HJ. destruct b.
  - destruct (safe_leave _ _ _ _ _ _ _ _ _ _ _ _ e s' HJ) as (s2 & E2 & -> & Hi & Hst & H2). rewrite bind_Ret_l.
    eexists _, E2. split; [reflexivity|]. split; [|done].
    assert (ep_coherent E2) as Hco by by unfold ep_coherent; rewrite Hst.
    pose proof (J_talks edge E t E2 (mkCS ((cs_conn s2) <| c_inbound := c_inbound (tk_conn t) |>) (cs_world s2)) true H Hco H2) as Ht.
    destruct Ht as [? (x & rc & a & u & n & Hat & Ha & Hu & Hr) [] ? ? ? ? ? ? ?]. split; try done.
    + exists x, rc, a, u, n. split_and!; try done; [by eapply snd_at_same|by eapply rcv_side_same].
    + unfold tk_conn. cbn. by rewrite Hi.
  - destruct HJ as (E' & Hco & HJ). eexists _, E'. split; [reflexivity|]. split; [|done].
    by apply (J_talks edge E t E' s' (tk_left t)).
Qed.

(** The guard on the FIN says what the endpoint needs. *)
Lemma fin_fits_order E t seg rc :
  sides (tk_written t) (c_writeShutdown (tk_conn t)) E (tk_cs t) → c_rcv (tk_conn t) = Some rc → ep_eof E = false →
  peer_seg si bi W ended seg → Has (sg_flags seg) TCPFlagFIN = true → fin_fits (tk_conn t) seg = true →
  ∃ p, sg_seq seg = seq_of bi p ∧ 0 ≤ p ≤ ep_pos E ∧ sg_payload seg = piece si p (W - p) ∧
    W ≤ ep_pos E + room (tk_cs t).
Proof.
  intros (x & rc1 & a & u & n & Hat & _ & _ & Hr) Hrc He Hseg Hf Hfit. unfold rcv_side in Hr. rewrite He in Hr.
  destruct Hr as (l & [[[Hok _ Hn _ _ _ _ _] _] Hpos _ _ _]). pose proof (ok_rcv _ _ _ Hok) as Hrc1.
  fold (tk_conn t) in Hrc1. assert (rc1 = rc) as -> by congruence.
  pose proof (room_range _ _ _ Hok) as Hroom. destruct (sk_fin _ _ _ _ _ Hseg Hf) as (_ & p & Hs & Hp & Hpw).
  unfold fin_fits in Hfit. rewrite Hrc in Hfit.
  assert (rcvWnd (tk_conn t) = Ret (room (tk_cs t))) as Ew.
  { unfold rcvWnd. rewrite Free_ok by apply Hok. rewrite bind_Ret_l. change (Cap _ - used _) with (room (tk_cs t)).
    destruct (Z.leb_spec (room (tk_cs t)) 0); f_equal; [zlia|]. apply u32_id. unfold is_u32, span_limit in *. zlia. }
  rewrite Ew, Hs, Hp, Hn, zlen_piece', !seq_plus in Hfit by zlia.
  apply andb_prop in Hfit as [H1%negb_true_iff H2%negb_true_iff]. unfold span_limit in *.
  rewrite seq_greater in H1, H2 by zlia. rewrite Z.gtb_ltb, Z.ltb_ge in H1, H2.
  exists p. split_and!; try done; zlia.
Qed.

Lemma inbound_ok e E pb rest t :
  env_ok e → talks E t → timely (TLoop EvInbound) t = true → c_inbound (tk_conn t) = pb :: rest →
  let t1 := set_conn ((tk_conn t) <| c_inbound := rest |>) t in
  ∃ edge s' b, talks E t1 ∧ run_step EvInbound e (tk_cs t) = Ret (s', b) ∧
    JJ so si bo bi lim (tk_written t1) W (c_writeShutdown (tk_conn t1)) ended edge E (tk_cs t1) s'.
Proof.
  intros He H Ht Hin t1. pose proof H as [Hco Hsides Hctl _ _ _ Hall _ _ _]. rewrite Hin in Hall.
  apply Forall_cons in Hall as [(seg & Hseg & Hpeer) Hall].
  assert (talks E t1) as H1.
  { destruct H as [? (x & rc & a & u & n & Hat & Ha & Hu & Hr) [] ? ? ? ? ? ? ?]. split; try done.
    exists x, rc, a, u, n. split_and!; try done; [by eapply snd_at_same|by eapply rcv_side_same]. }
  assert (∃ edge, (edge = 0 ∨ edge ≤ ep_pos E + room (tk_cs t1)) ∧
    fin_in_order si bi W (c_writeShutdown (tk_conn t)) edge seg E) as (edge & Hedge & Hord).
  { destruct (c_writeShutdown (tk_conn t) && Has (sg_flags seg) TCPFlagFIN && negb (ep_eof E)) eqn:Hb.
    - apply andb_prop in Hb as [[Hm Hf]%andb_prop Heo%negb_true_iff]. cbn in Ht. rewrite Hin, Hseg, Hm, Hf in Ht.
      pose proof Hsides as (x & rc & a & u & n & Hat & _ & _ & Hr).
      assert (rb_closed (c_readBuf (tk_conn t)) = false) as Hcl.
      { unfold rcv_side in Hr. rewrite Heo in Hr. by destruct Hr as (l & [[[? ? ? ? ? ? ? ?] ?] ? ? ? ?]). }
      rewrite Hcl in Ht. cbn in Ht.
      destruct (fin_fits_order E t seg rc Hsides (sa_rcv _ _ _ _ _ _ _ _ _ _ Hat) Heo Hpeer Hf Ht) as (p & ? & ? & ? & ?).
      exists W. split; [by right|]. intros _ _ _. by exists p.
    - exists 0. split; [by left|]. intros Hm Hf Heo. by rewrite Hm, Hf, Heo in Hb. }
  exists edge. cbn [run_step]. rewrite run_getc. fold (tk_conn t). rewrite Hin, run_setc.
  destruct (safe_on_inbound so si bo bi lim Hlim (tk_written t) W (c_writeShutdown (tk_conn t)) ended edge HW E (tk_cs t1)
    e He E pb seg Hco Hseg Hpeer Hord (tk_cs t1)) as (s' & b & E1 & HJ); [by apply (talks_J edge E t1)|].
  by exists s', b.
Qed.

Lemma loop_ok e ev E t :
  env_ok e → talks E t → timely (TLoop ev) t = true → tk_written t ≤ max_flight →
  ∃ t' E', loop_step e ev t = Ret t' ∧ talks E' t' ∧ budget t' = budget t.
Proof.
  intros He H Ht Hw. unfold loop_step. destruct (tk_left t || _) eqn:Hr; [by exists t, E|].
  apply orb_false_iff in Hr as [Hl Hr%negb_false_iff]. assert (ev = EvInbound ∨ ev ≠ EvInbound) as [->|Hne] by (destruct ev; (by left) || by right).
  - destruct (c_inbound (tk_conn t)) as [|pb rest] eqn:Hin.
    { unfold ready in Hr. rewrite Hin in Hr. by destruct (c_accepting _). }
    destruct (inbound_ok e E pb rest t He H Ht Hin) as (edge & s' & b & H1 & -> & HJ). rewrite bind_Ret_l.
    destruct (after_step e edge E _ s' b H1 HJ) as (t' & E' & E1 & H2 & Hb). exists t', E'. split; [|done].
    rewrite <- E1. by destruct b.
  - destruct (safe_run_step so si bo bi lim (tk_written t) W (c_writeShutdown (tk_conn t)) ended 0 Hw HW E (tk_cs t) e He ev
      (tk_cs t)) as (s' & b & -> & HJ); [|done|done|].
    { exists E. split; [apply H|]. by apply talks_J; [|left]. }
    rewrite bind_Ret_l. by apply (after_step e 0 E).
Qed.

(** ** Whole conversations *)
Lemma written_budget E t : talks E t → tk_written t ≤ budget t.
Proof.
  intros H. unfold budget. pose proof (tl_writing _ _ H) as Hw.
  destruct (tk_writing t) as [[p n]|]; [destruct Hw as [? _]|]; zlia.
Qed.

Lemma talk_step_ok e ev E t :
  talks E t → talk_event_ok si bi W ended (e, ev) → timely ev t = true → budget t + to_write ev ≤ max_flight →
  ∃ t' E', talk_step so e ev t = Ret t' ∧ talks E' t' ∧ budget t' ≤ budget t + to_write ev.
Proof.
  intros H [He Hev] Ht Hb. cbn [fst snd] in *.
  pose proof (written_budget E t H) as Hwb.
  destruct ev as [pb|ev|n|k| |b|]; cbn [talk_step to_write] in *.
  - eexists _, E. split; [reflexivity|]. split; [by apply enqueue_ok|]. unfold enqueue_segment. destruct (_ && _); by rewrite Z.add_0_r.
  - destruct (loop_ok e ev E t He H Ht) as (t' & E' & E1 & H1 & Hbb); [zlia|]. exists t', E'. split_and!; try done. zlia.
  - destruct (read_ok E n t H Hev) as (t' & E1 & H1 & Hw & Hwr). exists t', E. split_and!; try done. unfold budget.
    by rewrite Hw, Hwr, Z.add_0_r.
  - destruct (write_start_ok E k t H Hev) as (t' & E1 & H1 & Hw). by exists t', E.
  - destruct (writing_ok E t H) as (t' & E1 & H1 & Hw). exists t', E. split_and!; try done. unfold budget in *.
    pose proof (tl_writing _ _ H) as Hwr. clear - Hw Hwr Hwb.
    destruct (tk_writing t) as [[p n]|], (tk_writing t') as [[p' n']|].
    + destruct Hw. zlia.
    + destruct Hwr. zlia.
    + by destruct Hw.
    + destruct Hw. zlia.
  - eexists _, E. split; [reflexivity|]. split; [by apply talks_same|]. by rewrite Z.add_0_r.
  - eexists _, E. split; [reflexivity|]. split; [by apply close_ok|]. by rewrite Z.add_0_r.
Qed.

Lemma to_write_nonneg e ev : talk_event_ok si bi W ended (e, ev) → 0 ≤ to_write ev.
Proof. intros [_ H]. by destruct ev. Qed.

Lemma talk_run_ok evs E t :
  talks E t → Forall (talk_event_ok si bi W ended) evs → orderly so evs t = true →
  budget t + total_to_write evs ≤ max_flight →
  ∃ t' E', talk_run so evs t = Ret t' ∧ talks E' t' ∧ tk_written t' ≤ budget t + total_to_write evs.
Proof.
  revert E t. induction evs as [|[e ev] evs IH]; intros E t H Hev Ho Hb.
  { exists t, E. split_and!; try done. by rewrite Z.add_0_r; eapply written_budget. }
  apply Forall_cons in Hev as [H1 Hev]. cbn [orderly] in Ho. apply andb_prop in Ho as [Ht Ho].
  change (total_to_write ((e, ev) :: evs)) with (to_write ev + total_to_write evs) in *.
  assert (0 ≤ total_to_write evs).
  { clear - Hev. induction Hev as [|[e ev] evs H1 _ IH]; [done|]. apply to_write_nonneg in H1. unfold total_to_write in *.
    cbn [foldr snd]. zlia. }
  destruct (talk_step_ok e ev E t H H1 Ht) as (t1 & E1 & Es & H2 & Hb1); [zlia|].
  cbn [talk_run]. rewrite Es in Ho |- *. rewrite bind_Ret_l.
  destruct (IH E1 t1 H2 Hev Ho) as (t' & E' & Er & Ht' & Hw'); [zlia|]. exists t', E'. split_and!; try done. zlia.
Qed.
End facts.

(** * From the handshake on *)
Definition start_talk (s : CS) : talk := mkTalk s None 0 [] false false.

(** The application has not touched the connection yet, and the segments
    queued on it are the peer's. *)
Record untouched (si : Z → Z) (W : Z) (ended : bool) (c : TCPConn) : Prop := {
  ut_flags : (c_finPending c, c_closeCh c, c_forceCloseCh c, c_writeShutdown c) = (false, false, false, false);
  ut_inbound : Forall (conforms si (c_irs c + 1) W ended) (c_inbound c) }.

(** The connection right after its handshake. *)
Lemma opened_talks so si W ended s s' rsize wsize :
  half_open (cs_conn s) rsize wsize → opened so si s s' rsize → untouched si W ended (cs_conn s) → 0 ≤ W →
  ∃ lim, lim < span_limit ∧
    talks so si (c_iss (cs_conn s) + 1) (c_irs (cs_conn s) + 1) lim W ended (c_flow (cs_conn s))
      (w_sent (cs_world s)) (mkEp stateEstablished false false 0) (start_talk s').
Proof.
  intros Hho [] [Hfl Hin] HW. destruct op_in as (lim & r & Hlim & Hst & Hun & _). exists lim. split; [done|].
  destruct op_out as (x & rc & a & u & n & Hat & Ha & Hu).
  injection op_kept as F1 F2 _ F3 F4 F5 F6 F7 F8 F9. injection Hfl as G1 G2 G3 G4.
  destruct Hst as [Hs Hrs Hf]. pose proof (ok_rcv _ _ _ (st_ok _ _ _ _ _ _ _ _ _ Hs)) as Hr.
  assert (rc = r) as -> by (pose proof (sa_rcv _ _ _ _ _ _ _ _ _ _ Hat); congruence).
  pose proof (room_range _ _ _ (st_ok _ _ _ _ _ _ _ _ _ Hs)) as Hroom.
  unfold tk_conn, start_talk. split; unfold tk_conn; cbn [tk_cs tk_written tk_writing tk_read tk_eof]; try done.
  - exists x, r, a, u, n. split_and!; try done. exists []. split; try done; cbn.
    + by intros q ?%Exists_nil.
    + zlia.
    + congruence.
  - split; cbn; rewrite ?F3, ?F4, ?F5, ?F6, ?F8, ?G1, ?G2, ?G3; try done; apply Hho.
  - exists []. by rewrite app_nil_r, op_sent.
  - by rewrite F2.
  - congruence.
Qed.

(** C1: a connection carries both streams of a conversation, in order and
    without invention, from the handshake to the end.  A half-open connection
    gets the ACK that completes its handshake.  From then on the segments of a
    peer (any part of its stream at its place, lost, repeated and reordered at
    will, with any acknowledgement, window, flags and option bytes, and the FIN
    at the end of the stream), all cases of the [run] loop, and the calls
    [Read], [Write], [SetNoDelay] and [CloseWrite] of the application come in
    any order.  Then nothing panics or runs for ever; what was read and is
    ready to be read is a prefix of the peer's stream; [Read] returns [io.EOF]
    only when the peer's stream has ended and all of it was read; and every
    packet sent holds bytes of what was written at their place, the FIN at its
    end, or no data at all.  The conditions: the peer announced no MSS or one
    above 12 ([half_open]), the MTU is between 53 and 1540, the accept queue
    has room, each stream is within the sequence space that the window
    arithmetic can tell apart, reads ask for at least one byte, and the run is
    [orderly]: an end that has closed its side gets the peer's FIN in order,
    and does not close its side while a FIN that came early waits for data. *)
Theorem conversation_keeps_streams so si W ended e s ack rsize wsize evs :
  half_open (cs_conn s) rsize wsize → completes (cs_conn s) ack → 52 < e_mtu e ≤ 1540 →
  zlen (w_acceptQ (cs_world s)) < w_acceptCap (cs_world s) → untouched si W ended (cs_conn s) →
  0 ≤ W < span_limit → total_to_write evs ≤ max_flight →
  Forall (talk_event_ok si (c_irs (cs_conn s) + 1) W ended) evs →
  ∃ s1, handleSynRcvd ack e s = Ret (s1, tt) ∧
    (orderly so evs (start_talk s1) = true →
     ∃ t n fin ps, talk_run so evs (start_talk s1) = Ret t ∧
       tk_read t ++ unread (tk_cs t) = piece si 0 n ∧ 0 ≤ n ≤ W ∧
       (tk_eof t = true → ended = true ∧ tk_read t = piece si 0 W) ∧
       tk_written t ≤ total_to_write evs ∧
       w_sent (cs_world (tk_cs t)) = w_sent (cs_world s) ++ ps ∧
       Forall (wire_packet so (c_iss (cs_conn s) + 1) (tk_written t) fin (c_flow (cs_conn s))) ps).
Proof.
  intros Hho Hack Hmtu Hq Hun HW Hsz Hev. destruct (handshake_run e s ack rsize wsize so si Hho Hack Hmtu Hq) as (s1 & E1 & Hop).
  exists s1. split; [done|]. intros Hord.
  destruct (opened_talks so si W ended s s1 rsize wsize Hho Hop Hun (proj1 HW)) as (lim & Hlim & H0).
  destruct (talk_run_ok _ _ _ _ lim W ended Hlim HW _ _ evs _ _ H0 Hev Hord Hsz) as (t & E & Et & Ht & Hw).
  destruct (tl_sent _ _ _ _ _ _ _ _ _ _ _ Ht) as (ps & Eps & Hps).
  exists t, (ep_pos E), (ep_fin E), ps. split; [done|]. split; [apply Ht|].
  split; [eapply sides_pos; [done|apply Ht]|]. split; [|done].
  intros [He Hnil]%(tl_eof _ _ _ _ _ _ _ _ _ _ _ Ht). pose proof (tl_read _ _ _ _ _ _ _ _ _ _ _ Ht) as Hr.
  rewrite Hnil, app_nil_r in Hr. destruct (tl_sides _ _ _ _ _ _ _ _ _ _ _ Ht) as (x & rc & a & u & n & _ & _ & _ & Hs).
  unfold rcv_side in Hs. rewrite He in Hs. destruct Hs as [? Hp]. by rewrite <- Hp.
Qed.

(** A conversation: the peer sends three bytes and its FIN, here the other way
    round, and this end answers with two bytes and closes. *)
Definition peer_packet (seq ack flags : Z) (payload : bytes) : PacketBuffer :=
  let b := TCP.hdr_bytes (TCP.mkTCPFields 4000 80 seq ack 5 flags 64 0 0) ++ payload in
  mkPacketBuffer b 0 0 None None (Some (mkView 0 (zlen b))).
Definition sample_talk : list (Env * talk_event) :=
  (λ ev, (sample_offload, ev)) <$>
    [TSegment (peer_packet 5004 1001 (Z.lor TCPFlagFIN TCPFlagACK) []); TLoop EvInbound;
     TSegment (peer_packet 5001 1001 TCPFlagACK [0; 1; 2]); TLoop EvInbound;
     TRead 8; TRead 8; TWrite 2; TWriteRound; TWriteRound; TLoop EvWriteNotify; TCloseWrite; TLoop EvCloseCh].

Lemma fin_conforms W seq ack p :
  parseSeg (peer_packet seq ack (Z.lor TCPFlagFIN TCPFlagACK) []) =
    Ret (mkSegment (Z.lor TCPFlagFIN TCPFlagACK) seq ack 64 [] [] 0 0 false) →
  is_u32 ack → seq = seq_of 5001 p → p = W → 0 ≤ W →
  conforms sample_stream 5001 W true (peer_packet seq ack (Z.lor TCPFlagFIN TCPFlagACK) []).
Proof.
  intros E Ha -> -> HW. eexists. split; [exact E|]. split; try done; [by left|]. intros _. split; [done|].
  exists W. rewrite Z.sub_diag. by split_and!; [..|lia|].
Qed.
Lemma data_conforms W ended seq ack p k :
  parseSeg (peer_packet seq ack TCPFlagACK (piece sample_stream p k)) =
    Ret (mkSegment TCPFlagACK seq ack 64 [] (piece sample_stream p k) 0 0 false) →
  is_u32 ack → seq = seq_of 5001 p → 0 ≤ p → 0 ≤ k → p + k ≤ W →
  conforms sample_stream 5001 W ended (peer_packet seq ack TCPFlagACK (piece sample_stream p k)).
Proof.
  intros E Ha -> Hp Hk HW. eexists. split; [exact E|]. split; try done.
  destruct (Z.eq_dec k 0) as [->|]; [by left|right]. exists p, k. by split_and!; [..|lia|].
Qed.

Lemma sample_talk_conforms : Forall (talk_event_ok sample_stream 5001 3 true) sample_talk.
Proof.
  unfold sample_talk. repeat (apply Forall_cons_2; [split; [exact sample_offload_ok|]|]); try done.
  - by apply (fin_conforms 3 5004 1001 3).
  - by apply (data_conforms 3 true 5001 1001 0 3).
Qed.

Lemma conversation_keeps_streams_witness :
  ∃ s1 t n fin ps, handleSynRcvd sample_ack sample_env sample_half_open = Ret (s1, tt) ∧
    talk_run sample_stream sample_talk (start_talk s1) = Ret t ∧
    (tk_read t, tk_eof t, tk_written t, c_state (tk_conn t), zlen ps) = ([0; 1; 2], true, 2, stateLastAck, 3) ∧
    tk_read t ++ unread (tk_cs t) = piece sample_stream 0 n ∧ 0 ≤ n ≤ 3 ∧
    w_sent (cs_world (tk_cs t)) = w_sent (cs_world sample_half_open) ++ ps ∧
    Forall (wire_packet sample_stream 1001 (tk_written t) fin sample_flow) ps.
Proof.
  destruct (conversation_keeps_streams sample_stream sample_stream 3 true sample_env sample_half_open sample_ack 64 64 sample_talk)
    as (s1 & E1 & H).
  - split; vm_compute; try done; try (split; done). right. reflexivity.
  - split; vm_compute; try done; split; done.
  - vm_compute. split; done.
  - vm_compute. reflexivity.
  - split; [reflexivity|constructor].
  - vm_compute. split; done.
  - vm_compute. done.
  - exact sample_talk_conforms.
  - destruct H as (t & n & fin & ps & Et & Hr & Hn & _ & _ & Es & Hw).
    + apply (f_equal (λ o, match o with Ret (s, _) => orderly sample_stream sample_talk (start_talk s) | _ => false end)) in E1.
      rewrite <- E1. vm_compute. reflexivity.
    + exists s1, t, n, fin, ps. split; [exact E1|]. split; [exact Et|]. split; [|done].
      assert (zlen ps = zlen (w_sent (cs_world (tk_cs t)))) as -> by by rewrite Es.
      apply (f_equal (λ o, match o with
        | Ret (s, _) => match talk_run sample_stream sample_talk (start_talk s) with
          | Ret t => (tk_read t, tk_eof t, tk_written t, c_state (tk_conn t), zlen (w_sent (cs_world (tk_cs t))))
          | _ => ([], false, 0, stateClosed, 0) end
        | _ => ([], false, 0, stateClosed, 0) end)) in E1.
      rewrite Et in E1. rewrite <- E1. vm_compute. reflexivity.
Defined.

(** * Closing *)
Definition opened_talk : talk :=
  match handleSynRcvd sample_ack sample_env sample_half_open with
  | Ret (s, _) => start_talk s | _ => start_talk sample_half_open
  end.

(** ** A FIN that overtakes data *)

(** Nothing can be put into a buffer that is closed, and once it is read empty
    it gives [io.EOF]. *)
Lemma closed_for_good c :
  ring_ok (c_readBuf c) → rb_closed (c_readBuf c) = true →
  (∀ p, WriteNoBlock (c_readBuf c) p = Ret (c_readBuf c, 0)) ∧
  (contents (c_readBuf c) = [] → ∀ n, 0 < n → ∃ c', Read_conn n c = Ret (c', ReadReturns [] (Some EOF))).
Proof.
  intros Hok Hc. split; [intros p; unfold WriteNoBlock; by rewrite Hc|]. intros He n Hn.
  unfold Read_conn, Read_round. rewrite lenLocked_ok, bind_Ret_l by done.
  assert (used (c_readBuf c) = 0) as -> by (by rewrite <- zlen_contents, He). cbn. rewrite Hc. by eexists.
Qed.

(** What both handlers do with a FIN. *)
Lemma take_fin_run e s rc :
  ring_ok (c_readBuf (cs_conn s)) → is_u16 (rcvWndSize (c_cfg (cs_conn s))) → c_rcv (cs_conn s) = Some rc →
  ∃ s', (set_rcv (λ r, r <| r_nxt := u32 (r_nxt r + 1) |>);; sendACK) e s = Ret (s', tt) ∧
    c_readBuf (cs_conn s') = c_readBuf (cs_conn s) ∧ c_readShutdown (cs_conn s') = c_readShutdown (cs_conn s).
Proof.
  intros Hok Hcfg Hrc. rewrite (run_set_rcv _ _ _ _ rc) by done.
  set (c1 := (cs_conn s) <| c_rcv := Some _ |>).
  destruct (sendACK_run e c1 (cs_world s)) as (w' & wd & tv & -> & _); [done..|].
  eexists. split; [reflexivity|]. destruct (noteAck_same (c1 <| c_rcv := ack_rcv c1 |>)) as (Ea & _ & _ & Er & _).
  split; [exact Er|exact (f_equal c_readShutdown Ea)].
Qed.

Lemma enterTimeWait_run e s :
  c_readShutdown (cs_conn s) = false →
  ∃ s', enterTimeWait e s = Ret (s', tt) ∧ c_state (cs_conn s') = stateTimeWait ∧
    c_readBuf (cs_conn s') = CloseWrite (c_readBuf (cs_conn s)).
Proof.
  intros Hs. unfold enterTimeWait, set_state. rewrite run_setc, run_getc. set (s1 := mkCS _ _).
  assert (c_readShutdown (cs_conn s1) = false) as -> by exact Hs. by eexists.
Qed.

Section ahead.
Context (so si : Z → Z) (bo bi lim W : Z) (flow : FlowID) (sent0 : list sent).
Context (E : ep_phase) (t : talk) (e : Env) (seg : segment).
Hypothesis Ht : talks so si bo bi lim W true flow sent0 E t.
Hypothesis HW : 0 ≤ W < span_limit.
Hypothesis He : env_ok e.
Hypothesis Hseg : peer_seg si bi W true seg.
Hypothesis Hfin : Has (sg_flags seg) TCPFlagFIN = true.
Hypothesis Halone : sg_payload seg = [].

Definition truncated (s' : CS) : Prop :=
  (c_state (cs_conn s') = stateTimeWait ∨ c_state (cs_conn s') = stateClosing) ∧
  ring_ok (c_readBuf (cs_conn s')) ∧ rb_closed (c_readBuf (cs_conn s')) = true ∧ unread s' = unread (tk_cs t).

Local Abbreviation JE := (J so si bo bi lim (tk_written t) W (c_writeShutdown (tk_conn t)) true 0 E (tk_cs t) E).

Lemma JE_facts s : JE s →
  ring_ok (c_readBuf (cs_conn s)) ∧ is_u16 (rcvWndSize (c_cfg (cs_conn s))) ∧ (∃ rc, c_rcv (cs_conn s) = Some rc) ∧
  c_readShutdown (cs_conn s) = false ∧ unread s = unread (tk_cs t) ∧ has_snd (cs_conn s) = true ∧ has_rcv (cs_conn s) = true.
Proof.
  intros [(x & rc & a & u & n & Hat & _) [] _ Hun _ _ _ _]. rewrite Z.sub_diag, app_nil_r in Hun.
  destruct Hat. split_and!; try done; [by eexists|by unfold has_snd; rewrite sa_snd|by unfold has_rcv; rewrite sa_rcv].
Qed.

(** From there on both handlers take the FIN. *)
Lemma ahead_takes s1 m :
  JE s1 → (∀ s, c_readShutdown (cs_conn s) = false → unread s = unread (tk_cs t) → ring_ok (c_readBuf (cs_conn s)) →
    ∃ s', m e s = Ret (s', tt) ∧ truncated s') →
  ∃ s', (set_rcv (λ r, r <| r_nxt := u32 (r_nxt r + 1) |>);; sendACK;; m) e s1 = Ret (s', tt) ∧ truncated s'.
Proof.
  intros (Hr & Hcfg & (rc & Hrc) & Hsh & Hun & _)%JE_facts Hm.
  destruct (take_fin_run e s1 rc Hr Hcfg Hrc) as (s2 & E2 & Erb & Ersh). rewrite <- run_assoc, (run_bind _ _ _ _ _ _ E2).
  apply Hm; [congruence|unfold unread in *; by rewrite Erb|by rewrite Erb].
Qed.

Lemma ahead_time_wait s :
  c_readShutdown (cs_conn s) = false → unread s = unread (tk_cs t) → ring_ok (c_readBuf (cs_conn s)) →
  ∃ s', enterTimeWait e s = Ret (s', tt) ∧ truncated s'.
Proof.
  intros Hsh Hun Hok. destruct (enterTimeWait_run e s Hsh) as (s' & E1 & Est & Erb). exists s'. split; [done|].
  unfold truncated, unread in *. rewrite Erb. split; [by left|]. by destruct Hok.
Qed.

Lemma ahead_finWait2 : ∃ s', handleFinWait2 seg e (tk_cs t) = Ret (s', tt) ∧ truncated s'.
Proof.
  pose proof (talks_J _ _ _ _ _ _ _ _ _ 0 E t Ht (or_introl eq_refl)) as H0.
  destruct (JE_facts _ H0) as (_ & _ & _ & _ & _ & _ & Hr).
  unfold handleFinWait2. rewrite run_getc, Halone, Hfin, Hr. change (zlen [] >? 0) with false. cbn [andb].
  destruct (kept_when so si bo bi lim (tk_written t) W (c_writeShutdown (tk_conn t)) true 0 E (tk_cs t) e E
    (Has (sg_flags seg) TCPFlagACK && has_snd (cs_conn (tk_cs t))) (set_peer_window seg)
    (kept_set_peer_window _ _ _ _ _ _ _ _ _ _ HW _ _ e E seg (sk_wnd _ _ _ _ _ Hseg)) _ H0) as (s1 & [] & E1 & H1).
  rewrite (run_bind _ _ _ _ _ _ E1). cbn [when_]. rewrite run_skip. apply ahead_takes; [done|]. apply ahead_time_wait.
Qed.

Lemma ahead_finWait1 : ∃ s', handleFinWait1 seg e (tk_cs t) = Ret (s', tt) ∧ truncated s'.
Proof.
  pose proof (talks_J _ _ _ _ _ _ _ _ _ 0 E t Ht (or_introl eq_refl)) as H0.
  unfold handleFinWait1. rewrite run_getc. set (ack := if _ && _ then _ else _).
  assert (safe e ack JE (λ _, JE)) as Hack.
  { subst ack. destruct (_ && _); [|by apply safe_ret]. destruct Hseg.
    apply then_; [by apply kept_set_peer_window|intros _]. apply then_; [by apply kept_measureRTTM|intros _].
    apply then_; [by apply kept_handleACK|intros _]. apply got_snd. intros x. by apply safe_ret. }
  destruct (Hack _ H0) as (s1 & b & E1 & H1). rewrite (run_bind _ _ _ _ _ _ E1), run_getc, Halone.
  destruct (JE_facts _ H1) as (_ & _ & _ & _ & _ & _ & Hr).
  change (zlen [] >? 0) with false. cbn [andb when_]. rewrite run_skip, run_getc, Hfin, Hr. cbn [andb].
  apply ahead_takes; [done|]. intros s Hsh Hun Hok. rewrite run_getc, Hsh. cbn [negb when_].
  unfold close_readBuf. rewrite run_setc. destruct b.
  - apply ahead_time_wait; [done|done|by destruct Hok].
  - eexists. split; [reflexivity|]. split; [by right|]. by destruct Hok.
Qed.
End ahead.

(** This end closes and its FIN is acknowledged; then the peer's FIN overtakes
    its three bytes. *)
Definition ahead_talk : list (Env * talk_event) :=
  (λ ev, (sample_offload, ev)) <$>
    [TCloseWrite; TLoop EvCloseCh; TSegment (peer_packet 5001 1002 TCPFlagACK []); TLoop EvInbound].

(** C34: an end that has closed its side loses data when the peer's FIN
    overtakes it.  [handleFinWait1] and [handleFinWait2] take a FIN without
    looking at its sequence number.  In any conversation in FIN_WAIT_1 or
    FIN_WAIT_2 in which bytes of the peer's stream are still missing, the FIN at
    the end of that stream closes the read buffer with what was in it: no later
    segment can add to it, and when it is read empty the application gets
    [io.EOF], although it has seen only the bytes before the missing ones. *)
Theorem fin_ahead_truncates so si bo bi lim W flow sent0 E t e seg :
  talks so si bo bi lim W true flow sent0 E t → 0 ≤ W < span_limit → env_ok e →
  c_state (tk_conn t) = stateFinWait1 ∨ c_state (tk_conn t) = stateFinWait2 → ep_pos E < W →
  peer_seg si bi W true seg → Has (sg_flags seg) TCPFlagFIN = true → sg_payload seg = [] →
  ∃ s', dispatchState seg e (tk_cs t) = Ret (s', tt) ∧
    (c_state (cs_conn s') = stateTimeWait ∨ c_state (cs_conn s') = stateClosing) ∧
    tk_read t ++ unread s' = piece si 0 (ep_pos E) ∧ zlen (tk_read t ++ unread s') < W ∧
    (∀ p, WriteNoBlock (c_readBuf (cs_conn s')) p = Ret (c_readBuf (cs_conn s'), 0)) ∧
    (unread s' = [] → ∀ n, 0 < n → ∃ c', Read_conn n (cs_conn s') = Ret (c', ReadReturns [] (Some EOF))).
Proof.
  intros Ht HW He Hst Hpos Hseg Hfin Halone.
  assert (∃ s', dispatchState seg e (tk_cs t) = Ret (s', tt) ∧ truncated t s') as (s' & E1 & Hs & Hok & Hcl & Hun).
  { unfold dispatchState. rewrite run_getc. unfold tk_conn in Hst.
    destruct Hst as [-> | ->]; [by eapply ahead_finWait1|by eapply ahead_finWait2]. }
  assert (0 ≤ ep_pos E ≤ W) as Hp by (eapply sides_pos; [done|apply Ht]).
  exists s'. split; [done|]. split; [done|]. rewrite Hun, (tl_read _ _ _ _ _ _ _ _ _ _ _ Ht), zlen_piece' by lia.
  split; [done|]. split; [done|]. rewrite <- Hun. by apply closed_for_good.
Qed.

(** The end of that talk, by the invariant of all conversations. *)
Lemma sample_talks W ended evs :
  0 ≤ W < span_limit → Forall (talk_event_ok sample_stream 5001 W ended) evs → total_to_write evs ≤ max_flight →
  orderly sample_stream evs opened_talk = true →
  ∃ lim t E, talk_run sample_stream evs opened_talk = Ret t ∧
    talks sample_stream sample_stream 1001 5001 lim W ended sample_flow [] E t.
Proof.
  intros HW Hev Hsz Hord.
  assert (half_open (cs_conn sample_half_open) 64 64) as Hho.
  { split; vm_compute; try done; try (split; done). right. reflexivity. }
  destruct (handshake_run sample_env sample_half_open sample_ack 64 64 sample_stream sample_stream Hho) as (s1 & E1 & Hop).
  - split; vm_compute; try done; split; done.
  - vm_compute. split; done.
  - vm_compute. reflexivity.
  - assert (opened_talk = start_talk s1) as Eo by (unfold opened_talk; by rewrite E1). rewrite Eo in Hord |- *.
    destruct (opened_talks sample_stream sample_stream W ended sample_half_open s1 64 64 Hho Hop) as (lim & Hlim & H0);
      [split; [reflexivity|constructor]|apply HW|].
    destruct (talk_run_ok _ _ _ _ lim W ended Hlim HW _ _ evs _ _ H0 Hev Hord Hsz) as (t & E & Et & Ht & _).
    by exists lim, t, E.
Qed.

Lemma fin_ahead_truncates_witness :
  ∃ t s', talk_run sample_stream ahead_talk opened_talk = Ret t ∧ c_state (tk_conn t) = stateFinWait2 ∧
    dispatchState (mkSegment (Z.lor TCPFlagFIN TCPFlagACK) 5004 1002 64 [] [] 0 0 false) sample_offload (tk_cs t) = Ret (s', tt) ∧
    zlen (tk_read t ++ unread s') < 3 ∧
    (unread s' = [] → ∀ n, 0 < n → ∃ c', Read_conn n (cs_conn s') = Ret (c', ReadReturns [] (Some EOF))).
Proof.
  destruct (sample_talks 3 true ahead_talk) as (lim & t & E & Et & Ht); [done| |vm_compute; done|vm_compute; reflexivity|].
  { unfold ahead_talk. repeat (apply Forall_cons_2; [split; [exact sample_offload_ok|]|]); try done.
    by apply (data_conforms 3 true 5001 1002 0 0). }
  assert ((c_state (tk_conn t), tk_read t ++ unread (tk_cs t)) = (stateFinWait2, [])) as [= Hst Hr].
  { apply (f_equal (λ o, match o with Ret t => (c_state (tk_conn t), tk_read t ++ unread (tk_cs t)) | _ => (stateClosed, []) end)) in Et.
    rewrite <- Et. vm_compute. reflexivity. }
  destruct (fin_ahead_truncates sample_stream sample_stream 1001 5001 lim 3 sample_flow [] E t sample_offload
    (mkSegment (Z.lor TCPFlagFIN TCPFlagACK) 5004 1002 64 [] [] 0 0 false) Ht) as (s' & Ed & _ & _ & Hz & _ & Heof).
  - clear. vm_compute. split; done.
  - exact sample_offload_ok.
  - right. exact Hst.
  - rewrite (tl_read _ _ _ _ _ _ _ _ _ _ _ Ht) in Hr. apply piece_nil in Hr. clear - Hr. lia.
  - clear. split; try done; [by left|]. intros _. split; [done|]. exists 3. by split_and!.
  - reflexivity.
  - reflexivity.
  - exists t, s'. split; [exact Et|]. split; [exact Hst|]. split; [exact Ed|]. split; [exact Hz|exact Heof].
Defined.


(** ** The last acknowledgement *)






(** A FIN that comes again in CLOSE_WAIT, because its acknowledgement was
    lost, is not acknowledged: no packet is sent for it. *)
Lemma close_wait_ignores_fin :
  let fin := TSegment (peer_packet 5001 1001 (Z.lor TCPFlagFIN TCPFlagACK) []) in
  let evs := λ n, (λ ev, (sample_offload, ev)) <$> concat (repeat [fin; TLoop EvInbound] n) in
  Forall (λ n, (t ← talk_run sample_stream (evs n) opened_talk;
                Ret (c_state (tk_conn t), zlen (w_sent (cs_world (tk_cs t))))) = Ret (stateCloseWait, 1)) (seq 1 8).
Proof. repeat constructor. Qed.
