(* ===== verification/Inbound.v ===== *)
(** The checks every segment passes before its state's handler sees it
    ([handleSegment]): timestamps, RST and SYN. *)
From S2P Require Import Prelude.
From S2P Require Import Tcpip.
From S2P Require Import Header.
From S2P Require Import TcpHeader.
From S2P Require Import Packet.
From S2P Require Import Stack.
From S2P Require Import Ringbuf.
From S2P Require Import Seq.
From S2P Require Import TcpConn.
From S2P Require Import Rcv.
From S2P Require Import Segment.
From S2P Require Import SegmentFacts.
From S2P Require Import RcvData.
From S2P Require Import Snd.
From S2P Require Import Conn.

(** Only counters have changed, or one ACK has been sent and noted. *)
Definition unmoved (s s' : CS) : Prop :=
  cs_conn s' = cs_conn s ∧ w_sent (cs_world s') = w_sent (cs_world s) ∧
  w_acceptQ (cs_world s') = w_acceptQ (cs_world s).
Definition challenged (s s' : CS) : Prop :=
  ∃ wd opts, cs_conn s' = acked (cs_conn s) wd ∧
    emits (cs_conn s) (cs_world s) (cs_world s') (bump SegmentsOut)
      (conn_segment (cs_conn s) (next_seq (cs_conn s)) (next_ack (cs_conn s)) TCPFlagACK wd opts []).

(** A timestamp before the last one seen. *)
Definition stale (c : TCPConn) (seg : segment) : bool :=
  c_tsEnabled c && sg_hasTS seg && negb (Has (sg_flags seg) TCPFlagRST) &&
  (i32 (u32 (sg_tsVal seg - c_tsRecent c)) <? 0).

(** A segment that a peer that is in step never sends: a stale timestamp, a
    RST that does not carry the next sequence number, or a SYN on a connection
    past the handshake. *)
Definition out_of_step (c : TCPConn) (nxt : Z) (seg : segment) : bool :=
  stale c seg ||
  (if Has (sg_flags seg) TCPFlagRST then negb (sg_seq seg =? nxt)
   else Has (sg_flags seg) TCPFlagSYN && negb (bool_decide (c_state c = stateSynRcvd))).

Lemma challenge e s :
  ring_ok (c_readBuf (cs_conn s)) → is_u16 (rcvWndSize (c_cfg (cs_conn s))) →
  ∃ s', sendACK e s = Ret (s', tt) ∧ challenged s s'.
Proof.
  destruct s as [c w]. cbn [cs_conn cs_world]. intros Hok Hcfg.
  destruct (sendACK_run e c w Hok Hcfg) as (w' & wd & tv & E & _ & _ & _ & Hem).
  eexists. split; [exact E|]. by eexists wd, _.
Qed.

Section inbound.
Context (e : Env) (s : CS) (pb : PacketBuffer) (seg0 seg : segment) (r : receiver).
Context (Hparse : parseSeg pb = Ret seg0) (Hts : withTimestamps (cs_conn s) seg0 = Ret seg).
Context (Hr : c_rcv (cs_conn s) = Some r) (Hok : ring_ok (c_readBuf (cs_conn s))).

Lemma handleSegment_start :
  handleSegment pb e s =
  (if stale (cs_conn s) seg then count_ (bump PAWSDrops) else
   if Has (sg_flags seg) TCPFlagRST then validateRST seg else
   if Has (sg_flags seg) TCPFlagSYN && negb (bool_decide (c_state (cs_conn s) = stateSynRcvd)) then sendACK else
   when_ (c_tsEnabled (cs_conn s) && sg_hasTS seg && has_rcv (cs_conn s) &&
          negb (seqGreaterThan (sg_seq seg) (c_tsLastAckSent (cs_conn s))))
     (setc (λ c, c <| c_tsRecent := sg_tsVal seg |>));;
   dispatchState seg) e s.
Proof. unfold handleSegment. by rewrite Hparse, run_lift, run_getc, Hts, run_lift. Qed.

Lemma validateRST_run :
  validateRST seg e s =
  (if bool_decide (c_state (cs_conn s) = stateTimeWait) then skip else
   if sg_seq seg =? r_nxt r then handleRST else
   when_ (seqWithinWindow (sg_seq seg) (r_nxt r)
            (let f := Cap (c_readBuf (cs_conn s)) - used (c_readBuf (cs_conn s)) in if f <=? 0 then 0 else u32 f))
     sendACK) e s.
Proof.
  unfold validateRST. rewrite run_getc. case_bool_decide; [done|]. rewrite Hr.
  unfold rcvWnd. rewrite (Free_ok _ Hok), bind_Ret_l. by destruct (_ <=? 0).
Qed.
End inbound.

(** C18: a segment out of step changes nothing.  A segment with a timestamp
    older than the last one seen, a RST whose sequence number is not exactly
    the next one expected (in particular a blind reset that only hits the
    window), or a SYN on a connection past the handshake never panics and never
    touches the connection: it is dropped, or answered by one ACK that states
    the sequence numbers expected.  The receiver keeps its position and its
    data, the sender its queue, and the state stays. *)
Theorem out_of_step_harmless e s pb seg0 seg r :
  parseSeg pb = Ret seg0 → withTimestamps (cs_conn s) seg0 = Ret seg →
  c_rcv (cs_conn s) = Some r → ring_ok (c_readBuf (cs_conn s)) →
  is_u16 (rcvWndSize (c_cfg (cs_conn s))) → out_of_step (cs_conn s) (r_nxt r) seg = true →
  ∃ s', handleSegment pb e s = Ret (s', tt) ∧ (unmoved s s' ∨ challenged s s').
Proof.
  intros Hparse Hts Hr Hok Hcfg Hout. rewrite (handleSegment_start e s pb seg0 seg Hparse Hts).
  unfold out_of_step in Hout. destruct (stale _ _); cbn [orb] in Hout.
  { eexists. split; [reflexivity|]. by left. }
  assert (∃ s', skip e s = Ret (s', tt) ∧ (unmoved s s' ∨ challenged s s')) as Hskip.
  { exists s. split; [done|]. by left. }
  destruct (challenge e s Hok Hcfg) as (s' & E & Hc).
  destruct (Has (sg_flags seg) TCPFlagRST).
  - rewrite (validateRST_run e s seg r Hr Hok). apply negb_true_iff in Hout. rewrite Hout.
    case_bool_decide; [exact Hskip|]. unfold when_. destruct (seqWithinWindow _ _ _); [eauto|exact Hskip].
  - rewrite Hout. eauto.
Qed.

(** A RST with exactly the next sequence number closes the connection: it
    is CLOSED and done, nothing is sent, and the data already received stays
    readable (in TIME_WAIT a RST is ignored, RFC 1337). *)
Theorem exact_rst_closes e s pb seg0 seg r :
  parseSeg pb = Ret seg0 → withTimestamps (cs_conn s) seg0 = Ret seg →
  c_rcv (cs_conn s) = Some r → ring_ok (c_readBuf (cs_conn s)) →
  Has (sg_flags seg) TCPFlagRST = true → sg_seq seg = r_nxt r → c_state (cs_conn s) ≠ stateTimeWait →
  c_done (cs_conn s) = false →
  ∃ s', handleSegment pb e s = Ret (s', tt) ∧ c_state (cs_conn s') = stateClosed ∧
    c_done (cs_conn s') = true ∧ c_readBuf (cs_conn s') = c_readBuf (cs_conn s) ∧
    w_sent (cs_world s') = w_sent (cs_world s).
Proof.
  intros Hparse Hts Hr Hok Hrst Hseq Hst Hd. rewrite (handleSegment_start e s pb seg0 seg Hparse Hts).
  assert (stale (cs_conn s) seg = false) as ->.
  { unfold stale. rewrite Hrst. cbn. by rewrite andb_false_r. }
  rewrite Hrst, (validateRST_run e s seg r Hr Hok), bool_decide_false, Hseq, Z.eqb_refl by done.
  unfold handleRST, set_state, closeDone. rewrite run_count, run_setc. cbn [cs_conn cs_world].
  eexists. split; [reflexivity|]. cbn. by rewrite Hd.
Qed.

(** An established connection, a blind reset and a correct one. *)
Definition sample_estab : CS :=
  let ring := mkRing (make_bytes 64) 0 0 false 0 0 false in
  mkCS (sample_conn stateEstablished None (Some (newReceiver 5000 ring 0 0)) ring ring) sample_world.
Definition sample_rst (seq : Z) : PacketBuffer := sample_packet seq 0 TCPFlagRST [] [].
Definition the_segment (pb : PacketBuffer) : segment :=
  match parseSeg pb with Ret seg => seg | _ => mkSegment 0 0 0 0 [] [] 0 0 false end.

Lemma out_of_step_harmless_witness :
  ∃ s', handleSegment (sample_rst 5003) sample_env sample_estab = Ret (s', tt) ∧
    (unmoved sample_estab s' ∨ challenged sample_estab s').
Proof.
  apply (out_of_step_harmless sample_env sample_estab (sample_rst 5003)
    (the_segment (sample_rst 5003)) (the_segment (sample_rst 5003))
    (newReceiver 5000 (mkRing (make_bytes 64) 0 0 false 0 0 false) 0 0)).
  - vm_compute. reflexivity.
  - vm_compute. reflexivity.
  - reflexivity.
  - split; cbn; done.
  - vm_compute. split; done.
  - vm_compute. reflexivity.
Defined.

Lemma exact_rst_closes_witness :
  ∃ s', handleSegment (sample_rst 5001) sample_env sample_estab = Ret (s', tt) ∧
    c_state (cs_conn s') = stateClosed ∧ c_done (cs_conn s') = true ∧
    c_readBuf (cs_conn s') = c_readBuf (cs_conn sample_estab) ∧
    w_sent (cs_world s') = w_sent (cs_world sample_estab).
Proof.
  apply (exact_rst_closes sample_env sample_estab (sample_rst 5001)
    (the_segment (sample_rst 5001)) (the_segment (sample_rst 5001))
    (newReceiver 5000 (mkRing (make_bytes 64) 0 0 false 0 0 false) 0 0)).
  - vm_compute. reflexivity.
  - vm_compute. reflexivity.
  - reflexivity.
  - split; cbn; done.
  - vm_compute. reflexivity.
  - vm_compute. reflexivity.
  - done.
  - reflexivity.
Defined.
