(* ===== verification/ConnFacts.v ===== *)
(** The state machine of a connection ([Conn]): which states follow which. *)
From S2P Require Import Prelude.
From S2P Require Import Tcpip.
From S2P Require Import Header.
From S2P Require Import TcpHeader.
From S2P Require Import Packet.
From S2P Require Import Stack.
From S2P Require Import Ringbuf.
From S2P Require Import Seq.
From S2P Require Import TcpConn.
From S2P Require Import Rcv.
From S2P Require Import Segment.
From S2P Require Import RcvData.
From S2P Require Import Snd.
From S2P Require Import Conn.

(** * Phases

    What the life cycle of a connection shows: its state, whether a FIN that
    arrived ahead of missing data waits for it, whether it has a sender and a
    receiver, whether it is done, and whether it is counted as active; with
    the counter of active connections. *)
Record Phase := mkPhase {
  ph_state : tcpState; ph_deferred : bool; ph_snd : bool; ph_rcv : bool;
  ph_done : bool; ph_active : bool; ph_flow : FlowID; ph_count : option Z }.
#[export] Instance Phase_rebuild : Rebuild Phase := λ p,
  mkPhase (ph_state p) (ph_deferred p) (ph_snd p) (ph_rcv p) (ph_done p) (ph_active p)
    (ph_flow p) (ph_count p).

Definition deferred (c : TCPConn) : bool :=
  match c_rcv c with Some r => r_finReceived r | None => false end.
Definition phase_of (n : option Z) (c : TCPConn) : Phase :=
  mkPhase (c_state c) (deferred c) (has_snd c) (has_rcv c) (c_done c) (c_statsActive c) (c_flow c) n.
Definition active_count (w : World) : option Z := ActiveConns <$> w_stats w.
Definition phase (s : CS) : Phase := phase_of (active_count (cs_world s)) (cs_conn s).

(** Code that leaves the phase as it is. *)
Definition stays {A} (m : conn_m A) : Prop := ∀ e s s' a, m e s = Ret (s', a) → phase s' = phase s.

Lemma stays_ret {A} (a : A) : stays (mret a).
Proof. by intros e s s' a' [= <- _]. Qed.
Lemma stays_skip : stays skip.
Proof. apply stays_ret. Qed.
Lemma stays_bind {A B} (m : conn_m A) (f : A → conn_m B) :
  stays m → (∀ a, stays (f a)) → stays (m ≫= f).
Proof.
  intros Hm Hf e s s' b. unfold mbind, conn_bind. destruct (m e s) as [[s1 a]| |] eqn:E; try done.
  intros E'. rewrite (Hf _ _ _ _ _ E'). by eapply Hm.
Qed.
Lemma stays_getc : stays getc.
Proof. by intros e s s' a [= <- _]. Qed.
Lemma stays_asks {A} (f : Env → A) : stays (asks f).
Proof. by intros e s s' a [= <- _]. Qed.
Lemma stays_lift {A} (m : outcome A) : stays (lift m).
Proof. intros e s s' a. unfold lift. destruct m; try done. by intros [= <- _]. Qed.
Lemma stays_tick {A} (o : Env → nat → A) : stays (tick o).
Proof. by intros e s s' a [= <- _]. Qed.
Lemma stays_count g : (∀ st, ActiveConns (g st) = ActiveConns st) → stays (count_ g).
Proof.
  intros Hg e s s' a [= <- _]. unfold phase, active_count. cbn. f_equal.
  destruct (w_stats _) as [st|]; [|done]. cbn. by rewrite Hg.
Qed.
Lemma stays_send p : stays (send_ p).
Proof. by intros e s s' a [= <- _]. Qed.
Lemma stays_setc f : (∀ n c, phase_of n (f c) = phase_of n c) → stays (setc f).
Proof. intros Hf e s s' a [= <- _]. apply Hf. Qed.
Lemma stays_when b m : stays m → stays (when_ b m).
Proof. intros. unfold when_. destruct b; [done|apply stays_skip]. Qed.
Lemma stays_get_snd : stays get_snd.
Proof. apply stays_bind; [apply stays_getc|]. intros c. destruct (c_snd c); [apply stays_ret|apply stays_lift]. Qed.
Lemma stays_get_rcv : stays get_rcv.
Proof. apply stays_bind; [apply stays_getc|]. intros c. destruct (c_rcv c); [apply stays_ret|apply stays_lift]. Qed.
Lemma stays_set_snd f : stays (set_snd f).
Proof.
  intros e s s' a E. unfold set_snd, get_snd, mbind, conn_bind, getc in E.
  destruct (c_snd (cs_conn s)) as [x|] eqn:Ex; [|done]. injection E as <- _.
  unfold phase, phase_of, has_snd. cbn. by rewrite Ex.
Qed.
Lemma stays_set_rcv f : (∀ r, r_finReceived (f r) = r_finReceived r) → stays (set_rcv f).
Proof.
  intros Hf e s s' a E. unfold set_rcv, get_rcv, mbind, conn_bind, getc in E.
  destruct (c_rcv (cs_conn s)) as [r|] eqn:Er; [|done]. injection E as <- _.
  unfold phase, phase_of, deferred, has_rcv. cbn. by rewrite Er, Hf.
Qed.
Lemma stays_readBuf {A} (f : ringBuffer → outcome (ringBuffer * A)) : stays (with_readBuf f).
Proof.
  apply stays_bind; [apply stays_getc|]. intros c. apply stays_bind; [apply stays_lift|].
  intros [rb a]. apply stays_bind; [by apply stays_setc|]. intros _. apply stays_ret.
Qed.
Lemma stays_writeBuf {A} (f : ringBuffer → outcome (ringBuffer * A)) : stays (with_writeBuf f).
Proof.
  apply stays_bind; [apply stays_getc|]. intros c. apply stays_bind; [apply stays_lift|].
  intros [rb a]. apply stays_bind; [by apply stays_setc|]. intros _. apply stays_ret.
Qed.

Create HintDb stays.
#[export] Hint Resolve stays_ret stays_skip stays_getc stays_asks stays_lift stays_tick stays_send stays_get_snd stays_get_rcv stays_set_snd stays_readBuf stays_writeBuf : stays.

(** Follow the structure of the code; what it calls is in the database. *)
Ltac stay :=
  repeat first
    [ solve [auto 2 with stays]
    | match goal with
      | |- stays (if ?b then _ else _) => destruct b
      | |- stays (match ?x with _ => _ end) => destruct x
      | |- stays (let _ := _ in _) => cbv zeta
      | |- stays (set_rcv _) => apply stays_set_rcv; intros ?
      | |- stays (setc _) => apply stays_setc; intros ? ?
      | |- stays (count_ _) => apply stays_count; intros ?
      end
    | apply stays_when
    | apply stays_bind; [|intros ?]
    | progress cbv beta
    | solve [repeat case_match; done] ].

Lemma stays_time_now : stays time_now.
Proof. unfold time_now. stay. Qed.
#[export] Hint Resolve stays_time_now : stays.
Lemma stays_handler_now : stays handler_now.
Proof. unfold handler_now. stay. Qed.
#[export] Hint Resolve stays_handler_now : stays.
Lemma stays_encode_ts b : stays (encode_ts b).
Proof. unfold encode_ts. stay. Qed.
Lemma stays_updateTSLastAckSent : stays updateTSLastAckSent.
Proof. unfold updateTSLastAckSent. stay. Qed.
Lemma stays_newPacket p f b o n : stays (newPacket p f b o n).
Proof. unfold newPacket. stay. Qed.
Lemma stays_countSegmentOut : stays countSegmentOut.
Proof. unfold countSegmentOut. stay. Qed.
Lemma stays_countPayloadOut n : stays (countPayloadOut n).
Proof. unfold countPayloadOut. stay. Qed.
Lemma stays_send_packet pb : stays (send_packet pb).
Proof. unfold send_packet. stay. Qed.
#[export] Hint Resolve stays_encode_ts stays_updateTSLastAckSent stays_newPacket
  stays_countSegmentOut stays_countPayloadOut stays_send_packet : stays.
Lemma run_bind_inv {A B} (m : conn_m A) (f : A → conn_m B) e s s' b :
  (m ≫= f) e s = Ret (s', b) → ∃ s1 a, m e s = Ret (s1, a) ∧ f a e s1 = Ret (s', b).
Proof. unfold mbind, conn_bind. destruct (m e s) as [[s1 a]| |]; naive_solver. Qed.

(** [encode_sack] stores the receiver of the connection it is given. *)
Lemma encode_sack_phase c o e s s' a :
  c_rcv c = c_rcv (cs_conn s) → encode_sack c o e s = Ret (s', a) → phase s' = phase s.
Proof.
  intros Ec. unfold encode_sack. destruct (c_rcv c) as [r|] eqn:Er; [|apply stays_ret].
  destruct (c_sackPermitted c); [|apply stays_ret].
  destruct (sackBlocks (c_tsEnabled c) r) as [r' blocks] eqn:Es.
  assert (r_finReceived r' = r_finReceived r) as Hf.
  { replace r' with (sackBlocks (c_tsEnabled c) r).1 by by rewrite Es.
    unfold sackBlocks. repeat case_match; simplify_eq; done. }
  intros (s1 & [] & E1 & E2)%run_bind_inv. injection E1 as <-.
  transitivity (phase (mkCS ((cs_conn s) <| c_rcv := Some r' |>) (cs_world s))).
  - destruct (_ >? 0); [by eapply stays_lift|by eapply stays_ret].
  - unfold phase, phase_of, deferred, has_rcv. cbn. by rewrite <- Ec, Hf.
Qed.

Lemma encode_ts_conn o e s s' a : encode_ts o e s = Ret (s', a) → cs_conn s' = cs_conn s.
Proof.
  unfold encode_ts. rewrite run_getc. destruct (c_tsEnabled _); [|by intros [= <- _]].
  unfold handler_now, time_now. crun. unfold lift. destruct (encode_opt _ _); try done. by intros [= <- _].
Qed.

Lemma stays_sendACK : stays sendACK.
Proof.
  intros e s s' a E. unfold sendACK in E. rewrite run_getc in E.
  apply run_bind_inv in E as (s1 & w & E1 & E).
  assert (s1 = s) as -> by (unfold lift, mret, conn_ret in E1; repeat case_match; by simplify_eq).
  apply run_bind_inv in E as (s2 & o & E2 & E). apply run_bind_inv in E as (s3 & o' & E3 & E).
  rewrite <- (stays_encode_ts _ _ _ _ _ E2).
  apply encode_sack_phase in E3; [|by rewrite (encode_ts_conn _ _ _ _ _ E2)]. rewrite <- E3.
  match type of E with ?m e s3 = _ => assert (stays m) as Hst; [stay|by eapply Hst] end.
Qed.
#[export] Hint Resolve stays_sendACK : stays.

Lemma stays_sendSYNACK : stays sendSYNACK.
Proof. unfold sendSYNACK. stay. Qed.
Lemma stays_sendData d q : stays (sendData d q).
Proof. unfold sendData. stay. Qed.
Lemma stays_sendDataGSO d n q : stays (sendDataGSO d n q).
Proof. unfold sendDataGSO. stay. Qed.
Lemma stays_sendFINSegment q : stays (sendFINSegment q).
Proof. unfold sendFINSegment. stay. Qed.
Lemma stays_sendRSTSegment q : stays (sendRSTSegment q).
Proof. unfold sendRSTSegment. stay. Qed.
Lemma stays_sendKeepaliveProbe : stays sendKeepaliveProbe.
Proof. unfold sendKeepaliveProbe. stay. Qed.
#[export] Hint Resolve stays_sendSYNACK stays_sendData stays_sendDataGSO stays_sendFINSegment
  stays_sendRSTSegment stays_sendKeepaliveProbe : stays.

(** ** The receiver *)
Lemma stays_autoTuneCheck : stays autoTuneCheck.
Proof. unfold autoTuneCheck, grow_readBuf. stay. Qed.
#[export] Hint Resolve stays_autoTuneCheck : stays.
Lemma stays_autoTuneAccumulate n : stays (autoTuneAccumulate n).
Proof. unfold autoTuneAccumulate. stay. Qed.
#[export] Hint Resolve stays_autoTuneAccumulate : stays.
Lemma stays_deliver d : stays (deliver d).
Proof. unfold deliver. stay. Qed.
Lemma stays_countPayloadIn n : stays (countPayloadIn n).
Proof. unfold countPayloadIn. stay. Qed.
Lemma stays_cancelDelayedACK : stays cancelDelayedACK.
Proof. unfold cancelDelayedACK. stay. Qed.
Lemma stays_close_readBuf : stays close_readBuf.
Proof. unfold close_readBuf. stay. Qed.
Lemma stays_close_writeBuf : stays close_writeBuf.
Proof. unfold close_writeBuf. stay. Qed.
#[export] Hint Resolve stays_deliver stays_countPayloadIn stays_cancelDelayedACK
  stays_close_readBuf stays_close_writeBuf : stays.
Lemma stays_drainOOO fuel : stays (drainOOO fuel).
Proof. induction fuel; cbn [drainOOO]; stay. Qed.
#[export] Hint Resolve stays_drainOOO : stays.

(** ** The sender *)
Lemma stays_append_unacked seg : stays (append_unacked seg).
Proof. unfold append_unacked. stay. Qed.
#[export] Hint Resolve stays_append_unacked : stays.
Lemma stays_recordSent q r : stays (recordSent q r).
Proof. unfold recordSent. stay. Qed.
Lemma stays_recordSentFIN q : stays (recordSentFIN q).
Proof. unfold recordSentFIN. stay. Qed.
Lemma stays_recordGSOLoop fuel q d m now : stays (recordGSOLoop fuel q d m now).
Proof. revert q d. induction fuel; intros; cbn [recordGSOLoop]; stay. Qed.
#[export] Hint Resolve stays_recordSent stays_recordSentFIN stays_recordGSOLoop : stays.
Lemma stays_recordSentGSO q d m : stays (recordSentGSO q d m).
Proof. unfold recordSentGSO. stay. Qed.
Lemma stays_read_into b lo hi : stays (read_into b lo hi).
Proof. unfold read_into. stay. Qed.
#[export] Hint Resolve stays_recordSentGSO stays_read_into : stays.
Lemma stays_sendSegment n : stays (sendSegment n).
Proof. unfold sendSegment. stay. Qed.
Lemma stays_sendGSO m w a : stays (sendGSO m w a).
Proof. unfold sendGSO. stay. Qed.
#[export] Hint Resolve stays_sendSegment stays_sendGSO : stays.
Lemma stays_sendLoop fuel : stays (sendLoop fuel).
Proof. induction fuel; cbn [sendLoop]; stay. Qed.
#[export] Hint Resolve stays_sendLoop : stays.
Lemma stays_sendPending : stays sendPending.
Proof. unfold sendPending. stay. Qed.
Lemma stays_removeLoop l ack b : stays (removeLoop l ack b).
Proof. revert b. induction l; intros; cbn [removeLoop]; stay. Qed.
#[export] Hint Resolve stays_sendPending stays_removeLoop : stays.
Lemma stays_removeAcked ack : stays (removeAcked ack).
Proof. unfold removeAcked. stay. Qed.
Lemma stays_mark_retransmitted i seg : stays (mark_retransmitted i seg).
Proof. unfold mark_retransmitted. stay. Qed.
#[export] Hint Resolve stays_removeAcked stays_mark_retransmitted : stays.
Lemma stays_resend i seg : stays (resend i seg).
Proof. unfold resend. stay. Qed.
#[export] Hint Resolve stays_resend : stays.
Lemma stays_retransmitOldest : stays retransmitOldest.
Proof. unfold retransmitOldest. stay. Qed.
Lemma stays_retransmitFirstUnSACKed : stays retransmitFirstUnSACKed.
Proof. unfold retransmitFirstUnSACKed. stay. Qed.
Lemma stays_sackLossLoop n i : stays (sackLossLoop n i).
Proof. revert i. induction n; intros; cbn [sackLossLoop]; stay. Qed.
Lemma stays_limitedTransmit : stays limitedTransmit.
Proof. unfold limitedTransmit. stay. Qed.
#[export] Hint Resolve stays_retransmitOldest stays_retransmitFirstUnSACKed stays_sackLossLoop
  stays_limitedTransmit : stays.
Lemma stays_sackLossDetection : stays sackLossDetection.
Proof. unfold sackLossDetection. stay. Qed.
Lemma stays_handleDupACK : stays handleDupACK.
Proof. unfold handleDupACK. stay. Qed.
#[export] Hint Resolve stays_sackLossDetection stays_handleDupACK : stays.
Lemma stays_handleACK ack : stays (handleACK ack).
Proof. unfold handleACK. stay. Qed.
#[export] Hint Resolve stays_handleACK : stays.

(** ** The connection *)
Lemma stays_updateSnapshot : stays updateSnapshot.
Proof. unfold updateSnapshot. stay. Qed.
Lemma stays_sendFIN : stays sendFIN.
Proof. unfold sendFIN. stay. Qed.
Lemma stays_checkZeroWindow : stays checkZeroWindow.
Proof. unfold checkZeroWindow. stay. Qed.
Lemma stays_cancelZeroWindowProbe : stays cancelZeroWindowProbe.
Proof. unfold cancelZeroWindowProbe. stay. Qed.
#[export] Hint Resolve stays_updateSnapshot stays_sendFIN stays_checkZeroWindow
  stays_cancelZeroWindowProbe : stays.
Lemma stays_sendZeroWindowProbe : stays sendZeroWindowProbe.
Proof. unfold sendZeroWindowProbe. stay. Qed.
Lemma stays_resetKeepalive : stays resetKeepalive.
Proof. unfold resetKeepalive. stay. Qed.
Lemma stays_measureRTTM seg : stays (measureRTTM seg).
Proof. unfold measureRTTM. stay. Qed.
Lemma stays_set_peer_window seg : stays (set_peer_window seg).
Proof. unfold set_peer_window. stay. Qed.
Lemma stays_offer_accept : stays offer_accept.
Proof. intros e s s' a. unfold offer_accept. repeat case_match; intros [= <- _]; done. Qed.
Lemma stays_arm_rto : stays arm_rto.
Proof. unfold arm_rto. stay. Qed.
#[export] Hint Resolve stays_sendZeroWindowProbe stays_resetKeepalive stays_measureRTTM
  stays_set_peer_window stays_offer_accept stays_arm_rto : stays.
Lemma stays_ackEstablished seg : stays (ackEstablished seg).
Proof. unfold ackEstablished. stay. Qed.
Lemma stays_ackData seg : stays (ackData seg).
Proof. unfold ackData. stay. Qed.
#[export] Hint Resolve stays_ackEstablished stays_ackData : stays.


(** * Moves between phases

    What a run of [m] from phase [p] may end in. *)
Definition from {A} (p : Phase) (m : conn_m A) (Q : A → Phase → Prop) : Prop :=
  ∀ e s s' a, phase s = p → m e s = Ret (s', a) → Q a (phase s').

Lemma from_stays {A} p (m : conn_m A) (Q : A → Phase → Prop) :
  stays m → (∀ a, Q a p) → from p m Q.
Proof. intros Hm HQ e s s' a <- E. by rewrite (Hm _ _ _ _ E). Qed.
Lemma from_bind {A B} p (m : conn_m A) (f : A → conn_m B) R Q :
  from p m R → (∀ a q, R a q → from q (f a) Q) → from p (m ≫= f) Q.
Proof. intros Hm Hf e s s' b Hp (s1 & a & E1 & E2)%run_bind_inv. eapply Hf; [by eapply Hm| |]; done. Qed.
Lemma from_then {A B} p (m : conn_m A) (f : A → conn_m B) Q :
  stays m → (∀ a, from p (f a) Q) → from p (m ≫= f) Q.
Proof. intros Hm Hf. apply from_bind with (R := λ _ q, q = p); [by apply from_stays|]. by intros a q ->. Qed.
Lemma from_getc {A} p (f : TCPConn → conn_m A) Q :
  (∀ c n, p = phase_of n c → from p (f c) Q) → from p (getc ≫= f) Q.
Proof.
  intros Hf. apply from_bind with (R := λ c q, q = p ∧ ∃ n, p = phase_of n c).
  - intros e s s' c <- [= <- <-]. eauto.
  - intros c q (-> & n & E). by eapply Hf.
Qed.
Lemma from_get_rcv {A} p (f : receiver → conn_m A) Q :
  (∀ r, ph_rcv p = true → ph_deferred p = r_finReceived r → from p (f r) Q) →
  from p (get_rcv ≫= f) Q.
Proof.
  intros Hf. apply from_bind with
    (R := λ r q, q = p ∧ ph_rcv p = true ∧ ph_deferred p = r_finReceived r).
  - intros e s s' r <- E. unfold get_rcv, mbind, conn_bind, getc in E.
    destruct (c_rcv (cs_conn s)) as [r0|] eqn:Er; [|done]. injection E as <- <-.
    unfold phase, deferred, has_rcv. cbn. unfold deferred, has_rcv. by rewrite Er.
  - intros r q (-> & ? & ?). by apply Hf.
Qed.
Lemma from_set_rcv p f b (Q : unit → Phase → Prop) :
  (∀ r, r_finReceived r = ph_deferred p → r_finReceived (f r) = b) →
  Q tt (p <| ph_deferred := b |>) → from p (set_rcv f) Q.
Proof.
  intros Hf HQ e s s' [] <- E. unfold set_rcv, get_rcv, mbind, conn_bind, getc in E.
  destruct (c_rcv (cs_conn s)) as [r|] eqn:Er; [|done]. injection E as <-.
  assert (r_finReceived (f r) = b) as Hb.
  { apply Hf. unfold phase, phase_of, deferred. cbn. by rewrite Er. }
  revert HQ. unfold phase, phase_of, deferred, has_rcv. cbn. by rewrite Er, Hb.
Qed.
Lemma from_set_state p st (Q : unit → Phase → Prop) :
  Q tt (p <| ph_state := st |>) → from p (set_state st) Q.
Proof. intros HQ e s s' [] <- [= <-]. done. Qed.
Lemma from_state_then {A} p st (f : unit → conn_m A) Q :
  from (p <| ph_state := st |>) (f tt) Q → from p (set_state st ≫= f) Q.
Proof.
  intros Hf. apply from_bind with (R := λ _ q, q = p <| ph_state := st |>); [by apply from_set_state|].
  by intros [] q ->.
Qed.
Lemma from_when p b m (Q : unit → Phase → Prop) :
  (b = true → from p m Q) → Q tt p → from p (when_ b m) Q.
Proof. intros Hm HQ. unfold when_. destruct b; [auto|]. apply from_stays; [stay|]. by intros []. Qed.
Lemma from_weaken {A} p (m : conn_m A) (Q R : A → Phase → Prop) :
  from p m R → (∀ a q, R a q → Q a q) → from p m Q.
Proof. intros Hm HQ e s s' a Hp E. apply HQ. by eapply Hm. Qed.

Definition closed_phase (p : Phase) : Phase :=
  if ph_done p then p else p <| ph_state := stateClosed |> <| ph_done := true |>.
Lemma from_closeDone p (Q : unit → Phase → Prop) : Q tt (closed_phase p) → from p closeDone Q.
Proof.
  intros HQ e s s' [] <- [= <-]. revert HQ. unfold closed_phase, phase, phase_of. cbn.
  by destruct (c_done _) eqn:E; cbn; rewrite ?E.
Qed.
Lemma from_handleRST p (Q : unit → Phase → Prop) :
  Q tt (p <| ph_state := stateClosed |> <| ph_done := true |>) → from p handleRST Q.
Proof.
  intros HQ. unfold handleRST. apply from_then; [stay|intros _].
  apply from_state_then, from_closeDone. unfold closed_phase. cbn. destruct p as [? ? ? ? [] ? ? ?]; done.
Qed.

(** ** The peer's FIN *)
Lemma from_processFIN p (Q : unit → Phase → Prop) :
  Q tt (p <| ph_state := stateCloseWait |>) → from p processFIN Q.
Proof.
  intros HQ. unfold processFIN. do 3 (apply from_then; [stay|intros _]).
  apply from_then; [stay|intros c]. apply from_then; [stay|intros _]. by apply from_set_state.
Qed.
Lemma from_processFIN_then {A} p (f : unit → conn_m A) Q :
  from (p <| ph_state := stateCloseWait |>) (f tt) Q → from p (processFIN ≫= f) Q.
Proof.
  intros Hf. apply from_bind with (R := λ _ q, q = p <| ph_state := stateCloseWait |>);
    [by apply from_processFIN|]. by intros [] q ->.
Qed.
Lemma from_set_rcv_then {A} p g b (f : unit → conn_m A) Q :
  (∀ r, r_finReceived r = ph_deferred p → r_finReceived (g r) = b) →
  from (p <| ph_deferred := b |>) (f tt) Q → from p (set_rcv g ≫= f) Q.
Proof.
  intros Hg Hf. apply from_bind with (R := λ _ q, q = p <| ph_deferred := b |>);
    [by apply (from_set_rcv _ _ b)|]. by intros [] q ->.
Qed.

(** Data lets a deferred FIN through, and then the connection is in
    CLOSE_WAIT, whatever its state was. *)
Definition late_fin (p : Phase) : Phase := p <| ph_state := stateCloseWait |> <| ph_deferred := false |>.
Definition drained (p q : Phase) : Prop := q = p ∨ ph_deferred p = true ∧ q = late_fin p.

Lemma from_deliverOOO p (Q : unit → Phase → Prop) :
  (∀ q, drained p q → Q tt q) → from p deliverOOO Q.
Proof.
  intros HQ. unfold deliverOOO. do 2 (apply from_then; [stay|intros ?]).
  apply from_get_rcv. intros r _ Hd. apply from_when; [|by apply HQ; left]. intros [Hf _]%andb_prop.
  apply (from_set_rcv_then _ _ false); [done|]. apply from_processFIN. apply HQ. right. split; [congruence|done].
Qed.

Lemma insertOOO_finReceived r seq data r' :
  insertOOO r seq data = Ret r' → r_finReceived r' = r_finReceived r.
Proof.
  unfold insertOOO. case_match; [by intros [= <-]|]. unfold mbind, outcome_bind.
  repeat case_match; try done. by intros [= <-].
Qed.

Lemma from_handleData p seq data (Q : unit → Phase → Prop) :
  (∀ q, drained p q → Q tt q) → from p (handleData seq data) Q.
Proof.
  intros HQ. assert (∀ a, Q a p) as Hp by by intros []; apply HQ; left.
  assert (∀ m, stays m → from p m Q) as Hst by by intros m Hm; apply from_stays.
  unfold handleData. case_match; [apply Hst; stay|].
  apply from_then; [stay|intros c]. apply from_get_rcv. intros r _ Hd.
  do 2 (apply from_then; [stay|intros ?]). case_match; [|apply Hst; stay..].
  case_match; [apply Hst; stay|]. case_match.
  { do 3 (apply from_then; [stay|intros ?]). apply from_when; [|done]. intros _.
    by apply from_deliverOOO. }
  case_match; [|apply Hst; stay].
  apply from_bind with (R := λ r' q, q = p ∧ r_finReceived r' = r_finReceived r).
  { intros e s s' r' <- E. unfold lift in E. destruct (insertOOO r seq0 data0) eqn:Ei; try done.
    injection E as <- <-. by rewrite (insertOOO_finReceived _ _ _ _ Ei). }
  intros r' q [-> Hr]. apply from_set_rcv with (b := ph_deferred p); [intros; congruence|].
  by destruct p.
Qed.
Lemma from_handleData_then {A} p seq data (f : unit → conn_m A) Q :
  (∀ q, drained p q → from q (f tt) Q) → from p (handleData seq data ≫= f) Q.
Proof.
  intros Hf. apply from_bind with (R := λ _, drained p); [by apply from_handleData|]. by intros [].
Qed.
Lemma from_handleData_when {A} p b seq data (f : unit → conn_m A) Q :
  (∀ q, drained p q → from q (f tt) Q) → from p (when_ b (handleData seq data) ≫= f) Q.
Proof. intros Hf. destruct b; [by apply from_handleData_then|]. apply Hf. by left. Qed.

(** * The state machine

    The transitions of RFC 793, with the deferred FIN: it is noted in
    ESTABLISHED (and once more in CLOSE_WAIT), and the data it waits for may
    arrive in ESTABLISHED or, after our own FIN, in a FIN_WAIT state.  The last
    two lines are not in RFC 793. *)
Inductive edge : tcpState * bool → tcpState * bool → Prop :=
| edge_opens : edge (stateSynRcvd, false) (stateEstablished, false)
| edge_defers d : edge (stateEstablished, d) (stateEstablished, true)
| edge_defers_again d : edge (stateCloseWait, d) (stateCloseWait, true)
| edge_peer_closes d d' : (d' = true → d = true) → edge (stateEstablished, d) (stateCloseWait, d')
| edge_closes d : edge (stateEstablished, d) (stateFinWait1, d)
| edge_closes_last d : edge (stateCloseWait, d) (stateLastAck, d)
| edge_fin_acked d d' : (d' = true → d = true) → edge (stateFinWait1, d) (stateFinWait2, d')
| edge_both_close d d' : (d' = true → d = true) → edge (stateFinWait1, d) (stateClosing, d')
| edge_waits1 d d' : (d' = true → d = true) → edge (stateFinWait1, d) (stateTimeWait, d')
| edge_waits2 d d' : (d' = true → d = true) → edge (stateFinWait2, d) (stateTimeWait, d')
| edge_waits_closing d : edge (stateClosing, d) (stateTimeWait, d)
| edge_dies st d : edge (st, d) (stateClosed, d)
| edge_late1 : edge (stateFinWait1, true) (stateCloseWait, false)
| edge_late2 : edge (stateFinWait2, true) (stateCloseWait, false).

(** The sender and the receiver exist from ESTABLISHED on, a connection is
    done exactly when it is CLOSED, and only an accepted one is counted. *)
Definition coherent (p : Phase) : bool :=
  match ph_state p with
  | stateSynRcvd => negb (ph_snd p) && negb (ph_rcv p) && negb (ph_done p) && negb (ph_active p)
                    && negb (ph_deferred p)
  | stateClosed => ph_done p
  | _ => ph_snd p && ph_rcv p && negb (ph_done p)
  end.

(** The counter of active connections without this one. *)
Definition others (p : Phase) : option Z := (λ n, n - Z.b2z (ph_active p)) <$> ph_count p.
Definition key (p : Phase) : tcpState * bool := (ph_state p, ph_deferred p).

Record good (p q : Phase) : Prop := {
  good_edges : rtc edge (key p) (key q);
  good_coherent : coherent q = true;
  good_flow : ph_flow q = ph_flow p;
  good_others : others q = others p }.

Lemma good_refl p : coherent p = true → good p p.
Proof. by split. Qed.
Lemma good_trans p q r : good p q → good q r → good p r.
Proof. intros [? ? ? ?] [? ? ? ?]. split; [by etrans|done|congruence|congruence]. Qed.

(** Code that moves a connection along the edges, and keeps it coherent. *)
Definition keeps {A} (m : conn_m A) : Prop :=
  ∀ p, coherent p = true → from p m (λ _, good p).

Lemma keeps_stays {A} (m : conn_m A) : stays m → keeps m.
Proof. intros Hm p Hp. apply from_stays; [done|]. intros _. by apply good_refl. Qed.
Lemma keeps_bind {A B} (m : conn_m A) (f : A → conn_m B) :
  keeps m → (∀ a, keeps (f a)) → keeps (m ≫= f).
Proof.
  intros Hm Hf p Hp. eapply from_bind; [by apply Hm|]. intros a q Hq.
  eapply from_weaken; [eapply Hf, good_coherent, Hq|]. intros b r Hr. exact (good_trans _ _ _ Hq Hr).
Qed.
Lemma keeps_then {A B} (m : conn_m A) (f : A → conn_m B) :
  stays m → (∀ a, keeps (f a)) → keeps (m ≫= f).
Proof. intros Hm Hf. apply keeps_bind; [|done]. by apply keeps_stays. Qed.
Lemma keeps_when b m : keeps m → keeps (when_ b m).
Proof. intros Hm. unfold when_. destruct b; [done|]. apply keeps_stays. stay. Qed.
Lemma keeps_getc {A} (f : TCPConn → conn_m A) :
  (∀ c n p, p = phase_of n c → coherent p = true → from p (f c) (λ _, good p)) → keeps (getc ≫= f).
Proof. intros Hf p Hp. apply from_getc. intros c n E. by eapply Hf. Qed.

Create HintDb edges.
#[export] Hint Constructors edge : edges.
#[export] Hint Resolve rtc_once rtc_refl : edges.

(** A move between two given phases. *)
Ltac along := split; cbn in *; [eauto 3 with edges | done..].

Lemma keeps_closeDone : keeps closeDone.
Proof.
  intros p Hp. apply from_closeDone. unfold closed_phase.
  destruct (ph_done p) eqn:E; [by apply good_refl|]. destruct p. along.
Qed.
Lemma keeps_handleRST : keeps handleRST.
Proof. intros p Hp. apply from_handleRST. destruct p. along. Qed.

Lemma keeps_finalizeFIN : keeps finalizeFIN.
Proof.
  apply keeps_then; [stay|intros _]. apply keeps_getc. intros c n p Ep Hp.
  destruct (c_state c) eqn:Es; try (by apply from_stays; [stay|intros _; apply good_refl]).
  all: apply from_then; [stay|intros _]; apply from_set_state; subst p;
    unfold phase_of in *; rewrite Es in *; along.
Qed.

Lemma keeps_handleClose : keeps handleClose.
Proof.
  unfold handleClose. apply keeps_then; [stay|intros c].
  destruct (c_state c); try solve [apply keeps_stays; stay].
  all: do 3 (apply keeps_then; [stay|intros ?]);
    (case_match; [apply keeps_stays; stay|apply keeps_finalizeFIN]).
Qed.

Lemma keeps_forceClose : keeps forceCloseFromRun.
Proof.
  unfold forceCloseFromRun. do 4 (apply keeps_then; [stay|intros ?]). apply keeps_closeDone.
Qed.

Lemma keeps_handleRTO : keeps handleRTO.
Proof.
  unfold handleRTO, abort. apply keeps_then; [stay|intros ?]. case_match; [apply keeps_stays; stay|].
  do 3 (apply keeps_then; [stay|intros ?]). case_match; [|apply keeps_stays; stay].
  do 3 (apply keeps_then; [stay|intros ?]). apply keeps_closeDone.
Qed.

(** ** The handlers of the states *)
Lemma from_enterTimeWait p (Q : unit → Phase → Prop) :
  Q tt (p <| ph_state := stateTimeWait |>) → from p enterTimeWait Q.
Proof.
  intros HQ. unfold enterTimeWait. apply from_state_then. apply from_stays; [stay|]. by intros [].
Qed.

Lemma from_newEstablished p seg (Q : unit → Phase → Prop) :
  Q tt (p <| ph_snd := true |> <| ph_rcv := true |> <| ph_deferred := false |>) →
  from p (newEstablished seg) Q.
Proof.
  intros HQ. unfold newEstablished. do 2 (apply from_then; [stay|intros ?]).
  apply from_bind with (R := λ _ q,
    q = p <| ph_snd := true |> <| ph_rcv := true |> <| ph_deferred := false |>).
  - by intros e s s' [] <- [= <-].
  - intros [] q ->. apply from_stays; [stay|]. by intros [].
Qed.

(** An accepted connection is counted, when there are counters. *)
Definition counted (b : bool) (p : Phase) : Phase :=
  p <| ph_active := ph_active p || b |> <| ph_count := (λ k, k + Z.b2z b) <$> ph_count p |>.

Lemma from_count_accepted p : from p countAccepted (λ _ q, ∃ b, q = counted b p).
Proof.
  intros e s s' [] <- E. unfold countAccepted in E. destruct (w_stats (cs_world s)) as [st|] eqn:Ew.
  - rewrite run_count in E. injection E as <-. exists true. unfold phase, counted, active_count, phase_of.
    cbn. rewrite Ew. cbn. by rewrite orb_true_r.
  - injection E as <-. exists false. unfold phase, counted, active_count, phase_of.
    cbn. rewrite Ew. cbn. by rewrite orb_false_r.
Qed.

Lemma handleSynRcvd_keeps p seg :
  coherent p = true → ph_state p = stateSynRcvd → from p (handleSynRcvd seg) (λ _, good p).
Proof.
  intros Hp Es. assert (∀ m, stays m → from p m (λ _ : unit, good p)) as Hst.
  { intros m Hm. apply from_stays; [done|]. intros _. by apply good_refl. }
  unfold handleSynRcvd. apply from_then; [stay|intros c].
  case_match; [|case_match; apply Hst; stay]. case_match; [apply Hst; stay|].
  case_match; [apply from_then; [stay|intros _]; by apply keeps_handleRST|].
  apply from_state_then. eapply from_bind; [apply from_count_accepted|]. intros [] ? [b ->].
  apply from_then; [stay|intros _].
  destruct p as [st d sn rc dn ac fl n]. cbn in *. subst st.
  destruct sn, rc, dn, ac, d; try done. cbn [counted ph_active ph_count orb].
  apply from_bind with (R := λ _ q, q = mkPhase stateEstablished false true true false b fl
    ((λ k, k + Z.b2z b) <$> n)); [by apply from_newEstablished|]. intros [] q ->.
  apply from_then; [stay|intros _].
  apply from_bind with (R := λ _ q, q = mkPhase stateEstablished false true true false b fl
    ((λ k, k + Z.b2z b) <$> n)).
  { apply from_when; [|done]. intros _. apply from_handleData_then.
    intros q [->|[? ->]]; [|done]. by apply from_stays; [stay|]. }
  intros [] q ->. apply from_stays; [stay|]. intros _. split; cbn; [eauto 3 with edges|done..|].
  unfold others. cbn. destruct n; cbn; [|done]. f_equal. lia.
Qed.

Lemma handleEstablished_keeps p seg :
  coherent p = true → ph_state p = stateEstablished → from p (handleEstablished seg) (λ _, good p).
Proof.
  intros Hp Es. destruct p as [st d sn rc dn ac fl n]. cbn in *. subst st.
  unfold handleEstablished. do 3 (apply from_then; [stay|intros ?]).
  apply from_handleData_when. intros q Hq. apply from_then; [stay|intros c].
  assert (good (mkPhase stateEstablished d sn rc dn ac fl n) q) as Hgq.
  { destruct Hq as [->|[Hd ->]]; [by apply good_refl|]. unfold late_fin; cbn in Hd. along. }
  apply from_bind with (R := λ _, good (mkPhase stateEstablished d sn rc dn ac fl n));
    [|intros ? q' Hq'; by apply from_stays; [stay|]].
  repeat case_match; try (by apply from_stays; [stay|]).
  - apply from_processFIN_then, from_stays; [stay|]. intros _.
    destruct Hq as [->|[Hd ->]]; [|cbn in Hd; subst d]; unfold late_fin; along.
  - apply (from_set_rcv_then _ _ true); [done|]. apply from_stays; [stay|]. intros _.
    destruct Hq as [->|[Hd ->]]; [|cbn in Hd; subst d]; unfold late_fin; along.
Qed.

Lemma handleFinWait1_keeps p seg :
  coherent p = true → ph_state p = stateFinWait1 → from p (handleFinWait1 seg) (λ _, good p).
Proof.
  intros Hp Es. destruct p as [st d sn rc dn ac fl n]. cbn in *. subst st.
  unfold handleFinWait1. do 3 (apply from_then; [stay|intros ?]).
  apply from_handleData_when. intros q Hq. apply from_then; [stay|intros c].
  case_match.
  - do 3 (apply from_then; [stay|intros ?]). apply from_then; [stay|intros ?].
    case_match; [apply from_enterTimeWait|apply from_set_state];
      (destruct Hq as [->|[Hd ->]]; [|cbn in Hd; subst d]; unfold late_fin; along).
  - apply from_then; [stay|intros ?]. apply from_when; [intros _|].
    + intros e s s' [] Eq [= <-].
      change (good (mkPhase stateFinWait1 d sn rc dn ac fl n) ((phase s) <| ph_state := stateFinWait2 |>)).
      rewrite Eq. destruct Hq as [->|[Hd ->]]; [|cbn in Hd; subst d]; unfold late_fin; along.
    + destruct Hq as [->|[Hd ->]]; [by apply good_refl|cbn in Hd; subst d]; unfold late_fin; along.
Qed.

Lemma handleFinWait2_keeps p seg :
  coherent p = true → ph_state p = stateFinWait2 → from p (handleFinWait2 seg) (λ _, good p).
Proof.
  intros Hp Es. destruct p as [st d sn rc dn ac fl n]. cbn in *. subst st.
  unfold handleFinWait2. do 2 (apply from_then; [stay|intros ?]).
  apply from_bind with (R := λ _, drained (mkPhase stateFinWait2 d sn rc dn ac fl n)).
  { apply from_when; [intros _|by left]. apply from_handleData_then. intros q Hq.
    by apply from_stays; [stay|]. }
  intros [] q Hq. case_match.
  - do 2 (apply from_then; [stay|intros ?]). apply from_enterTimeWait.
    destruct Hq as [->|[Hd ->]]; [|cbn in Hd; subst d]; unfold late_fin; along.
  - apply from_stays; [stay|]. intros _.
    destruct Hq as [->|[Hd ->]]; [by apply good_refl|cbn in Hd; subst d]; unfold late_fin; along.
Qed.

Lemma handleClosing_keeps p seg :
  coherent p = true → ph_state p = stateClosing → from p (handleClosing seg) (λ _, good p).
Proof.
  intros Hp Es. unfold handleClosing. do 2 (apply from_then; [stay|intros ?]). case_match.
  - apply from_enterTimeWait. destruct p as [st d sn rc dn ac fl n]. cbn in *. subst st. along.
  - apply from_stays; [stay|]. intros _. by apply good_refl.
Qed.

Lemma keeps_handleLastAck seg : keeps (handleLastAck seg).
Proof.
  unfold handleLastAck. apply keeps_then; [stay|intros ?]. apply keeps_when.
  apply keeps_then; [stay|intros ?]. apply keeps_when. apply keeps_then; [stay|intros ?].
  apply keeps_closeDone.
Qed.

Lemma keeps_dispatchState seg : keeps (dispatchState seg).
Proof.
  unfold dispatchState. apply keeps_getc. intros c n p Ep Hp.
  assert (ph_state p = c_state c) as Es by by subst p.
  destruct (c_state c).
  - apply keeps_stays; [stay|done].
  - by apply handleSynRcvd_keeps.
  - by apply handleEstablished_keeps.
  - by apply handleFinWait1_keeps.
  - by apply handleFinWait2_keeps.
  - unfold handleCloseWait. apply keeps_stays; [stay|done].
  - by apply keeps_handleLastAck.
  - unfold handleTimeWait. apply keeps_stays; [stay|done].
  - by apply handleClosing_keeps.
Qed.

Lemma keeps_handleSegment pb : keeps (handleSegment pb).
Proof.
  unfold handleSegment, validateRST. do 3 (apply keeps_then; [stay|intros ?]).
  case_match; [apply keeps_stays; stay|]. case_match.
  - apply keeps_then; [stay|intros ?]. case_match; [apply keeps_stays; stay|].
    apply keeps_then; [stay|intros [rcvNxt w]].
    case_match; [apply keeps_handleRST|apply keeps_stays; stay].
  - case_match; [apply keeps_stays; stay|]. apply keeps_then; [stay|intros ?].
    apply keeps_dispatchState.
Qed.

(** ** The run loop *)
Lemma keeps_after_segment : keeps after_segment.
Proof.
  unfold after_segment. do 2 (apply keeps_then; [stay|intros ?]).
  case_match; [|apply keeps_stays; stay]. apply keeps_then; [stay|intros ?]. apply keeps_when.
  do 3 (apply keeps_then; [stay|intros ?]). apply keeps_when, keeps_finalizeFIN.
Qed.

(** Leave the code around the moves behind. *)
Ltac keep :=
  repeat first
    [ solve [apply keeps_stays; stay]
    | apply keeps_closeDone | apply keeps_finalizeFIN | apply keeps_handleRTO
    | apply keeps_handleClose | apply keeps_forceClose | apply keeps_after_segment
    | apply keeps_handleSegment
    | apply keeps_when
    | apply keeps_bind; [|intros ?]
    | case_match ].

Lemma keeps_run_step ev : keeps (run_step ev).
Proof.
  destruct ev; cbn [run_step];
    unfold on_inbound, on_accept_room, on_rto, on_delayedACK, on_zeroWindow, on_keepalive,
      on_writeNotify, on_windowNotify, on_closeCh, on_forceClose, on_synRcvdTimeout,
      on_finWait2Timeout; keep.
Qed.

(** A connection whose loop has returned is not counted any more. *)
Lemma run_exit_count e s s' : run_exit e s = Ret (s', tt) → active_count (cs_world s') = others (phase s).
Proof.
  intros (s1 & [] & E1 & E2)%run_bind_inv. injection E1 as <-.
  rewrite run_getc, run_count in E2. injection E2 as <-.
  unfold active_count, others, phase, phase_of, active_count. cbn.
  destruct (w_stats (cs_world s)) as [st|]; [|done]. cbn. f_equal.
  destruct (c_done (cs_conn s)), (c_statsActive (cs_conn s)); cbn; lia.
Qed.
