(* ===== verification/TunChecksum.v ===== *)
(** [channel/tun/checksum.go]: the internet checksum in 64-bit words of the
    machine's own byte order, with the carries of [bits.Add64].

    Its result is the arithmetic of [Checksum.norm], on machines of either byte
    order, so it agrees with the plain loop of [header/checksum.go]. *)
From S2P Require Import Prelude.
From S2P Require Import Tcpip.
From S2P Require Import Checksum.

(** The byte order behind [binary.NativeEndian]. *)
Inductive endian := LittleEndian | BigEndian.

Fixpoint le_val (b : bytes) : Z := match b with [] => 0 | x :: b => x + 256 * le_val b end.
Definition be_val (b : bytes) : Z := le_val (reverse b).
Fixpoint le_bytes (n : nat) (v : Z) : bytes :=
  match n with O => [] | S n => u8 v :: le_bytes n (v / 256) end.

(** [binary.NativeEndian.Uint64] and the like. *)
Definition native_get (en : endian) (b : bytes) : Z :=
  match en with LittleEndian => le_val b | BigEndian => be_val b end.
(** [binary.NativeEndian.PutUint64(tmp, v)]. *)
Definition native_put64 (en : endian) (v : Z) : bytes :=
  match en with LittleEndian => le_bytes 8 v | BigEndian => reverse (le_bytes 8 v) end.

(** [bits.Add64] *)
Definition Add64 (x y carry : Z) : Z * Z := (u64 (x + y + carry), (x + y + carry) / 18446744073709551616).

(** A row of additions, each taking the carry of the one before. *)
Fixpoint addWords (ws : list Z) (ac carry : Z) : Z * Z :=
  match ws with
  | [] => (ac, carry)
  | w :: ws => let '(ac, carry) := Add64 ac w carry in addWords ws ac carry
  end.

(** The first [k] words of [size] bytes. *)
Fixpoint words (en : endian) (k size : nat) (b : bytes) : list Z :=
  match k with
  | O => []
  | S k => native_get en (take size b) :: words en k size (drop size b)
  end.

(** The body of each conditional: [k] words are added, [ac += carry], and [b]
    moves on. *)
Definition addBlock (en : endian) (k size : nat) (st : Z * bytes) : Z * bytes :=
  let '(ac, b) := st in
  let '(ac, carry) := addWords (words en k size b) ac 0 in
  (u64 (ac + carry), drop (k * size) b).

(** [if len(b) >= k * size] *)
Definition ifBlock (en : endian) (k size : nat) (st : Z * bytes) : Z * bytes :=
  if Z.of_nat (k * size) <=? zlen st.2 then addBlock en k size st else st.

(** [for len(b) >= 128]; a round takes 128 bytes off. *)
Fixpoint loop128 (fuel : nat) (en : endian) (st : Z * bytes) : Z * bytes :=
  match fuel with
  | O => st
  | S fuel => if 128 <=? zlen st.2 then loop128 fuel en (addBlock en 16 8 st) else st
  end.

(** [if len(b) == 1]: the last byte with a zero after it. *)
Definition lastByte (en : endian) (st : Z * bytes) : Z :=
  match st.2 with
  | [x] => let '(ac, carry) := Add64 st.1 (native_get en [x; 0]) 0 in u64 (ac + carry)
  | _ => st.1
  end.

Definition checksumNoFold (en : endian) (b : bytes) (initial : Z) : Z :=
  let ac := be_val (native_put64 en initial) in
  let st := loop128 (length b) en (ac, b) in
  let st := ifBlock en 8 8 st in
  let st := ifBlock en 4 8 st in
  let st := ifBlock en 2 8 st in
  let st := ifBlock en 1 8 st in
  let st := ifBlock en 1 4 st in
  let st := ifBlock en 1 2 st in
  be_val (native_put64 en (lastByte en st)).

Definition fold16 (ac : Z) : Z := u64 (Z.shiftr ac 16 + Z.land ac 65535).

Definition checksum (en : endian) (b : bytes) (initial : Z) : Z :=
  u16 (fold16 (fold16 (fold16 (fold16 (checksumNoFold en b initial))))).

Definition pseudoHeaderChecksumNoFold (en : endian) (protocol : Z) (srcAddr dstAddr : bytes)
    (totalLen : Z) : Z :=
  let sum := checksumNoFold en srcAddr 0 in
  let sum := checksumNoFold en dstAddr sum in
  let sum := checksumNoFold en [0; protocol] sum in
  checksumNoFold en [u8 (totalLen / 256); u8 totalLen] sum.

(** * The arithmetic behind it *)
Definition is_u64 (x : Z) : Prop := 0 ≤ x < 18446744073709551616.

(** [norm] forgets multiples of 65535, but keeps 0 apart. *)
Lemma norm_congr a b : 0 < a → 0 < b → (∃ k, a = b + k * 65535) → norm a = norm b.
Proof.
  intros Ha Hb [k ->]. destruct (Z.le_gt_cases 0 k); [by apply norm_add_mul|].
  replace b with ((b + k * 65535) + (- k) * 65535) at 2 by lia. symmetry. apply norm_add_mul; lia.
Qed.

(** What a machine word of the row is worth: on a little-endian machine the
    bytes of each 16-bit word are swapped, which is a factor of 256. *)
Definition weight (en : endian) : Z := match en with LittleEndian => 256 | BigEndian => 1 end.

Lemma le_val_range b : bytes_ok b → 0 ≤ le_val b < 256 ^ zlen b.
Proof.
  induction 1 as [|x b Hx Hb IH]; [done|]. cbn [le_val]. rewrite zlen_cons, Z.pow_add_r by (pose proof (zlen_nonneg b); lia).
  change (256 ^ 1) with 256. ulia.
Qed.
Lemma bytes_ok_reverse b : bytes_ok b → bytes_ok (reverse b).
Proof. by rewrite Forall_reverse. Qed.
Lemma native_get_range en b : bytes_ok b → 0 ≤ native_get en b < 256 ^ zlen b.
Proof.
  intros Hb. destruct en; cbn; [by apply le_val_range|]. unfold be_val.
  pose proof (le_val_range (reverse b) (bytes_ok_reverse b Hb)) as H.
  unfold zlen in H. by rewrite length_reverse in H.
Qed.

Lemma le_val_app a b : le_val (a ++ b) = le_val a + 256 ^ zlen a * le_val b.
Proof.
  induction a as [|x a IH]; cbn [app le_val]; [unfold zlen; cbn; lia|].
  rewrite IH, zlen_cons, Z.pow_add_r by (pose proof (zlen_nonneg a); lia). lia.
Qed.

Abbreviation zeros := (Forall (λ x, x = 0)).

Lemma le_val_zero b : bytes_ok b → le_val b = 0 ↔ zeros b.
Proof.
  induction 1 as [|x b Hx Hb IH]; [done|]. cbn [le_val]. rewrite Forall_cons, <- IH.
  pose proof (le_val_range b Hb). ulia.
Qed.
Lemma native_get_zero en b : bytes_ok b → native_get en b = 0 ↔ zeros b.
Proof.
  intros Hb. destruct en; cbn; [by apply le_val_zero|]. unfold be_val.
  rewrite le_val_zero by by apply bytes_ok_reverse. apply Forall_reverse.
Qed.
Lemma wsum_zero b : bytes_ok b → wsum b = 0 ↔ zeros b.
Proof.
  induction b as [|x|x y r IH] using words_ind; intros Hb; cbn [wsum]; rewrite ?Forall_cons in *; unfold be16.
  - done.
  - rewrite Forall_nil. ulia.
  - rewrite <- IH by tauto. pose proof (wsum_bound r ltac:(tauto)). ulia.
Qed.

(** A word of even size is worth its 16-bit words. *)
Lemma pow_256_even n : 0 ≤ n → ∃ m, 256 ^ (2 * n) = 1 + m * 65535.
Proof.
  intros Hn. pattern n. apply natlike_ind; [by exists 0| |done]. intros k Hk [m E].
  exists (65536 * m + 1). replace (2 * Z.succ k) with (2 * k + 2) by lia.
  rewrite Z.pow_add_r, E by lia. change (256 ^ 2) with 65536. lia.
Qed.

Lemma word_worth en b :
  bytes_ok b → Z.Even (zlen b) → ∃ k, weight en * native_get en b = wsum b + k * 65535.
Proof.
  induction b as [|x|x y r IH] using words_ind; intros Hb He.
  - exists 0. by destruct en.
  - destruct He as [k Hk]. rewrite zlen_cons in Hk. change (zlen []) with 0 in Hk. lia.
  - rewrite !Forall_cons in Hb. destruct He as [j Hj]. rewrite !zlen_cons in Hj.
    destruct IH as [k E]; [tauto|exists (j - 1); lia|]. cbn [wsum]. unfold be16. destruct en; cbn [weight native_get] in *.
    + exists (k + y + 256 * le_val r). cbn [le_val]. lia.
    + unfold be_val in *. rewrite !reverse_cons, <- app_assoc, le_val_app. cbn [app le_val].
      replace (zlen (reverse r)) with (2 * (j - 1)) by (unfold zlen in *; rewrite length_reverse; lia).
      destruct (pow_256_even (j - 1)) as [m Em]; [pose proof (zlen_nonneg r); lia|]. rewrite Em.
      exists (k + m * (y + 256 * x)). lia.
Qed.

(** The row of additions: no carry is lost, and a sum that is not 0 stays so. *)
Definition max64 : Z := 18446744073709551615.
Definition row_ok (ac carry : Z) : Prop :=
  is_u64 ac ∧ 0 ≤ carry ≤ 1 ∧ (carry = 1 → ac < max64).

Lemma addWords_spec ws ac carry :
  row_ok ac carry → Forall is_u64 ws →
  let '(ac', carry') := addWords ws ac carry in
  row_ok ac' carry' ∧ (∃ k, ac + carry + foldr Z.add 0 ws = ac' + carry' + k * max64) ∧
  (0 < ac + carry + foldr Z.add 0 ws ↔ 0 < ac' + carry').
Proof.
  intros Hr Hws. revert ac carry Hr. induction Hws as [|w ws Hw Hws IH]; intros ac carry Hr; cbn [addWords foldr].
  { split; [done|]. split; [exists 0; lia|lia]. }
  unfold Add64. set (s := ac + w + carry). unfold row_ok, max64, is_u64 in *.
  assert (0 ≤ foldr Z.add 0 ws) as Hnn by (clear IH; induction Hws; cbn; unfold is_u64 in *; lia).
  assert (u64 s = s - 18446744073709551616 * (s / 18446744073709551616)) as Eu
    by (unfold u64; pose proof (Z_div_mod_eq_full s 18446744073709551616); lia).
  pose proof (Z.mod_pos_bound s 18446744073709551616 ltac:(lia)) as Hm. fold (u64 s) in Hm.
  specialize (IH (u64 s) (s / 18446744073709551616)).
  destruct (addWords ws (u64 s) (s / 18446744073709551616)) as [ac' carry'].
  destruct IH as (H1 & [k Hk] & H2); [split_and!; lia|].
  split; [done|]. split; [exists (k + s / 18446744073709551616); lia|]. lia.
Qed.

Lemma words_spec en k size b :
  bytes_ok b → (size ≤ 8)%nat → Z.Even (Z.of_nat size) → Z.of_nat (k * size) ≤ zlen b →
  Forall is_u64 (words en k size b) ∧
  (∃ j, weight en * foldr Z.add 0 (words en k size b) = wsum (take (k * size) b) + j * 65535) ∧
  (foldr Z.add 0 (words en k size b) = 0 ↔ wsum (take (k * size) b) = 0).
Proof.
  intros Hb Hsz He. revert b Hb. induction k as [|k IH]; intros b Hb Hl; cbn [words foldr].
  { split; [done|]. split; [exists 0; by rewrite Z.mul_0_r|done]. }
  assert (zlen (take size b) = Z.of_nat size) as Lt by (unfold zlen in *; rewrite length_take; lia).
  assert (bytes_ok (take size b)) as Ht by by apply Forall_take.
  assert (bytes_ok (drop size b)) as Hd by by apply Forall_drop.
  destruct (IH (drop size b) Hd) as (H1 & [j Hj] & H2).
  { unfold zlen in *. rewrite length_drop. lia. }
  destruct (word_worth en (take size b) Ht) as [i Hi]; [by rewrite Lt|].
  pose proof (native_get_range en _ Ht) as Hr. rewrite Lt in Hr.
  replace (take (S k * size) b) with (take size b ++ take (k * size) (drop size b))
    by (rewrite take_take_drop; f_equal; lia).
  rewrite wsum_app by by rewrite Lt.
  assert (256 ^ Z.of_nat size ≤ 256 ^ 8) as Hp by (apply Z.pow_le_mono_r; lia).
  change (256 ^ 8) with 18446744073709551616 in Hp.
  assert (0 ≤ foldr Z.add 0 (words en k size (drop size b))) as Hnn.
  { clear -H1. induction H1; cbn; unfold is_u64 in *; lia. }
  pose proof (wsum_bound _ Ht). pose proof (wsum_bound _ (Forall_take _ (k * size) _ Hd)).
  pose proof (native_get_zero en _ Ht) as Hz. rewrite <- wsum_zero in Hz by done.
  split; [constructor; [unfold is_u64; lia|done]|]. split; [exists (i + j); lia|]. lia.
Qed.

(** What a state of the sum is worth, with the bytes still to come. *)
Definition worth (en : endian) (st : Z * bytes) : Z := weight en * st.1 + wsum st.2.
Record sum_ok (en : endian) (n : Z) (st : Z * bytes) : Prop := {
  so_ac : is_u64 st.1;
  so_bytes : bytes_ok st.2;
  so_worth : norm (worth en st) = n }.

Lemma weight_pos en : 0 < weight en.
Proof. by destruct en. Qed.

Lemma addBlock_ok en n k size st :
  sum_ok en n st → (size ≤ 8)%nat → Z.Even (Z.of_nat size) → Z.of_nat (k * size) ≤ zlen st.2 →
  sum_ok en n (addBlock en k size st).
Proof.
  destruct st as [ac b]. intros [Hac Hb Hn] Hsz He Hl. cbn [fst snd] in *. unfold addBlock.
  destruct (words_spec en k size b Hb Hsz He Hl) as (Hws & [j Hj] & Hz).
  pose proof (addWords_spec (words en k size b) ac 0) as Hadd.
  destruct (addWords (words en k size b) ac 0) as [ac' carry'].
  destruct Hadd as ((Hu & Hc & Hmax) & [i Hi] & Hpos); [split_and!; (done || lia)|done|].
  set (S := foldr Z.add 0 _) in *. unfold max64, is_u64 in *.
  assert (u64 (ac' + carry') = ac' + carry') as Eu by (apply Z.mod_small; lia).
  rewrite Eu. split; cbn [fst snd]; [unfold is_u64; lia|by apply Forall_drop|].
  rewrite <- Hn. unfold worth. cbn [fst snd].
  pose proof (wsum_bound _ (Forall_take _ (k * size) _ Hb)). pose proof (wsum_bound _ (Forall_drop _ (k * size) _ Hb)).
  assert (wsum b = wsum (take (k * size) b) + wsum (drop (k * size) b)) as Ew.
  { rewrite <- wsum_app, take_drop; [done|].
    assert (zlen (take (k * size) b) = Z.of_nat k * Z.of_nat size) as -> by (unfold zlen in *; rewrite length_take; lia).
    destruct He as [h ->]. exists (Z.of_nat k * h). lia. }
  pose proof (weight_pos en). assert (0 ≤ S) by (clear -Hws; subst S; induction Hws; cbn; unfold is_u64 in *; lia).
  destruct (Z.eq_dec (ac' + carry') 0) as [E0|].
  { assert (ac = 0 ∧ S = 0) as [-> ->] by lia. rewrite E0, Ew. assert (wsum (take (k * size) b) = 0) by lia. f_equal. lia. }
  apply norm_congr; [nia|nia|]. exists (- (i * 281479271743489 * weight en) + j). nia.
Qed.

Lemma ifBlock_ok en n k size st :
  sum_ok en n st → (size ≤ 8)%nat → Z.Even (Z.of_nat size) → zlen st.2 < 2 * Z.of_nat (k * size) →
  sum_ok en n (ifBlock en k size st) ∧ zlen (ifBlock en k size st).2 < Z.of_nat (k * size).
Proof.
  intros Hst Hsz He Hl. unfold ifBlock. destruct (Z.leb_spec (Z.of_nat (k * size)) (zlen st.2)); [|done].
  split; [by apply addBlock_ok|]. destruct st as [ac b]. unfold addBlock.
  destruct (addWords _ _ _). cbn [snd] in *. unfold zlen in *. rewrite length_drop. lia.
Qed.

Lemma loop128_ok en n fuel st :
  sum_ok en n st → (length st.2 ≤ fuel)%nat →
  sum_ok en n (loop128 fuel en st) ∧ zlen (loop128 fuel en st).2 < 128.
Proof.
  revert st. induction fuel as [|fuel IH]; intros st Hst Hf; cbn [loop128].
  { split; [done|]. unfold zlen. lia. }
  destruct (Z.leb_spec 128 (zlen st.2)); [|done]. apply IH.
  - apply addBlock_ok; [done|lia|by exists 4|]. done.
  - destruct st as [ac b]. unfold addBlock. destruct (addWords _ _ _). cbn [snd] in *.
    rewrite length_drop. unfold zlen in *. lia.
Qed.

Lemma lastByte_ok en n st :
  sum_ok en n st → zlen st.2 < 2 → is_u64 (lastByte en st) ∧ norm (weight en * lastByte en st) = n.
Proof.
  destruct st as [ac b]. intros [Hac Hb Hn] Hl. unfold lastByte, worth in *. cbn [fst snd] in *.
  destruct b as [|x [|y b]].
  - cbn [wsum] in Hn. by rewrite Z.add_0_r in Hn.
  - assert (sum_ok en n (addBlock en 1 2 (ac, [x; 0]))) as [H1 _ H2].
    { apply addBlock_ok; [|lia|by exists 1|done]. rewrite Forall_singleton in Hb.
      split; [done| |]; cbn [fst snd].
      - constructor; [done|]. constructor; [ulia|constructor].
      - rewrite <- Hn. unfold worth. cbn [fst snd wsum]. by rewrite Z.add_0_r. }
    unfold addBlock in H1, H2. cbn [words addWords take drop firstn skipn] in H1, H2.
    destruct (Add64 ac (native_get en [x; 0]) 0) as [a c]. unfold worth in H2. cbn [fst snd wsum] in *.
    rewrite Z.add_0_r in H2. done.
  - rewrite !zlen_cons in Hl. pose proof (zlen_nonneg b). lia.
Qed.

(** Storing in native order and loading in big-endian order. *)
Lemma le_bytes_ok n v : bytes_ok (le_bytes n v).
Proof. revert v. induction n; intros v; cbn; constructor; [apply u8_range|done]. Qed.
Lemma zlen_le_bytes n v : zlen (le_bytes n v) = Z.of_nat n.
Proof. revert v. induction n as [|n IH]; intros v; cbn [le_bytes]; [done|]. rewrite zlen_cons, IH. lia. Qed.
Lemma le_val_bytes n v : 0 ≤ v < 256 ^ Z.of_nat n → le_val (le_bytes n v) = v.
Proof.
  revert v. induction n as [|n IH]; intros v Hv; cbn [le_bytes le_val]; [change (256 ^ Z.of_nat 0) with 1 in Hv; lia|].
  rewrite Nat2Z.inj_succ, Z.pow_succ_r in Hv by lia.
  rewrite IH; [unfold u8; mlia|]. split; [apply Z.div_pos; lia|apply Z.div_lt_upper_bound; lia].
Qed.

Lemma swap_worth en v :
  is_u64 v → let w := be_val (native_put64 en v) in
  is_u64 w ∧ (∃ k, w = weight en * v + k * 65535) ∧ (w = 0 ↔ v = 0).
Proof.
  intros Hv w. pose proof (le_bytes_ok 8 v) as Hb. pose proof (zlen_le_bytes 8 v) as Hl.
  assert (le_val (le_bytes 8 v) = v) as E by (apply le_val_bytes; exact Hv).
  destruct en; cbn [native_put64 weight] in *.
  - pose proof (native_get_range BigEndian _ Hb) as Hr. rewrite Hl in Hr. split; [exact Hr|].
    destruct (word_worth LittleEndian _ Hb) as [i Hi]; [by rewrite Hl; exists 4|].
    destruct (word_worth BigEndian _ Hb) as [j Hj]; [by rewrite Hl; exists 4|].
    cbn [weight native_get] in Hi, Hj. fold w in Hj. rewrite E in Hi. split; [exists (j - i); lia|].
    pose proof (native_get_zero BigEndian _ Hb) as H1. pose proof (native_get_zero LittleEndian _ Hb) as H2.
    cbn [native_get] in H1, H2. fold w in H1. rewrite E in H2. tauto.
  - assert (w = v) as -> by (unfold w, be_val; by rewrite reverse_involutive).
    split; [done|]. split; [exists 0; lia|done].
Qed.

(** The unfolded sum is worth the sum of the 16-bit words. *)
Lemma checksumNoFold_worth en b initial :
  bytes_ok b → is_u64 initial →
  is_u64 (checksumNoFold en b initial) ∧ norm (checksumNoFold en b initial) = norm (initial + wsum b).
Proof.
  intros Hb Hi. unfold checksumNoFold. set (ac := be_val (native_put64 en initial)).
  destruct (swap_worth en initial Hi) as (Hac & [k Hk] & Hz). fold ac in Hac, Hk, Hz.
  pose proof (wsum_bound b Hb). pose proof (weight_pos en). unfold is_u64 in Hi.
  assert (sum_ok en (norm (initial + wsum b)) (ac, b)) as Hs0.
  { split; [done|done|]. unfold worth. cbn [fst snd]. unfold is_u64 in Hac.
    destruct (Z.eq_dec initial 0) as [E|]; [rewrite E, (proj2 Hz E); f_equal; lia|].
    apply norm_congr; [nia|lia|]. rewrite Hk. destruct en; cbn [weight];
      [exists (initial + 256 * k); lia|exists k; lia]. }
  destruct (loop128_ok en _ (length b) (ac, b) Hs0) as [Hs1 L1]; [done|].
  destruct (ifBlock_ok en _ 8 8 _ Hs1) as [Hs2 L2]; [lia|by exists 4|done|].
  destruct (ifBlock_ok en _ 4 8 _ Hs2) as [Hs3 L3]; [lia|by exists 4|done|].
  destruct (ifBlock_ok en _ 2 8 _ Hs3) as [Hs4 L4]; [lia|by exists 4|done|].
  destruct (ifBlock_ok en _ 1 8 _ Hs4) as [Hs5 L5]; [lia|by exists 4|done|].
  destruct (ifBlock_ok en _ 1 4 _ Hs5) as [Hs6 L6]; [lia|by exists 2|done|].
  destruct (ifBlock_ok en _ 1 2 _ Hs6) as [Hs7 L7]; [lia|by exists 1|done|].
  destruct (lastByte_ok en _ _ Hs7 L7) as [Hu Hn]. set (v := lastByte _ _) in *.
  destruct (swap_worth en v Hu) as (Hw & [j Hj] & Hz'). split; [exact Hw|]. rewrite <- Hn.
  set (w := be_val (native_put64 en v)) in *. unfold is_u64 in *.
  destruct (Z.eq_dec v 0) as [E|]; [rewrite (proj2 Hz' E), E; f_equal; lia|].
  apply norm_congr; [lia|nia|]. by exists j.
Qed.

Lemma fold16_norm x q :
  is_u64 x → 1 ≤ q → x ≤ 65536 * q + 65534 →
  is_u64 (fold16 x) ∧ norm (fold16 x) = norm x ∧ fold16 x ≤ q + 65534.
Proof.
  intros Hx Hq Hb. unfold fold16, is_u64 in *. rewrite shiftr_div by lia. change (2 ^ 16) with 65536.
  change (Z.land x 65535) with (Z.land x (2 ^ 16 - 1)). rewrite land_low by lia. change (2 ^ 16) with 65536.
  pose proof (Z_div_mod_eq_full x 65536) as E. pose proof (Z.mod_pos_bound x 65536 ltac:(lia)).
  assert (0 ≤ x / 65536 < 281474976710656) by (split; [apply Z.div_pos; lia|apply Z.div_lt_upper_bound; lia]).
  assert (u64 (x / 65536 + x mod 65536) = x / 65536 + x mod 65536) as -> by (apply Z.mod_small; lia).
  split; [lia|]. split; [|nia]. destruct (Z.eq_dec x 0) as [->|]; [done|].
  apply norm_congr; [lia|lia|]. exists (- (x / 65536)). lia.
Qed.

(** Four rounds of folding bring 64 bits down to 16. *)
Lemma checksum_norm en b initial :
  bytes_ok b → is_u64 initial → checksum en b initial = norm (initial + wsum b).
Proof.
  intros Hb Hi. destruct (checksumNoFold_worth en b initial Hb Hi) as [H0 <-]. unfold checksum.
  set (x0 := checksumNoFold _ _ _) in *. assert (0 ≤ x0 < 18446744073709551616) as B0 by exact H0.
  destruct (fold16_norm x0 281474976710656 H0) as (H1 & <- & B1); [lia..|]. set (x1 := fold16 x0) in *.
  destruct (fold16_norm x1 4294967296 H1) as (H2 & <- & B2); [lia..|]. set (x2 := fold16 x1) in *.
  destruct (fold16_norm x2 65536 H2) as (H3 & <- & B3); [lia..|]. set (x3 := fold16 x2) in *.
  destruct (fold16_norm x3 1 H3) as (H4 & <- & B4); [lia..|]. set (x4 := fold16 x3) in *.
  unfold is_u64 in H4. rewrite norm_small by lia. apply u16_id. ulia.
Qed.

Lemma pseudoHeader_worth en protocol src dst totalLen :
  bytes_ok src → bytes_ok dst → Z.Even (zlen src) → Z.Even (zlen dst) → is_u8 protocol →
  let s := pseudoHeaderChecksumNoFold en protocol src dst totalLen in
  is_u64 s ∧ norm s = norm (wsum (src ++ dst ++ [0; protocol; u8 (totalLen / 256); u8 totalLen])).
Proof.
  intros Hs Hd Es Ed Hp. cbv zeta. unfold pseudoHeaderChecksumNoFold.
  destruct (checksumNoFold_worth en src 0 Hs) as [U1 N1]; [by split|]. set (s1 := checksumNoFold en src 0) in *.
  destruct (checksumNoFold_worth en dst s1 Hd U1) as [U2 N2]. set (s2 := checksumNoFold en dst s1) in *.
  assert (bytes_ok [0; protocol]) as H3 by (repeat constructor; ulia).
  destruct (checksumNoFold_worth en _ s2 H3 U2) as [U3 N3]. set (s3 := checksumNoFold en [0; protocol] s2) in *.
  assert (bytes_ok [u8 (totalLen / 256); u8 totalLen]) as H4 by (repeat constructor; apply u8_range).
  destruct (checksumNoFold_worth en _ s3 H4 U3) as [U4 N4]. split; [exact U4|]. rewrite N4.
  pose proof (wsum_bound _ Hs). pose proof (wsum_bound _ Hd). pose proof (wsum_bound _ H3). pose proof (wsum_bound _ H4).
  unfold is_u64 in *. rewrite <- norm_norm_add, N3, norm_norm_add by lia.
  rewrite <- Z.add_assoc, <- norm_norm_add, N2, norm_norm_add by lia.
  rewrite <- Z.add_assoc, <- norm_norm_add, N1, norm_norm_add by lia.
  rewrite (wsum_app src) by done. rewrite (wsum_app dst) by done. cbn [wsum]. f_equal. lia.
Qed.

Lemma checksum_initial en b i :
  bytes_ok b → sum_fits b → is_u16 i → not16 (checksum en b i) = Checksum b i.
Proof.
  intros Hb Hf Hi. rewrite checksum_norm, Checksum_norm by (done || (unfold is_u64, is_u16 in *; lia)). done.
Qed.
Lemma checksum_plain en b : bytes_ok b → sum_fits b → not16 (checksum en b 0) = Checksum b 0.
Proof. intros. by apply checksum_initial. Qed.

Lemma checksum_transport en b proto src dst totalLen :
  bytes_ok b → sum_fits b → is_u8 proto →
  not16 (checksum en b (pseudoHeaderChecksumNoFold en proto (To4 src) (To4 dst) totalLen)) =
    Checksum b (PseudoHeaderChecksum proto src dst totalLen).
Proof.
  intros Hb Hf Hp. pose proof (wsum_bound b Hb).
  destruct (pseudoHeader_worth en proto (To4 src) (To4 dst) totalLen) as [U N];
    [apply bytes_ok_To4|apply bytes_ok_To4|by exists 2|by exists 2|done|].
  set (ph := wsum _) in N. assert (ph = wsum (pseudo_header proto src dst totalLen)) as Eph
    by (unfold ph, pseudo_header; by rewrite (u8_id proto)).
  pose proof (wsum_bound _ (bytes_ok_pseudo_header proto src dst totalLen)) as Bph. rewrite <- Eph in Bph.
  rewrite checksum_norm, Checksum_norm by (done || apply PseudoHeaderChecksum_range). unfold not16. f_equal.
  unfold is_u64 in U. rewrite <- norm_norm_add, N by lia.
  assert (PseudoHeaderChecksum proto src dst totalLen = norm ph) as ->; [|done].
  unfold PseudoHeaderChecksum. fold (pseudo_header proto src dst totalLen).
  rewrite Checksum_norm by (done || apply bytes_ok_pseudo_header). rewrite <- Eph. unfold not16.
  change (0 + ph) with ph. lia.
Qed.

(** C32: the checksum in machine words agrees with the plain one.  On machines
    of either byte order, the unrolled sum with deferred carries gives the
    complement of [header.Checksum], and so does the transport checksum seeded
    with the unfolded sum of the pseudo header; the number of bytes and the
    alignment of the blocks play no part. *)
Theorem tun_checksum_equivalent en b proto src dst totalLen :
  bytes_ok b → sum_fits b → is_u8 proto →
  not16 (checksum en b 0) = Checksum b 0 ∧
  not16 (checksum en b (pseudoHeaderChecksumNoFold en proto (To4 src) (To4 dst) totalLen)) =
    Checksum b (PseudoHeaderChecksum proto src dst totalLen).
Proof. intros. split; [by apply checksum_plain|by apply checksum_transport]. Qed.

Lemma tun_checksum_equivalent_witness :
  not16 (checksum LittleEndian [1; 2; 3] 0) = Checksum [1; 2; 3] 0 ∧
  not16 (checksum LittleEndian [1; 2; 3] (pseudoHeaderChecksumNoFold LittleEndian 6 (To4 1) (To4 2) 3)) =
    Checksum [1; 2; 3] (PseudoHeaderChecksum 6 1 2 3).
Proof.
  apply (tun_checksum_equivalent LittleEndian [1; 2; 3] 6 1 2 3); [|discriminate|split; done].
  repeat constructor; done.
Defined.
