(* ===== verification/TunOffload.v ===== *)
(** The read side of the TUN device's offload ([src/channel/tun/offload.go],
    [tun.go] and [channel.go]): the virtio-net header, the completion of
    partial checksums, the splitting of large packets handed over by the
    kernel into segments, and the batch from which [ReadPacket] returns one
    packet per call. *)
From S2P Require Import Prelude.
From S2P Require Import Tcpip.
From S2P Require Import Checksum.
From S2P Require Import Stack.
From S2P Require Import TunChecksum.

(** * The virtio-net header *)
Record virtioNetHdr := mkVirtioNetHdr {
  flags : Z; gsoType : Z; hdrLen : Z; gsoSize : Z; csumStart : Z; csumOffset : Z }.

Definition virtioNetHdrLen : Z := 10.

(** The memory of a [uint16] field. *)
Definition native_put16 (en : endian) (v : Z) : bytes :=
  match en with LittleEndian => le_bytes 2 v | BigEndian => reverse (le_bytes 2 v) end.

(** The errors of [offload.go]. *)
Inductive tun_error :=
| ErrShortBuffer
| ErrTooManySegments
| ErrReadOverflow
| ErrUnsupportedGSO
| ErrVersionMismatch
| ErrInvalidVersion
| ErrPacketTooShort
| ErrTCPHeaderLen
| ErrHdrLenBeyondPacket
| ErrHdrLenBeforeCsumStart
| ErrCsumBeyondPacket.

(** [decode] copies the ten bytes over the structure. *)
Definition decode (en : endian) (b : bytes) : virtioNetHdr + tun_error :=
  match b with
  | f :: t :: h0 :: h1 :: s0 :: s1 :: c0 :: c1 :: o0 :: o1 :: _ =>
      inl (mkVirtioNetHdr f t (native_get en [h0; h1]) (native_get en [s0; s1])
             (native_get en [c0; c1]) (native_get en [o0; o1]))
  | _ => inr ErrShortBuffer
  end.

Definition hdr_memory (en : endian) (v : virtioNetHdr) : bytes :=
  flags v :: gsoType v :: native_put16 en (hdrLen v) ++ native_put16 en (gsoSize v) ++
  native_put16 en (csumStart v) ++ native_put16 en (csumOffset v).

Definition encode (en : endian) (v : virtioNetHdr) (b : bytes) : bytes + tun_error :=
  if zlen b <? virtioNetHdrLen then inr ErrShortBuffer
  else inl (hdr_memory en v ++ zdrop virtioNetHdrLen b).

(** [unix.VIRTIO_NET_HDR_*] and [unix.IPPROTO_*]. *)
Definition VIRTIO_NET_HDR_F_NEEDS_CSUM : Z := 1.
Definition VIRTIO_NET_HDR_GSO_NONE : Z := 0.
Definition VIRTIO_NET_HDR_GSO_TCPV4 : Z := 1.
Definition VIRTIO_NET_HDR_GSO_TCPV6 : Z := 4.
Definition VIRTIO_NET_HDR_GSO_UDP_L4 : Z := 5.
Definition IPPROTO_TCP : Z := 6.
Definition IPPROTO_UDP : Z := 17.
Definition tcpFlagsOffset : Z := 13.
Definition tcpFlagFIN : Z := 1.
Definition tcpFlagPSH : Z := 8.
Definition tcpFlagACK : Z := 16.
Definition ipv4SrcAddrOffset : Z := 12.
Definition ipv6SrcAddrOffset : Z := 8.

(** * Splitting *)
Section offload.
Context (en : endian).
(** What the read buffer holds beyond the packet: a slice expression with an
    upper bound reaches up to the capacity. *)
Context (spare : bytes).

(** [in[i], in[j] = 0, 0] *)
Definition clear2 (b : bytes) (i j : Z) : outcome bytes :=
  b ← put b i 0; put b j 0.

(** The IP header of segment [i]. *)
Definition splitIP (isV6 : bool) (iphLen totalLen i : Z) (out : bytes) : outcome bytes :=
  if isV6 then write16 out 4 (u16 (totalLen - iphLen)) else
  out ← (if 0 <? i then
           id ← read16 out 4;
           write16 out 4 (u16 (id + u16 i))
         else Ret out);
  out ← write16 out 2 (u16 totalLen);
  h ← slice_to out iphLen;
  write16 out 10 (not16 (checksum en h 0)).

(** The transport header of segment [i]. *)
Definition splitTransport (hdr : virtioNetHdr) (protocol firstTCPSeqNum i segmentDataLen : Z)
    (isLast : bool) (out : bytes) : outcome bytes :=
  if protocol =? IPPROTO_TCP then
    let tcpSeq := u32 (firstTCPSeqNum + u16 (gsoSize hdr * u16 i)) in
    out ← write32 out (u16 (csumStart hdr + 4)) tcpSeq;
    if isLast then Ret out else
    let at_ := u16 (csumStart hdr + tcpFlagsOffset) in
    f ← get out at_;
    put out at_ (Z.ldiff f (Z.lor tcpFlagFIN tcpFlagPSH))
  else
    write16 out (u16 (csumStart hdr + 4))
      (u16 (u16 segmentDataLen + u16 (hdrLen hdr - csumStart hdr))).

(** [copy(out[lo:hi], src)] *)
Definition copy_within (out : bytes) (lo hi : Z) (src : bytes) : outcome bytes :=
  d ← slice out lo hi;
  Ret (ztake lo out ++ (copy d src).1 ++ zdrop hi out).

(** The body of the loop for one output buffer. *)
Definition splitSegment (inp : bytes) (hdr : virtioNetHdr) (isV6 : bool)
    (protocol firstTCPSeqNum i nextSegmentDataAt nextSegmentEnd : Z) (out : bytes) : outcome bytes :=
  let iphLen := csumStart hdr in
  let srcAddrOffset := if isV6 then ipv6SrcAddrOffset else ipv4SrcAddrOffset in
  let addrLen := if isV6 then 16 else 4 in
  let segmentDataLen := nextSegmentEnd - nextSegmentDataAt in
  let totalLen := hdrLen hdr + segmentDataLen in
  h ← slice_to (inp ++ spare) iphLen;
  out ← copy_at out 0 h;
  out ← splitIP isV6 iphLen totalLen i out;
  t ← slice (inp ++ spare) (csumStart hdr) (hdrLen hdr);
  out ← copy_within out (csumStart hdr) (hdrLen hdr) t;
  out ← splitTransport hdr protocol firstTCPSeqNum i segmentDataLen
          (nextSegmentEnd =? zlen inp) out;
  d ← slice (inp ++ spare) nextSegmentDataAt nextSegmentEnd;
  out ← copy_at out (hdrLen hdr) d;
  let transportHeaderLen := u16 (hdrLen hdr - csumStart hdr) in
  let lenForPseudo := u16 (transportHeaderLen + segmentDataLen) in
  src ← slice (inp ++ spare) srcAddrOffset (srcAddrOffset + addrLen);
  dst ← slice (inp ++ spare) (srcAddrOffset + addrLen) (srcAddrOffset + addrLen * 2);
  let transportCSumNoFold := pseudoHeaderChecksumNoFold en protocol src dst lenForPseudo in
  s ← slice out (csumStart hdr) totalLen;
  write16 out (u16 (csumStart hdr + csumOffset hdr)) (not16 (checksum en s transportCSumNoFold)).

(** The buffers and sizes the caller passes, updated in place, and what the
    function returns. *)
Record batch := mkBatch { b_bufs : list bytes; b_sizes : list Z; b_n : Z; b_err : option tun_error }.

(** [outBuffs[i][outOffset:]], filled by [f] and seen through [outBuffs]. *)
Definition update_buffer (outBuffs : list bytes) (i outOffset : Z) (f : bytes → outcome bytes) :
    outcome (list bytes) :=
  b ← get outBuffs i;
  out ← slice_from b outOffset;
  out ← f out;
  put outBuffs i (ztake outOffset b ++ out).

(** A round either fills another buffer or ends the loop. *)
Fixpoint gsoLoop (fuel : nat) (inp : bytes) (hdr : virtioNetHdr) (outOffset : Z) (isV6 : bool)
    (protocol firstTCPSeqNum i nextSegmentDataAt : Z) (outBuffs : list bytes) (sizes : list Z) :
    outcome batch :=
  match fuel with
  | O => OutOfFuel
  | S fuel =>
      if nextSegmentDataAt <? zlen inp then
        if i =? zlen outBuffs then Ret (mkBatch outBuffs sizes (i - 1) (Some ErrTooManySegments)) else
        let nextSegmentEnd := Z.min (nextSegmentDataAt + gsoSize hdr) (zlen inp) in
        sizes ← put sizes i (hdrLen hdr + (nextSegmentEnd - nextSegmentDataAt));
        outBuffs ← update_buffer outBuffs i outOffset
          (splitSegment inp hdr isV6 protocol firstTCPSeqNum i nextSegmentDataAt nextSegmentEnd);
        gsoLoop fuel inp hdr outOffset isV6 protocol firstTCPSeqNum (i + 1)
          (nextSegmentDataAt + gsoSize hdr) outBuffs sizes
      else Ret (mkBatch outBuffs sizes i None)
  end.

Definition isTCP (t : Z) : bool :=
  (t =? VIRTIO_NET_HDR_GSO_TCPV4) || (t =? VIRTIO_NET_HDR_GSO_TCPV6).

Definition gsoSplit (inp : bytes) (hdr : virtioNetHdr) (outBuffs : list bytes) (sizes : list Z)
    (outOffset : Z) (isV6 : bool) : outcome batch :=
  inp ← (if isV6 then Ret inp else clear2 inp 10 11);
  let transportCsumAt := u16 (csumStart hdr + csumOffset hdr) in
  inp ← clear2 inp transportCsumAt (transportCsumAt + 1);
  firstTCPSeqNum ← (if isTCP (gsoType hdr) then read32 inp (u16 (csumStart hdr + 4)) else Ret 0);
  let protocol := if isTCP (gsoType hdr) then IPPROTO_TCP else IPPROTO_UDP in
  gsoLoop (S (length outBuffs)) inp hdr outOffset isV6 protocol firstTCPSeqNum 0 (hdrLen hdr)
    outBuffs sizes.

Definition gsoNoneChecksum (inp : bytes) (cSumStart cSumOffset : Z) : outcome bytes :=
  let cSumAt := u16 (cSumStart + cSumOffset) in
  initial ← read16 inp cSumAt;
  inp ← clear2 inp cSumAt (u16 (cSumAt + 1));
  s ← slice_from inp cSumStart;
  write16 inp cSumAt (not16 (checksum en s initial)).

(** The checks of [hdr] against the packet; [inl] is the header with the
    length the code computes itself. *)
Definition checkHdr (inp : bytes) (hdr : virtioNetHdr) : outcome (virtioNetHdr * bool + tun_error) :=
  let t := gsoType hdr in
  b0 ← get inp 0;
  let ipVersion := Z.shiftr b0 4 in
  if negb ((ipVersion =? 4) || (ipVersion =? 6)) then Ret (inr ErrInvalidVersion) else
  if (ipVersion =? 4) && negb (t =? VIRTIO_NET_HDR_GSO_TCPV4) && negb (t =? VIRTIO_NET_HDR_GSO_UDP_L4)
  then Ret (inr ErrVersionMismatch) else
  if (ipVersion =? 6) && negb (t =? VIRTIO_NET_HDR_GSO_TCPV6) && negb (t =? VIRTIO_NET_HDR_GSO_UDP_L4)
  then Ret (inr ErrVersionMismatch) else
  hl ← (if t =? VIRTIO_NET_HDR_GSO_UDP_L4 then Ret (inl (u16 (csumStart hdr + 8)))
        else if zlen inp <=? u16 (csumStart hdr + 12) then Ret (inr ErrPacketTooShort)
        else
          b12 ← get inp (u16 (csumStart hdr + 12));
          let tcpHLen := u8 (Z.shiftr b12 4 * 4) in
          if (tcpHLen <? 20) || (60 <? tcpHLen) then Ret (inr ErrTCPHeaderLen)
          else Ret (inl (u16 (csumStart hdr + tcpHLen))));
  match hl with
  | inr e => Ret (inr e)
  | inl hl =>
      if zlen inp <? hl then Ret (inr ErrHdrLenBeyondPacket) else
      if hl <? csumStart hdr then Ret (inr ErrHdrLenBeforeCsumStart) else
      let cSumAt := u16 (csumStart hdr + csumOffset hdr) in
      if zlen inp <=? cSumAt + 1 then Ret (inr ErrCsumBeyondPacket) else
      Ret (inl (mkVirtioNetHdr (flags hdr) t hl (gsoSize hdr) (csumStart hdr) (csumOffset hdr),
                ipVersion =? 6))
  end.

Definition handleVirtioRead (inp : bytes) (bufs : list bytes) (sizes : list Z) (offset : Z) :
    outcome batch :=
  match decode en inp with
  | inr e => Ret (mkBatch bufs sizes 0 (Some e))
  | inl hdr =>
      inp ← slice_from inp virtioNetHdrLen;
      if gsoType hdr =? VIRTIO_NET_HDR_GSO_NONE then
        inp ← (if negb (Z.land (flags hdr) VIRTIO_NET_HDR_F_NEEDS_CSUM =? 0)
               then gsoNoneChecksum inp (csumStart hdr) (csumOffset hdr) else Ret inp);
        b ← get bufs 0;
        room ← slice_from b offset;
        if zlen room <? zlen inp then Ret (mkBatch bufs sizes 0 (Some ErrReadOverflow)) else
        bufs ← update_buffer bufs 0 offset (λ out, Ret (copy out inp).1);
        sizes ← put sizes 0 (zlen inp);
        Ret (mkBatch bufs sizes 1 None)
      else if negb (isTCP (gsoType hdr)) && negb (gsoType hdr =? VIRTIO_NET_HDR_GSO_UDP_L4)
      then Ret (mkBatch bufs sizes 0 (Some ErrUnsupportedGSO))
      else
        r ← checkHdr inp hdr;
        match r with
        | inr e => Ret (mkBatch bufs sizes 0 (Some e))
        | inl (hdr, isV6) => gsoSplit inp hdr bufs sizes offset isV6
        end
  end.
End offload.

(** * The device and the channel *)

(** What the [Read] of the device file returns: bytes, with what the buffer
    holds beyond them, or an error. *)
Inductive os_error := EBADFD | OtherErrno.
Inductive dev_read := DevData (data spare : bytes) | DevError (e : os_error).
Inductive read_error := Offload (e : tun_error) | ErrClosed | Errno.

Definition readBuffLen : Z := virtioNetHdrLen + 65535.

(** [nativeTun.read] *)
Definition tun_read (en : endian) (vnetHdr : bool) (r : dev_read) (bufs : list bytes) (sizes : list Z)
    (offset : Z) : outcome (list bytes * list Z * Z * option read_error) :=
  b ← get bufs 0;
  readInto ← slice_from b offset;
  match r with
  | DevError EBADFD => Ret (bufs, sizes, 0, Some ErrClosed)
  | DevError OtherErrno => Ret (bufs, sizes, 0, Some Errno)
  | DevData data spare =>
      if vnetHdr then
        o ← handleVirtioRead en spare (ztake readBuffLen data) bufs sizes offset;
        Ret (b_bufs o, b_sizes o, b_n o, Offload <$> b_err o)
      else
        bufs ← update_buffer bufs 0 offset (λ out, Ret (copy out data).1);
        sizes ← put sizes 0 (Z.min (zlen readInto) (zlen data));
        Ret (bufs, sizes, 1, None)
  end.

Record TUNChannel := mkTUNChannel {
  t_vnetHdr : bool; t_bufs : list bytes; t_sizes : list Z; t_head : Z; t_count : Z }.

Definition IdealBatchSize : Z := 128.
Definition batchSz (vnetHdr : bool) : Z := if vnetHdr then IdealBatchSize else 1.

Definition newChannel (vnetHdr : bool) : TUNChannel :=
  let bs := Z.to_nat (batchSz vnetHdr) in
  mkTUNChannel vnetHdr (replicate bs (make_bytes 65535)) (replicate bs 0) 0 0.

Inductive packet_result :=
| PacketRead (n : Z) (buf : bytes)
| ReadFailed (e : read_error)
| Waiting.

(** [ReadPacket], fed with what the device returns, in order; [Waiting] when
    the device has nothing more. *)
Fixpoint ReadPacket (en : endian) (c : TUNChannel) (reads : list dev_read) (buf : bytes) :
    outcome (TUNChannel * list dev_read * packet_result) :=
  if t_head c <? t_count c then
    b ← get (t_bufs c) (t_head c);
    n ← get (t_sizes c) (t_head c);
    p ← slice_to b n;
    let '(buf, n) := copy buf p in
    Ret (mkTUNChannel (t_vnetHdr c) (t_bufs c) (t_sizes c) (t_head c + 1) (t_count c), reads,
         PacketRead n buf)
  else
    match reads with
    | [] => Ret (c, [], Waiting)
    | r :: reads =>
        o ← tun_read en (t_vnetHdr c) r (t_bufs c) (t_sizes c) 0;
        let '(bufs, sizes, count, err) := o in
        if 0 <? count then
          ReadPacket en (mkTUNChannel (t_vnetHdr c) bufs sizes 0 count) reads buf
        else
          let c := mkTUNChannel (t_vnetHdr c) bufs sizes (t_head c) (t_count c) in
          match err with
          | None | Some (Offload ErrTooManySegments) => ReadPacket en c reads buf
          | Some e => Ret (c, reads, ReadFailed e)
          end
    end.

(** What [WritePacket] and [WritePacketGSO] hand to the device in one call;
    an empty packet is not written. *)
Definition tun_WritePacket (vnetHdr : bool) (data : bytes) : option bytes :=
  if zlen data =? 0 then None
  else Some (if vnetHdr then make_bytes virtioNetHdrLen ++ data else data).

Definition gso_hdr (opts : PacketOptions) : virtioNetHdr :=
  if GSOType opts =? GSONone then mkVirtioNetHdr 0 0 0 0 0 0
  else mkVirtioNetHdr VIRTIO_NET_HDR_F_NEEDS_CSUM (GSOType opts) (HdrLen opts) (GSOSize opts)
         (CsumStart opts) (CsumOffset opts).

Definition tun_WritePacketGSO (en : endian) (vnetHdr : bool) (data : bytes) (opts : PacketOptions) :
    option bytes :=
  if zlen data =? 0 then None
  else if vnetHdr then
    match encode en (gso_hdr opts) (make_bytes virtioNetHdrLen) with
    | inl hdrBuf => Some (hdrBuf ++ data)
    | inr _ => Some (make_bytes virtioNetHdrLen ++ data)
    end
  else Some data.

Definition TUN_GSOEnabled (vnetHdr : bool) : bool := vnetHdr.
Definition TUN_GSOMaxSize (vnetHdr : bool) : Z := if vnetHdr then 65535 - 40 else 0.

(** [MTU]: the device's answer, or 1500 when the request fails. *)
Definition TUN_MTU (r : Z + os_error) : Z := match r with inl mtu => mtu | inr _ => 1500 end.
