(* ===== verification/TunSplit.v ===== *)
(** Theorems on the TUN offload ([TunOffload]): the segments [gsoSplit] makes
    of a large packet, their checksums, and how [ReadPacket] hands them on. *)
From Stdlib Require Import Btauto.
From S2P Require Import Prelude.
From S2P Require Import Tcpip.
From S2P Require Import Checksum.
From S2P Require Import Stack.
From S2P Require Import TunChecksum.
From S2P Require Import TunOffload.

(** * Writing words, without a panic *)
Definition set16 (b : bytes) (o v : Z) : bytes :=
  <[S (Z.to_nat o) := u8 v]> (<[Z.to_nat o := u8 (v / 256)]> b).
Definition set32 (b : bytes) (o v : Z) : bytes :=
  set16 (set16 b o (v / 65536)) (o + 2) v.

Lemma zlen_set16 b o v : zlen (set16 b o v) = zlen b.
Proof. unfold set16. by rewrite !zlen_insert. Qed.
Lemma zlen_set32 b o v : zlen (set32 b o v) = zlen b.
Proof. unfold set32. by rewrite !zlen_set16. Qed.
Lemma bytes_ok_set16 b o v : bytes_ok b → bytes_ok (set16 b o v).
Proof. intros. unfold set16. by do 2 (apply bytes_ok_insert; [|apply u8_range]). Qed.
Lemma bytes_ok_set32 b o v : bytes_ok b → bytes_ok (set32 b o v).
Proof. intros. by do 2 apply bytes_ok_set16. Qed.

Lemma write16_set b o v : 0 ≤ o → o + 2 ≤ zlen b → write16 b o v = Ret (set16 b o v).
Proof. apply write16_ok. Qed.
Lemma write32_set b o v : 0 ≤ o → o + 4 ≤ zlen b → write32 b o v = Ret (set32 b o v).
Proof.
  intros Ho Hl. unfold write32, set32, set16, zlen in *. case_if; [lia|]. case_if; [|lia].
  rewrite !Zdiv.Zdiv_Zdiv by lia. change (65536 * 256) with 16777216.
  replace (Z.to_nat (o + 2)) with (S (S (Z.to_nat o))) by lia. done.
Qed.

Lemma set16_mid a b o v : 0 ≤ o → set16 (a ++ b) (zlen a + o) v = a ++ set16 b o v.
Proof.
  intros Ho. unfold set16, zlen. 
  rewrite !insert_app_r_alt by lia. do 2 f_equal; [lia|]. f_equal. lia.
Qed.
Lemma set16_front a b o v : 0 ≤ o → o + 2 ≤ zlen a → set16 (a ++ b) o v = set16 a o v ++ b.
Proof. intros. unfold set16, zlen in *. by rewrite !insert_app_l by (rewrite ?length_insert; lia). Qed.
Lemma set32_mid a b o v : 0 ≤ o → set32 (a ++ b) (zlen a + o) v = a ++ set32 b o v.
Proof. intros. unfold set32. rewrite set16_mid, <- Z.add_assoc, set16_mid by lia. done. Qed.
Lemma set32_front a b o v : 0 ≤ o → o + 4 ≤ zlen a → set32 (a ++ b) o v = set32 a o v ++ b.
Proof. intros. unfold set32. rewrite !set16_front by (rewrite ?zlen_set16; lia). done. Qed.

(** Writing back what is there changes nothing. *)
Lemma set16_same b o v : bytes_ok b → read16 b o = Ret v → set16 b o v = b.
Proof.
  intros Hb (Ho & x & y & Hx & Hy & ->)%read16_Ret.
  pose proof (Forall_lookup_1 _ _ _ _ Hb Hx). pose proof (Forall_lookup_1 _ _ _ _ Hb Hy).
  destruct (be16_inv x y) as [E1 E2]; [done..|].
  unfold set16. rewrite E1, E2, (list_insert_id _ (Z.to_nat o)) by done. by apply list_insert_id.
Qed.
Lemma set16_u16 b o v : set16 b o (u16 v) = set16 b o v.
Proof.
  unfold set16. replace (u8 (u16 v)) with (u8 v) by (unfold u8, u16; mlia).
  by replace (u8 (u16 v / 256)) with (u8 (v / 256)) by (unfold u8, u16; mlia).
Qed.

Lemma put_ok {A} (b : list A) i v : 0 ≤ i < zlen b → put b i v = Ret (<[Z.to_nat i := v]> b).
Proof.
  intros Hi. unfold put, zlen in *. case_if; [lia|].
  by destruct (lookup_lt_is_Some_2 b (Z.to_nat i)) as [x ->]; [lia|].
Qed.
Lemma read16_set16_ne b o p v : 0 ≤ p → o + 1 < p ∨ p + 1 < o → read16 (set16 b p v) o = read16 b o.
Proof.
  intros Hp Hne. unfold read16, set16. case_if; [done|].
  by rewrite !list_lookup_insert_ne by lia.
Qed.
Lemma read32_set16_ne b o p v : 0 ≤ p → o + 3 < p ∨ p + 1 < o → read32 (set16 b p v) o = read32 b o.
Proof.
  intros Hp Hne. unfold read32, set16. case_if; [done|].
  by rewrite !list_lookup_insert_ne by lia.
Qed.

Lemma read16_set16 b o v : 0 ≤ o → o + 2 ≤ zlen b → read16 (set16 b o v) o = Ret (u16 v).
Proof. intros. apply (read16_write16_same b). by apply write16_set. Qed.
Lemma read32_set32 b o v : 0 ≤ o → o + 4 ≤ zlen b → is_u32 v → read32 (set32 b o v) o = Ret v.
Proof.
  intros Ho Hl Hv. apply read32_Ret. exists (u16 (v / 65536)), (u16 v). unfold set32.
  rewrite read16_set16_ne, !read16_set16 by (rewrite ?zlen_set16; lia). split_and!; [done..|].
  unfold is_u32, u16 in *. mlia.
Qed.

(** Equal outside of the given places. *)
Definition same_but (ps : list Z) (a b : bytes) : Prop :=
  zlen a = zlen b ∧ ∀ j, 0 ≤ j → j ∉ ps → a !! Z.to_nat j = b !! Z.to_nat j.
Lemma same_but_refl ps a : same_but ps a a.
Proof. done. Qed.
Lemma same_but_set16 ps a b o v :
  0 ≤ o → o ∈ ps → o + 1 ∈ ps → same_but ps a b → same_but ps (set16 a o v) b.
Proof.
  intros Ho H1 H2 [Hl Hj]. split; [by rewrite zlen_set16|]. intros j Hj0 Hp. rewrite <- Hj by done.
  assert (j ≠ o ∧ j ≠ o + 1) as [? ?] by naive_solver. unfold set16. by rewrite !list_lookup_insert_ne by lia.
Qed.
Lemma same_but_alter ps a b f k : Z.of_nat k ∈ ps → same_but ps a b → same_but ps (alter f k a) b.
Proof.
  intros Hk [Hl Hj]. split; [unfold zlen in *; by rewrite length_alter|]. intros j Hj0 Hp.
  rewrite list_lookup_alter_ne; [by apply Hj|]. intros ->. rewrite Z2Nat.id in Hk; done.
Qed.

(** [in[i], in[i+1] = 0, 0] *)
Lemma clear2_set b o : 0 ≤ o → o + 2 ≤ zlen b → clear2 b o (o + 1) = Ret (set16 b o 0).
Proof.
  intros Ho Hl. unfold clear2, set16. rewrite put_ok, bind_Ret_l, put_ok by (rewrite ?zlen_insert; lia).
  by replace (Z.to_nat (o + 1)) with (S (Z.to_nat o)) by lia.
Qed.

Lemma zlen_alter {A} (f : A → A) k (b : list A) : zlen (alter f k b) = zlen b.
Proof. unfold zlen. by rewrite length_alter. Qed.

Lemma insert_alter {A} (f : A → A) k (b : list A) x : b !! k = Some x → <[k := f x]> b = alter f k b.
Proof.
  revert b. induction k as [|k IH]; intros [|y b] Hx; try done; cbn in *.
  - by simplify_eq.
  - f_equal. by apply IH.
Qed.

Lemma ldiff_u8 f m : is_u8 f → is_u8 (Z.ldiff f m).
Proof.
  intros Hf. assert (Z.ldiff f m = Z.land (Z.ldiff f m) (2 ^ 8 - 1)) as ->.
  { rewrite <- (u8_id f Hf) at 1. unfold u8. change 256 with (2 ^ 8). rewrite <- land_low by lia.
    apply Z.bits_inj'. intros n _. rewrite !Z.land_spec, !Z.ldiff_spec, Z.land_spec. btauto. }
  rewrite land_low by lia. apply u8_range.
Qed.

(** Slices of a list in parts. *)
Lemma address_bytes b o a : bytes_ok b → read32 b o = Ret a → slice b o (o + 4) = Ret (To4 a).
Proof.
  intros Hb (? & ? & (Ho & x & y & Hx & Hy & ->)%read16_Ret & (_ & z & w & Hz & Hw & ->)%read16_Ret & ->)%read32_Ret.
  replace (Z.to_nat (o + 2)) with (S (S (Z.to_nat o))) in * by lia.
  assert (∀ k v, b !! k = Some v → is_u8 v) as Hu by (intros ??; by apply Forall_lookup_1).
  pose proof (lookup_lt_Some _ _ _ Hw). rewrite <- From4_val by eauto.
  rewrite To4_From4 by eauto. rewrite slice_ok by (unfold zlen; lia). f_equal.
  replace (o + 4 - o) with 4 by lia. unfold ztake, zdrop.
  rewrite (drop_S _ x), (drop_S _ y), (drop_S _ z), (drop_S _ w) by done. done.
Qed.

Lemma slice_app_l (a b : bytes) lo hi s : slice a lo hi = Ret s → slice (a ++ b) lo hi = Ret s.
Proof.
  intros (H1 & H2 & ->)%slice_Ret. pose proof (zlen_nonneg b).
  rewrite slice_ok by (rewrite ?zlen_app; lia). rewrite zdrop_app_le by lia.
  rewrite ztake_app_le; [done|]. rewrite zlen_zdrop; lia.
Qed.

(** * The segments of a packet

    A packet with IP header [ih], transport header [th] and [payload], to be
    split every [g] bytes. *)
Section packet.
Context (tcp : bool) (g : Z) (ih th payload : bytes) (id seq : Z) (src dst : Address).

Definition proto_of : Z := if tcp then IPPROTO_TCP else IPPROTO_UDP.
(** Where the checksum is in the transport header. *)
Definition csum_at : Z := if tcp then 16 else 6.

Record splittable : Prop := {
  sp_ih : bytes_ok ih; sp_th : bytes_ok th; sp_payload : bytes_ok payload;
  sp_ihl : 20 ≤ zlen ih;
  sp_thl : (if tcp then 20 else 8) ≤ zlen th;
  sp_len : zlen ih + zlen th + zlen payload ≤ 65535;
  sp_g : 0 < g;
  sp_id : read16 ih 4 = Ret id;
  sp_src : read32 ih 12 = Ret src;
  sp_dst : read32 ih 16 = Ret dst;
  sp_seq : tcp = true → read32 th 4 = Ret seq }.

Definition piece (i : Z) : bytes := ztake g (zdrop (g * i) payload).
Definition is_last (i : Z) : bool := zlen payload <=? g * (i + 1).
Definition pieces : Z := (zlen payload + g - 1) / g.
Definition seg_len (i : Z) : Z := zlen ih + zlen th + zlen (piece i).

(** The IP header of segment [i]: its own length and identification. *)
Definition seg_ip (i : Z) : bytes :=
  let h := set16 (set16 (set16 ih 10 0) 4 (id + i)) 2 (seg_len i) in
  set16 h 10 (Checksum h 0).

(** Its transport header: the place in the stream and FIN and PSH only at the
    end for TCP, the length for UDP. *)
Definition seg_th0 (i : Z) : bytes :=
  let h := set16 th csum_at 0 in
  if tcp then
    let h := set32 h 4 (u32 (seq + g * i)) in
    if is_last i then h else alter (λ f, Z.ldiff f 9) 13%nat h
  else set16 h 4 (zlen th + zlen (piece i)).
Definition seg_pseudo (i : Z) : Z :=
  PseudoHeaderChecksum proto_of src dst (zlen th + zlen (piece i)).
Definition seg_th (i : Z) : bytes :=
  set16 (seg_th0 i) csum_at (Checksum (seg_th0 i ++ piece i) (seg_pseudo i)).

Definition segment (i : Z) : bytes := seg_ip i ++ seg_th i ++ piece i.

Lemma zlen_seg_ip i : zlen (seg_ip i) = zlen ih.
Proof. unfold seg_ip. by rewrite !zlen_set16. Qed.
Lemma zlen_seg_th0 i : zlen (seg_th0 i) = zlen th.
Proof.
  unfold seg_th0. destruct tcp; [destruct (is_last i)|];
    by rewrite ?zlen_alter, ?zlen_set32, ?zlen_set16.
Qed.
Lemma zlen_seg_th i : zlen (seg_th i) = zlen th.
Proof. unfold seg_th. by rewrite zlen_set16, zlen_seg_th0. Qed.
Lemma zlen_segment i : zlen (segment i) = seg_len i.
Proof. unfold segment, seg_len. rewrite !zlen_app, zlen_seg_ip, zlen_seg_th. lia. Qed.
End packet.

(** * One round of the loop *)
Lemma splitIP_run en h r n i id :
  bytes_ok h → 20 ≤ zlen h ≤ 65535 → read16 h 4 = Ret id → 0 ≤ i →
  splitIP en false (zlen h) n i (h ++ r) =
    Ret (let h' := set16 (set16 h 4 (id + i)) 2 n in set16 h' 10 (Checksum h' 0) ++ r).
Proof.
  intros Hb Hl Hid Hi. pose proof (zlen_nonneg r). unfold splitIP.
  assert ((if 0 <? i then id ← read16 (h ++ r) 4; write16 (h ++ r) 4 (u16 (id + u16 i)) else Ret (h ++ r))
    = Ret (set16 h 4 (id + i) ++ r)) as ->.
  { case_if.
    - assert (read16 (h ++ r) 4 = Ret id) as ->.
      { apply read16_Ret in Hid as (? & x & y & Hx & Hy & ->). apply read16_Ret.
        split; [done|]. exists x, y. by rewrite !(lookup_app_l_Some _ _ _ _ Hx), !(lookup_app_l_Some _ _ _ _ Hy). }
      rewrite bind_Ret_l, write16_set, set16_front by (rewrite ?zlen_app; lia).
      rewrite <- set16_u16. do 2 f_equal. rewrite <- (set16_u16 h 4 (id + i)). f_equal. unfold u16. mlia.
    - replace i with 0 by lia. by rewrite Z.add_0_r, set16_same. }
  rewrite bind_Ret_l, write16_set, set16_front by (rewrite ?zlen_app, ?zlen_set16; lia).
  rewrite set16_u16, bind_Ret_l. set (h' := set16 (set16 h 4 (id + i)) 2 n).
  assert (zlen h' = zlen h) as L by (unfold h'; by rewrite !zlen_set16).
  rewrite <- L at 1. rewrite slice_to_app, bind_Ret_l.
  rewrite write16_set, set16_front by (rewrite ?zlen_app; lia).
  rewrite checksum_plain; [done| |unfold sum_fits; lia]. by do 2 apply bytes_ok_set16.
Qed.

Lemma copy_within_run (a b r t : bytes) lo hi :
  lo = zlen a → hi = zlen a + zlen b → zlen t = zlen b →
  copy_within (a ++ b ++ r) lo hi t = Ret (a ++ t ++ r).
Proof.
  intros -> -> Lt. pose proof (zlen_nonneg a). pose proof (zlen_nonneg b). unfold copy_within.
  rewrite slice_mid, bind_Ret_l by done. f_equal. unfold zlen in Lt.
  rewrite ztake_app_le, ztake_all by lia. f_equal.
  unfold copy. cbn [fst]. rewrite (take_ge t), (drop_ge b), app_nil_r by lia. f_equal.
  rewrite app_assoc, zdrop_app_ge, zdrop_0; [done|..]; rewrite zlen_app; lia.
Qed.

Lemma copy_at_front (a b t : bytes) : zlen t = zlen a → copy_at (a ++ b) 0 t = Ret (t ++ b).
Proof.
  intros Lt. pose proof (zlen_nonneg b). rewrite copy_at_ok by (rewrite ?zlen_app; lia).
  rewrite ztake_0 by lia. rewrite zdrop_app_ge, zdrop_0 by lia. done.
Qed.
Lemma copy_at_mid (a b c t : bytes) o :
  o = zlen a → zlen t = zlen b → copy_at (a ++ b ++ c) o t = Ret (a ++ t ++ c).
Proof.
  intros -> Lt. pose proof (zlen_nonneg a). pose proof (zlen_nonneg b). pose proof (zlen_nonneg c).
  rewrite copy_at_ok by (rewrite ?zlen_app; lia). rewrite ztake_app_le, ztake_all by lia.
  rewrite (app_assoc a b c), zdrop_app_ge, zdrop_0; [done|..]; rewrite zlen_app; lia.
Qed.

(** A buffer cut into three given lengths and a rest. *)
Lemma in_four (out : bytes) p q r :
  0 ≤ p → 0 ≤ q → 0 ≤ r → p + q + r ≤ zlen out →
  ∃ a b c, out = a ++ b ++ c ++ zdrop (p + q + r) out ∧ zlen a = p ∧ zlen b = q ∧ zlen c = r.
Proof.
  intros Hp Hq Hr Hl. exists (ztake p out), (ztake q (zdrop p out)), (ztake r (zdrop (p + q) out)).
  rewrite !zlen_ztake by (rewrite ?zlen_zdrop; lia). split_and!; try done.
  rewrite <- (zdrop_zdrop r (p + q)), ztake_zdrop by lia.
  rewrite <- (zdrop_zdrop q p), ztake_zdrop by lia. by rewrite ztake_zdrop.
Qed.

Lemma read32_mid a b r o v :
  0 ≤ o → read32 b o = Ret v → read32 (a ++ b ++ r) (zlen a + o) = Ret v.
Proof.
  intros Ho. unfold read32, zlen. do 2 (case_if; [lia|]). set (k := Z.to_nat o).
  replace (Z.to_nat (Z.of_nat (length a) + o)) with (length a + k)%nat by lia.
  assert (∀ j w, b !! j = Some w → (a ++ b ++ r) !! (length a + j)%nat = Some w) as Hat.
  { intros j w Hj. rewrite lookup_app_r by lia. rewrite Nat.add_comm, Nat.add_sub. by apply lookup_app_l_Some. }
  rewrite <- !Nat.add_succ_r. destruct (b !! k) eqn:E0; [|done]. destruct (b !! S k) eqn:E1; [|done].
  destruct (b !! S (S k)) eqn:E2; [|done]. destruct (b !! S (S (S k))) eqn:E3; [|done].
  by rewrite (Hat _ _ E0), (Hat _ _ E1), (Hat _ _ E2), (Hat _ _ E3).
Qed.

(** For UDP the sequence number is not used. *)
Lemma gsoLoop_seq en spare fuel inp hdr off isV6 seq1 seq2 i n bufs sizes :
  gsoLoop en spare fuel inp hdr off isV6 IPPROTO_UDP seq1 i n bufs sizes =
  gsoLoop en spare fuel inp hdr off isV6 IPPROTO_UDP seq2 i n bufs sizes.
Proof.
  revert i n bufs sizes. induction fuel as [|fuel IH]; intros; [done|]. cbn [gsoLoop].
  case_if; [|done]. case_if; [done|]. destruct (put sizes i _); try done. rewrite !bind_Ret_l.
  match goal with |- mbind _ ?x = mbind _ ?y => change x with y end.
  destruct (update_buffer _ _ _ _); try done. rewrite !bind_Ret_l. apply IH.
Qed.

Section rounds.
Context (en : endian) (spare : bytes) (fl : Z).
Context (tcp : bool) (g : Z) (ih th payload : bytes) (id seq : Z) (src dst : Address).
Hypothesis Hsp : splittable tcp g ih th payload id seq src dst.

Abbreviation ih0 := (set16 ih 10 0).
Abbreviation th0 := (set16 th (csum_at tcp) 0).
Abbreviation inp0 := (ih0 ++ th0 ++ payload).
Abbreviation Piece := (piece g payload).
Abbreviation Segment := (segment tcp g ih th payload id seq src dst).
Abbreviation SegLen := (seg_len g ih th payload).

Definition split_hdr : virtioNetHdr :=
  mkVirtioNetHdr fl (if tcp then VIRTIO_NET_HDR_GSO_TCPV4 else VIRTIO_NET_HDR_GSO_UDP_L4)
    (zlen ih + zlen th) g (zlen ih) (csum_at tcp).

Lemma thl : csum_at tcp + 2 ≤ zlen th ∧ 0 < csum_at tcp ∧ 8 ≤ zlen th.
Proof. pose proof (sp_thl _ _ _ _ _ _ _ _ _ Hsp). unfold csum_at. destruct tcp; lia. Qed.

Lemma piece_place i :
  0 ≤ i → g * i ≤ zlen payload →
  Piece i = ztake (Z.min (g * (i + 1)) (zlen payload) - g * i) (zdrop (g * i) payload).
Proof.
  intros Hi Hl. pose proof (sp_g _ _ _ _ _ _ _ _ _ Hsp). unfold piece.
  destruct (Z.le_gt_cases (g * (i + 1)) (zlen payload)).
  - f_equal. lia.
  - rewrite !ztake_all; [done|..]; rewrite zlen_zdrop by lia; lia.
Qed.
Lemma zlen_gso_piece i :
  0 ≤ i → g * i ≤ zlen payload → zlen (Piece i) = Z.min (g * (i + 1)) (zlen payload) - g * i.
Proof.
  intros Hi Hl. pose proof (sp_g _ _ _ _ _ _ _ _ _ Hsp).
  rewrite piece_place by done. apply zlen_ztake. rewrite zlen_zdrop by lia. lia.
Qed.

Lemma piece_cut i :
  0 ≤ i → g * i ≤ zlen payload → ∃ P Q, payload = P ++ Piece i ++ Q ∧ zlen P = g * i.
Proof.
  intros Hi Hl. pose proof (sp_g _ _ _ _ _ _ _ _ _ Hsp).
  exists (ztake (g * i) payload), (zdrop g (zdrop (g * i) payload)).
  split; [|apply zlen_ztake; lia]. unfold piece. by rewrite !ztake_zdrop.
Qed.

Lemma splitTransport_run (a r : bytes) i :
  zlen a = zlen ih → 0 ≤ i → g * i < zlen payload →
  splitTransport split_hdr (proto_of tcp) seq i (zlen (Piece i)) (is_last g payload i) (a ++ th0 ++ r) =
    Ret (a ++ seg_th0 tcp g th payload seq i ++ r).
Proof.
  intros La Hi Hl. destruct Hsp as [_ _ _ Hi20 Hth Hlen Hg _ _ _ _]. pose proof (zlen_nonneg r).
  pose proof thl as (Hc & Hc0 & Hth8).
  assert (i ≤ g * i) by nia. pose proof (zlen_gso_piece i Hi ltac:(lia)).
  unfold splitTransport, split_hdr. cbn [csumStart hdrLen gsoSize].
  assert (zlen th0 = zlen th) as Lt by apply zlen_set16.
  assert (∀ o, 0 ≤ o < 256 → o ≤ zlen th → u16 (zlen ih + o) = zlen a + o) as Hat.
  { intros o Ho Ho'. rewrite u16_id by ulia. lia. }
  rewrite (Hat 4) by lia. unfold proto_of, seg_th0. destruct tcp; cbn [csum_at] in *.
  - change (IPPROTO_TCP =? IPPROTO_TCP) with true. cbv iota.
    rewrite (u16_id i), (u16_id (g * i)) by ulia.
    rewrite write32_set, set32_mid, set32_front, bind_Ret_l by (rewrite ?zlen_app; lia).
    destruct (is_last g payload i); [done|]. change tcpFlagsOffset with 13.
    rewrite (Hat 13) by lia. set (h := set32 _ 4 _).
    assert (zlen h = zlen th) as Lh by (unfold h; by rewrite zlen_set32).
    destruct (lookup_lt_is_Some_2 h 13%nat) as [x Hx]; [unfold zlen in *; lia|].
    assert (get (a ++ h ++ r) (zlen a + 13) = Ret x) as ->.
    { apply get_Ret. split; [lia|]. rewrite lookup_app_r by (unfold zlen; lia).
      replace (Z.to_nat (zlen a + 13) - length a)%nat with 13%nat by (unfold zlen; lia).
      by apply lookup_app_l_Some. }
    rewrite bind_Ret_l, put_ok by (rewrite !zlen_app; lia). f_equal.
    replace (Z.to_nat (zlen a + 13)) with (length a + 13)%nat by (unfold zlen; lia).
    rewrite insert_app_r, insert_app_l by (unfold zlen in *; lia). do 2 f_equal.
    change (Z.lor tcpFlagFIN tcpFlagPSH) with 9. exact (insert_alter (λ f, Z.ldiff f 9) _ _ _ Hx).
  - change (IPPROTO_UDP =? IPPROTO_TCP) with false. cbv iota.
    rewrite write16_set, set16_mid, set16_front by (rewrite ?zlen_app; lia). do 3 f_equal.
    rewrite (u16_id (zlen (Piece i))) by ulia.
    replace (zlen ih + zlen th - zlen ih) with (zlen th) by lia. rewrite (u16_id (zlen th)), u16_id by ulia.
    f_equal. lia.
Qed.

Lemma bytes_ok_seg_th0 i : bytes_ok (seg_th0 tcp g th payload seq i).
Proof.
  pose proof (sp_th _ _ _ _ _ _ _ _ _ Hsp) as Ht. unfold seg_th0.
  destruct tcp; [destruct (is_last g payload i)|]; repeat first [apply bytes_ok_set16 | apply bytes_ok_set32];
    try done.
  apply Forall_alter; [by apply bytes_ok_set32, bytes_ok_set16|].
  intros f _ Hf. by apply ldiff_u8.
Qed.

Lemma bytes_ok_piece i : bytes_ok (Piece i).
Proof. apply Forall_take, Forall_drop, (sp_payload _ _ _ _ _ _ _ _ _ Hsp). Qed.

(** What a round reads of the packet. *)
Lemma input_slices i :
  0 ≤ i → g * i ≤ zlen payload →
  slice_to (inp0 ++ spare) (zlen ih) = Ret ih0 ∧
  slice (inp0 ++ spare) (zlen ih) (zlen ih + zlen th) = Ret th0 ∧
  slice (inp0 ++ spare) (zlen ih + zlen th + g * i) (zlen ih + zlen th + g * i + zlen (Piece i)) = Ret (Piece i) ∧
  slice (inp0 ++ spare) 12 16 = Ret (To4 src) ∧ slice (inp0 ++ spare) 16 20 = Ret (To4 dst).
Proof.
  intros Hi Hl. destruct (piece_cut i Hi Hl) as (P & Q & Epl & LP).
  pose proof Hsp as [Hbi _ _ _ _ _ _ _ Hsrc Hdst _].
  assert (zlen ih0 = zlen ih) as L0 by apply zlen_set16.
  assert (zlen th0 = zlen th) as L1 by apply zlen_set16. split_and!.
  - rewrite <- app_assoc, <- L0. apply slice_to_app.
  - rewrite <- !app_assoc. apply slice_mid; lia.
  - rewrite Epl at 1. rewrite <- !app_assoc, !(app_assoc _ th0), !(app_assoc _ P).
    apply slice_mid; rewrite !zlen_app; lia.
  - rewrite <- app_assoc. apply slice_app_l, (address_bytes _ 12); [by apply bytes_ok_set16|].
    by rewrite read32_set16_ne by lia.
  - rewrite <- app_assoc. apply slice_app_l, (address_bytes _ 16); [by apply bytes_ok_set16|].
    by rewrite read32_set16_ne by lia.
Qed.

Lemma splitSegment_run i out :
  0 ≤ i → g * i < zlen payload → SegLen i ≤ zlen out →
  splitSegment en spare inp0 split_hdr false (proto_of tcp) seq i (zlen ih + zlen th + g * i)
    (Z.min (zlen ih + zlen th + g * i + g) (zlen inp0)) out = Ret (Segment i ++ zdrop (SegLen i) out).
Proof.
  intros Hi Hl Hout. pose proof (zlen_gso_piece i Hi ltac:(lia)) as Lp. pose proof thl as (Hc & Hc0 & Hth8).
  pose proof Hsp as [Hbi Hbt Hbp Hi20 Hth Hlen Hg Hid Hsrc Hdst _].
  assert (zlen ih0 = zlen ih) as L0 by apply zlen_set16.
  assert (zlen th0 = zlen th) as L1 by apply zlen_set16.
  assert (zlen inp0 = zlen ih + zlen th + zlen payload) as Li by (rewrite !zlen_app; lia).
  set (e := Z.min _ _). assert (e = zlen ih + zlen th + g * i + zlen (Piece i)) as Ee by lia.
  destruct (in_four out (zlen ih) (zlen th) (zlen (Piece i))) as (A & J & K & Eout & LA & LJ & LK);
    [lia|lia|apply zlen_nonneg|unfold seg_len in Hout; lia|]. fold (SegLen i) in Eout.
  set (R := zdrop (SegLen i) out) in *. clearbody R e. subst out e. pose proof (zlen_nonneg R).
  unfold splitSegment. cbn [csumStart hdrLen split_hdr csumOffset]. rewrite Li. unfold ipv4SrcAddrOffset.
  change (12 + 4) with 16. change (12 + 4 * 2) with 20.
  replace (_ + zlen (Piece i) - _) with (zlen (Piece i)) by lia.
  destruct (input_slices i Hi ltac:(lia)) as (-> & -> & -> & -> & ->).
  rewrite !bind_Ret_l, copy_at_front, bind_Ret_l by lia.
  pose proof (splitIP_run en ih0 (J ++ K ++ R) (SegLen i) i id ltac:(by apply bytes_ok_set16) ltac:(lia)
    ltac:(by rewrite read16_set16_ne by lia) Hi) as E. rewrite L0 in E. fold (SegLen i). rewrite E. clear E.
  rewrite bind_Ret_l. cbv zeta. fold (seg_ip g ih th payload id i).
  pose proof (zlen_seg_ip g ih th payload id i) as LI. unfold segment. set (I := seg_ip _ _ _ _ _ _) in *.
  rewrite bind_Ret_l, copy_within_run, bind_Ret_l by lia.
  assert ((zlen ih + zlen th + g * i + zlen (Piece i) =? zlen ih + zlen th + zlen payload) = is_last g payload i)
    as -> by (unfold is_last; lia).
  rewrite splitTransport_run, bind_Ret_l by lia.
  pose proof (zlen_seg_th0 tcp g th payload seq i) as LT. pose proof (bytes_ok_seg_th0 i) as HT.
  unfold seg_th. set (T := seg_th0 _ _ _ _ _ _) in *.
  rewrite bind_Ret_l, (app_assoc I T), copy_at_mid, !bind_Ret_l, <- app_assoc by (rewrite ?zlen_app; lia).
  assert (slice (I ++ T ++ Piece i ++ R) (zlen ih) (SegLen i) = Ret (T ++ Piece i)) as ->.
  { rewrite (app_assoc T). apply slice_mid; rewrite ?zlen_app; unfold seg_len; lia. }
  replace (zlen ih + zlen th - zlen ih) with (zlen th) by lia. rewrite (u16_id (zlen th)), !u16_id by ulia.
  rewrite bind_Ret_l, checksum_transport.
  - fold (seg_pseudo tcp g th payload src dst i). rewrite <- LI, write16_set, set16_mid, set16_front
      by (rewrite ?zlen_app; lia). by rewrite <- !app_assoc.
  - apply Forall_app. split; [done|apply bytes_ok_piece].
  - unfold sum_fits. rewrite zlen_app. lia.
  - unfold proto_of. by destruct tcp.
Qed.

(** A buffer with a segment stored at the offset. *)
Definition place (off : Z) (p b : bytes) : bytes := ztake off b ++ p ++ zdrop (off + zlen p) b.

Lemma zlen_place off p b : 0 ≤ off → off + zlen p ≤ zlen b → zlen (place off p b) = zlen b.
Proof.
  intros Ho Hl. pose proof (zlen_nonneg p). unfold place.
  rewrite !zlen_app, zlen_ztake, zlen_zdrop by lia. lia.
Qed.

Lemma update_buffer_run (bufs : list bytes) i off b f :
  0 ≤ i → bufs !! Z.to_nat i = Some b → 0 ≤ off ≤ zlen b →
  update_buffer bufs i off f = (out ← f (zdrop off b); Ret (<[Z.to_nat i := ztake off b ++ out]> bufs)).
Proof.
  intros Hi Hb Ho. unfold update_buffer. assert (get bufs i = Ret b) as -> by by apply get_Ret.
  rewrite bind_Ret_l, slice_from_ok, bind_Ret_l by lia. destruct (f (zdrop off b)) as [out| |]; try done.
  cbn. apply put_ok. apply lookup_lt_Some in Hb. unfold zlen. lia.
Qed.

Lemma pieces_lt i : 0 ≤ i → i < pieces g payload ↔ g * i < zlen payload.
Proof.
  intros Hi. pose proof (sp_g _ _ _ _ _ _ _ _ _ Hsp). unfold pieces.
  split; intros H1.
  - assert (g * (i + 1) ≤ zlen payload + g - 1); [|lia].
    pose proof (Z.mul_div_le (zlen payload + g - 1) g ltac:(lia)). nia.
  - apply Z.lt_le_trans with (i + 1); [lia|]. apply Z.div_le_lower_bound; lia.
Qed.

(** The batch after the loop: the buffers from [i] on hold the segments, as
    many as there are buffers. *)
Definition filled (i off : Z) (bufs bufs' : list bytes) (sizes sizes' : list Z) : Prop :=
  (∀ j b, bufs !! j = Some b → bufs' !! j =
     Some (if (i <=? Z.of_nat j) && (Z.of_nat j <? pieces g payload)
           then place off (Segment (Z.of_nat j)) b else b)) ∧
  (∀ j n, sizes !! j = Some n → sizes' !! j =
     Some (if (i <=? Z.of_nat j) && (Z.of_nat j <? Z.min (pieces g payload) (zlen bufs))
           then SegLen (Z.of_nat j) else n)) ∧
  length bufs' = length bufs ∧ length sizes' = length sizes.

Definition loop_result (bufs' : list bytes) (sizes' : list Z) : batch :=
  if pieces g payload <=? zlen bufs' then mkBatch bufs' sizes' (pieces g payload) None
  else mkBatch bufs' sizes' (zlen bufs' - 1) (Some ErrTooManySegments).

Lemma filled_none i off bufs sizes :
  pieces g payload ≤ i ∨ zlen bufs ≤ i → filled i off bufs bufs sizes sizes.
Proof.
  intros Hi. split_and!; [..|done|done]; intros j x Hj; case_if; try done;
    apply lookup_lt_Some in Hj; unfold zlen in *; lia.
Qed.

Lemma filled_step i off bufs bufs' sizes sizes' b :
  0 ≤ i < pieces g payload → i < zlen bufs ≤ zlen sizes → bufs !! Z.to_nat i = Some b →
  filled (i + 1) off (<[Z.to_nat i := place off (Segment i) b]> bufs) bufs'
    (<[Z.to_nat i := SegLen i]> sizes) sizes' →
  filled i off bufs bufs' sizes sizes'.
Proof.
  intros Hi Hn Hb (H1 & H2 & H3 & H4). rewrite length_insert in H3. rewrite length_insert in H4.
  rewrite zlen_insert in H2. split_and!; [..|done|done].
  - intros j x Hj. destruct (decide (j = Z.to_nat i)) as [->|Hne].
    + simplify_eq. erewrite H1 by (apply list_lookup_insert_eq; eauto using lookup_lt_Some).
      rewrite Z2Nat.id by lia. do 2 (case_if; [|try lia]); try done; lia.
    + erewrite H1 by (rewrite list_lookup_insert_ne by done; done). do 2 case_if; try done; lia.
  - intros j x Hj. destruct (decide (j = Z.to_nat i)) as [->|Hne].
    + erewrite H2 by (apply list_lookup_insert_eq; eauto using lookup_lt_Some).
      rewrite Z2Nat.id by lia. do 2 case_if; try done; lia.
    + erewrite H2 by (rewrite list_lookup_insert_ne by done; done). do 2 case_if; try done; lia.
Qed.

Lemma gsoLoop_run off fuel i bufs sizes :
  0 ≤ off → 0 ≤ i ≤ pieces g payload → i ≤ zlen bufs ≤ zlen sizes → zlen bufs < i + Z.of_nat fuel →
  Forall (λ b, off + zlen ih + zlen th + Z.min g (zlen payload) ≤ zlen b) bufs →
  ∃ bufs' sizes', gsoLoop en spare fuel inp0 split_hdr off false (proto_of tcp) seq i
      (zlen ih + zlen th + g * i) bufs sizes = Ret (loop_result bufs' sizes') ∧
    filled i off bufs bufs' sizes sizes'.
Proof.
  intros Hoff. revert i bufs sizes. induction fuel as [|fuel IH]; intros i bufs sizes Hi Hn Hf Hbufs; [lia|].
  assert (zlen inp0 = zlen ih + zlen th + zlen payload) as Li by (rewrite !zlen_app, !zlen_set16; lia).
  pose proof (pieces_lt i ltac:(lia)) as Hlt. cbn [gsoLoop]. rewrite Li.
  pose proof (sp_g _ _ _ _ _ _ _ _ _ Hsp) as Hg.
  pose proof (zlen_nonneg ih). pose proof (zlen_nonneg th).
  destruct (Z.ltb_spec (zlen ih + zlen th + g * i) (zlen ih + zlen th + zlen payload)) as [Hm|Hm].
  2: { exists bufs, sizes. unfold loop_result. rewrite (proj2 (Z.leb_le _ _)) by lia.
       split; [do 2 f_equal; lia|]. apply filled_none. lia. }
  destruct (Z.eqb_spec i (zlen bufs)) as [->|Hne].
  { exists bufs, sizes. unfold loop_result. rewrite (proj2 (Z.leb_gt _ _)) by lia.
    split; [done|]. apply filled_none. lia. }
  destruct (lookup_lt_is_Some_2 bufs (Z.to_nat i)) as [b Hb]; [unfold zlen in *; lia|].
  pose proof (Forall_lookup_1 _ _ _ _ Hbufs Hb) as Lb. cbn beta in Lb.
  pose proof (zlen_gso_piece i ltac:(lia) ltac:(lia)) as Lp.
  assert (SegLen i ≤ zlen (zdrop off b)) as Lout by (unfold seg_len; rewrite zlen_zdrop; lia).
  cbn [gsoSize hdrLen split_hdr].
  replace (zlen ih + zlen th + (_ - _)) with (SegLen i) by (unfold seg_len; lia).
  rewrite put_ok, bind_Ret_l, (update_buffer_run _ _ _ b) by (try done; lia).
  pose proof (splitSegment_run i (zdrop off b) ltac:(lia) ltac:(lia) Lout) as E. rewrite Li in E.
  rewrite E, bind_Ret_l, bind_Ret_l. replace (_ + g * i + g) with (zlen ih + zlen th + g * (i + 1)) by lia.
  assert (ztake off b ++ Segment i ++ zdrop (SegLen i) (zdrop off b) = place off (Segment i) b) as ->.
  { unfold place. rewrite zlen_segment, zdrop_zdrop; [done|unfold seg_len; lia|done]. }
  destruct (IH (i + 1) (<[Z.to_nat i := place off (Segment i) b]> bufs) (<[Z.to_nat i := SegLen i]> sizes))
    as (bufs' & sizes' & E' & Hfill); [lia|rewrite !zlen_insert; lia|rewrite zlen_insert; lia|..].
  { apply Forall_insert; [done|]. rewrite zlen_place; [done|done|]. rewrite zlen_segment. unfold seg_len. lia. }
  exists bufs', sizes'. split; [exact E'|]. eapply filled_step; eauto; lia.
Qed.

Lemma seg_len_le i :
  0 ≤ i → g * i < zlen payload → zlen ih + zlen th < SegLen i ≤ zlen ih + zlen th + Z.min g (zlen payload).
Proof.
  intros Hi Hl. pose proof (sp_g _ _ _ _ _ _ _ _ _ Hsp). unfold seg_len. rewrite zlen_gso_piece by lia.
  assert (0 ≤ g * i) by nia. lia.
Qed.

(** What the segments are. *)
Lemma seg_ip_ok i :
  0 ≤ i → g * i < zlen payload →
  let h := seg_ip g ih th payload id i in
  read16 h 2 = Ret (SegLen i) ∧ read16 h 4 = Ret (u16 (id + i)) ∧ Checksum h 0 = 0 ∧
  same_but [2; 3; 4; 5; 10; 11] h ih ∧ bytes_ok h.
Proof.
  intros Hi Hl. pose proof Hsp as [Hbi _ _ Hi20 _ Hlen Hg _ _ _ _]. assert (0 ≤ g * i) by nia.
  pose proof (zlen_gso_piece i Hi ltac:(lia)) as Lp. pose proof (zlen_nonneg (Piece i)). pose proof (zlen_nonneg th).
  unfold seg_ip. cbv zeta. set (h := set16 (set16 _ 4 _) 2 _).
  assert (bytes_ok h) as Hh by by do 3 apply bytes_ok_set16.
  assert (zlen h = zlen ih) as Lh by (unfold h; by rewrite !zlen_set16). split_and!.
  - unfold h. rewrite read16_set16_ne, read16_set16 by (rewrite ?zlen_set16; lia).
    by rewrite u16_id by (unfold seg_len; ulia).
  - unfold h. by rewrite !read16_set16_ne, read16_set16 by (rewrite ?zlen_set16; lia).
  - apply (Checksum_filled h 10 h _ 0); [done|unfold sum_fits; lia|done|by exists 5|..].
    + rewrite write16_set by lia. f_equal. apply set16_same; [done|].
      unfold h. by rewrite !read16_set16_ne, read16_set16 by (rewrite ?zlen_set16; lia).
    + apply write16_set; lia.
  - repeat (apply same_but_set16; [lia|set_solver..|]). apply same_but_refl.
  - by apply bytes_ok_set16.
Qed.

Lemma seg_th0_clear i : read16 (seg_th0 tcp g th payload seq i) (csum_at tcp) = Ret 0.
Proof.
  pose proof thl as (Hc & Hc0 & _). unfold seg_th0, csum_at in *. destruct tcp.
  - set (h := set32 _ _ _). assert (read16 h 16 = Ret 0) as E.
    { unfold h, set32. by rewrite !read16_set16_ne, read16_set16 by lia. }
    destruct (is_last g payload i); [done|]. unfold read16 in *. cbn [Z.ltb Z.compare] in *.
    by rewrite !list_lookup_alter_ne.
  - by rewrite read16_set16_ne, read16_set16 by lia.
Qed.

Lemma seg_th_ok i :
  0 ≤ i → g * i < zlen payload →
  let t := seg_th tcp g th payload seq src dst i in
  Checksum (t ++ Piece i) (seg_pseudo tcp g th payload src dst i) = 0 ∧ bytes_ok t ∧
  (if tcp then read32 t 4 = Ret (u32 (seq + g * i)) ∧
     t !! 13%nat = (λ f, if is_last g payload i then f else Z.ldiff f 9) <$> th !! 13%nat ∧
     same_but [4; 5; 6; 7; 13; 16; 17] t th
   else read16 t 4 = Ret (zlen th + zlen (Piece i)) ∧ same_but [4; 5; 6; 7] t th).
Proof.
  intros Hi Hl. pose proof Hsp as [_ Hbt _ Hi20 Hthl Hlen Hg _ _ _ _]. assert (0 ≤ g * i) by nia.
  pose proof thl as (Hc & Hc0 & _). pose proof (zlen_gso_piece i Hi ltac:(lia)) as Lp.
  pose proof (bytes_ok_seg_th0 i) as HT. pose proof (bytes_ok_piece i) as HP.
  pose proof (zlen_seg_th0 tcp g th payload seq i) as LT.
  assert (read16 (seg_th0 tcp g th payload seq i) (csum_at tcp) = Ret 0) as Hz by by apply seg_th0_clear.
  unfold seg_th. cbv zeta.
  set (c := Checksum (seg_th0 tcp g th payload seq i ++ Piece i) _). split_and!.
  - rewrite <- set16_front by lia.
    apply (Checksum_filled (seg_th0 tcp g th payload seq i ++ Piece i) (csum_at tcp) (seg_th0 tcp g th payload seq i ++ Piece i)).
    + by apply Forall_app.
    + unfold sum_fits. rewrite zlen_app. lia.
    + apply PseudoHeaderChecksum_range.
    + unfold csum_at. destruct tcp; [by exists 8|by exists 3].
    + rewrite write16_set, set16_front by (rewrite ?zlen_app; lia). by rewrite set16_same.
    + apply write16_set; [lia|rewrite zlen_app; lia].
  - by apply bytes_ok_set16.
  - clear HT HP LT Hz. clearbody c. unfold seg_th0, csum_at in *. destruct tcp.
    + rewrite read32_set16_ne by lia. set (h := set32 _ _ _).
      assert (read32 h 4 = Ret (u32 (seq + g * i))) as E by (apply read32_set32; rewrite ?zlen_set16; lia || apply u32_range).
      assert (h !! 13%nat = th !! 13%nat) as E13.
      { unfold h, set32, set16. by rewrite !list_lookup_insert_ne by lia. }
      assert (same_but [4; 5; 6; 7; 13; 16; 17] h th) as Hs.
      { unfold h, set32. repeat (apply same_but_set16; [lia|set_solver..|]). apply same_but_refl. }
      rewrite <- E13. assert (∀ x, set16 x 16 c !! 13%nat = x !! 13%nat) as E16.
      { intros x. unfold set16. by rewrite !list_lookup_insert_ne by lia. }
      destruct (is_last g payload i); rewrite E16; (split_and!; [..|apply same_but_set16; [lia|set_solver..|]]).
      * done.
      * by destruct (h !! 13%nat).
      * done.
      * unfold read32 in *. cbn [Z.ltb Z.compare] in *. by rewrite !list_lookup_alter_ne.
      * apply list_lookup_alter_eq.
      * by apply same_but_alter; [set_solver|].
    + rewrite read16_set16_ne, read16_set16 by (rewrite ?zlen_set16; lia). rewrite u16_id by ulia.
      split; [done|]. repeat (apply same_but_set16; [lia|set_solver..|]). apply same_but_refl.
Qed.

(** [gsoSplit] clears the checksums and runs the loop. *)
Lemma gsoSplit_run off bufs sizes :
  0 ≤ off → zlen bufs ≤ zlen sizes →
  Forall (λ b, off + zlen ih + zlen th + Z.min g (zlen payload) ≤ zlen b) bufs →
  ∃ bufs' sizes', gsoSplit en spare (ih ++ th ++ payload) split_hdr bufs sizes off false =
      Ret (loop_result bufs' sizes') ∧ filled 0 off bufs bufs' sizes sizes'.
Proof.
  intros Hoff Hn Hbufs. pose proof Hsp as [_ _ _ Hi20 _ Hlen Hg _ _ _ Hseq]. pose proof thl as (Hc & Hc0 & Hth8).
  pose proof (zlen_nonneg payload). pose proof (zlen_nonneg bufs).
  unfold gsoSplit. rewrite (clear2_set _ 10), bind_Ret_l, set16_front by (rewrite ?zlen_app; lia).
  cbn [csumStart csumOffset gsoType split_hdr]. rewrite (u16_id (zlen ih + csum_at tcp)) by ulia.
  rewrite clear2_set, bind_Ret_l by (rewrite ?zlen_app, ?zlen_set16; lia).
  rewrite <- (zlen_set16 ih 10 0), set16_mid, set16_front by lia. rewrite zlen_set16.
  assert ((if isTCP (if tcp then VIRTIO_NET_HDR_GSO_TCPV4 else VIRTIO_NET_HDR_GSO_UDP_L4)
           then read32 inp0 (u16 (zlen ih + 4)) else Ret 0) = Ret (if tcp then seq else 0)) as ->.
  { destruct tcp; [|done]. rewrite u16_id by ulia. cbn. rewrite <- (zlen_set16 ih 10 0).
    apply read32_mid; [lia|]. rewrite read32_set16_ne by (cbn; lia). by apply Hseq. }
  rewrite bind_Ret_l.
  destruct (gsoLoop_run off (S (length bufs)) 0 bufs sizes) as (bufs' & sizes' & E & Hf); [done|..].
  - split; [done|]. unfold pieces. apply Z.div_pos; lia.
  - lia.
  - unfold zlen. lia.
  - done.
  - exists bufs', sizes'. split; [|done]. rewrite Z.mul_0_r, Z.add_0_r in E. rewrite <- E.
    destruct tcp; [done|]. apply gsoLoop_seq.
Qed.

(** The pieces make up the payload. *)
Lemma pieces_concat : concat ((λ j, Piece (Z.of_nat j)) <$> List.seq 0 (Z.to_nat (pieces g payload))) = payload.
Proof.
  pose proof (sp_g _ _ _ _ _ _ _ _ _ Hsp) as Hg.
  assert (∀ n, concat ((λ j, Piece (Z.of_nat j)) <$> List.seq 0 n) = ztake (g * Z.of_nat n) payload) as ->.
  { induction n as [|n IH]; [by rewrite ztake_0 by lia|].
    rewrite seq_S, fmap_app, concat_app, IH. cbn. rewrite app_nil_r. unfold piece.
    rewrite <- (ztake_zdrop (g * Z.of_nat n) (ztake (g * Z.of_nat (S n)) payload)).
    rewrite ztake_ztake, Z.min_l by nia. f_equal. rewrite ztake_zdrop_comm by nia. do 2 f_equal. lia. }
  apply ztake_all. destruct (Z.le_gt_cases 0 (pieces g payload)) as [Hp|Hp].
  - pose proof (pieces_lt (pieces g payload) Hp). lia.
  - pose proof (zlen_nonneg payload). unfold pieces in Hp. pose proof (Z.div_pos (zlen payload + g - 1) g). lia.
Qed.
End rounds.

(** * From the device to the segments *)
Lemma native_put_get16 en v : is_u16 v → native_get en (native_put16 en v) = v.
Proof.
  intros Hv. assert (le_val (le_bytes 2 v) = v) by (apply le_val_bytes; change (256 ^ Z.of_nat 2) with 65536; ulia).
  destruct en; cbn -[le_bytes le_val]; [done|]. unfold be_val. by rewrite reverse_involutive.
Qed.

Definition hdr_ok (v : virtioNetHdr) : Prop :=
  is_u8 (flags v) ∧ is_u8 (gsoType v) ∧ is_u16 (hdrLen v) ∧ is_u16 (gsoSize v) ∧
  is_u16 (csumStart v) ∧ is_u16 (csumOffset v).

Lemma decode_hdr en v rest : hdr_ok v → decode en (hdr_memory en v ++ rest) = inl v.
Proof.
  intros (_ & _ & H1 & H2 & H3 & H4). pose proof (native_put_get16 en) as H.
  apply H in H1, H2, H3, H4. destruct v as [f t h g c o]. unfold hdr_memory. cbn [flags gsoType hdrLen gsoSize csumStart csumOffset] in *.
  rewrite <- H1, <- H2, <- H3, <- H4 at 2. by destruct en.
Qed.

(** A packet the kernel hands over for splitting: the transport header says
    its own length, as [handleVirtioRead] reads it; what the virtio header
    gives as [hdrLen] is not used. *)
Record kernel_packet (v : virtioNetHdr) (tcp : bool) (ih th payload : bytes) (id seq : Z) (src dst : Address) :
    Prop := {
  kp_split : splittable tcp (gsoSize v) ih th payload id seq src dst;
  kp_hdr : hdr_ok v;
  kp_type : gsoType v = if tcp then VIRTIO_NET_HDR_GSO_TCPV4 else VIRTIO_NET_HDR_GSO_UDP_L4;
  kp_start : csumStart v = zlen ih;
  kp_offset : csumOffset v = csum_at tcp;
  kp_version : ∃ b, ih !! 0%nat = Some b ∧ Z.shiftr b 4 = 4;
  kp_thl : if tcp then ∃ b, th !! 12%nat = Some b ∧ Z.shiftr b 4 * 4 = zlen th else zlen th = 8 }.

Lemma checkHdr_ok v tcp ih th payload id seq src dst :
  kernel_packet v tcp ih th payload id seq src dst →
  checkHdr (ih ++ th ++ payload) v = Ret (inl (split_hdr (flags v) tcp (gsoSize v) ih th, false)).
Proof.
  intros [Hsp _ Ht Hs Ho (b0 & Hb0 & Hv) Hl]. pose proof (thl _ _ _ _ _ _ _ _ _ Hsp) as (Hc & Hc0 & Hth8).
  destruct Hsp as [_ Hbt _ Hi20 Hthl Hlen _ _ _ _ _]. pose proof (zlen_nonneg payload). unfold checkHdr.
  assert (get (ih ++ th ++ payload) 0 = Ret b0) as -> by (apply get_Ret; split; [done|by apply lookup_app_l_Some]).
  rewrite bind_Ret_l, Hv, Ht, Hs, Ho. change (negb ((4 =? 4) || (4 =? 6))) with false. cbv iota.
  match goal with |- (if ?x then _ else _) = _ => assert (x = false) as -> by by destruct tcp end.
  change (4 =? 6) with false. rewrite !andb_false_l. cbv iota.
  set (n := zlen (ih ++ th ++ payload)). assert (n = zlen ih + zlen th + zlen payload) as En
    by (unfold n; rewrite !zlen_app; lia).
  match goal with |- (?x ≫= _) = _ => assert (x = Ret (inl (zlen ih + zlen th))) as -> end.
  { destruct tcp; cbn [Z.eqb VIRTIO_NET_HDR_GSO_TCPV4 VIRTIO_NET_HDR_GSO_UDP_L4 Pos.eqb].
    - destruct Hl as (b & Hb & El). rewrite u16_id by ulia. rewrite (proj2 (Z.leb_gt _ _)) by lia.
      assert (get (ih ++ th ++ payload) (zlen ih + 12) = Ret b) as ->.
      { apply get_Ret. split; [lia|]. rewrite lookup_app_r by (unfold zlen; lia).
        replace (Z.to_nat (zlen ih + 12) - length ih)%nat with 12%nat by (unfold zlen; lia).
        by apply lookup_app_l_Some. }
      pose proof (Forall_lookup_1 _ _ _ _ Hbt Hb) as Hu. rewrite shiftr_div in El by lia.
      change (2 ^ 4) with 16 in El. assert (b / 16 ≤ 15) by (unfold is_u8 in Hu; mlia).
      rewrite bind_Ret_l, shiftr_div by lia. change (2 ^ 4) with 16. rewrite El, u8_id by ulia.
      rewrite !(proj2 (Z.ltb_ge _ _)) by lia. cbn [orb]. by rewrite u16_id by ulia.
    - rewrite Hl, u16_id by ulia. done. }
  rewrite bind_Ret_l, (u16_id (zlen ih + csum_at tcp)) by ulia.
  do 3 (rewrite (proj2 (Z.ltb_ge _ _)) || rewrite (proj2 (Z.leb_gt _ _)); [|lia]). done.
Qed.

Lemma handleVirtioRead_gso en spare v tcp ih th payload id seq src dst bufs sizes off :
  kernel_packet v tcp ih th payload id seq src dst →
  handleVirtioRead en spare (hdr_memory en v ++ ih ++ th ++ payload) bufs sizes off =
  gsoSplit en spare (ih ++ th ++ payload) (split_hdr (flags v) tcp (gsoSize v) ih th) bufs sizes off false.
Proof.
  intros Hk. pose proof (checkHdr_ok _ _ _ _ _ _ _ _ _ Hk) as Ec. destruct Hk as [_ Hok Ht _ _ _ _].
  unfold handleVirtioRead. rewrite decode_hdr by done.
  assert (slice_from (hdr_memory en v ++ ih ++ th ++ payload) virtioNetHdrLen = Ret (ih ++ th ++ payload)) as ->
    by (by destruct en). rewrite bind_Ret_l.
  assert ((gsoType v =? VIRTIO_NET_HDR_GSO_NONE) = false) as -> by (rewrite Ht; by destruct tcp).
  assert (negb (isTCP (gsoType v)) && negb (gsoType v =? VIRTIO_NET_HDR_GSO_UDP_L4) = false) as ->
    by (rewrite Ht; by destruct tcp).
  by rewrite Ec, bind_Ret_l.
Qed.

(** ** One packet per call *)
Fixpoint read_packets (en : endian) (n : nat) (c : TUNChannel) (reads : list dev_read) (buf : bytes) :
    outcome (TUNChannel * list dev_read * list bytes) :=
  match n with
  | O => Ret (c, reads, [])
  | S n =>
      r ← ReadPacket en c reads buf;
      match r with
      | (c, reads, PacketRead k b) =>
          r ← read_packets en n c reads b;
          let '(c, reads, ps) := r in Ret (c, reads, ztake k b :: ps)
      | (c, reads, _) => Ret (c, reads, [])
      end
  end.

(** The batch of a channel from [t_head] on holds the packets [ps]. *)
Definition holds_batch (c : TUNChannel) (ps : list bytes) : Prop :=
  0 ≤ t_head c ∧ t_count c = t_head c + zlen ps ∧
  ∀ j p, ps !! j = Some p →
    (∃ rest, t_bufs c !! (Z.to_nat (t_head c) + j)%nat = Some (p ++ rest)) ∧
    t_sizes c !! (Z.to_nat (t_head c) + j)%nat = Some (zlen p).

Lemma ReadPacket_buffered en c reads buf p ps :
  holds_batch c (p :: ps) → zlen p ≤ zlen buf →
  ∃ rest, ReadPacket en c reads buf =
      Ret (mkTUNChannel (t_vnetHdr c) (t_bufs c) (t_sizes c) (t_head c + 1) (t_count c), reads,
           PacketRead (zlen p) (p ++ rest)) ∧ zlen (p ++ rest) = zlen buf ∧
  holds_batch (mkTUNChannel (t_vnetHdr c) (t_bufs c) (t_sizes c) (t_head c + 1) (t_count c)) ps.
Proof.
  intros (Hh & Hc & Hp) Hl. destruct (Hp 0%nat p eq_refl) as [[rest Hb] Hs]. rewrite Nat.add_0_r in *.
  pose proof (zlen_nonneg ps). rewrite zlen_cons in Hc.
  exists (zdrop (zlen p) buf). split; [|split].
  - assert (get (t_bufs c) (t_head c) = Ret (p ++ rest)) as Eb by by apply get_Ret.
    assert (get (t_sizes c) (t_head c) = Ret (zlen p)) as Es by by apply get_Ret.
    destruct reads; cbn [ReadPacket]; rewrite (proj2 (Z.ltb_lt _ _)) by lia;
      rewrite Eb, bind_Ret_l, Es, bind_Ret_l, slice_to_app, bind_Ret_l; unfold copy; cbn [fst snd];
      unfold zlen, zdrop in *; rewrite Nat.min_r, (take_ge p), Nat2Z.id by lia; done.
  - rewrite zlen_app, zlen_zdrop; [lia|]. pose proof (zlen_nonneg p). lia.
  - split_and!; cbn [t_head t_count t_bufs t_sizes]; [lia..|]. intros j q Hj.
    replace (Z.to_nat (t_head c + 1) + j)%nat with (Z.to_nat (t_head c) + S j)%nat by lia. by apply Hp.
Qed.

Lemma read_packets_buffered en c reads buf ps :
  holds_batch c ps → Forall (λ p, zlen p ≤ zlen buf) ps →
  ∃ h, read_packets en (length ps) c reads buf =
      Ret (mkTUNChannel (t_vnetHdr c) (t_bufs c) (t_sizes c) h (t_count c), reads, ps) ∧ t_count c ≤ h.
Proof.
  revert c buf. induction ps as [|p ps IH]; intros c buf Hc Hl.
  - exists (t_head c). destruct Hc as (_ & E & _). rewrite zlen_nil in E. split; [by destruct c|lia].
  - apply Forall_cons in Hl as [Hp Hl].
    destruct (ReadPacket_buffered en c reads buf p ps Hc Hp) as (rest & E & Lb & Hc').
    destruct (IH _ (p ++ rest) Hc') as (h & E' & Hh).
    { eapply Forall_impl; [exact Hl|]. intros q Hq. cbn beta in *. lia. }
    exists h. cbn [length read_packets]. rewrite E, bind_Ret_l, E', bind_Ret_l.
    split; [|done]. rewrite ztake_app_le, ztake_all by lia. done.
Qed.

(** A channel over a device with virtio headers, and one whose batch is used
    up. *)
Definition chan_ok (c : TUNChannel) : Prop :=
  t_vnetHdr c = true ∧ length (t_bufs c) = 128%nat ∧ length (t_sizes c) = 128%nat ∧
  Forall (λ b, zlen b = 65535) (t_bufs c).
Definition drained (c : TUNChannel) : Prop := t_count c ≤ t_head c.

Lemma newChannel_ok : chan_ok (newChannel true) ∧ drained (newChannel true).
Proof.
  split; [|unfold drained; cbn; lia]. split_and!; [done..|]. cbn [t_bufs newChannel].
  apply Forall_replicate. by apply zlen_make_bytes.
Qed.

(** A read of the device goes to [handleVirtioRead]. *)
Lemma tun_read_vnet en v p spare bufs sizes :
  zlen p ≤ 65535 → bufs ≠ [] →
  tun_read en true (DevData (hdr_memory en v ++ p) spare) bufs sizes 0 =
    (o ← handleVirtioRead en spare (hdr_memory en v ++ p) bufs sizes 0;
     Ret (b_bufs o, b_sizes o, b_n o, Offload <$> b_err o)).
Proof.
  intros Hp Hb. unfold tun_read. destruct bufs as [|b bufs]; [done|].
  change (get (b :: bufs) 0) with (Ret b). rewrite bind_Ret_l, slice_from_ok, bind_Ret_l by (split; [done|apply zlen_nonneg]).
  rewrite ztake_all; [done|]. rewrite zlen_app. replace (zlen (hdr_memory en v)) with 10 by by destruct en.
  unfold readBuffLen, virtioNetHdrLen. lia.
Qed.

Section read.
Context (en : endian) (v : virtioNetHdr) (tcp : bool) (ih th payload : bytes) (id seq : Z) (src dst : Address).
Hypothesis Hk : kernel_packet v tcp ih th payload id seq src dst.
Hypothesis Hne : 0 < zlen payload.
Abbreviation Segment := (segment tcp (gsoSize v) ih th payload id seq src dst).
Abbreviation Pieces := (pieces (gsoSize v) payload).

Definition segments : list bytes := (λ j, Segment (Z.of_nat j)) <$> List.seq 0 (Z.to_nat Pieces).

Lemma pieces_pos : 0 < Pieces.
Proof.
  apply (pieces_lt tcp _ ih th payload id seq src dst (kp_split _ _ _ _ _ _ _ _ _ Hk)); lia.
Qed.
Lemma lookup_segments j s :
  segments !! j = Some s → s = Segment (Z.of_nat j) ∧ Z.of_nat j < Pieces.
Proof.
  unfold segments. rewrite list_lookup_fmap, fmap_Some. intros (k & Hk' & ->).
  apply lookup_seq in Hk' as [-> ?]. split; [done|lia].
Qed.
Lemma length_segments : zlen segments = Pieces.
Proof. unfold segments, zlen. rewrite length_fmap, length_seq. pose proof pieces_pos. lia. Qed.

(** One read of the device fills the batch with the segments. *)
Lemma ReadPacket_splits c spare reads buf :
  chan_ok c → drained c → Pieces ≤ 128 →
  ∃ c', ReadPacket en c (DevData (hdr_memory en v ++ ih ++ th ++ payload) spare :: reads) buf =
      ReadPacket en c' reads buf ∧ chan_ok c' ∧ holds_batch c' segments.
Proof.
  intros (Hv & Lb & Ls & Fb) Hd Hp. pose proof pieces_pos as Hpos.
  pose proof (kp_split _ _ _ _ _ _ _ _ _ Hk) as Hsp. pose proof Hsp as [_ _ _ Hi20 _ Hlen Hg _ _ _ _].
  destruct (gsoSplit_run en spare (flags v) tcp (gsoSize v) ih th payload id seq src dst Hsp 0 (t_bufs c) (t_sizes c))
    as (bufs & sizes & E & H1 & H2 & H3 & H4); [done|unfold zlen; lia|..].
  { eapply Forall_impl; [exact Fb|]. intros b ->. lia. }
  exists (mkTUNChannel true bufs sizes 0 Pieces).
  assert (zlen bufs = 128 ∧ zlen (t_bufs c) = 128) as [Z1 Z2] by (unfold zlen; lia).
  split_and!.
  - cbn [ReadPacket]. unfold drained in Hd. rewrite (proj2 (Z.ltb_ge _ _)) by lia. rewrite Hv, tun_read_vnet.
    2: { rewrite !zlen_app. lia. } 2: { by destruct (t_bufs c). }
    rewrite (handleVirtioRead_gso _ _ _ _ _ _ _ _ _ _ _ _ _ _ Hk), E, bind_Ret_l.
    unfold loop_result. rewrite (proj2 (Z.leb_le _ _)) by lia. cbn [b_bufs b_sizes b_n b_err fmap option_fmap option_map].
    rewrite bind_Ret_l, (proj2 (Z.ltb_lt _ _)) by done. done.
  - unfold chan_ok. cbn [t_vnetHdr t_bufs t_sizes]. rewrite H3, H4. split_and!; [done..|].
    apply Forall_lookup. intros j b Hj. destruct (lookup_lt_is_Some_2 (t_bufs c) j) as [b0 Hb0].
    { apply lookup_lt_Some in Hj. lia. }
    pose proof (Forall_lookup_1 _ _ _ _ Fb Hb0) as L0. cbn beta in L0.
    rewrite (H1 _ _ Hb0) in Hj. simplify_eq. case_if; [|done]. rewrite zlen_place; [done..|].
    rewrite zlen_segment. pose proof (seg_len_le _ _ _ _ _ _ _ _ _ Hsp (Z.of_nat j)).
    pose proof (pieces_lt _ _ _ _ _ _ _ _ _ Hsp (Z.of_nat j) ltac:(lia)). lia.
  - split; [done|]. split; [by rewrite length_segments|]. cbn [t_head t_bufs t_sizes].
    change (Z.to_nat 0) with 0%nat. intros j p Hj. apply lookup_segments in Hj as [-> Hj]. cbn [Nat.add].
    destruct (lookup_lt_is_Some_2 (t_bufs c) j) as [b0 Hb0]; [lia|].
    destruct (lookup_lt_is_Some_2 (t_sizes c) j) as [n0 Hn0]; [lia|].
    rewrite (H1 _ _ Hb0), (H2 _ _ Hn0), !(proj2 (Z.leb_le 0 _)), !(proj2 (Z.ltb_lt _ _)) by lia.
    cbn [andb]. split; [|by rewrite zlen_segment]. unfold place. by eexists.
Qed.

Lemma read_segments c spare reads buf :
  chan_ok c → drained c → Pieces ≤ 128 → Forall (λ p, zlen p ≤ zlen buf) segments →
  ∃ c', read_packets en (length segments) c
      (DevData (hdr_memory en v ++ ih ++ th ++ payload) spare :: reads) buf = Ret (c', reads, segments) ∧
    chan_ok c' ∧ drained c'.
Proof.
  intros Hc Hd Hp Hl. destruct (ReadPacket_splits c spare reads buf Hc Hd Hp) as (c1 & E & Hc1 & Hb).
  destruct (read_packets_buffered en c1 reads buf segments Hb Hl) as (h & E' & Hh).
  pose proof length_segments as Ln. pose proof pieces_pos.
  exists (mkTUNChannel (t_vnetHdr c1) (t_bufs c1) (t_sizes c1) h (t_count c1)). split; [|by split].
  rewrite <- E'. destruct segments; [rewrite zlen_nil in Ln; lia|]. cbn [length read_packets]. by rewrite E.
Qed.
End read.

(** * The claims *)

(** Segment [i] of a split packet: its own length, identification, place in
    the stream and flags, the rest of the headers as they were, and both
    checksums valid for the checksum code of the stack. *)
Definition segment_ok (tcp : bool) (g : Z) (ih th : bytes) (id seq : Z) (src dst : Address)
    (i : Z) (isLast : bool) (s d : bytes) : Prop :=
  ∃ h t, s = h ++ t ++ d ∧ 0 < zlen d ≤ g ∧
    read16 h 2 = Ret (zlen s) ∧ read16 h 4 = Ret (u16 (id + i)) ∧ Checksum h 0 = 0 ∧
    same_but [2; 3; 4; 5; 10; 11] h ih ∧
    Checksum (t ++ d) (PseudoHeaderChecksum (proto_of tcp) src dst (zlen (t ++ d))) = 0 ∧
    if tcp then read32 t 4 = Ret (u32 (seq + g * i)) ∧
        t !! 13%nat = (λ f, if isLast then f else Z.ldiff f 9) <$> th !! 13%nat ∧
        same_but [4; 5; 6; 7; 13; 16; 17] t th
    else read16 t 4 = Ret (zlen (t ++ d)) ∧ same_but [4; 5; 6; 7] t th.

Lemma segment_is_ok tcp g ih th payload id seq src dst i :
  splittable tcp g ih th payload id seq src dst → 0 ≤ i < pieces g payload →
  segment_ok tcp g ih th id seq src dst i (i + 1 =? pieces g payload)
    (segment tcp g ih th payload id seq src dst i) (piece g payload i).
Proof.
  intros Hsp Hi. pose proof (pieces_lt _ _ _ _ _ _ _ _ _ Hsp i ltac:(lia)) as Hl.
  pose proof (pieces_lt _ _ _ _ _ _ _ _ _ Hsp (i + 1) ltac:(lia)) as Hl'.
  destruct (seg_ip_ok _ _ _ _ _ _ _ _ _ Hsp i ltac:(lia) ltac:(lia)) as (I1 & I2 & I3 & I4 & _).
  destruct (seg_th_ok _ _ _ _ _ _ _ _ _ Hsp i ltac:(lia) ltac:(lia)) as (T1 & _ & T2).
  pose proof (seg_len_le _ _ _ _ _ _ _ _ _ Hsp i ltac:(lia) ltac:(lia)) as Hsl.
  assert (is_last g payload i = (i + 1 =? pieces g payload)) as El by (unfold is_last; lia).
  rewrite El in T2. exists (seg_ip g ih th payload id i), (seg_th tcp g th payload seq src dst i).
  rewrite zlen_app, zlen_seg_th, zlen_segment. unfold seg_len in *. split_and!; try done; lia.
Qed.

(** C11: what the kernel hands over in one piece is read as a sequence of
    correct packets.  When the device returns a large TCP or UDP packet over
    IPv4 with its virtio header, which splits into at most the 128 packets
    that a channel has buffers for, successive calls of [ReadPacket] return its segments
    in order and then go back to the device: their payloads make up the
    payload in pieces of at most the segment size, each has its own lengths,
    identification, sequence number and flags, and both checksums verify. *)
Theorem tun_read_splits_packet en v tcp ih th payload id seq src dst c spare reads buf :
  kernel_packet v tcp ih th payload id seq src dst → 0 < zlen payload →
  pieces (gsoSize v) payload ≤ 128 → zlen ih + zlen th + gsoSize v ≤ zlen buf → chan_ok c → drained c →
  ∃ c' segs ds, read_packets en (length segs) c
      (DevData (hdr_memory en v ++ ih ++ th ++ payload) spare :: reads) buf = Ret (c', reads, segs) ∧
    chan_ok c' ∧ drained c' ∧ concat ds = payload ∧ length ds = length segs ∧
    ∀ i s d, segs !! i = Some s → ds !! i = Some d →
      segment_ok tcp (gsoSize v) ih th id seq src dst (Z.of_nat i) (S i =? length segs)%nat s d.
Proof.
  intros Hk Hne Hp Hbuf Hc Hd. pose proof (kp_split _ _ _ _ _ _ _ _ _ Hk) as Hsp.
  pose proof (length_segments _ _ _ _ _ _ _ _ _ Hk Hne) as Ln.
  assert (∀ j, 0 ≤ j < pieces (gsoSize v) payload →
    zlen (segment tcp (gsoSize v) ih th payload id seq src dst j) ≤ zlen buf) as Hseg.
  { intros j Hj. rewrite zlen_segment. pose proof (seg_len_le _ _ _ _ _ _ _ _ _ Hsp j).
    pose proof (pieces_lt _ _ _ _ _ _ _ _ _ Hsp j ltac:(lia)). lia. }
  destruct (read_segments en _ _ _ _ _ _ _ _ _ Hk Hne c spare reads buf Hc Hd Hp) as (c' & E & Hc' & Hd').
  { apply Forall_lookup. intros j s [-> Hj]%lookup_segments. apply Hseg. lia. }
  eexists c', _, _. split; [exact E|]. split; [done|]. split; [done|].
  split; [exact (pieces_concat _ _ _ _ _ _ _ _ _ Hsp)|].
  split; [unfold segments; by rewrite !length_fmap|].
  intros i s d [-> Hi]%lookup_segments Hds.
  rewrite list_lookup_fmap, fmap_Some in Hds. destruct Hds as (k & [-> _]%lookup_seq & ->).
  pose proof (segment_is_ok _ _ _ _ _ _ _ _ _ (Z.of_nat i) Hsp ltac:(lia)) as Hok.
  unfold zlen in Ln. destruct (Nat.eqb_spec (S i) (length (segments v tcp ih th payload id seq src dst)));
    destruct (Z.eqb_spec (Z.of_nat i + 1) (pieces (gsoSize v) payload)); try lia; exact Hok.
Qed.

Definition sample_ih : bytes := [69; 0; 0; 45; 0; 7; 0; 0; 64; 6; 0; 0; 10; 0; 0; 1; 10; 0; 0; 2].
Definition sample_th : bytes := [0; 80; 4; 0; 0; 0; 0; 100; 0; 0; 0; 1; 80; 24; 1; 0; 0; 0; 0; 0].
Definition sample_hdr (g : Z) : virtioNetHdr := mkVirtioNetHdr 1 1 40 g 20 16.

Lemma sample_kernel_packet g payload :
  0 < g < 65536 → bytes_ok payload → zlen payload ≤ 1000 →
  kernel_packet (sample_hdr g) true sample_ih sample_th payload 7 100 (From4 10 0 0 1) (From4 10 0 0 2).
Proof.
  intros Hg Hb Hl. split; try done; [..|by exists 69|by exists 80].
  - split; try done; [repeat constructor; done..|change (20 + 20 + zlen payload ≤ 65535); lia|cbn; lia].
  - split_and!; try done; cbn; ulia.
Qed.

Lemma tun_read_splits_packet_witness :
  ∃ c' segs ds, read_packets LittleEndian (length segs) (newChannel true)
      [DevData (hdr_memory LittleEndian (sample_hdr 2) ++ sample_ih ++ sample_th ++ [1; 2; 3; 4; 5]) []]
      (make_bytes 100) = Ret (c', [], segs) ∧
    chan_ok c' ∧ drained c' ∧ concat ds = [1; 2; 3; 4; 5] ∧ length ds = length segs ∧
    ∀ i s d, segs !! i = Some s → ds !! i = Some d →
      segment_ok true 2 sample_ih sample_th 7 100 (From4 10 0 0 1) (From4 10 0 0 2) (Z.of_nat i)
        (S i =? length segs)%nat s d.
Proof.
  apply (tun_read_splits_packet LittleEndian (sample_hdr 2) true sample_ih sample_th [1; 2; 3; 4; 5] 7 100
    (From4 10 0 0 1) (From4 10 0 0 2) (newChannel true) [] [] (make_bytes 100));
    [apply sample_kernel_packet; [done|repeat constructor; done|done]|done..|apply newChannel_ok|apply newChannel_ok].
Defined.

(** A packet with more segments than buffers loses one that is there.
    With 128 buffers and more segments, all 128 buffers are filled, but the
    count returned is 127: the last one, complete and valid, is never handed
    out by [ReadPacket]. *)
Theorem too_many_segments_loses_one en v tcp ih th payload id seq src dst c spare :
  kernel_packet v tcp ih th payload id seq src dst → 128 < pieces (gsoSize v) payload → chan_ok c →
  ∃ bufs sizes rest s d,
    tun_read en true (DevData (hdr_memory en v ++ ih ++ th ++ payload) spare) (t_bufs c) (t_sizes c) 0 =
      Ret (bufs, sizes, 127, Some (Offload ErrTooManySegments)) ∧
    bufs !! 127%nat = Some (s ++ rest) ∧ sizes !! 127%nat = Some (zlen s) ∧
    segment_ok tcp (gsoSize v) ih th id seq src dst 127 false s d.
Proof.
  intros Hk Hp (_ & Lb & Ls & Fb). pose proof (kp_split _ _ _ _ _ _ _ _ _ Hk) as Hsp.
  pose proof Hsp as [_ _ _ Hi20 _ Hlen Hg _ _ _ _].
  destruct (gsoSplit_run en spare (flags v) tcp (gsoSize v) ih th payload id seq src dst Hsp 0 (t_bufs c) (t_sizes c))
    as (bufs & sizes & E & H1 & H2 & H3 & H4); [done|unfold zlen; lia|..].
  { eapply Forall_impl; [exact Fb|]. intros b ->. lia. }
  assert (zlen bufs = 128 ∧ zlen (t_bufs c) = 128) as [Z1 Z2] by (unfold zlen; lia).
  destruct (lookup_lt_is_Some_2 (t_bufs c) 127) as [b0 Hb0]; [lia|].
  destruct (lookup_lt_is_Some_2 (t_sizes c) 127) as [n0 Hn0]; [lia|].
  pose proof (segment_is_ok _ _ _ _ _ _ _ _ _ 127 Hsp ltac:(lia)) as Hok.
  rewrite (proj2 (Z.eqb_neq _ _)) in Hok by lia. eexists bufs, sizes, _, _, _. split_and!; [..|exact Hok].
  - rewrite tun_read_vnet; [|rewrite !zlen_app; lia|by destruct (t_bufs c)].
    rewrite (handleVirtioRead_gso _ _ _ _ _ _ _ _ _ _ _ _ _ _ Hk), E, bind_Ret_l.
    unfold loop_result. rewrite (proj2 (Z.leb_gt _ _)) by lia. cbn. by rewrite Z1.
  - rewrite (H1 _ _ Hb0), (proj2 (Z.leb_le _ _)), (proj2 (Z.ltb_lt _ _)) by lia. reflexivity.
  - rewrite (H2 _ _ Hn0), (proj2 (Z.leb_le _ _)), (proj2 (Z.ltb_lt _ _)) by lia. by rewrite zlen_segment.
Qed.

Lemma too_many_segments_loses_one_witness :
  ∃ bufs sizes rest s d,
    tun_read LittleEndian true
      (DevData (hdr_memory LittleEndian (sample_hdr 1) ++ sample_ih ++ sample_th ++ replicate 130 1) [])
      (t_bufs (newChannel true)) (t_sizes (newChannel true)) 0 =
      Ret (bufs, sizes, 127, Some (Offload ErrTooManySegments)) ∧
    bufs !! 127%nat = Some (s ++ rest) ∧ sizes !! 127%nat = Some (zlen s) ∧
    segment_ok true 1 sample_ih sample_th 7 100 (From4 10 0 0 1) (From4 10 0 0 2) 127 false s d.
Proof.
  apply (too_many_segments_loses_one LittleEndian (sample_hdr 1) true sample_ih sample_th (replicate 130 1) 7 100
    (From4 10 0 0 1) (From4 10 0 0 2) (newChannel true) []);
    [apply sample_kernel_packet; [done|by apply Forall_replicate|done]|done|apply newChannel_ok].
Defined.

Lemma read16_mid a b o v : 0 ≤ o → read16 b o = Ret v → read16 (a ++ b) (zlen a + o) = Ret v.
Proof.
  intros Ho (_ & x & y & Hx & Hy & ->)%read16_Ret. pose proof (zlen_nonneg a). apply read16_Ret. split; [lia|].
  exists x, y. replace (Z.to_nat (zlen a + o)) with (length a + Z.to_nat o)%nat by (unfold zlen; lia).
  rewrite <- Nat.add_succ_r, !lookup_app_r by lia.
  by replace (length a + Z.to_nat o - length a)%nat with (Z.to_nat o) by lia;
     replace (length a + S (Z.to_nat o) - length a)%nat with (S (Z.to_nat o)) by lia.
Qed.

Lemma gsoNone_run en h t o p :
  bytes_ok t → is_u16 o → o + 2 ≤ zlen t → zlen h + zlen t ≤ 65535 → read16 t o = Ret p →
  gsoNoneChecksum en (h ++ t) (zlen h) o =
    Ret (h ++ set16 (set16 t o 0) o (Checksum (set16 t o 0) p)).
Proof.
  intros Hb Ho Hl Hn Hp. pose proof (zlen_nonneg h). pose proof (read16_range _ _ _ Hb Hp) as Hp16.
  assert (bytes_ok (set16 t o 0)) as H0 by by apply bytes_ok_set16.
  unfold gsoNoneChecksum. rewrite (u16_id (zlen h + o)) by ulia.
  rewrite (read16_mid h t o p), bind_Ret_l by (done || ulia).
  rewrite (u16_id (zlen h + o + 1)), clear2_set, bind_Ret_l, set16_mid by (rewrite ?zlen_app; ulia).
  rewrite slice_from_ok, bind_Ret_l by (rewrite zlen_app, zlen_set16; ulia).
  rewrite zdrop_app_ge, Z.sub_diag, zdrop_0 by lia.
  rewrite checksum_initial by (done || (unfold sum_fits; rewrite zlen_set16; lia)).
  rewrite write16_set, set16_mid by (rewrite ?zlen_app, ?zlen_set16; ulia). done.
Qed.

(** A partial checksum is completed.  For a packet that needs no
    splitting but whose checksum field holds the sum of the pseudo header
    only, [handleVirtioRead] stores the packet with the field filled in, so
    that the transport part verifies against that pseudo header, and changes
    nothing else. *)
Theorem partial_checksum_completed en spare v h t p bufs b sizes n off :
  hdr_ok v → gsoType v = VIRTIO_NET_HDR_GSO_NONE → Z.land (flags v) VIRTIO_NET_HDR_F_NEEDS_CSUM ≠ 0 →
  csumStart v = zlen h → Z.Even (csumOffset v) → csumOffset v + 2 ≤ zlen t → bytes_ok t →
  zlen h + zlen t ≤ 65535 → read16 t (csumOffset v) = Ret p → 0 ≤ off → off + zlen h + zlen t ≤ zlen b →
  ∃ t', handleVirtioRead en spare (hdr_memory en v ++ h ++ t) (b :: bufs) (n :: sizes) off =
      Ret (mkBatch (place off (h ++ t') b :: bufs) (zlen (h ++ t') :: sizes) 1 None) ∧
    Checksum t' p = 0 ∧ same_but [csumOffset v; csumOffset v + 1] t' t.
Proof.
  intros Hok Hty Hfl Hs He Ho Hb Hl Hp Hoff Hroom. pose proof Hok as (_ & _ & _ & _ & _ & Ho16).
  pose proof (read16_range _ _ _ Hb Hp) as Hp16. pose proof (zlen_nonneg h). set (o := csumOffset v) in *.
  set (t0 := set16 t o 0). assert (bytes_ok t0) by by apply bytes_ok_set16.
  assert (zlen t0 = zlen t) as L0 by apply zlen_set16. set (t' := set16 t0 o (Checksum t0 p)).
  assert (zlen t' = zlen t) as L' by (unfold t'; by rewrite zlen_set16).
  assert (gsoNoneChecksum en (h ++ t) (zlen h) o = Ret (h ++ t')) as Eg by (apply gsoNone_run; ulia || done).
  exists t'. split_and!.
  - unfold handleVirtioRead. rewrite decode_hdr by done.
    assert (slice_from (hdr_memory en v ++ h ++ t) virtioNetHdrLen = Ret (h ++ t)) as -> by (by destruct en).
    rewrite bind_Ret_l, Hty, (proj2 (Z.eqb_neq _ _) Hfl), Hs. cbn [Z.eqb VIRTIO_NET_HDR_GSO_NONE negb].
    fold o. rewrite Eg, bind_Ret_l. change (get (b :: bufs) 0) with (Ret b).
    rewrite bind_Ret_l, slice_from_ok, bind_Ret_l by ulia.
    rewrite (proj2 (Z.ltb_ge _ _)) by (rewrite zlen_app, zlen_zdrop; ulia).
    rewrite (update_buffer_run _ _ _ b) by (done || ulia). rewrite !bind_Ret_l. change (put (n :: sizes) 0 ?x) with (Ret (x :: sizes)).
    rewrite bind_Ret_l, copy_front by (rewrite zlen_app, zlen_zdrop; ulia). cbn [Z.to_nat].
    rewrite zdrop_zdrop by (rewrite ?zlen_app; ulia). done.
  - apply (Checksum_filled t o t0 t' p); [done|unfold sum_fits; lia|done|done|apply write16_set; ulia|].
    apply write16_set; ulia.
  - do 2 (apply same_but_set16; [ulia|set_solver..|]). apply same_but_refl.
Qed.

Lemma partial_checksum_completed_witness :
  ∃ t', handleVirtioRead LittleEndian [] (hdr_memory LittleEndian (mkVirtioNetHdr 1 0 0 0 2 4) ++
      [69; 0] ++ [1; 2; 3; 4; 18; 52; 9; 9]) [make_bytes 20] [0] 0 =
      Ret (mkBatch [place 0 ([69; 0] ++ t') (make_bytes 20)] [zlen ([69; 0] ++ t')] 1 None) ∧
    Checksum t' 4660 = 0 ∧ same_but [4; 5] t' [1; 2; 3; 4; 18; 52; 9; 9].
Proof.
  apply (partial_checksum_completed LittleEndian [] (mkVirtioNetHdr 1 0 0 0 2 4) [69; 0] [1; 2; 3; 4; 18; 52; 9; 9]
    4660 [] (make_bytes 20) [] 0 0); try done; [by exists 2|repeat constructor; done].
Defined.
