(* ===== verification/Gro.v ===== *)
(** Coalescing of packets before they are written to the TUN device (the GRO
    part of [src/channel/tun/offload.go], and [write] of [tun.go]): the tables
    of packets per flow, the tests for merging, the merging itself in the
    callers' buffers, and the virtio headers of the result. *)
From S2P Require Import Prelude.
From S2P Require Import TunChecksum.
From S2P Require Import TunOffload.

(** * Slices with their capacity

    Packets are merged by growing a slice within its capacity: a slice is the
    array from its first element to its capacity, and its length. *)
Record buf := mkBuf { ba : bytes; bl : Z }.

(** The elements, and [b[lo:]], [b[lo:hi]] (bounded by the capacity). *)
Definition elems (b : buf) : bytes := ztake (bl b) (ba b).
Definition from (b : buf) (lo : Z) : outcome buf :=
  if (0 <=? lo) && (lo <=? bl b) then Ret (mkBuf (zdrop lo (ba b)) (bl b - lo)) else Panic.
Definition sub (b : buf) (lo hi : Z) : outcome bytes := slice (ba b) lo hi.

(** A write through the slice that keeps its length. *)
Definition modify (b : buf) (f : bytes → outcome bytes) : outcome buf :=
  x ← f (elems b); Ret (mkBuf (x ++ zdrop (bl b) (ba b)) (bl b)).

(** [append(b, make([]byte, n)...)]; without room a new array is made. *)
Definition extend (b : buf) (n : Z) : buf :=
  if bl b + n <=? zlen (ba b)
  then mkBuf (elems b ++ make_bytes n ++ zdrop (bl b + n) (ba b)) (bl b + n)
  else mkBuf (elems b ++ make_bytes n) (bl b + n).

Definition maxUint16 : Z := 65535.
Definition udphLen : Z := 8.
Definition ipv4FlagMoreFragments : Z := 32.

(** * Flows and tables *)
Record tcpFlowKey := mkTCPFlowKey {
  tk_srcAddr : bytes; tk_dstAddr : bytes; tk_srcPort : Z; tk_dstPort : Z; tk_rxAck : Z; tk_isV6 : bool }.
#[export] Instance tcpFlowKey_eq_dec : EqDecision tcpFlowKey.
Proof. solve_decision. Defined.
#[export] Instance tcpFlowKey_countable : Countable tcpFlowKey.
Proof.
  refine (inj_countable' (λ k, (tk_srcAddr k, tk_dstAddr k, tk_srcPort k, tk_dstPort k, tk_rxAck k, tk_isV6 k))
    (λ '(a, b, c, d, e, f), mkTCPFlowKey a b c d e f) _). by intros [].
Defined.

Record udpFlowKey := mkUDPFlowKey {
  uk_srcAddr : bytes; uk_dstAddr : bytes; uk_srcPort : Z; uk_dstPort : Z; uk_isV6 : bool }.
#[export] Instance udpFlowKey_eq_dec : EqDecision udpFlowKey.
Proof. solve_decision. Defined.
#[export] Instance udpFlowKey_countable : Countable udpFlowKey.
Proof.
  refine (inj_countable' (λ k, (uk_srcAddr k, uk_dstAddr k, uk_srcPort k, uk_dstPort k, uk_isV6 k))
    (λ '(a, b, c, d, e), mkUDPFlowKey a b c d e) _). by intros [].
Defined.

Record tcpGROItem := mkTCPGROItem {
  ti_key : tcpFlowKey; ti_sentSeq : Z; ti_bufsIndex : Z; ti_numMerged : Z; ti_gsoSize : Z;
  ti_iphLen : Z; ti_tcphLen : Z; ti_pshSet : bool }.
#[export] Instance tcpGROItem_rebuild : Rebuild tcpGROItem := λ i,
  mkTCPGROItem (ti_key i) (ti_sentSeq i) (ti_bufsIndex i) (ti_numMerged i) (ti_gsoSize i)
    (ti_iphLen i) (ti_tcphLen i) (ti_pshSet i).

Record udpGROItem := mkUDPGROItem {
  ui_key : udpFlowKey; ui_bufsIndex : Z; ui_numMerged : Z; ui_gsoSize : Z; ui_iphLen : Z;
  ui_cSumKnownInvalid : bool }.
#[export] Instance udpGROItem_rebuild : Rebuild udpGROItem := λ i,
  mkUDPGROItem (ui_key i) (ui_bufsIndex i) (ui_numMerged i) (ui_gsoSize i) (ui_iphLen i)
    (ui_cSumKnownInvalid i).

(** The pool holds empty slices: their number. *)
Record tcpGROTable := mkTCPGROTable { tt_itemsByFlow : gmap tcpFlowKey (list tcpGROItem); tt_itemsPool : Z }.
Record udpGROTable := mkUDPGROTable { ut_itemsByFlow : gmap udpFlowKey (list udpGROItem); ut_itemsPool : Z }.

Definition newTCPGROTable : tcpGROTable := mkTCPGROTable ∅ IdealBatchSize.
Definition newUDPGROTable : udpGROTable := mkUDPGROTable ∅ IdealBatchSize.

(** [copy(key.srcAddr[:], ...)] into a zeroed array of 16 bytes. *)
Definition addr16 (a : bytes) : bytes := (copy (make_bytes 16) a).1.

Definition newTCPFlowKey (pkt : buf) (srcAddrOffset dstAddrOffset tcphOffset : Z) : outcome tcpFlowKey :=
  let addrSize := dstAddrOffset - srcAddrOffset in
  s ← sub pkt srcAddrOffset dstAddrOffset;
  d ← sub pkt dstAddrOffset (dstAddrOffset + addrSize);
  sp ← read16 (elems pkt) tcphOffset;
  dp ← read16 (elems pkt) (tcphOffset + 2);
  ack ← read32 (elems pkt) (tcphOffset + 8);
  Ret (mkTCPFlowKey (addr16 s) (addr16 d) sp dp ack (addrSize =? 16)).

Definition newUDPFlowKey (pkt : buf) (srcAddrOffset dstAddrOffset udphOffset : Z) : outcome udpFlowKey :=
  let addrSize := dstAddrOffset - srcAddrOffset in
  s ← sub pkt srcAddrOffset dstAddrOffset;
  d ← sub pkt dstAddrOffset (dstAddrOffset + addrSize);
  sp ← read16 (elems pkt) udphOffset;
  dp ← read16 (elems pkt) (udphOffset + 2);
  Ret (mkUDPFlowKey (addr16 s) (addr16 d) sp dp (addrSize =? 16)).

(** [newItems] takes a slice off the pool; an empty pool panics. *)
Definition takePool (n : Z) : outcome Z := if n <=? 0 then Panic else Ret (n - 1).

Definition tcpInsert (t : tcpGROTable) (pkt : buf) (srcAddrOffset dstAddrOffset tcphOffset tcphLen bufsIndex : Z) :
    outcome tcpGROTable :=
  key ← newTCPFlowKey pkt srcAddrOffset dstAddrOffset tcphOffset;
  payload ← slice_from (elems pkt) (tcphOffset + tcphLen);
  seq ← read32 (elems pkt) (tcphOffset + 4);
  fl ← get (elems pkt) (tcphOffset + tcpFlagsOffset);
  let item := mkTCPGROItem key seq (u16 bufsIndex) 0 (u16 (zlen payload)) (u8 tcphOffset) (u8 tcphLen)
                (negb (Z.land fl tcpFlagPSH =? 0)) in
  match tt_itemsByFlow t !! key with
  | Some items => Ret (mkTCPGROTable (<[key := items ++ [item]]> (tt_itemsByFlow t)) (tt_itemsPool t))
  | None =>
      pool ← takePool (tt_itemsPool t);
      Ret (mkTCPGROTable (<[key := [item]]> (tt_itemsByFlow t)) pool)
  end.

Definition tcpLookupOrInsert (t : tcpGROTable) (pkt : buf)
    (srcAddrOffset dstAddrOffset tcphOffset tcphLen bufsIndex : Z) :
    outcome (tcpGROTable * option (list tcpGROItem)) :=
  key ← newTCPFlowKey pkt srcAddrOffset dstAddrOffset tcphOffset;
  match tt_itemsByFlow t !! key with
  | Some items => Ret (t, Some items)
  | None =>
      t ← tcpInsert t pkt srcAddrOffset dstAddrOffset tcphOffset tcphLen bufsIndex;
      Ret (t, None)
  end.

(** The slice of a flow that is not in the table is empty. *)
Definition tcpItems (t : tcpGROTable) (key : tcpFlowKey) : list tcpGROItem :=
  default [] (tt_itemsByFlow t !! key).

Definition tcpUpdateAt (t : tcpGROTable) (item : tcpGROItem) (i : Z) : outcome tcpGROTable :=
  items ← put (tcpItems t (ti_key item)) i item;
  Ret (mkTCPGROTable (<[ti_key item := items]> (tt_itemsByFlow t)) (tt_itemsPool t)).

Definition tcpDeleteAt (t : tcpGROTable) (key : tcpFlowKey) (i : Z) : outcome tcpGROTable :=
  let items := tcpItems t key in
  a ← slice_to items i;
  b ← slice_from items (i + 1);
  Ret (mkTCPGROTable (<[key := a ++ b]> (tt_itemsByFlow t)) (tt_itemsPool t)).

Definition tcpReset (t : tcpGROTable) : tcpGROTable :=
  mkTCPGROTable ∅ (tt_itemsPool t + Z.of_nat (size (tt_itemsByFlow t))).

Definition udpInsert (t : udpGROTable) (pkt : buf) (srcAddrOffset dstAddrOffset udphOffset bufsIndex : Z)
    (cSumKnownInvalid : bool) : outcome udpGROTable :=
  key ← newUDPFlowKey pkt srcAddrOffset dstAddrOffset udphOffset;
  payload ← slice_from (elems pkt) (udphOffset + udphLen);
  let item := mkUDPGROItem key (u16 bufsIndex) 0 (u16 (zlen payload)) (u8 udphOffset) cSumKnownInvalid in
  match ut_itemsByFlow t !! key with
  | Some items => Ret (mkUDPGROTable (<[key := items ++ [item]]> (ut_itemsByFlow t)) (ut_itemsPool t))
  | None =>
      pool ← takePool (ut_itemsPool t);
      Ret (mkUDPGROTable (<[key := [item]]> (ut_itemsByFlow t)) pool)
  end.

Definition udpLookupOrInsert (t : udpGROTable) (pkt : buf)
    (srcAddrOffset dstAddrOffset udphOffset bufsIndex : Z) :
    outcome (udpGROTable * option (list udpGROItem)) :=
  key ← newUDPFlowKey pkt srcAddrOffset dstAddrOffset udphOffset;
  match ut_itemsByFlow t !! key with
  | Some items => Ret (t, Some items)
  | None =>
      t ← udpInsert t pkt srcAddrOffset dstAddrOffset udphOffset bufsIndex false;
      Ret (t, None)
  end.

Definition udpUpdateAt (t : udpGROTable) (item : udpGROItem) (i : Z) : outcome udpGROTable :=
  items ← put (default [] (ut_itemsByFlow t !! ui_key item)) i item;
  Ret (mkUDPGROTable (<[ui_key item := items]> (ut_itemsByFlow t)) (ut_itemsPool t)).

Definition udpReset (t : udpGROTable) : udpGROTable :=
  mkUDPGROTable ∅ (ut_itemsPool t + Z.of_nat (size (ut_itemsByFlow t))).

(** * When packets can be merged *)
Inductive canCoalesce := coalescePrepend | coalesceUnavailable | coalesceAppend.

Definition ipHeadersCanCoalesce (pktA pktB : bytes) : outcome bool :=
  if (zlen pktA <? 9) || (zlen pktB <? 9) then Ret false else
  a0 ← get pktA 0; b0 ← get pktB 0; a1 ← get pktA 1; b1 ← get pktB 1;
  a6 ← get pktA 6; b6 ← get pktB 6; a7 ← get pktA 7; b7 ← get pktB 7;
  a8 ← get pktA 8; b8 ← get pktB 8;
  Ret (if Z.shiftr a0 4 =? 6 then
         if negb (a0 =? b0) || negb (Z.shiftr a1 4 =? Z.shiftr b1 4) then false else a7 =? b7
       else
         if negb (a1 =? b1) then false else
         if negb (Z.shiftr a6 5 =? Z.shiftr b6 5) then false else a8 =? b8).

(** [len(b[lo:]) % int(size)] *)
Definition lenMod (b : bytes) (lo size : Z) : outcome Z :=
  r ← slice_from b lo;
  if size =? 0 then Panic else Ret (Z.rem (zlen r) size).

Definition target (bufs : list buf) (i bufsOffset : Z) : outcome buf :=
  b ← get bufs i; from b bufsOffset.

Definition udpPacketsCanCoalesce (pkt : buf) (iphLen gsoSize : Z) (item : udpGROItem) (bufs : list buf)
    (bufsOffset : Z) : outcome canCoalesce :=
  pktTarget ← target bufs (ui_bufsIndex item) bufsOffset;
  ok ← ipHeadersCanCoalesce (elems pkt) (elems pktTarget);
  if negb ok then Ret coalesceUnavailable else
  r ← lenMod (elems pktTarget) (u8 (iphLen + udphLen)) (ui_gsoSize item);
  if negb (r =? 0) then Ret coalesceUnavailable else
  if ui_gsoSize item <? gsoSize then Ret coalesceUnavailable else
  Ret coalesceAppend.

(** [bytes.Equal] of the TCP options; headers without options have none. *)
Definition sameOptions (pkt pktTarget : buf) (iphLen tcphLen : Z) (item : tcpGROItem) : outcome bool :=
  if 20 <? tcphLen then
    a ← sub pkt (u8 (iphLen + 20)) (u8 (iphLen + tcphLen));
    b ← sub pktTarget (u8 (ti_iphLen item + 20)) (u8 (iphLen + tcphLen));
    Ret (bool_decide (a = b))
  else Ret true.

Definition tcpPacketsCanCoalesce (pkt : buf) (iphLen tcphLen seq : Z) (pshSet : bool) (gsoSize : Z)
    (item : tcpGROItem) (bufs : list buf) (bufsOffset : Z) : outcome canCoalesce :=
  pktTarget ← target bufs (ti_bufsIndex item) bufsOffset;
  if negb (tcphLen =? ti_tcphLen item) then Ret coalesceUnavailable else
  same ← sameOptions pkt pktTarget iphLen tcphLen item;
  if negb same then Ret coalesceUnavailable else
  ok ← ipHeadersCanCoalesce (elems pkt) (elems pktTarget);
  if negb ok then Ret coalesceUnavailable else
  let lhsLen := u16 (ti_gsoSize item + u16 (ti_numMerged item * ti_gsoSize item)) in
  if seq =? u32 (ti_sentSeq item + lhsLen) then
    if ti_pshSet item then Ret coalesceUnavailable else
    r ← lenMod (elems pktTarget) (u8 (iphLen + tcphLen)) (ti_gsoSize item);
    if negb (r =? 0) then Ret coalesceUnavailable else
    if ti_gsoSize item <? gsoSize then Ret coalesceUnavailable else
    Ret coalesceAppend
  else if u32 (seq + gsoSize) =? ti_sentSeq item then
    if pshSet then Ret coalesceUnavailable else
    if gsoSize <? ti_gsoSize item then Ret coalesceUnavailable else
    if (ti_gsoSize item <? gsoSize) && (0 <? ti_numMerged item) then Ret coalesceUnavailable else
    Ret coalescePrepend
  else Ret coalesceUnavailable.

(** * Merging *)
Section gro.
Context (en : endian).

Definition checksumValid (pkt : buf) (iphLen proto : Z) (isV6 : bool) : outcome bool :=
  let srcAddrAt := if isV6 then ipv6SrcAddrOffset else ipv4SrcAddrOffset in
  let addrSize := if isV6 then 16 else 4 in
  let lenForPseudo := u16 (bl pkt - iphLen) in
  src ← sub pkt srcAddrAt (srcAddrAt + addrSize);
  dst ← sub pkt (srcAddrAt + addrSize) (srcAddrAt + addrSize * 2);
  let cSum := pseudoHeaderChecksumNoFold en proto src dst lenForPseudo in
  t ← slice_from (elems pkt) iphLen;
  Ret (not16 (checksum en t cSum) =? 0).

Inductive coalesceResult :=
| coalesceInsufficientCap | coalescePSHEnding | coalesceItemInvalidCSum | coalescePktInvalidCSum
| coalesceSuccess.

(** [bufs[i] = append(bufs[i], make([]byte, n)...)] and
    [copy(bufs[i][at:], data)]. *)
Definition appendTo (bufs : list buf) (i n at_ : Z) (data : bytes) : outcome (list buf) :=
  b ← get bufs i;
  b ← modify (extend b n) (λ x, copy_at x at_ data);
  put bufs i b.

Definition coalesceUDPPackets (pkt : buf) (item : udpGROItem) (bufs : list buf) (bufsOffset : Z) (isV6 : bool) :
    outcome (coalesceResult * udpGROItem * list buf) :=
  pktHead ← target bufs (ui_bufsIndex item) bufsOffset;
  let headersLen := u8 (ui_iphLen item + udphLen) in
  let coalescedLen := bl pktHead + bl pkt - headersLen in
  if zlen (ba pktHead) - bufsOffset <? coalescedLen then Ret (coalesceInsufficientCap, item, bufs) else
  itemOk ← (if ui_numMerged item =? 0 then
              if ui_cSumKnownInvalid item then Ret false
              else checksumValid pktHead (ui_iphLen item) IPPROTO_UDP isV6
            else Ret true);
  if negb itemOk then Ret (coalesceItemInvalidCSum, item, bufs) else
  pktOk ← checksumValid pkt (ui_iphLen item) IPPROTO_UDP isV6;
  if negb pktOk then Ret (coalescePktInvalidCSum, item, bufs) else
  data ← slice_from (elems pkt) headersLen;
  bufs ← appendTo bufs (ui_bufsIndex item) (bl pkt - headersLen) (bufsOffset + bl pktHead) data;
  Ret (coalesceSuccess, item <| ui_numMerged := u16 (ui_numMerged item + 1) |>, bufs).

(** The end of a successful merge: the largest size and the count. *)
Definition noteMerged (gsoSize : Z) (item : tcpGROItem) : tcpGROItem :=
  let item := if ti_gsoSize item <? gsoSize then item <| ti_gsoSize := gsoSize |> else item in
  item <| ti_numMerged := u16 (ti_numMerged item + 1) |>.

(** [checksumValid] of the first packet of an item and of the new one. *)
Definition checksumsValid (pkt pktItem : buf) (item : tcpGROItem) (isV6 : bool) :
    outcome (option coalesceResult) :=
  itemOk ← (if ti_numMerged item =? 0 then checksumValid pktItem (ti_iphLen item) IPPROTO_TCP isV6
            else Ret true);
  if negb itemOk then Ret (Some coalesceItemInvalidCSum) else
  pktOk ← checksumValid pkt (ti_iphLen item) IPPROTO_TCP isV6;
  Ret (if negb pktOk then Some coalescePktInvalidCSum else None).

Definition prependTCP (pkt : buf) (pktBuffsIndex gsoSize seq : Z) (pshSet : bool) (item : tcpGROItem)
    (bufs : list buf) (bufsOffset : Z) (isV6 : bool) : outcome (coalesceResult * tcpGROItem * list buf) :=
  pktItem ← target bufs (ti_bufsIndex item) bufsOffset;
  let headersLen := u8 (ti_iphLen item + ti_tcphLen item) in
  let coalescedLen := bl pktItem + bl pkt - headersLen in
  if zlen (ba pkt) - bufsOffset <? coalescedLen then Ret (coalesceInsufficientCap, item, bufs) else
  if pshSet then Ret (coalescePSHEnding, item, bufs) else
  bad ← checksumsValid pkt pktItem item isV6;
  match bad with
  | Some r => Ret (r, item, bufs)
  | None =>
      let item := item <| ti_sentSeq := seq |> in
      bi ← get bufs (ti_bufsIndex item);
      data ← slice_from (elems bi) (bufsOffset + headersLen);
      bufs ← appendTo bufs pktBuffsIndex (coalescedLen - bl pkt) (bufsOffset + bl pkt) data;
      bp ← get bufs pktBuffsIndex;
      bi ← get bufs (ti_bufsIndex item);
      bufs ← put bufs (ti_bufsIndex item) bp;
      bufs ← put bufs pktBuffsIndex bi;
      Ret (coalesceSuccess, noteMerged gsoSize item, bufs)
  end.

Definition appendTCP (pkt : buf) (gsoSize : Z) (pshSet : bool) (item : tcpGROItem)
    (bufs : list buf) (bufsOffset : Z) (isV6 : bool) : outcome (coalesceResult * tcpGROItem * list buf) :=
  pktHead ← target bufs (ti_bufsIndex item) bufsOffset;
  let headersLen := u8 (ti_iphLen item + ti_tcphLen item) in
  let coalescedLen := bl pktHead + bl pkt - headersLen in
  if zlen (ba pktHead) - bufsOffset <? coalescedLen then Ret (coalesceInsufficientCap, item, bufs) else
  bad ← checksumsValid pkt pktHead item isV6;
  match bad with
  | Some r => Ret (r, item, bufs)
  | None =>
      '(item, bufs) ← (if pshSet then
          b ← get bufs (ti_bufsIndex item);
          b ← modify b (λ x, let at_ := bufsOffset + u8 (ti_iphLen item + tcpFlagsOffset) in
                             f ← get x at_; put x at_ (Z.lor f tcpFlagPSH));
          bufs ← put bufs (ti_bufsIndex item) b;
          Ret (item <| ti_pshSet := true |>, bufs)
        else Ret (item, bufs));
      data ← slice_from (elems pkt) headersLen;
      bufs ← appendTo bufs (ti_bufsIndex item) (bl pkt - headersLen) (bufsOffset + bl pktHead) data;
      Ret (coalesceSuccess, noteMerged gsoSize item, bufs)
  end.

Definition coalesceTCPPackets (mode : canCoalesce) (pkt : buf) (pktBuffsIndex gsoSize seq : Z) (pshSet : bool)
    (item : tcpGROItem) (bufs : list buf) (bufsOffset : Z) (isV6 : bool) :
    outcome (coalesceResult * tcpGROItem * list buf) :=
  match mode with
  | coalescePrepend => prependTCP pkt pktBuffsIndex gsoSize seq pshSet item bufs bufsOffset isV6
  | _ => appendTCP pkt gsoSize pshSet item bufs bufsOffset isV6
  end.

(** * One packet *)
Inductive groResult := groResultNoop | groResultTableInsert | groResultCoalesced.

(** The IP part of the checks both protocols make: the length of the IP
    header, or [None] when the packet is left alone. *)
Definition groIPHeader (pkt : bytes) (isV6 : bool) : outcome (option Z) :=
  if maxUint16 <? zlen pkt then Ret None else
  b0 ← get pkt 0;
  if isV6 then
    n ← read16 pkt 4;
    if negb (n =? zlen pkt - 40) then Ret None else
    if zlen pkt <? 40 then Ret None else Ret (Some 40)
  else
    let iphLen := u8 (Z.land b0 15 * 4) in
    n ← read16 pkt 2;
    if negb (n =? zlen pkt) then Ret None else
    if zlen pkt <? iphLen then Ret None else Ret (Some iphLen).

(** A fragment: not merged. *)
Definition isFragment (pkt : bytes) (isV6 : bool) : outcome bool :=
  if isV6 then Ret false else
  b6 ← get pkt 6;
  b7 ← get pkt 7;
  Ret (negb (Z.land b6 ipv4FlagMoreFragments =? 0) || negb (u8 (Z.shiftl b6 3) =? 0) || negb (b7 =? 0)).

(** [Some pshSet] when the flags are ACK or ACK and PSH. *)
Definition groFlags (fl : Z) : option bool :=
  if fl =? tcpFlagACK then Some false
  else if fl =? Z.lor tcpFlagACK tcpFlagPSH then Some true
  else None.

(** What [tcpGRO] reads of a packet it considers: the header lengths, the PSH
    flag, the payload size and the sequence number. *)
Record tcpMeta := mkTCPMeta { tm_iphLen : Z; tm_tcphLen : Z; tm_pshSet : bool; tm_gsoSize : Z; tm_seq : Z }.

Definition tcpCandidate (pkt : bytes) (isV6 : bool) : outcome (option tcpMeta) :=
  o ← groIPHeader pkt isV6;
  match o with
  | None => Ret None
  | Some iphLen =>
      b12 ← get pkt (iphLen + 12);
      let tcphLen := u8 (Z.shiftr b12 4 * 4) in
      if (tcphLen <? 20) || (60 <? tcphLen) then Ret None else
      if zlen pkt <? iphLen + tcphLen then Ret None else
      frag ← isFragment pkt isV6;
      if frag : bool then Ret None else
      fl ← get pkt (iphLen + tcpFlagsOffset);
      match groFlags fl with
      | None => Ret None
      | Some pshSet =>
          let gsoSize := u16 (zlen pkt - tcphLen - iphLen) in
          if gsoSize <? 1 then Ret None else
          seq ← read32 pkt (iphLen + 4);
          Ret (Some (mkTCPMeta iphLen tcphLen pshSet gsoSize seq))
      end
  end.

(** The loop over the items of the flow, from the last one down; [i] items are
    left. *)
Fixpoint tcpTryItems (i : nat) (items : list tcpGROItem) (m : tcpMeta) (pkt : buf) (pktI offset : Z) (isV6 : bool)
    (bufs : list buf) (t : tcpGROTable) : outcome (option groResult * list buf * tcpGROTable) :=
  match i with
  | O => Ret (None, bufs, t)
  | S i =>
      item ← get items (Z.of_nat i);
      can ← tcpPacketsCanCoalesce pkt (u8 (tm_iphLen m)) (u8 (tm_tcphLen m)) (tm_seq m) (tm_pshSet m) (tm_gsoSize m)
              item bufs offset;
      match can with
      | coalesceUnavailable => tcpTryItems i items m pkt pktI offset isV6 bufs t
      | _ =>
          '(result, item, bufs) ← coalesceTCPPackets can pkt pktI (tm_gsoSize m) (tm_seq m) (tm_pshSet m) item bufs
                                   offset isV6;
          match result with
          | coalesceSuccess =>
              t ← tcpUpdateAt t item (Z.of_nat i);
              Ret (Some groResultCoalesced, bufs, t)
          | coalesceItemInvalidCSum =>
              t ← tcpDeleteAt t (ti_key item) (Z.of_nat i);
              tcpTryItems i items m pkt pktI offset isV6 bufs t
          | coalescePktInvalidCSum => Ret (Some groResultNoop, bufs, t)
          | _ => tcpTryItems i items m pkt pktI offset isV6 bufs t
          end
      end
  end.

Definition tcpGRO (bufs : list buf) (offset pktI : Z) (t : tcpGROTable) (isV6 : bool) :
    outcome (groResult * list buf * tcpGROTable) :=
  pkt ← target bufs pktI offset;
  o ← tcpCandidate (elems pkt) isV6;
  match o with
  | None => Ret (groResultNoop, bufs, t)
  | Some m =>
      let srcAddrOffset := if isV6 then ipv6SrcAddrOffset else ipv4SrcAddrOffset in
      let addrLen := if isV6 then 16 else 4 in
      '(t, found) ← tcpLookupOrInsert t pkt srcAddrOffset (srcAddrOffset + addrLen) (tm_iphLen m) (tm_tcphLen m) pktI;
      match found with
      | None => Ret (groResultTableInsert, bufs, t)
      | Some items =>
          '(r, bufs, t) ← tcpTryItems (length items) items m pkt pktI offset isV6 bufs t;
          match r with
          | Some r => Ret (r, bufs, t)
          | None =>
              t ← tcpInsert t pkt srcAddrOffset (srcAddrOffset + addrLen) (tm_iphLen m) (tm_tcphLen m) pktI;
              Ret (groResultTableInsert, bufs, t)
          end
      end
  end.

(** The header length and payload size of a UDP packet to consider. *)
Definition udpCandidate (pkt : bytes) (isV6 : bool) : outcome (option (Z * Z)) :=
  o ← groIPHeader pkt isV6;
  match o with
  | None => Ret None
  | Some iphLen =>
      if zlen pkt <? iphLen + udphLen then Ret None else
      frag ← isFragment pkt isV6;
      if frag : bool then Ret None else
      let gsoSize := u16 (zlen pkt - udphLen - iphLen) in
      if gsoSize <? 1 then Ret None else Ret (Some (iphLen, gsoSize))
  end.

Definition udpGRO (bufs : list buf) (offset pktI : Z) (t : udpGROTable) (isV6 : bool) :
    outcome (groResult * list buf * udpGROTable) :=
  pkt ← target bufs pktI offset;
  o ← udpCandidate (elems pkt) isV6;
  match o with
  | None => Ret (groResultNoop, bufs, t)
  | Some (iphLen, gsoSize) =>
      let srcAddrOffset := if isV6 then ipv6SrcAddrOffset else ipv4SrcAddrOffset in
      let addrLen := if isV6 then 16 else 4 in
      '(t, found) ← udpLookupOrInsert t pkt srcAddrOffset (srcAddrOffset + addrLen) iphLen pktI;
      match found with
      | None => Ret (groResultTableInsert, bufs, t)
      | Some items =>
          item ← get items (zlen items - 1);
          can ← udpPacketsCanCoalesce pkt (u8 iphLen) gsoSize item bufs offset;
          '(r, item, bufs) ← match can with
                             | coalesceAppend => coalesceUDPPackets pkt item bufs offset isV6
                             | _ => Ret (coalesceInsufficientCap, item, bufs)
                             end;
          match r with
          | coalesceSuccess =>
              t ← udpUpdateAt t item (zlen items - 1);
              Ret (groResultCoalesced, bufs, t)
          | _ =>
              let pktCSumKnownInvalid := match r with coalescePktInvalidCSum => true | _ => false end in
              t ← udpInsert t pkt srcAddrOffset (srcAddrOffset + addrLen) iphLen pktI pktCSumKnownInvalid;
              Ret (groResultTableInsert, bufs, t)
          end
      end
  end.

(** * The headers of the result *)

(** The new length of the packet at [offset] of [b] in its IP header, and the
    IPv4 header checksum. *)
Definition accountIP (b : buf) (offset iphLen : Z) (isV6 : bool) : outcome buf :=
  pkt ← from b offset;
  if isV6 then modify b (λ x, write16 x (offset + 4) (u16 (u16 (bl pkt) - u16 iphLen)))
  else
    b ← modify b (λ x, x ← clear2 x (offset + 10) (offset + 11); write16 x (offset + 2) (u16 (bl pkt)));
    pkt ← from b offset;
    h ← sub pkt 0 iphLen;
    modify b (λ x, write16 x (offset + 10) (not16 (checksum en h 0))).

(** [hdr.encode(b[offset-virtioNetHdrLen:])]. *)
Definition encodeAt (b : buf) (offset : Z) (hdr : virtioNetHdr) : outcome (buf * option tun_error) :=
  r ← from b (offset - virtioNetHdrLen);
  match encode en hdr (elems r) with
  | inr e => Ret (b, Some e)
  | inl out => Ret (mkBuf (ztake (offset - virtioNetHdrLen) (ba b) ++ out ++ zdrop (bl b) (ba b)) (bl b), None)
  end.

(** The sum of the pseudo header at the place of the checksum. *)
Definition accountCsum (b : buf) (offset iphLen proto at_ : Z) (isV6 : bool) : outcome buf :=
  pkt ← from b offset;
  let addrLen := if isV6 then 16 else 4 in
  let srcAddrAt := offset + (if isV6 then ipv6SrcAddrOffset else ipv4SrcAddrOffset) in
  srcAddr ← sub b srcAddrAt (srcAddrAt + addrLen);
  dstAddr ← sub b (srcAddrAt + addrLen) (srcAddrAt + addrLen * 2);
  let psum := pseudoHeaderChecksumNoFold en proto srcAddr dstAddr (u16 (bl pkt - iphLen)) in
  modify b (λ x, write16 x (offset + at_) (checksum en [] psum)).

Definition emptyHdr : virtioNetHdr := mkVirtioNetHdr 0 0 0 0 0 0.

Definition accountTCP (b : buf) (offset : Z) (item : tcpGROItem) : outcome (buf * option tun_error) :=
  if 0 <? ti_numMerged item then
    let isV6 := tk_isV6 (ti_key item) in
    let hdr := mkVirtioNetHdr VIRTIO_NET_HDR_F_NEEDS_CSUM
                 (if isV6 then VIRTIO_NET_HDR_GSO_TCPV6 else VIRTIO_NET_HDR_GSO_TCPV4)
                 (u16 (u8 (ti_iphLen item + ti_tcphLen item))) (ti_gsoSize item) (u16 (ti_iphLen item)) 16 in
    b ← accountIP b offset (ti_iphLen item) isV6;
    '(b, err) ← encodeAt b offset hdr;
    match err with
    | Some e => Ret (b, Some e)
    | None =>
        b ← accountCsum b offset (ti_iphLen item) IPPROTO_TCP (u16 (csumStart hdr + csumOffset hdr)) isV6;
        Ret (b, None)
    end
  else encodeAt b offset emptyHdr.

Definition accountUDP (b : buf) (offset : Z) (item : udpGROItem) : outcome (buf * option tun_error) :=
  if 0 <? ui_numMerged item then
    let isV6 := uk_isV6 (ui_key item) in
    let hdr := mkVirtioNetHdr VIRTIO_NET_HDR_F_NEEDS_CSUM VIRTIO_NET_HDR_GSO_UDP_L4
                 (u16 (u8 (ui_iphLen item + udphLen))) (ui_gsoSize item) (u16 (ui_iphLen item)) 6 in
    b ← accountIP b offset (ui_iphLen item) isV6;
    '(b, err) ← encodeAt b offset hdr;
    match err with
    | Some e => Ret (b, Some e)
    | None =>
        pkt ← from b offset;
        t ← slice_from (elems pkt) (ui_iphLen item);
        b ← modify b (λ x, write16 x (offset + u8 (ui_iphLen item + 4)) (u16 (zlen t)));
        b ← accountCsum b offset (ui_iphLen item) IPPROTO_UDP (u16 (csumStart hdr + csumOffset hdr)) isV6;
        Ret (b, None)
    end
  else encodeAt b offset emptyHdr.

(** The items of all flows in the order the map is ranged over; the first
    error ends the loop. *)
Fixpoint accountAll {I : Type} (index : I → Z) (account : buf → Z → I → outcome (buf * option tun_error))
    (items : list I) (offset : Z) (bufs : list buf) : outcome (list buf * option tun_error) :=
  match items with
  | [] => Ret (bufs, None)
  | item :: items =>
      b ← get bufs (index item);
      '(b, err) ← account b offset item;
      bufs ← put bufs (index item) b;
      match err with
      | Some e => Ret (bufs, Some e)
      | None => accountAll index account items offset bufs
      end
  end.

Definition applyTCPCoalesceAccounting (order : list (tcpFlowKey * list tcpGROItem)) (bufs : list buf) (offset : Z) :
    outcome (list buf * option tun_error) :=
  accountAll ti_bufsIndex accountTCP (concat (order.*2)) offset bufs.
Definition applyUDPCoalesceAccounting (order : list (udpFlowKey * list udpGROItem)) (bufs : list buf) (offset : Z) :
    outcome (list buf * option tun_error) :=
  accountAll ui_bufsIndex accountUDP (concat (order.*2)) offset bufs.

(** * A batch of packets *)
Inductive groCandidateType :=
| notGROCandidate | tcp4GROCandidate | tcp6GROCandidate | udp4GROCandidate | udp6GROCandidate.

Definition packetIsGROCandidate (b : bytes) (canUDPGRO : bool) : outcome groCandidateType :=
  if zlen b <? 28 then Ret notGROCandidate else
  b0 ← get b 0; b6 ← get b 6; b9 ← get b 9;
  Ret (if Z.shiftr b0 4 =? 4 then
         if negb (Z.land b0 15 =? 5) then notGROCandidate else
         if (b9 =? IPPROTO_TCP) && (40 <=? zlen b) then tcp4GROCandidate else
         if (b9 =? IPPROTO_UDP) && canUDPGRO then udp4GROCandidate else notGROCandidate
       else if Z.shiftr b0 4 =? 6 then
         if (b6 =? IPPROTO_TCP) && (60 <=? zlen b) then tcp6GROCandidate else
         if (b6 =? IPPROTO_UDP) && (48 <=? zlen b) && canUDPGRO then udp6GROCandidate else notGROCandidate
       else notGROCandidate).

Record groState := mkGROState {
  gs_bufs : list buf; gs_tcp : tcpGROTable; gs_udp : udpGROTable; gs_toWrite : list Z }.

Inductive gro_error := ErrInvalidOffset | ErrEncode (e : tun_error).

(** The packet is offered to the table of its protocol. *)
Definition groOffer (canUDPGRO : bool) (offset i : Z) (pkt : bytes) (s : groState) : outcome (groResult * groState) :=
  let tcp (isV6 : bool) :=
    '(r, bufs, t) ← tcpGRO (gs_bufs s) offset i (gs_tcp s) isV6;
    Ret (r, mkGROState bufs t (gs_udp s) (gs_toWrite s)) in
  let udp (isV6 : bool) :=
    '(r, bufs, t) ← udpGRO (gs_bufs s) offset i (gs_udp s) isV6;
    Ret (r, mkGROState bufs (gs_tcp s) t (gs_toWrite s)) in
  c ← packetIsGROCandidate pkt canUDPGRO;
  match c with
  | tcp4GROCandidate => tcp false
  | tcp6GROCandidate => tcp true
  | udp4GROCandidate => udp false
  | udp6GROCandidate => udp true
  | notGROCandidate => Ret (groResultNoop, s)
  end.

(** [toWrite = append(toWrite, i)] *)
Definition groWrite (i : Z) (s : groState) : groState :=
  mkGROState (gs_bufs s) (gs_tcp s) (gs_udp s) (gs_toWrite s ++ [i]).

(** One round of the loop over [bufs]; an error ends the loop. *)
Definition groRound (canUDPGRO : bool) (offset i : Z) (s : groState) : outcome (groState * option gro_error) :=
  b ← get (gs_bufs s) i;
  if (offset <? virtioNetHdrLen) || (bl b - 1 <? offset) then Ret (s, Some ErrInvalidOffset) else
  pkt ← from b offset;
  '(r, s) ← groOffer canUDPGRO offset i (elems pkt) s;
  match r with
  | groResultCoalesced => Ret (s, None)
  | groResultTableInsert => Ret (groWrite i s, None)
  | groResultNoop =>
      b ← get (gs_bufs s) i;
      '(b, err) ← encodeAt b offset emptyHdr;
      bufs ← put (gs_bufs s) i b;
      let s := mkGROState bufs (gs_tcp s) (gs_udp s) (gs_toWrite s) in
      match err with
      | Some e => Ret (s, Some (ErrEncode e))
      | None => Ret (groWrite i s, None)
      end
  end.

(** [n] rounds are left. *)
Fixpoint groRounds (n : nat) (canUDPGRO : bool) (offset i : Z) (s : groState) :
    outcome (groState * option gro_error) :=
  match n with
  | O => Ret (s, None)
  | S n =>
      '(s, err) ← groRound canUDPGRO offset i s;
      match err with
      | Some e => Ret (s, Some e)
      | None => groRounds n canUDPGRO offset (i + 1) s
      end
  end.
End gro.

(** The orders in which the two maps are ranged over. *)
Record groOrders := mkOrders {
  go_tcp : gmap tcpFlowKey (list tcpGROItem) → list (tcpFlowKey * list tcpGROItem);
  go_udp : gmap udpFlowKey (list udpGROItem) → list (udpFlowKey * list udpGROItem) }.

Definition handleGRO (en : endian) (ord : groOrders) (canUDPGRO : bool) (offset : Z) (s : groState) :
    outcome (groState * list gro_error) :=
  '(s, err) ← groRounds en (length (gs_bufs s)) canUDPGRO offset 0 s;
  match err with
  | Some e => Ret (s, [e])
  | None =>
      '(bufs, errTCP) ← applyTCPCoalesceAccounting en (go_tcp ord (tt_itemsByFlow (gs_tcp s))) (gs_bufs s) offset;
      '(bufs, errUDP) ← applyUDPCoalesceAccounting en (go_udp ord (ut_itemsByFlow (gs_udp s))) bufs offset;
      Ret (mkGROState bufs (gs_tcp s) (gs_udp s) (gs_toWrite s),
           ErrEncode <$> (option_list errTCP ++ option_list errUDP))
  end.

(** * [nativeTun.write]

    What the device answers to each write is an argument. *)
Inductive dev_write := Wrote (n : Z) | WriteErr (e : os_error).

Record nativeTun := mkNativeTun {
  nt_vnetHdr : bool; nt_udpGSO : bool; nt_tcpGROTable : tcpGROTable; nt_udpGROTable : udpGROTable }.

Inductive write_error := WriteGRO (e : gro_error) | WriteClosed | WriteErrno.

(** What is handed to the device, the bytes it took and the errors. *)
Fixpoint writeEach (toWrite : list Z) (bufs : list buf) (offset : Z) (ans : list dev_write)
    (total : Z) (errs : list write_error) : outcome (list bytes * Z * list write_error) :=
  match toWrite with
  | [] => Ret ([], total, errs)
  | i :: toWrite =>
      b ← get bufs i;
      p ← slice_from (elems b) offset;
      let a := default (Wrote (zlen p)) (head ans) in
      match a with
      | WriteErr EBADFD => Ret ([p], total, [WriteClosed])
      | WriteErr OtherErrno =>
          '(ps, total, errs) ← writeEach toWrite bufs offset (tail ans) total (errs ++ [WriteErrno]);
          Ret (p :: ps, total, errs)
      | Wrote n =>
          '(ps, total, errs) ← writeEach toWrite bufs offset (tail ans) (total + n) errs;
          Ret (p :: ps, total, errs)
      end
  end.

Definition tun_write (en : endian) (ord : groOrders) (t : nativeTun) (bufs : list buf) (offset : Z)
    (ans : list dev_write) : outcome (nativeTun * list bytes * Z * list write_error) :=
  if nt_vnetHdr t then
    '(s, errs) ← handleGRO en ord (nt_udpGSO t) offset (mkGROState bufs (nt_tcpGROTable t) (nt_udpGROTable t) []);
    let t := mkNativeTun (nt_vnetHdr t) (nt_udpGSO t) (tcpReset (gs_tcp s)) (udpReset (gs_udp s)) in
    match errs with
    | [] =>
        '(ps, total, errs) ← writeEach (gs_toWrite s) (gs_bufs s) (offset - virtioNetHdrLen) ans 0 [];
        Ret (t, ps, total, errs)
    | _ => Ret (t, [], 0, WriteGRO <$> errs)
    end
  else
    '(ps, total, errs) ← writeEach (Z.of_nat <$> seq 0 (length bufs)) bufs offset ans 0 [];
    Ret (mkNativeTun (nt_vnetHdr t) (nt_udpGSO t) (tcpReset (nt_tcpGROTable t)) (udpReset (nt_udpGROTable t)),
         ps, total, errs).
