(* ===== verification/GroMerge.v ===== *)
(** Merging packets in place ([Gro]): a slice grown within its capacity, and
    what a successful merge makes of the two packets. *)
From S2P Require Import Prelude.
From S2P Require Import TunChecksum.
From S2P Require Import TunOffload.
From S2P Require Import TunSplit.
From S2P Require Import Gro.

(** * Slices with their capacity

    A slice with the elements [x] and the room [r] behind them. *)
Definition buf_of (x r : bytes) : buf := mkBuf (x ++ r) (zlen x).

Lemma elems_buf_of x r : elems (buf_of x r) = x.
Proof. unfold elems. cbn. by rewrite ztake_app_le, ztake_all. Qed.

Lemma from_buf_of a p r : from (buf_of (a ++ p) r) (zlen a) = Ret (buf_of p r).
Proof.
  pose proof (zlen_nonneg a). pose proof (zlen_nonneg p). unfold from, buf_of. cbn [ba bl]. rewrite zlen_app.
  rewrite (proj2 (Z.leb_le 0 (zlen a))), (proj2 (Z.leb_le (zlen a) _)) by lia. cbn [andb].
  rewrite <- app_assoc, zdrop_app_ge, Z.sub_diag, zdrop_0 by lia. do 2 f_equal. lia.
Qed.

Lemma sub_buf_of x r lo hi : 0 ≤ lo ≤ hi → hi ≤ zlen x → sub (buf_of x r) lo hi = slice x lo hi.
Proof.
  intros Hl Hh. unfold sub. cbn [buf_of ba].
  rewrite (slice_ok x) by lia. apply slice_app_l. by apply slice_ok.
Qed.

Lemma modify_buf_of x r f y : f x = Ret y → zlen y = zlen x → modify (buf_of x r) f = Ret (buf_of y r).
Proof.
  intros E Ly. unfold modify. rewrite elems_buf_of, E, bind_Ret_l. unfold buf_of. cbn [ba bl].
  by rewrite zdrop_app_ge, Z.sub_diag, zdrop_0, Ly by lia.
Qed.

Lemma get_lookup {A} (l : list A) j x : l !! j = Some x → get l (Z.of_nat j) = Ret x.
Proof. intros. apply get_Ret. by rewrite Nat2Z.id; split; [lia|]. Qed.
Lemma put_lookup {A} (l : list A) j x y : l !! j = Some x → put l (Z.of_nat j) y = Ret (<[j := y]> l).
Proof.
  intros Hj. rewrite put_ok, Nat2Z.id; [done|]. apply lookup_lt_Some in Hj. unfold zlen. lia.
Qed.

(** The room is used up from its start. *)
Lemma appendTo_run bufs j x d r1 r2 :
  bufs !! j = Some (buf_of x (r1 ++ r2)) → zlen r1 = zlen d →
  appendTo bufs (Z.of_nat j) (zlen d) (zlen x) d = Ret (<[j := buf_of (x ++ d) r2]> bufs).
Proof.
  intros Hj Lr. unfold appendTo. rewrite (get_lookup _ _ _ Hj), bind_Ret_l.
  pose proof (zlen_nonneg d). pose proof (zlen_nonneg x). pose proof (zlen_nonneg r2).
  assert (extend (buf_of x (r1 ++ r2)) (zlen d) = buf_of (x ++ make_bytes (zlen d)) r2) as ->.
  { unfold extend. rewrite elems_buf_of. unfold buf_of. cbn [ba bl].
    rewrite !zlen_app, zlen_make_bytes, (proj2 (Z.leb_le _ _)) by lia.
    rewrite (app_assoc x r1), zdrop_app_ge, zlen_app, Lr, Z.sub_diag, zdrop_0 by (rewrite ?zlen_app; lia).
    by rewrite app_assoc. }
  rewrite (modify_buf_of _ _ _ (x ++ d)), bind_Ret_l.
  - by apply (put_lookup _ _ _ _ Hj).
  - rewrite copy_at_ok by (rewrite ?zlen_app, ?zlen_make_bytes; lia).
    rewrite ztake_app_le, ztake_all by lia. do 2 f_equal.
    rewrite zdrop_all, app_nil_r; [done|]. rewrite zlen_app, zlen_make_bytes; lia.
  - by rewrite !zlen_app, zlen_make_bytes.
Qed.

(** * Packets of one flow *)
Definition ipl (v6 : bool) : Z := if v6 then 40 else 20.

Lemma ipl_range v6 : 20 ≤ ipl v6 ≤ 40.
Proof. by destruct v6. Qed.

(** The address at which the source address starts, and the length of one. *)
Definition src_at (v6 : bool) : Z := if v6 then ipv6SrcAddrOffset else ipv4SrcAddrOffset.
Definition addr_len (v6 : bool) : Z := if v6 then 16 else 4.

Lemma addr_range v6 : 0 ≤ src_at v6 ∧ 0 < addr_len v6 ∧ src_at v6 + addr_len v6 * 2 = ipl v6.
Proof. by destruct v6. Qed.

(** What the IP headers of packets that are merged have in common. *)
Definition ip_class (v6 : bool) (p : bytes) : list (option Z) :=
  if v6 then [p !! 0%nat; (λ x, Z.shiftr x 4) <$> p !! 1%nat; p !! 7%nat]
  else [p !! 1%nat; (λ x, Z.shiftr x 5) <$> p !! 6%nat; p !! 8%nat].

(** The version, and an IPv4 header without options. *)
Definition ip_version (v6 : bool) (p : bytes) : Prop :=
  ∃ b, p !! 0%nat = Some b ∧ Z.shiftr b 4 = (if v6 then 6 else 4) ∧ (v6 = false → Z.land b 15 = 5).

Lemma ipHeadersCanCoalesce_spec v6 a b :
  ip_version v6 a → ∃ c, ipHeadersCanCoalesce a b = Ret c ∧ (c = true → ip_class v6 a = ip_class v6 b).
Proof.
  intros (a0 & Ha0 & Hv & _). unfold ipHeadersCanCoalesce.
  destruct ((zlen a <? 9) || (zlen b <? 9)) eqn:El; [by exists false|].
  apply orb_false_elim in El as [La%Z.ltb_ge Lb%Z.ltb_ge].
  assert (∀ (p : bytes) i z, 9 ≤ zlen p → Z.of_nat i = z → z < 9 → ∃ x, p !! i = Some x ∧ get p z = Ret x) as Hget.
  { intros p i z Hp <- Hi. unfold zlen in Hp. destruct (lookup_lt_is_Some_2 p i) as [x Hx]; [lia|].
    exists x. by split; [|apply get_lookup]. }
  pose proof (Hget a 0%nat 0 La eq_refl ltac:(lia)) as (y0 & Hy0 & E0). assert (y0 = a0) as -> by congruence.
  pose proof (Hget b 0%nat 0 Lb eq_refl ltac:(lia)) as (b0 & Hb0 & F0).
  pose proof (Hget a 1%nat 1 La eq_refl ltac:(lia)) as (a1 & Ha1 & E1). pose proof (Hget b 1%nat 1 Lb eq_refl ltac:(lia)) as (b1 & Hb1 & F1).
  pose proof (Hget a 6%nat 6 La eq_refl ltac:(lia)) as (a6 & Ha6 & E6). pose proof (Hget b 6%nat 6 Lb eq_refl ltac:(lia)) as (b6 & Hb6 & F6).
  pose proof (Hget a 7%nat 7 La eq_refl ltac:(lia)) as (a7 & Ha7 & E7). pose proof (Hget b 7%nat 7 Lb eq_refl ltac:(lia)) as (b7 & Hb7 & F7).
  pose proof (Hget a 8%nat 8 La eq_refl ltac:(lia)) as (a8 & Ha8 & E8). pose proof (Hget b 8%nat 8 Lb eq_refl ltac:(lia)) as (b8 & Hb8 & F8).
  rewrite E0, F0, E1, F1, E6, F6, E7, F7, E8, F8, !bind_Ret_l. eexists. split; [reflexivity|].
  unfold ip_class. rewrite Ha0, Hb0, Ha1, Hb1, Ha6, Hb6, Ha7, Hb7, Ha8, Hb8, Hv. destruct v6; cbn -[Z.shiftr].
  - repeat case_match; try done; intros; f_equal; [f_equal; lia|]. f_equal; [f_equal; lia|]. do 2 f_equal. lia.
  - repeat case_match; try done; intros; f_equal; [f_equal; lia|]. f_equal; [f_equal; lia|]. do 2 f_equal. lia.
Qed.

(** * Runs of packets *)

(** Every packet but the last has [n] bytes of payload, the last at most. *)
Definition sizes (n : Z) (ds : list bytes) : Prop :=
  ∃ ds' d, ds = ds' ++ [d] ∧ Forall (λ x, zlen x = n) ds' ∧ 0 < zlen d ≤ n.

Lemma zlen_concat_same n (ds : list bytes) : Forall (λ x, zlen x = n) ds → zlen (concat ds) = n * zlen ds.
Proof.
  induction 1 as [|d ds Hd _ IH]; cbn [concat]; [unfold zlen; cbn; lia|]. rewrite zlen_app, zlen_cons, IH, Hd. lia.
Qed.

Lemma sizes_total n ds : sizes n ds → n * (zlen ds - 1) < zlen (concat ds) ≤ n * zlen ds.
Proof.
  intros (ds' & d & -> & Hall & Hd). rewrite concat_app, !zlen_app, (zlen_concat_same n) by done. cbn [concat].
  rewrite app_nil_r. change (zlen [d]) with 1. lia.
Qed.

(** A whole number of full packets: the last one is full as well. *)
Lemma sizes_full n ds : sizes n ds → Z.rem (zlen (concat ds)) n = 0 → Forall (λ x, zlen x = n) ds.
Proof.
  intros (ds' & d & -> & Hall & Hd) Hr. rewrite concat_app, zlen_app, (zlen_concat_same n) in Hr by done.
  cbn [concat] in Hr. rewrite app_nil_r in Hr. apply Forall_app. split; [done|]. constructor; [|done].
  pose proof (zlen_nonneg ds'). rewrite Z.rem_mod_nonneg in Hr by nia.
  rewrite Z.add_comm, Z.mul_comm, Z.mod_add in Hr by lia. destruct (Z.eq_dec (zlen d) n); [done|].
  rewrite Z.mod_small in Hr; lia.
Qed.
Lemma sizes_snoc n ds d : sizes n ds → Forall (λ x, zlen x = n) ds → 0 < zlen d ≤ n → sizes n (ds ++ [d]).
Proof. intros _ Hall Hd. by exists ds, d. Qed.
Lemma sizes_cons n ds d : sizes n ds → zlen d = n → sizes n (d :: ds).
Proof. intros (ds' & z & -> & Hall & Hz) Hd. exists (d :: ds'), z. split; [done|]. split; [by constructor|done]. Qed.

(** The sequence numbers, found at [at_] of the packets, follow each other from
    [seq]; [hl] bytes of each packet are headers. *)
Fixpoint follow (at_ hl seq : Z) (ps : list bytes) : Prop :=
  match ps with
  | [] => True
  | q :: ps => read32 q at_ = Ret seq ∧ follow at_ hl (u32 (seq + zlen (zdrop hl q))) ps
  end.

Lemma follow_snoc at_ hl seq ps q :
  ps ≠ [] → follow at_ hl seq ps →
  read32 q at_ = Ret (u32 (seq + zlen (concat (zdrop hl <$> ps)))) → follow at_ hl seq (ps ++ [q]).
Proof.
  revert seq. induction ps as [|p ps IH]; intros seq Hne Hf Hq; [done|]. destruct Hf as [Hp Hf].
  cbn [app follow]. split; [done|]. cbn [fmap list_fmap concat] in Hq. rewrite zlen_app in Hq.
  destruct ps as [|p' ps].
  - cbn [app follow]. rewrite Z.add_0_r in Hq. by split.
  - apply IH; [done|done|]. rewrite u32_u32_add_l. by rewrite <- Z.add_assoc.
Qed.

(** Only the last packet may have PSH set. *)
Definition ack_flags (psh : bool) : Z := if psh then Z.lor tcpFlagACK tcpFlagPSH else tcpFlagACK.
Definition psh_last (at_ : Z) (psh : bool) (ps : list bytes) : Prop :=
  ∃ ps' q, ps = ps' ++ [q] ∧ Forall (λ p, get p at_ = Ret (ack_flags false)) ps' ∧ get q at_ = Ret (ack_flags psh).

Lemma psh_last_snoc at_ psh ps q :
  psh_last at_ false ps → get q at_ = Ret (ack_flags psh) → psh_last at_ psh (ps ++ [q]).
Proof.
  intros (ps' & z & -> & Hall & Hz) Hq. exists (ps' ++ [z]), q. split; [done|]. split; [|done].
  apply Forall_app. by split; [|constructor].
Qed.
Lemma psh_last_cons at_ psh ps q :
  psh_last at_ psh ps → get q at_ = Ret (ack_flags false) → psh_last at_ psh (q :: ps).
Proof.
  intros (ps' & z & -> & Hall & Hz) Hq. exists (q :: ps'), z. split; [done|]. by split; [constructor|].
Qed.

(** The protocol of the packet. *)
Definition ip_proto (v6 : bool) (p : bytes) : option Z := p !! (if v6 then 6 else 9)%nat.

(** * TCP packets and items *)

(** The packet as a slice of its own. *)
Definition whole (p : bytes) : buf := buf_of p [].

Definition tcp_key (v6 : bool) (p : bytes) : outcome tcpFlowKey :=
  newTCPFlowKey (whole p) (src_at v6) (src_at v6 + addr_len v6) (ipl v6).

(** A TCP packet with data, its headers without the sequence number and flags. *)
Record tcp_pkt (v6 : bool) (tcph : Z) (p : bytes) : Prop := {
  tp_version : ip_version v6 p;
  tp_proto : ip_proto v6 p = Some IPPROTO_TCP;
  tp_tcph : 20 ≤ tcph ≤ 60;
  tp_off : ∃ b, p !! Z.to_nat (ipl v6 + 12) = Some b ∧ u8 (Z.shiftr b 4 * 4) = tcph;
  tp_len : ipl v6 + tcph < zlen p ≤ 65535 }.

Definition tcp_options (v6 : bool) (tcph : Z) (p : bytes) : bytes := ztake (tcph - 20) (zdrop (ipl v6 + 20) p).

(** PSH or-ed to the flags. *)
Definition pshd (psh : bool) (at_ : Z) (h : bytes) : bytes :=
  if psh then alter (λ f, Z.lor f tcpFlagPSH) (Z.to_nat at_) h else h.

(** The item stands for the packets [ps], merged to the packet [p]. *)
Record tcp_run (v6 : bool) (it : tcpGROItem) (ps : list bytes) (p : bytes) : Prop := {
  tr_num : zlen ps = ti_numMerged it + 1;
  tr_iph : ti_iphLen it = ipl v6;
  tr_v6 : tk_isV6 (ti_key it) = v6;
  tr_all : Forall (λ q, tcp_pkt v6 (ti_tcphLen it) q ∧ tcp_key v6 q = Ret (ti_key it) ∧
    ip_class v6 q = ip_class v6 p ∧ tcp_options v6 (ti_tcphLen it) q = tcp_options v6 (ti_tcphLen it) p) ps;
  tr_sizes : sizes (ti_gsoSize it) (zdrop (ipl v6 + ti_tcphLen it) <$> ps);
  tr_seqs : follow (ipl v6 + 4) (ipl v6 + ti_tcphLen it) (ti_sentSeq it) ps;
  tr_psh : psh_last (ipl v6 + tcpFlagsOffset) (ti_pshSet it) ps;
  tr_packet : ∃ q ps' psh, ps = q :: ps' ∧ (psh = true → ti_pshSet it = true ∧ ps' ≠ []) ∧
    p = pshd psh (ipl v6 + tcpFlagsOffset) (ztake (ipl v6 + ti_tcphLen it) q) ++
        concat (zdrop (ipl v6 + ti_tcphLen it) <$> ps);
  tr_max : zlen p ≤ 65535 }.

Lemma zlen_pshd psh at_ h : zlen (pshd psh at_ h) = zlen h.
Proof. destruct psh; [apply zlen_alter|done]. Qed.

Lemma tcp_run_len v6 it ps p :
  tcp_run v6 it ps p → 20 ≤ ti_tcphLen it ≤ 60 ∧
  zlen p = ipl v6 + ti_tcphLen it + zlen (concat (zdrop (ipl v6 + ti_tcphLen it) <$> ps)).
Proof.
  intros [_ _ _ Hall _ _ _ (q & ps' & psh & -> & _ & ->) _]. apply Forall_cons in Hall as [[[_ _ Ht _ Hl] _] _].
  split; [done|]. pose proof (ipl_range v6). rewrite zlen_app, zlen_pshd, zlen_ztake; lia.
Qed.

Lemma tcp_run_pos v6 it ps p : tcp_run v6 it ps p → 0 ≤ ti_numMerged it ∧ 0 < ti_gsoSize it.
Proof.
  intros [Hn _ _ _ (ds & d & _ & _ & Hd) _ _ (q & ps' & psh & -> & _ & _) _].
  rewrite zlen_cons in Hn. pose proof (zlen_nonneg ps'). lia.
Qed.

(** The header of a packet, but for the flags, is enough to tell its kind. *)
Definition same_head (v6 : bool) (hl : Z) (p p' : bytes) : Prop :=
  ∀ i, Z.of_nat i < hl → Z.of_nat i ≠ ipl v6 + tcpFlagsOffset → p !! i = p' !! i.

Lemma same_head_class v6 hl p p' : 20 ≤ hl → same_head v6 hl p p' → ip_class v6 p = ip_class v6 p'.
Proof.
  intros Hl H. pose proof (ipl_range v6). unfold tcpFlagsOffset in *. unfold ip_class.
  destruct v6; rewrite !H by (unfold tcpFlagsOffset; lia); done.
Qed.
Lemma same_head_options v6 tcph p p' :
  0 ≤ tcph → same_head v6 (ipl v6 + tcph) p p' → tcp_options v6 tcph p = tcp_options v6 tcph p'.
Proof.
  intros Ht H. pose proof (ipl_range v6). unfold tcp_options, ztake, zdrop. apply list_eq. intros i.
  destruct (decide (i < Z.to_nat (tcph - 20))%nat); [|by rewrite !lookup_take_ge by lia].
  rewrite !lookup_take_lt, !lookup_drop by lia. apply H; unfold tcpFlagsOffset; lia.
Qed.

Lemma same_head_pshd v6 hl psh p : same_head v6 hl (pshd psh (ipl v6 + tcpFlagsOffset) p) p.
Proof.
  intros i _ Hi. destruct psh; [|done]. apply list_lookup_alter_ne. pose proof (ipl_range v6).
  unfold tcpFlagsOffset in *. lia.
Qed.
Lemma same_head_app v6 hl p d : hl ≤ zlen p → same_head v6 hl (p ++ d) p.
Proof. intros Hl i Hi _. apply lookup_app_l. unfold zlen in Hl. lia. Qed.
Lemma same_head_trans v6 hl p1 p2 p3 : same_head v6 hl p1 p2 → same_head v6 hl p2 p3 → same_head v6 hl p1 p3.
Proof. intros H1 H2 i Hi Hn. by rewrite H1, H2. Qed.

Lemma pshd_app psh at_ h d : 0 ≤ at_ < zlen h → pshd psh at_ (h ++ d) = pshd psh at_ h ++ d.
Proof. intros Ha. destruct psh; [|done]. apply alter_app_l. unfold zlen in Ha. lia. Qed.

(** The check of a checksum returns. *)
Lemma checksumValid_run en v6 x rx proto :
  ipl v6 ≤ zlen x → ∃ b, checksumValid en (buf_of x rx) (ipl v6) proto v6 = Ret b.
Proof.
  intros Hx. destruct (addr_range v6) as (H1 & H2 & H3). unfold checksumValid. fold (src_at v6) (addr_len v6).
  rewrite !sub_buf_of, !slice_ok, !bind_Ret_l by lia. rewrite elems_buf_of, slice_from_ok, bind_Ret_l by lia.
  by eexists.
Qed.

Lemma checksumValid_same en v6 x rx rx' proto :
  ipl v6 ≤ zlen x →
  checksumValid en (buf_of x rx) (ipl v6) proto v6 = checksumValid en (buf_of x rx') (ipl v6) proto v6.
Proof.
  intros Hx. destruct (addr_range v6) as (H1 & H2 & H3). unfold checksumValid. fold (src_at v6) (addr_len v6).
  by rewrite !sub_buf_of, !elems_buf_of by lia.
Qed.

(** * The test *)
Section merge.
Context (en : endian) (v6 : bool) (bufs : list buf) (off : Z).
Context (it : tcpGROItem) (ps : list bytes) (p a r : bytes) (j : nat).
Hypothesis Hrun : tcp_run v6 it ps p.
Hypothesis Hidx : ti_bufsIndex it = Z.of_nat j.
Hypothesis Hj : bufs !! j = Some (buf_of (a ++ p) r).
Hypothesis La : zlen a = off.
(** The new packet. *)
Context (q rq : bytes) (tcph seq : Z) (psh : bool).
Hypothesis Hq : tcp_pkt v6 tcph q.
Hypothesis Hkey : tcp_key v6 q = Ret (ti_key it).
Hypothesis Hseq : read32 q (ipl v6 + 4) = Ret seq.
Hypothesis Hflags : get q (ipl v6 + tcpFlagsOffset) = Ret (ack_flags psh).

Local Abbreviation hl := (ipl v6 + ti_tcphLen it).
Local Abbreviation data := (concat (zdrop hl <$> ps)).
Local Abbreviation size := (zlen q - (ipl v6 + tcph)).

Lemma target_run : target bufs (ti_bufsIndex it) off = Ret (buf_of p r).
Proof. unfold target. rewrite Hidx, (get_lookup _ _ _ Hj), bind_Ret_l, <- La. apply from_buf_of. Qed.

Lemma sameOptions_run :
  tcph = ti_tcphLen it →
  ∃ b, sameOptions (buf_of q rq) (buf_of p r) (ipl v6) tcph it = Ret b ∧
    (b = true → tcp_options v6 tcph q = tcp_options v6 tcph p).
Proof.
  intros Et. destruct (tcp_run_len _ _ _ _ Hrun) as [Ht Lp]. pose proof (zlen_nonneg data).
  pose proof (ipl_range v6). destruct Hq as [_ _ _ _ Lq]. unfold sameOptions, tcp_options. rewrite (tr_iph _ _ _ _ Hrun).
  destruct (Z.ltb_spec 20 tcph) as [Hgt|].
  - rewrite !u8_id by ulia. rewrite !sub_buf_of, !slice_ok, !bind_Ret_l by lia. eexists. split; [reflexivity|].
    intros Hd%bool_decide_eq_true. by replace (ipl v6 + tcph - (ipl v6 + 20)) with (tcph - 20) in Hd by lia.
  - exists true. split; [done|]. intros _. by rewrite !ztake_0 by lia.
Qed.

(** The packet has the headers of the item, apart from its place. *)
Definition alike : Prop :=
  tcph = ti_tcphLen it ∧ ip_class v6 q = ip_class v6 p ∧ tcp_options v6 tcph q = tcp_options v6 tcph p.

Lemma tcpPacketsCanCoalesce_spec :
  ∃ c, tcpPacketsCanCoalesce (buf_of q rq) (ipl v6) tcph seq psh size it bufs off = Ret c ∧
  match c with
  | coalesceUnavailable => True
  | coalesceAppend => alike ∧ seq = u32 (ti_sentSeq it + zlen data) ∧ ti_pshSet it = false ∧
      Forall (λ d, zlen d = ti_gsoSize it) (zdrop hl <$> ps) ∧ size ≤ ti_gsoSize it
  | coalescePrepend => alike ∧ u32 (seq + size) = ti_sentSeq it ∧ psh = false ∧
      (size = ti_gsoSize it ∨ ti_gsoSize it < size ∧ ti_numMerged it = 0)
  end.
Proof.
  destruct (tcp_run_len _ _ _ _ Hrun) as [Ht Lp]. pose proof (tr_max _ _ _ _ Hrun). pose proof (ipl_range v6). pose proof (zlen_nonneg data).
  pose proof (sizes_total _ _ (tr_sizes _ _ _ _ Hrun)) as Htot. rewrite zlen_map, (tr_num _ _ _ _ Hrun) in Htot.
  destruct (tcp_run_pos _ _ _ _ Hrun) as [Hnum Hgso].
  unfold tcpPacketsCanCoalesce. rewrite target_run, bind_Ret_l.
  destruct (Z.eqb_spec tcph (ti_tcphLen it)) as [Et|]; cbn [negb]; [|by exists coalesceUnavailable].
  destruct (sameOptions_run Et) as (b & -> & Hopt). rewrite bind_Ret_l. destruct b; [|by exists coalesceUnavailable].
  rewrite !elems_buf_of.
  destruct (ipHeadersCanCoalesce_spec v6 q p (tp_version _ _ _ Hq)) as (c & -> & Hc). rewrite bind_Ret_l.
  destruct c; [|by exists coalesceUnavailable]. cbn [negb].
  assert (alike) as Hal by by split_and!; [|apply Hc|apply Hopt]. clear Hopt Hc.
  set (lhs := u16 _). destruct (Z.eqb_spec seq (u32 (ti_sentSeq it + lhs))) as [Es|].
  - destruct (ti_pshSet it); [by exists coalesceUnavailable|].
    unfold lenMod. rewrite u8_id by ulia. rewrite slice_from_ok, bind_Ret_l by lia.
    destruct (Z.eqb_spec (ti_gsoSize it) 0); [lia|]. rewrite bind_Ret_l, zlen_zdrop by lia.
    replace (zlen p - (ipl v6 + tcph)) with (zlen data) by lia.
    destruct (Z.eqb_spec (Z.rem (zlen data) (ti_gsoSize it)) 0) as [Er|]; cbn [negb]; [|by exists coalesceUnavailable].
    destruct (Z.ltb_spec (ti_gsoSize it) size); [by exists coalesceUnavailable|]. exists coalesceAppend.
    pose proof (sizes_full _ _ (tr_sizes _ _ _ _ Hrun) Er) as Hfull. split; [done|]. split; [done|].
    split; [|done]. pose proof (zlen_concat_same _ _ Hfull) as El. rewrite zlen_map, (tr_num _ _ _ _ Hrun) in El.
    assert (0 ≤ ti_numMerged it * ti_gsoSize it) by nia.
    rewrite Es. do 2 f_equal. unfold lhs. rewrite (u16_id (ti_numMerged it * _)), u16_id by ulia. lia.
  - destruct (Z.eqb_spec (u32 (seq + size)) (ti_sentSeq it)); [|by exists coalesceUnavailable].
    destruct psh; [by exists coalesceUnavailable|]. destruct (Z.ltb_spec size (ti_gsoSize it)); [by exists coalesceUnavailable|].
    destruct (Z.ltb_spec (ti_gsoSize it) size), (Z.ltb_spec 0 (ti_numMerged it)); cbn [andb];
      try (by exists coalesceUnavailable); exists coalescePrepend; (split; [done|]); (split; [done|]); (split; [done|]);
      (split; [done|]); lia.
Qed.

(** * The merge *)
Lemma checksumsValid_run :
  ∃ bad, checksumsValid en (buf_of q rq) (buf_of p r) it v6 = Ret bad ∧
    match bad with
    | None | Some coalescePktInvalidCSum => True
    | Some coalesceItemInvalidCSum =>
        ti_numMerged it = 0 ∧ checksumValid en (buf_of p r) (ipl v6) IPPROTO_TCP v6 = Ret false
    | _ => False
    end.
Proof.
  destruct (tcp_run_len _ _ _ _ Hrun) as [Ht Lp]. pose proof (zlen_nonneg data). destruct Hq as [_ _ Hth _ Lq].
  unfold checksumsValid. rewrite (tr_iph _ _ _ _ Hrun).
  destruct (checksumValid_run en v6 p r IPPROTO_TCP) as [b1 E1]; [lia|].
  destruct (checksumValid_run en v6 q rq IPPROTO_TCP) as [b2 E2]; [lia|].
  destruct (Z.eqb_spec (ti_numMerged it) 0); rewrite ?E1, ?bind_Ret_l.
  - destruct b1; cbn [negb]; [|by eexists]. rewrite E2, bind_Ret_l. destruct b2; by eexists.
  - cbn [negb]. rewrite E2, bind_Ret_l. destruct b2; by eexists.
Qed.

(** The capacity of the buffers: a merged packet stays below 64K. *)
Definition cap_ok (x rx : bytes) : Prop := zlen x + zlen rx ≤ 65535 + off.

Lemma noteMerged_same n x :
  ti_bufsIndex (noteMerged n x) = ti_bufsIndex x ∧ ti_key (noteMerged n x) = ti_key x ∧
  ti_iphLen (noteMerged n x) = ti_iphLen x ∧ ti_tcphLen (noteMerged n x) = ti_tcphLen x ∧
  ti_sentSeq (noteMerged n x) = ti_sentSeq x ∧ ti_pshSet (noteMerged n x) = ti_pshSet x ∧
  ti_numMerged (noteMerged n x) = u16 (ti_numMerged x + 1) ∧
  ti_gsoSize (noteMerged n x) = Z.max (ti_gsoSize x) n.
Proof. unfold noteMerged. destruct (Z.ltb_spec (ti_gsoSize x) n); split_and!; try done; cbn; lia. Qed.

Lemma numMerged_room : u16 (ti_numMerged it + 1) = ti_numMerged it + 1.
Proof.
  pose proof (tr_max _ _ _ _ Hrun). destruct (tcp_run_len _ _ _ _ Hrun) as [Ht Lp]. pose proof (ipl_range v6).
  pose proof (sizes_total _ _ (tr_sizes _ _ _ _ Hrun)) as Htot. rewrite zlen_map, (tr_num _ _ _ _ Hrun) in Htot.
  destruct (tcp_run_pos _ _ _ _ Hrun) as [Hnum Hgso]. apply u16_id. unfold is_u16. nia.
Qed.

(** The packets after the new one is put behind them. *)
Lemma tcp_run_append it' :
  alike → seq = u32 (ti_sentSeq it + zlen data) → ti_pshSet it = false →
  Forall (λ d, zlen d = ti_gsoSize it) (zdrop hl <$> ps) → size ≤ ti_gsoSize it →
  zlen p + size ≤ 65535 →
  it' = noteMerged size (if psh then it <| ti_pshSet := true |> else it) →
  tcp_run v6 it' (ps ++ [q]) (pshd psh (ipl v6 + tcpFlagsOffset) p ++ zdrop hl q).
Proof.
  intros (Et & Hcl & Hop) Es Hnp Hfull Hsz Hmax Hit.
  pose proof (noteMerged_same size (if psh then it <| ti_pshSet := true |> else it)) as (_ & Ek & Ei & Eh & Eq & Ep & En & Eg).
  rewrite <- Hit in *. clear Hit.
  assert (∀ A (f : tcpGROItem → A), (∀ b, f (it <| ti_pshSet := b |>) = f it) →
    f (if psh then it <| ti_pshSet := true |> else it) = f it) as Hsame by (intros; by destruct psh).
  rewrite (Hsame _ ti_key) in Ek by done. rewrite (Hsame _ ti_iphLen) in Ei by done.
  rewrite (Hsame _ ti_tcphLen) in Eh by done. rewrite (Hsame _ ti_sentSeq) in Eq by done.
  rewrite (Hsame _ ti_numMerged), numMerged_room in En by done. rewrite (Hsame _ ti_gsoSize), Z.max_l in Eg by done.
  assert (ti_pshSet it' = psh) as Ep' by (rewrite Ep; by destruct psh). clear Hsame Ep.
  destruct (tcp_run_len _ _ _ _ Hrun) as [Ht Lp]. pose proof (zlen_nonneg data). pose proof (ipl_range v6).
  set (p' := pshd psh (ipl v6 + tcpFlagsOffset) p ++ zdrop hl q).
  assert (same_head v6 hl p' p) as Hhd.
  { eapply same_head_trans; [apply same_head_app; rewrite zlen_pshd; lia|apply same_head_pshd]. }
  assert (0 < zlen (zdrop hl q) ≤ ti_gsoSize it) as Lq by (destruct Hq; rewrite zlen_zdrop; lia).
  assert (zlen (zdrop hl q) = size) as Lq' by (destruct Hq; rewrite zlen_zdrop; lia).
  pose proof (same_head_class v6 hl p' p ltac:(lia) Hhd) as Hcl'. pose proof (same_head_options v6 (ti_tcphLen it) p' p ltac:(lia) Hhd) as Hop'.
  destruct Hrun as [Rn Ri R6 Ra Rs Rf Rp (q0 & ps' & fl & Eps & Hfl & Epk) Rm].
  assert (fl = false) as -> by (destruct fl; [|done]; destruct Hfl; congruence).
  split; rewrite ?Ek, ?Ei, ?Eh, ?Eq, ?En, ?Eg, ?Ep'; try done.
  - rewrite zlen_app, Rn. done.
  - rewrite Hcl', Hop'. apply Forall_app. split; [done|]. constructor; [|done]. rewrite <- Et. by split_and!.
  - rewrite fmap_app. by apply sizes_snoc.
  - apply follow_snoc; [by subst ps|done|by rewrite Hseq, Es].
  - apply psh_last_snoc; [by rewrite <- Hnp|done].
  - exists q0, (ps' ++ [q]), psh. subst ps. split; [done|]. split; [intros ->; by split; [|destruct ps']|].
    unfold p'. rewrite Epk at 1. cbn [pshd]. rewrite pshd_app, fmap_app, concat_app, <- !app_assoc.
    + cbn [fmap list_fmap concat]. by rewrite app_nil_r.
    + apply Forall_cons in Ra as [[[_ _ _ _ Lq0] _] _]. rewrite zlen_ztake; unfold tcpFlagsOffset; lia.
  - unfold p'. rewrite zlen_app, zlen_pshd. lia.
Qed.

(** The packets after the new one is put in front of them. *)
Lemma tcp_run_prepend it' :
  alike → u32 (seq + size) = ti_sentSeq it → psh = false →
  size = ti_gsoSize it ∨ ti_gsoSize it < size ∧ ti_numMerged it = 0 →
  zlen p + size ≤ 65535 → it' = noteMerged size (it <| ti_sentSeq := seq |>) →
  tcp_run v6 it' (q :: ps) (q ++ data).
Proof.
  intros (Et & Hcl & Hop) Es Hnp Hsz Hmax Hit.
  pose proof (noteMerged_same size (it <| ti_sentSeq := seq |>)) as (_ & Ek & Ei & Eh & Eq & Ep & En & Eg).
  rewrite <- Hit in *. clear Hit. change (ti_numMerged it' = u16 (ti_numMerged it + 1)) in En.
  rewrite numMerged_room in En.
  change (ti_gsoSize it' = Z.max (ti_gsoSize it) size) in Eg. change (ti_key it' = ti_key it) in Ek.
  change (ti_iphLen it' = ti_iphLen it) in Ei. change (ti_tcphLen it' = ti_tcphLen it) in Eh.
  change (ti_sentSeq it' = seq) in Eq. change (ti_pshSet it' = ti_pshSet it) in Ep.
  destruct (tcp_run_len _ _ _ _ Hrun) as [Ht Lp]. pose proof (zlen_nonneg data). pose proof (ipl_range v6).
  assert (same_head v6 hl (q ++ data) q) as Hhd by (apply same_head_app; destruct Hq; lia).
  assert (zlen (zdrop hl q) = size) as Lq' by (destruct Hq; rewrite zlen_zdrop; lia).
  pose proof (same_head_class v6 hl (q ++ data) q ltac:(lia) Hhd) as Hcl'. pose proof (same_head_options v6 (ti_tcphLen it) (q ++ data) q ltac:(lia) Hhd) as Hop'.
  pose proof Hrun as [Rn Ri R6 Ra Rs Rf Rp _ Rm].
  split; rewrite ?Ek, ?Ei, ?Eh, ?Eq, ?En, ?Ep; try done.
  - rewrite zlen_cons, Rn. done.
  - rewrite Hcl', Hop'. rewrite <- Et in *. constructor; [done|]. eapply Forall_impl; [exact Ra|]. cbn.
    intros x (? & ? & ? & ?). split_and!; congruence.
  - rewrite Eg. cbn [fmap list_fmap]. destruct Hsz as [Hsz|[Hsz Hn0]].
    + rewrite Z.max_l by lia. apply sizes_cons; [done|lia].
    + rewrite Z.max_r by lia. rewrite Hn0 in Rn. destruct ps as [|p0 [|]]; [done| |cbn in Rn; unfold zlen in Rn; cbn in Rn; lia].
      destruct Rs as ([|? [|]] & d & Ed & _ & Hd); try done. injection Ed as <-.
      exists [zdrop hl q], (zdrop hl p0). split; [done|]. split; [by constructor|lia].
  - cbn [follow]. split; [done|]. by rewrite Lq', Es.
  - apply psh_last_cons; [done|by rewrite <- Hnp].
  - exists q, ps, false. split; [done|]. split; [done|]. cbn [pshd fmap list_fmap concat].
    by rewrite app_assoc, ztake_zdrop.
  - rewrite zlen_app. lia.
Qed.

(** What a merge leaves: on success the buffer of the item holds one packet
    more; the buffers it does not use stay. *)
Definition merge_result (i : nat) (res : coalesceResult) (it' : tcpGROItem) (bufs' : list buf) : Prop :=
  match res with
  | coalesceSuccess => ∃ p' a' r' ps', bufs' !! j = Some (buf_of (a' ++ p') r') ∧ zlen a' = off ∧ cap_ok p' r' ∧
      tcp_run v6 it' ps' p' ∧ (ps' = ps ++ [q] ∨ ps' = q :: ps) ∧
      ti_bufsIndex it' = ti_bufsIndex it ∧ ti_key it' = ti_key it ∧
      (∀ k, k ≠ j → k ≠ i → bufs' !! k = bufs !! k) ∧ length bufs' = length bufs ∧
      (bufs' !! i = bufs !! i ∨ bufs' !! i = bufs !! j)
  | coalesceItemInvalidCSum => it' = it ∧ bufs' = bufs ∧ ti_numMerged it = 0 ∧
      checksumValid en (buf_of p r) (ipl v6) IPPROTO_TCP v6 = Ret false
  | _ => it' = it ∧ bufs' = bufs
  end.

Lemma note_psh :
  (if psh then
     b ← get bufs (ti_bufsIndex it);
     b ← modify b (λ x, f ← get x (off + u8 (ipl v6 + tcpFlagsOffset));
                        put x (off + u8 (ipl v6 + tcpFlagsOffset)) (Z.lor f tcpFlagPSH));
     bufs ← put bufs (ti_bufsIndex it) b;
     Ret (it <| ti_pshSet := true |>, bufs)
   else Ret (it, bufs)) =
  Ret (if psh then it <| ti_pshSet := true |> else it,
       <[j := buf_of (a ++ pshd psh (ipl v6 + tcpFlagsOffset) p) r]> bufs).
Proof.
  destruct psh; [|by rewrite list_insert_id]. destruct (tcp_run_len _ _ _ _ Hrun) as [Ht Lp].
  pose proof (zlen_nonneg data). pose proof (ipl_range v6). pose proof (zlen_nonneg a). unfold tcpFlagsOffset.
  rewrite Hidx, (get_lookup _ _ _ Hj), bind_Ret_l, u8_id by ulia.
  destruct (lookup_lt_is_Some_2 p (Z.to_nat (ipl v6 + 13))) as [f Hf]; [unfold zlen in *; lia|].
  assert ((a ++ p) !! Z.to_nat (off + (ipl v6 + 13)) = Some f) as Hf'.
  { rewrite lookup_app_r by (unfold zlen in *; lia). rewrite <- Hf. f_equal. unfold zlen in *. lia. }
  rewrite (modify_buf_of _ _ _ (a ++ pshd true (ipl v6 + 13) p)), bind_Ret_l, (put_lookup _ _ _ _ Hj), bind_Ret_l; [done| |].
  - assert (get (a ++ p) (off + (ipl v6 + 13)) = Ret f) as -> by (apply get_Ret; split; [lia|done]).
    rewrite bind_Ret_l, put_ok by (rewrite zlen_app; lia). f_equal. rewrite (insert_alter (λ f, Z.lor f tcpFlagPSH)) by done.
    cbn [pshd]. unfold zlen in *.
    replace (Z.to_nat (off + (ipl v6 + 13))) with (length a + Z.to_nat (ipl v6 + 13))%nat by lia. apply alter_app_r.
  - by rewrite !zlen_app, zlen_pshd.
Qed.

Lemma appendTCP_run i :
  alike → seq = u32 (ti_sentSeq it + zlen data) → ti_pshSet it = false →
  Forall (λ d, zlen d = ti_gsoSize it) (zdrop hl <$> ps) → size ≤ ti_gsoSize it → cap_ok p r → i ≠ j →
  ∃ res it' bufs', appendTCP en (buf_of q rq) size psh it bufs off v6 = Ret (res, it', bufs') ∧
    merge_result i res it' bufs'.
Proof.
  intros Hal Es Hnp Hfull Hsz Hcap Hij. unfold appendTCP. rewrite target_run, bind_Ret_l.
  destruct (tcp_run_len _ _ _ _ Hrun) as [Ht Lp]. pose proof (zlen_nonneg data). pose proof (ipl_range v6).
  pose proof (zlen_nonneg a). pose proof (zlen_nonneg r). pose proof Hal as (Et & _). pose proof Hq as [_ _ _ _ Lq].
  rewrite (tr_iph _ _ _ _ Hrun), (u8_id hl) by ulia. cbn [buf_of ba bl]. rewrite zlen_app. unfold cap_ok in Hcap.
  case_match eqn:Ecap; [by do 3 eexists|]. apply Z.ltb_ge in Ecap. fold (buf_of p r) (buf_of q rq).
  destruct checksumsValid_run as (bad & -> & Hbad). rewrite bind_Ret_l.
  destruct bad as [[]|]; try done; [by do 3 eexists..|].
  rewrite note_psh, bind_Ret_l. set (p1 := pshd _ _ _). set (it1 := if psh then _ else _).
  rewrite elems_buf_of, slice_from_ok, bind_Ret_l by lia. set (d := zdrop hl q).
  assert (zlen d = zlen q - hl) as Ld by (unfold d; rewrite zlen_zdrop; lia). rewrite <- Ld.
  assert (zlen p1 = zlen p) as Lp1 by apply zlen_pshd.
  replace (off + zlen p) with (zlen (a ++ p1)) by (rewrite zlen_app; lia).
  assert (ti_bufsIndex it1 = Z.of_nat j) as -> by (unfold it1; by destruct psh).
  assert (j < length bufs)%nat as Hlt by (by eapply lookup_lt_Some).
  rewrite (appendTo_run _ j (a ++ p1) d (ztake (zlen d) r) (zdrop (zlen d) r)), bind_Ret_l;
    [|by rewrite ztake_zdrop, list_lookup_insert_eq by done|rewrite zlen_ztake; lia].
  do 3 eexists. split; [reflexivity|]. rewrite list_insert_insert_eq, <- app_assoc.
  exists (p1 ++ d), a, (zdrop (zlen d) r), (ps ++ [q]). split; [by rewrite list_lookup_insert_eq|]. split; [done|].
  split; [unfold cap_ok; rewrite zlen_app, zlen_zdrop; lia|].
  split; [apply tcp_run_append; try done; lia|]. split; [by left|].
  destruct (noteMerged_same (zlen q - (ipl v6 + tcph)) it1) as (-> & -> & _).
  split; [unfold it1; by destruct psh|]. split; [unfold it1; by destruct psh|].
  split; [by intros; rewrite list_lookup_insert_ne|]. split; [by rewrite length_insert|].
  left. by rewrite list_lookup_insert_ne.
Qed.

Lemma prependTCP_run i aq :
  alike → u32 (seq + size) = ti_sentSeq it → psh = false →
  size = ti_gsoSize it ∨ ti_gsoSize it < size ∧ ti_numMerged it = 0 →
  i ≠ j → bufs !! i = Some (buf_of (aq ++ q) rq) → zlen aq = off → cap_ok q rq →
  ∃ res it' bufs', prependTCP en (buf_of q rq) (Z.of_nat i) size seq psh it bufs off v6 = Ret (res, it', bufs') ∧
    merge_result i res it' bufs'.
Proof.
  intros Hal Es Hnp Hsz Hij Hi Laq Hcap. unfold prependTCP. rewrite target_run, bind_Ret_l.
  destruct (tcp_run_len _ _ _ _ Hrun) as [Ht Lp]. pose proof (zlen_nonneg data). pose proof (ipl_range v6).
  pose proof (zlen_nonneg aq). pose proof (zlen_nonneg rq). pose proof Hal as (Et & _). pose proof Hq as [_ _ _ _ Lq].
  rewrite (tr_iph _ _ _ _ Hrun), (u8_id hl) by ulia. cbn [buf_of ba bl]. rewrite zlen_app. unfold cap_ok in Hcap.
  case_match eqn:Ecap; [by do 3 eexists|]. apply Z.ltb_ge in Ecap. fold (buf_of p r) (buf_of q rq). rewrite Hnp.
  destruct checksumsValid_run as (bad & -> & Hbad). rewrite bind_Ret_l.
  destruct bad as [[]|]; try done; [by do 3 eexists..|].
  change (ti_bufsIndex (it <| ti_sentSeq := seq |>)) with (ti_bufsIndex it). rewrite Hidx.
  rewrite (get_lookup _ _ _ Hj), bind_Ret_l, elems_buf_of, slice_from_ok, bind_Ret_l by (rewrite zlen_app; lia).
  assert (zdrop (off + hl) (a ++ p) = data) as ->.
  { rewrite zdrop_app_ge by lia. replace (off + hl - zlen a) with hl by lia.
    destruct (tr_packet _ _ _ _ Hrun) as (q0 & ps' & fl & Eps & _ & ->). pose proof (tr_all _ _ _ _ Hrun) as Ra.
    rewrite Eps in Ra at 1. apply Forall_cons in Ra as [[[_ _ _ _ Lq0] _] _].
    rewrite zdrop_app_ge, zlen_pshd, zlen_ztake, Z.sub_diag, zdrop_0; (done || rewrite ?zlen_pshd, ?zlen_ztake; lia). }
  replace (zlen p + zlen q - hl - zlen q) with (zlen data) by lia.
  replace (off + zlen q) with (zlen (aq ++ q)) by (rewrite zlen_app; lia).
  rewrite (appendTo_run _ i (aq ++ q) data (ztake (zlen data) rq) (zdrop (zlen data) rq)), bind_Ret_l;
    [|by rewrite ztake_zdrop|rewrite zlen_ztake; lia].
  set (b2 := buf_of ((aq ++ q) ++ data) _). set (bufs1 := <[i := b2]> bufs).
  assert (i < length bufs)%nat as Hli by (by eapply lookup_lt_Some).
  assert (bufs1 !! i = Some b2) as G1 by by apply list_lookup_insert_eq.
  assert (bufs1 !! j = Some (buf_of (a ++ p) r)) as G2 by by unfold bufs1; rewrite list_lookup_insert_ne.
  rewrite (get_lookup _ _ _ G1), bind_Ret_l, (get_lookup _ _ _ G2), bind_Ret_l, (put_lookup _ _ _ _ G2), bind_Ret_l.
  assert (<[j := b2]> bufs1 !! i = Some b2) as G3 by by rewrite list_lookup_insert_ne.
  rewrite (put_lookup _ _ _ _ G3), bind_Ret_l. do 3 eexists. split; [reflexivity|].
  assert (j < length bufs1)%nat as Hlj by by eapply lookup_lt_Some.
  exists (q ++ data), aq, (zdrop (zlen data) rq), (q :: ps).
  split; [rewrite list_lookup_insert_ne, list_lookup_insert_eq by done; unfold b2; by rewrite app_assoc|]. split; [done|].
  split; [unfold cap_ok; rewrite zlen_app, zlen_zdrop; lia|].
  split; [by apply tcp_run_prepend; try done; lia|]. split; [by right|].
  destruct (noteMerged_same (zlen q - (ipl v6 + tcph)) (it <| ti_sentSeq := seq |>)) as (-> & -> & _).
  split; [done|]. split; [done|]. split.
  { intros k ? ?. unfold bufs1. by rewrite !list_lookup_insert_ne. }
  split; [unfold bufs1; by rewrite !length_insert|]. right. rewrite list_lookup_insert_eq; [done|].
  rewrite length_insert. by eapply lookup_lt_Some.
Qed.

Lemma coalesceTCPPackets_run i aq :
  i ≠ j → bufs !! i = Some (buf_of (aq ++ q) rq) → zlen aq = off → cap_ok q rq → cap_ok p r →
  ∃ c, tcpPacketsCanCoalesce (buf_of q rq) (ipl v6) tcph seq psh size it bufs off = Ret c ∧
    (c ≠ coalesceUnavailable →
     ∃ res it' bufs', coalesceTCPPackets en c (buf_of q rq) (Z.of_nat i) size seq psh it bufs off v6 =
         Ret (res, it', bufs') ∧ merge_result i res it' bufs').
Proof.
  intros Hij Hi Laq Hcq Hcp. destruct tcpPacketsCanCoalesce_spec as (c & -> & Hc). exists c. split; [done|].
  intros Hne. destruct c; [|done|].
  - destruct Hc as (Hal & Es & Hnp & Hsz). by apply (prependTCP_run i aq).
  - destruct Hc as (Hal & Es & Hnp & Hfull & Hsz). by apply appendTCP_run.
Qed.
End merge.

(** * UDP *)
Definition udp_key (v6 : bool) (p : bytes) : outcome udpFlowKey :=
  newUDPFlowKey (whole p) (src_at v6) (src_at v6 + addr_len v6) (ipl v6).

Record udp_pkt (v6 : bool) (p : bytes) : Prop := {
  up_version : ip_version v6 p;
  up_proto : ip_proto v6 p = Some IPPROTO_UDP;
  up_len : ipl v6 + udphLen < zlen p ≤ 65535 }.

(** The item stands for the packets [ps], merged to the packet [p]. *)
Record udp_run (v6 : bool) (it : udpGROItem) (ps : list bytes) (p : bytes) : Prop := {
  ur_num : zlen ps = ui_numMerged it + 1;
  ur_iph : ui_iphLen it = ipl v6;
  ur_v6 : uk_isV6 (ui_key it) = v6;
  ur_all : Forall (λ q, udp_pkt v6 q ∧ udp_key v6 q = Ret (ui_key it) ∧ ip_class v6 q = ip_class v6 p) ps;
  ur_sizes : sizes (ui_gsoSize it) (zdrop (ipl v6 + udphLen) <$> ps);
  ur_packet : ∃ q ps', ps = q :: ps' ∧ p = ztake (ipl v6 + udphLen) q ++ concat (zdrop (ipl v6 + udphLen) <$> ps);
  ur_max : zlen p ≤ 65535 }.

Lemma udp_run_len v6 it ps p :
  udp_run v6 it ps p →
  zlen p = ipl v6 + udphLen + zlen (concat (zdrop (ipl v6 + udphLen) <$> ps)) ∧
  0 ≤ ui_numMerged it ∧ 0 < ui_gsoSize it.
Proof.
  intros [Hn _ _ Hall (ds & d & _ & _ & Hd) (q & ps' & -> & ->) _]. apply Forall_cons in Hall as [[[_ _ Hl] _] _].
  pose proof (ipl_range v6). unfold udphLen in *. split; [rewrite zlen_app, zlen_ztake; lia|].
  rewrite zlen_cons in Hn. pose proof (zlen_nonneg ps'). lia.
Qed.

Section merge_udp.
Context (en : endian) (v6 : bool) (bufs : list buf) (off : Z).
Context (it : udpGROItem) (ps : list bytes) (p a r : bytes) (j : nat).
Hypothesis Hrun : udp_run v6 it ps p.
Hypothesis Hidx : ui_bufsIndex it = Z.of_nat j.
Hypothesis Hj : bufs !! j = Some (buf_of (a ++ p) r).
Hypothesis La : zlen a = off.
(** The new packet. *)
Context (q rq : bytes).
Hypothesis Hq : udp_pkt v6 q.
Hypothesis Hkey : udp_key v6 q = Ret (ui_key it).

Local Abbreviation hl := (ipl v6 + udphLen).
Local Abbreviation data := (concat (zdrop hl <$> ps)).
Local Abbreviation size := (zlen q - hl).

Lemma target_udp : target bufs (ui_bufsIndex it) off = Ret (buf_of p r).
Proof. unfold target. rewrite Hidx, (get_lookup _ _ _ Hj), bind_Ret_l, <- La. apply from_buf_of. Qed.

Lemma udpPacketsCanCoalesce_spec :
  ∃ c, udpPacketsCanCoalesce (buf_of q rq) (ipl v6) size it bufs off = Ret c ∧
  match c with
  | coalesceUnavailable => True
  | coalesceAppend => ip_class v6 q = ip_class v6 p ∧
      Forall (λ d, zlen d = ui_gsoSize it) (zdrop hl <$> ps) ∧ size ≤ ui_gsoSize it
  | coalescePrepend => False
  end.
Proof.
  destruct (udp_run_len _ _ _ _ Hrun) as (Lp & Hn & Hg). pose proof (ipl_range v6). pose proof (zlen_nonneg data).
  unfold udpPacketsCanCoalesce. rewrite target_udp, bind_Ret_l, !elems_buf_of.
  destruct (ipHeadersCanCoalesce_spec v6 q p (up_version _ _ Hq)) as (c & -> & Hc). rewrite bind_Ret_l.
  destruct c; cbn [negb]; [|by exists coalesceUnavailable].
  unfold lenMod. rewrite u8_id by (unfold udphLen; ulia). rewrite slice_from_ok, bind_Ret_l by (unfold udphLen in *; lia).
  destruct (Z.eqb_spec (ui_gsoSize it) 0); [lia|]. rewrite bind_Ret_l, zlen_zdrop by (unfold udphLen in *; lia).
  replace (zlen p - hl) with (zlen data) by lia.
  destruct (Z.eqb_spec (Z.rem (zlen data) (ui_gsoSize it)) 0) as [Er|]; cbn [negb]; [|by exists coalesceUnavailable].
  destruct (Z.ltb_spec (ui_gsoSize it) size); [by exists coalesceUnavailable|]. exists coalesceAppend.
  split; [done|]. split; [by apply Hc|]. split; [|done]. exact (sizes_full _ _ (ur_sizes _ _ _ _ Hrun) Er).
Qed.

Lemma udp_run_append :
  ip_class v6 q = ip_class v6 p → Forall (λ d, zlen d = ui_gsoSize it) (zdrop hl <$> ps) → size ≤ ui_gsoSize it →
  zlen p + size ≤ 65535 →
  udp_run v6 (it <| ui_numMerged := u16 (ui_numMerged it + 1) |>) (ps ++ [q]) (p ++ zdrop hl q).
Proof.
  intros Hcl Hfull Hsz Hmax. destruct (udp_run_len _ _ _ _ Hrun) as (Lp & Hn & Hg). pose proof (ipl_range v6).
  pose proof (zlen_nonneg data). assert (udphLen = 8) as E8 by done.
  assert (zlen (zdrop hl q) = size) as Lq by (destruct Hq; rewrite zlen_zdrop; lia).
  assert (same_head v6 hl (p ++ zdrop hl q) p) as Hhd by (apply same_head_app; lia).
  pose proof (same_head_class v6 hl (p ++ zdrop hl q) p ltac:(lia) Hhd) as Hcl'.
  pose proof (sizes_total _ _ (ur_sizes _ _ _ _ Hrun)) as Htot. rewrite zlen_map, (ur_num _ _ _ _ Hrun) in Htot.
  pose proof Hrun as [Rn Ri R6 Ra Rs (q0 & ps' & Eps & Epk) Rm].
  split; try done.
  - rewrite zlen_app, Rn. cbn. rewrite u16_id; [done|]. unfold is_u16. nia.
  - rewrite Hcl'. apply Forall_app. split; [done|]. by constructor.
  - rewrite fmap_app. apply sizes_snoc; [done..|]. cbn. destruct Hq. lia.
  - exists q0, (ps' ++ [q]). subst ps. split; [done|]. rewrite Epk at 1.
    rewrite fmap_app, concat_app, <- app_assoc. cbn [fmap list_fmap concat]. by rewrite app_nil_r.
  - rewrite zlen_app. lia.
Qed.

Definition merge_result_udp (res : coalesceResult) (it' : udpGROItem) (bufs' : list buf) : Prop :=
  match res with
  | coalesceSuccess => ∃ p' r', bufs' = <[j := buf_of (a ++ p') r']> bufs ∧ cap_ok off p' r' ∧
      udp_run v6 it' (ps ++ [q]) p' ∧ ui_bufsIndex it' = ui_bufsIndex it ∧ ui_key it' = ui_key it
  | _ => it' = it ∧ bufs' = bufs
  end.

Lemma coalesceUDPPackets_run :
  ip_class v6 q = ip_class v6 p → Forall (λ d, zlen d = ui_gsoSize it) (zdrop hl <$> ps) → size ≤ ui_gsoSize it →
  cap_ok off p r →
  ∃ res it' bufs', coalesceUDPPackets en (buf_of q rq) it bufs off v6 = Ret (res, it', bufs') ∧
    merge_result_udp res it' bufs'.
Proof.
  intros Hcl Hfull Hsz Hcap. unfold coalesceUDPPackets. rewrite target_udp, bind_Ret_l.
  destruct (udp_run_len _ _ _ _ Hrun) as (Lp & Hn & Hg). pose proof (ipl_range v6). pose proof (zlen_nonneg data).
  pose proof (zlen_nonneg a). pose proof (zlen_nonneg r). assert (udphLen = 8) as E8 by done. pose proof Hq as [_ _ Lq].
  rewrite (ur_iph _ _ _ _ Hrun), (u8_id hl) by ulia. cbn [buf_of ba bl]. rewrite zlen_app. unfold cap_ok in *.
  case_match eqn:Ecap; [by do 3 eexists|]. apply Z.ltb_ge in Ecap. fold (buf_of p r) (buf_of q rq).
  destruct (checksumValid_run en v6 p r IPPROTO_UDP) as [b1 E1]; [lia|].
  destruct (checksumValid_run en v6 q rq IPPROTO_UDP) as [b2 E2]; [lia|].
  assert (∃ b, (if ui_numMerged it =? 0 then if ui_cSumKnownInvalid it then Ret false
    else checksumValid en (buf_of p r) (ipl v6) IPPROTO_UDP v6 else Ret true) = Ret b) as [b ->]
    by (destruct (_ =? 0), (ui_cSumKnownInvalid it); rewrite ?E1; by eexists).
  rewrite bind_Ret_l. destruct b; cbn [negb]; [|by do 3 eexists]. rewrite E2, bind_Ret_l.
  destruct b2; cbn [negb]; [|by do 3 eexists]. rewrite elems_buf_of, slice_from_ok, bind_Ret_l by lia.
  set (d := zdrop hl q). assert (zlen d = zlen q - hl) as Ld by (unfold d; rewrite zlen_zdrop; lia). rewrite <- Ld.
  replace (off + zlen p) with (zlen (a ++ p)) by (rewrite zlen_app; lia). rewrite Hidx.
  rewrite (appendTo_run _ j (a ++ p) d (ztake (zlen d) r) (zdrop (zlen d) r)), bind_Ret_l;
    [|by rewrite ztake_zdrop|rewrite zlen_ztake; lia].
  do 3 eexists. split; [reflexivity|]. rewrite <- app_assoc. exists (p ++ d), (zdrop (zlen d) r). split; [done|].
  split; [unfold cap_ok; rewrite zlen_app, zlen_zdrop; lia|]. split; [apply udp_run_append; try done; lia|done].
Qed.
End merge_udp.
