(* ===== verification/GroTable.v ===== *)
(** The tables of [Gro] and what is to be written: the items of a table are
    those of the entries of the batch, each of which stands for a run of the
    packets offered so far. *)
From S2P Require Import Prelude.
From S2P Require Import TunChecksum.
From S2P Require Import TunOffload.
From S2P Require Import TunSplit.
From S2P Require Import Gro.
From S2P Require Import GroMerge.

(** * Tables *)
Section tables.
Context `{Countable K} {I E : Type} (keyof : I → K) (sel : E → option I).
Implicit Types (m : gmap K (list I)) (W : list E).

(** The items of all flows. *)
Definition flat m : list I := concat (map_to_list m).*2.

Lemma flat_delete m k : flat m ≡ₚ default [] (m !! k) ++ flat (delete k m).
Proof.
  unfold flat. destruct (m !! k) as [l|] eqn:E0; cbn [default].
  - rewrite <- (map_to_list_delete m k l) by done. done.
  - by rewrite delete_id.
Qed.
Lemma flat_insert m k l : flat (<[k := l]> m) ≡ₚ l ++ flat (delete k m).
Proof. rewrite (flat_delete _ k), lookup_insert_eq, delete_insert_eq. done. Qed.

(** The items of the table are those of the entries, each under its key. *)
Definition table_of m W : Prop :=
  flat m ≡ₚ omap sel W ∧ ∀ k l, m !! k = Some l → Forall (λ it, keyof it = k) l.

Lemma table_find m W k l1 it l2 :
  table_of m W → m !! k = Some (l1 ++ it :: l2) →
  ∃ W1 e W2, W = W1 ++ e :: W2 ∧ sel e = Some it ∧ keyof it = k.
Proof.
  intros [Hp Hk] Hm. assert (it ∈ omap sel W) as Hin.
  { rewrite <- Hp, (flat_delete m k), Hm. cbn. set_solver. }
  apply list_elem_of_omap in Hin as (e & He & Hs). apply list_elem_of_split in He as (W1 & W2 & ->).
  exists W1, e, W2. split_and!; [done..|]. specialize (Hk _ _ Hm). rewrite Forall_forall in Hk. apply Hk. set_solver.
Qed.

(** One entry is changed, and its item with it. *)
Lemma table_update m W1 e W2 k l1 it l2 e' :
  table_of m (W1 ++ e :: W2) → sel e = Some it → m !! k = Some (l1 ++ it :: l2) →
  (∀ it', sel e' = Some it' → keyof it' = k) →
  table_of (<[k := l1 ++ option_list (sel e') ++ l2]> m) (W1 ++ e' :: W2).
Proof.
  intros [Hp Hk] Hs Hm Hk'. split.
  - rewrite flat_insert. rewrite (flat_delete m k), Hm in Hp. cbn [default id] in Hp.
    rewrite omap_app in *. cbn [omap list_omap] in *. rewrite Hs in Hp. rewrite <- app_assoc in Hp.
    cbn [app] in Hp. rewrite <- !Permutation_middle in Hp. apply Permutation_cons_inv in Hp.
    transitivity (option_list (sel e') ++ omap sel W1 ++ omap sel W2).
    + rewrite <- Hp, <- !app_assoc, !app_assoc. do 2 f_equiv. apply Permutation_app_comm.
    + destruct (sel e'); cbn; [by rewrite Permutation_middle|done].
  - intros k' l [[<- <-]|[Hne Hl]]%lookup_insert_Some; [|by apply Hk].
    specialize (Hk _ _ Hm). rewrite !Forall_app, Forall_cons in *. destruct Hk as (? & ? & ?).
    split_and!; try done. destruct (sel e') eqn:E0; cbn; [constructor; [by apply Hk'|done]|done].
Qed.

Lemma table_keep m W1 e W2 e' :
  table_of m (W1 ++ e :: W2) → sel e = None → sel e' = None → table_of m (W1 ++ e' :: W2).
Proof.
  intros [Hp Hk] Hs Hs'. split; [|done]. rewrite omap_app in *. cbn [omap list_omap] in *. by rewrite Hs' , Hs in *.
Qed.

Lemma table_snoc m W e k it :
  table_of m W → sel e = Some it → keyof it = k →
  table_of (<[k := default [] (m !! k) ++ [it]]> m) (W ++ [e]).
Proof.
  intros [Hp Hk] Hs Hi. split.
  - rewrite flat_insert, omap_app. cbn [omap list_omap]. rewrite Hs, <- Hp, (flat_delete m k), <- !app_assoc.
    f_equiv. apply Permutation_app_comm.
  - intros k' l [[<- <-]|[Hne Hl]]%lookup_insert_Some; [|by apply Hk].
    apply Forall_app. split; [|by constructor]. destruct (m !! k) eqn:E0; [by apply Hk|done].
Qed.
Lemma table_snoc_none m W e : table_of m W → sel e = None → table_of m (W ++ [e]).
Proof. intros [Hp Hk] Hs. split; [|done]. rewrite omap_app. cbn. by rewrite Hs, app_nil_r. Qed.
End tables.
