(* ===== verification/GroBatch.v ===== *)
(** A batch of packets offered to the tables of [Gro] one after the other:
    every packet ends up in exactly one of the packets to be written. *)
From S2P Require Import Prelude.
From S2P Require Import TunChecksum.
From S2P Require Import TunOffload.
From S2P Require Import TunSplit.
From S2P Require Import Gro.
From S2P Require Import GroMerge.
From S2P Require Import GroTable.

(** * Packets that are considered *)
Lemma get_returns (p : bytes) i : 0 ≤ i < zlen p → ∃ x, get p i = Ret x ∧ p !! Z.to_nat i = Some x.
Proof. intros Hi. destruct (get_ok p i Hi) as [x E]. exists x. split; [done|]. by apply get_Ret in E as [_ ?]. Qed.

Lemma get_first (p : bytes) b : p !! 0%nat = Some b → get p 0 = Ret b.
Proof. intros E. by apply (get_lookup p 0). Qed.

Lemma groIPHeader_spec v6 p :
  ip_version v6 p → ipl v6 ≤ zlen p →
  ∃ o, groIPHeader p v6 = Ret o ∧ ∀ n, o = Some n → n = ipl v6 ∧ zlen p ≤ 65535.
Proof.
  intros (b & Hb & _ & Hl) Hp. unfold groIPHeader. pose proof (ipl_range v6).
  destruct (Z.ltb_spec maxUint16 (zlen p)) as [|Hm]; [by exists None|]. rewrite (get_first _ _ Hb), bind_Ret_l.
  destruct v6.
  - destruct (read16_ok p 4) as [n ->]; [lia..|]. rewrite bind_Ret_l. cbn in Hp.
    destruct (negb _); [by exists None|]. destruct (Z.ltb_spec (zlen p) 40); [lia|]. exists (Some 40).
    split; [done|]. by intros n' [= <-].
  - destruct (read16_ok p 2) as [n ->]; [lia..|]. rewrite bind_Ret_l, Hl by done. cbn in Hp.
    destruct (negb _); [by exists None|]. change (u8 (5 * 4)) with 20. destruct (Z.ltb_spec (zlen p) 20); [lia|].
    exists (Some 20). split; [done|]. by intros n' [= <-].
Qed.

Lemma isFragment_returns v6 p : 20 ≤ zlen p → ∃ b, isFragment p v6 = Ret b.
Proof.
  intros Hp. unfold isFragment. destruct v6; [by eexists|].
  destruct (get_returns p 6) as (x & -> & _); [lia|]. destruct (get_returns p 7) as (y & -> & _); [lia|]. by eexists.
Qed.

Lemma groFlags_spec fl psh : groFlags fl = Some psh → fl = ack_flags psh.
Proof.
  unfold groFlags. destruct (Z.eqb_spec fl tcpFlagACK) as [->|]; [by intros [= <-]|].
  destruct (Z.eqb_spec fl (Z.lor tcpFlagACK tcpFlagPSH)) as [->|]; [|done]. by intros [= <-].
Qed.

(** What is known of a TCP packet that is considered. *)
Record tcp_meta (v6 : bool) (m : tcpMeta) (p : bytes) : Prop := {
  tm_pkt : tcp_pkt v6 (tm_tcphLen m) p;
  tm_iph : tm_iphLen m = ipl v6;
  tm_size : tm_gsoSize m = zlen p - (ipl v6 + tm_tcphLen m);
  tm_seq_at : read32 p (ipl v6 + 4) = Ret (tm_seq m);
  tm_flags_at : get p (ipl v6 + tcpFlagsOffset) = Ret (ack_flags (tm_pshSet m)) }.

Lemma tcpCandidate_spec v6 p :
  ip_version v6 p → ip_proto v6 p = Some IPPROTO_TCP → ipl v6 + 20 ≤ zlen p →
  ∃ o, tcpCandidate p v6 = Ret o ∧ ∀ m, o = Some m → tcp_meta v6 m p.
Proof.
  intros Hv Hpr Hp. pose proof (ipl_range v6). unfold tcpCandidate.
  destruct (groIPHeader_spec v6 p Hv) as (o & -> & Ho); [lia|]. rewrite bind_Ret_l.
  destruct o as [n|]; [|by exists None]. destruct (Ho n eq_refl) as [-> Hmax].
  destruct (get_returns p (ipl v6 + 12)) as (b & -> & Hb); [lia|]. rewrite bind_Ret_l.
  set (tcph := u8 _). destruct ((tcph <? 20) || (60 <? tcph)) eqn:Et; [by exists None|].
  destruct (Z.ltb_spec (zlen p) (ipl v6 + tcph)); [by exists None|].
  destruct (isFragment_returns v6 p) as [fr ->]; [lia|]. rewrite bind_Ret_l. destruct fr; [by exists None|].
  destruct (get_returns p (ipl v6 + tcpFlagsOffset)) as (fl & Efl & _); [unfold tcpFlagsOffset; lia|].
  rewrite Efl, bind_Ret_l. destruct (groFlags fl) as [psh|] eqn:Ef; [|by exists None]. apply groFlags_spec in Ef as ->.
  assert (0 ≤ tcph) by apply u8_range. rewrite u16_id by ulia.
  destruct (Z.ltb_spec (zlen p - tcph - ipl v6) 1); [by exists None|].
  destruct (read32_ok p (ipl v6 + 4)) as [sq Es]; [lia..|]. rewrite Es, bind_Ret_l. eexists. split; [done|].
  intros m [= <-]. split; cbn; try done; [|lia]. split; [done|done|lia|by exists b|lia].
Qed.

Lemma udpCandidate_spec v6 p :
  ip_version v6 p → ip_proto v6 p = Some IPPROTO_UDP → ipl v6 ≤ zlen p →
  ∃ o, udpCandidate p v6 = Ret o ∧
    ∀ h n, o = Some (h, n) → h = ipl v6 ∧ udp_pkt v6 p ∧ n = zlen p - (ipl v6 + udphLen).
Proof.
  intros Hv Hpr Hp. pose proof (ipl_range v6). unfold udpCandidate.
  destruct (groIPHeader_spec v6 p Hv) as (o & -> & Ho); [lia|]. rewrite bind_Ret_l.
  destruct o as [n|]; [|by exists None]. destruct (Ho n eq_refl) as [-> Hmax].
  destruct (Z.ltb_spec (zlen p) (ipl v6 + udphLen)) as [|Hl]; [by exists None|]. unfold udphLen in Hl.
  destruct (isFragment_returns v6 p) as [fr ->]; [lia|]. rewrite bind_Ret_l. destruct fr; [by exists None|].
  rewrite u16_id by (unfold udphLen; ulia). unfold udphLen.
  destruct (Z.ltb_spec (zlen p - 8 - ipl v6) 1); [by exists None|]. eexists. split; [done|].
  intros h n [= <- <-]. split; [done|]. split; [split; [done|done|unfold udphLen; lia]|lia].
Qed.

(** Which packets are offered to which table. *)
Lemma packetIsGROCandidate_spec p can :
  ∃ c, packetIsGROCandidate p can = Ret c ∧
  match c with
  | notGROCandidate => True
  | tcp4GROCandidate => ip_version false p ∧ ip_proto false p = Some IPPROTO_TCP ∧ 40 ≤ zlen p
  | tcp6GROCandidate => ip_version true p ∧ ip_proto true p = Some IPPROTO_TCP ∧ 60 ≤ zlen p
  | udp4GROCandidate => ip_version false p ∧ ip_proto false p = Some IPPROTO_UDP ∧ 20 ≤ zlen p
  | udp6GROCandidate => ip_version true p ∧ ip_proto true p = Some IPPROTO_UDP ∧ 40 ≤ zlen p
  end.
Proof.
  unfold packetIsGROCandidate. destruct (Z.ltb_spec (zlen p) 28); [by exists notGROCandidate|].
  destruct (get_returns p 0) as (b0 & -> & H0); [lia|]. destruct (get_returns p 6) as (b6 & -> & P6); [lia|].
  destruct (get_returns p 9) as (b9 & -> & P9); [lia|]. rewrite !bind_Ret_l. eexists. split; [reflexivity|].
  change (Z.to_nat 0) with 0%nat in H0. change (Z.to_nat 6) with 6%nat in P6. change (Z.to_nat 9) with 9%nat in P9.
  unfold ip_proto. rewrite P6, P9.
  destruct (Z.eqb_spec (Z.shiftr b0 4) 4) as [E4|].
  - destruct (Z.eqb_spec (Z.land b0 15) 5) as [E5|]; [|done]. cbn [negb].
    assert (ip_version false p) by (exists b0; by split_and!).
    destruct ((b9 =? IPPROTO_TCP) && (40 <=? zlen p)) eqn:Et; [split; [done|]; split; [f_equal; lia|lia]|].
    destruct ((b9 =? IPPROTO_UDP) && can) eqn:Eu; [|done]. split; [done|]. split; [f_equal; lia|lia].
  - destruct (Z.eqb_spec (Z.shiftr b0 4) 6) as [E6|]; [|done].
    assert (ip_version true p) by (exists b0; by split_and!).
    destruct ((b6 =? IPPROTO_TCP) && (60 <=? zlen p)) eqn:Et; [split; [done|]; split; [f_equal; lia|lia]|].
    destruct ((b6 =? IPPROTO_UDP) && (48 <=? zlen p) && can) eqn:Eu; [|done].
    split; [done|]. split; [f_equal; lia|lia].
Qed.

(** * New items *)
Lemma tcp_key_of v6 q rq :
  ipl v6 + 20 ≤ zlen q →
  ∃ key, newTCPFlowKey (buf_of q rq) (src_at v6) (src_at v6 + addr_len v6) (ipl v6) = Ret key ∧
    tcp_key v6 q = Ret key ∧ tk_isV6 key = v6.
Proof.
  intros Hq. destruct (addr_range v6) as (H1 & H2 & H3). pose proof (ipl_range v6).
  unfold tcp_key, whole, newTCPFlowKey. rewrite Z.add_simpl_l, !elems_buf_of.
  rewrite !sub_buf_of, !slice_ok, !bind_Ret_l by (cbn; lia).
  destruct (read16_ok q (ipl v6)) as [sp ->]; [lia..|]. rewrite !bind_Ret_l.
  destruct (read16_ok q (ipl v6 + 2)) as [dp ->]; [lia..|]. rewrite !bind_Ret_l.
  destruct (read32_ok q (ipl v6 + 8)) as [ack ->]; [lia..|]. rewrite !bind_Ret_l.
  eexists. split; [reflexivity|]. split; [reflexivity|]. by destruct v6.
Qed.

Lemma udp_key_of v6 q rq :
  ipl v6 + 8 ≤ zlen q →
  ∃ key, newUDPFlowKey (buf_of q rq) (src_at v6) (src_at v6 + addr_len v6) (ipl v6) = Ret key ∧
    udp_key v6 q = Ret key ∧ uk_isV6 key = v6.
Proof.
  intros Hq. destruct (addr_range v6) as (H1 & H2 & H3). pose proof (ipl_range v6).
  unfold udp_key, whole, newUDPFlowKey. rewrite Z.add_simpl_l, !elems_buf_of.
  rewrite !sub_buf_of, !slice_ok, !bind_Ret_l by (cbn; lia).
  destruct (read16_ok q (ipl v6)) as [sp ->]; [lia..|]. rewrite !bind_Ret_l.
  destruct (read16_ok q (ipl v6 + 2)) as [dp ->]; [lia..|]. rewrite !bind_Ret_l.
  eexists. split; [reflexivity|]. split; [reflexivity|]. by destruct v6.
Qed.

(** The pool after an insertion: a new flow takes from it. *)
Definition pool_after {A} (o : option A) (n : Z) : Z := match o with Some _ => n | None => n - 1 end.

(** The slices are in the pool or in the table, which has at most [i] flows. *)
Definition pool_ok {K A} `{Countable K} (m : gmap K A) (pool : Z) (i : nat) : Prop :=
  pool + Z.of_nat (size m) = IdealBatchSize ∧ (size m ≤ i)%nat.

Lemma pool_ok_insert `{Countable K} {A} (m : gmap K A) pool i k x :
  pool_ok m pool i → pool_ok (<[k := x]> m) (pool_after (m !! k) pool) (S i).
Proof.
  unfold pool_ok. intros [H1 H2]. rewrite map_size_insert. destruct (m !! k); cbn; lia.
Qed.
Lemma pool_ok_update `{Countable K} {A} (m : gmap K A) pool i i' k x :
  pool_ok m pool i → is_Some (m !! k) → (i ≤ i')%nat → pool_ok (<[k := x]> m) pool i'.
Proof. unfold pool_ok. intros [H1 H2] [y Hy] Hi. rewrite map_size_insert, Hy. cbn. lia. Qed.
Lemma pool_ok_le `{Countable K} {A} (m : gmap K A) pool i i' : pool_ok m pool i → (i ≤ i')%nat → pool_ok m pool i'.
Proof. unfold pool_ok. lia. Qed.

Lemma tcpInsert_run v6 t q rq m key (i : nat) :
  tcp_meta v6 m q → tcp_key v6 q = Ret key → Z.of_nat i < 65536 → 0 < tt_itemsPool t →
  ∃ it, tcpInsert t (buf_of q rq) (src_at v6) (src_at v6 + addr_len v6) (tm_iphLen m) (tm_tcphLen m) (Z.of_nat i) =
      Ret (mkTCPGROTable (<[key := default [] (tt_itemsByFlow t !! key) ++ [it]]> (tt_itemsByFlow t))
             (pool_after (tt_itemsByFlow t !! key) (tt_itemsPool t))) ∧
    tcp_run v6 it [q] q ∧ ti_bufsIndex it = Z.of_nat i ∧ ti_key it = key.
Proof.
  intros [Hp Hi Hs Hsq Hfl] Hk Hlt Hpool. pose proof (ipl_range v6). pose proof Hp as [Hv _ Ht Ho Hl].
  destruct (tcp_key_of v6 q rq) as (key' & E & E' & H6); [lia|]. assert (key' = key) as -> by congruence.
  unfold tcpInsert. rewrite Hi, E, bind_Ret_l, elems_buf_of, slice_from_ok, bind_Ret_l by lia.
  rewrite Hsq, Hfl, !bind_Ret_l. rewrite zlen_zdrop by lia. rewrite !u16_id, !u8_id by ulia.
  set (it := mkTCPGROItem _ _ _ _ _ _ _ _). exists it.
  assert (ti_pshSet it = tm_pshSet m) as Hpsh by (cbn; by destruct (tm_pshSet m)).
  split; [|split; [|done]].
  { destruct (tt_itemsByFlow t !! key); [done|]. unfold takePool. destruct (Z.leb_spec (tt_itemsPool t) 0); [lia|done]. }
  split; try done.
  - apply Forall_singleton. by split_and!.
  - exists [], (zdrop (ipl v6 + tm_tcphLen m) q). split; [done|]. split; [done|]. rewrite zlen_zdrop; cbn; lia.
  - exists [], q. split; [done|]. split; [done|]. by rewrite Hpsh.
  - exists q, [], false. split; [done|]. split; [done|]. cbn. by rewrite app_nil_r, ztake_zdrop.
  - lia.
Qed.

Lemma udpInsert_run v6 t q rq key (i : nat) inv :
  udp_pkt v6 q → udp_key v6 q = Ret key → Z.of_nat i < 65536 → 0 < ut_itemsPool t →
  ∃ it, udpInsert t (buf_of q rq) (src_at v6) (src_at v6 + addr_len v6) (ipl v6) (Z.of_nat i) inv =
      Ret (mkUDPGROTable (<[key := default [] (ut_itemsByFlow t !! key) ++ [it]]> (ut_itemsByFlow t))
             (pool_after (ut_itemsByFlow t !! key) (ut_itemsPool t))) ∧
    udp_run v6 it [q] q ∧ ui_bufsIndex it = Z.of_nat i ∧ ui_key it = key.
Proof.
  intros Hp Hk Hlt Hpool. pose proof (ipl_range v6). pose proof Hp as [Hv _ Hl]. assert (udphLen = 8) as E8 by done.
  destruct (udp_key_of v6 q rq) as (key' & E & E' & H6); [lia|]. assert (key' = key) as -> by congruence.
  unfold udpInsert. rewrite E, bind_Ret_l, elems_buf_of, slice_from_ok, bind_Ret_l by lia.
  rewrite zlen_zdrop by lia. rewrite !u16_id, !u8_id by ulia. set (it := mkUDPGROItem _ _ _ _ _ _). exists it.
  split; [|split; [|done]].
  { destruct (ut_itemsByFlow t !! key); [done|]. unfold takePool. destruct (Z.leb_spec (ut_itemsPool t) 0); [lia|done]. }
  split; try done.
  - apply Forall_singleton. by split_and!.
  - exists [], (zdrop (ipl v6 + udphLen) q). split; [done|]. split; [done|]. rewrite zlen_zdrop; cbn; lia.
  - exists q, []. split; [done|]. cbn. by rewrite app_nil_r, ztake_zdrop.
  - lia.
Qed.

(** * The entries of a batch *)

(** An entry is written as it is, or an item of one of the tables stands for
    it.  [Dropped] is one whose item was taken off the table. *)
Inductive tag := Alone | Dropped | ByTCP (it : tcpGROItem) | ByUDP (it : udpGROItem).
Definition tcp_of (x : tag) : option tcpGROItem := match x with ByTCP it => Some it | _ => None end.
Definition udp_of (x : tag) : option udpGROItem := match x with ByUDP it => Some it | _ => None end.

(** A buffer to be written, and the packets it stands for. *)
Record entry := mkEntry { e_idx : nat; e_grp : list nat; e_tag : tag }.
Definition e_tcp (e : entry) : option tcpGROItem := tcp_of (e_tag e).
Definition e_udp (e : entry) : option udpGROItem := udp_of (e_tag e).

Section batch.
Context (en : endian) (off : Z) (bufs0 : list buf).

(** The buffer [j] holds the packet [p], with room before and behind it. *)
Definition slot (bufs : list buf) (j : nat) (p : bytes) : Prop :=
  ∃ a r, bufs !! j = Some (buf_of (a ++ p) r) ∧ zlen a = off ∧ cap_ok off p r.

(** The packets as they are offered. *)
Definition pkt (k : nat) : bytes := match bufs0 !! k with Some b => zdrop off (elems b) | None => [] end.

Lemma slot_pkt k p : slot bufs0 k p → pkt k = p.
Proof.
  intros (a & r & E & La & _). unfold pkt. rewrite E, elems_buf_of, zdrop_app_ge by lia.
  by rewrite La, Z.sub_diag, zdrop_0.
Qed.
Lemma slot_same bufs bufs' j p : bufs' !! j = bufs !! j → slot bufs j p → slot bufs' j p.
Proof. intros E (a & r & Hj & H). exists a, r. by rewrite E. Qed.

Definition entry_ok (bufs : list buf) (e : entry) : Prop :=
  match e_tag e with
  | Alone => ∃ k a r, e_grp e = [k] ∧ bufs !! e_idx e = Some (buf_of ((a ++ hdr_memory en emptyHdr) ++ pkt k) r) ∧
      zlen (a ++ hdr_memory en emptyHdr) = off
  | Dropped => ∃ k v6, e_grp e = [k] ∧ slot bufs (e_idx e) (pkt k) ∧ ip_version v6 (pkt k) ∧
      ip_proto v6 (pkt k) = Some IPPROTO_TCP ∧
      checksumValid en (whole (pkt k)) (ipl v6) IPPROTO_TCP v6 = Ret false
  | ByTCP it => ti_bufsIndex it = Z.of_nat (e_idx e) ∧
      ∃ v6 p, tcp_run v6 it (pkt <$> e_grp e) p ∧ slot bufs (e_idx e) p
  | ByUDP it => ui_bufsIndex it = Z.of_nat (e_idx e) ∧
      ∃ v6 p, udp_run v6 it (pkt <$> e_grp e) p ∧ slot bufs (e_idx e) p
  end.

Lemma entry_ok_same bufs bufs' e : bufs' !! e_idx e = bufs !! e_idx e → entry_ok bufs e → entry_ok bufs' e.
Proof.
  intros E. unfold entry_ok. destruct (e_tag e) as [| |it|it].
  - intros (k & a & r & Hk & Hs & Ha). exists k, a, r. by rewrite E.
  - intros (k & v6 & Hk & Hs & Hbad). exists k, v6. split; [done|]. split; [by eapply slot_same|done].
  - intros (Hi & v6 & p & Hr & Hs). split; [done|]. exists v6, p. split; [done|]. by eapply slot_same.
  - intros (Hi & v6 & p & Hr & Hs). split; [done|]. exists v6, p. split; [done|]. by eapply slot_same.
Qed.

(** After [i] packets: each is in one entry, the later buffers are untouched. *)
Record core (i : nat) (bufs : list buf) (W : list entry) : Prop := {
  co_rest : ∀ k, (i ≤ k)%nat → bufs !! k = bufs0 !! k;
  co_len : length bufs = length bufs0;
  co_perm : concat (e_grp <$> W) ≡ₚ seq 0 i;
  co_lt : Forall (λ e, (e_idx e < i)%nat) W;
  co_nodup : NoDup (e_idx <$> W);
  co_ok : Forall (entry_ok bufs) W }.

(** One entry is changed, and takes the packets from [i] to [i']. *)
Lemma core_update i i' bufs bufs' W1 e W2 e' :
  core i bufs (W1 ++ e :: W2) → (i ≤ i')%nat → e_idx e' = e_idx e → e_grp e' ≡ₚ e_grp e ++ seq i (i' - i) →
  length bufs' = length bufs → (∀ k, k ≠ e_idx e → (k < i ∨ i' ≤ k)%nat → bufs' !! k = bufs !! k) →
  entry_ok bufs' e' → core i' bufs' (W1 ++ e' :: W2).
Proof.
  intros [Hr Hl Hp Hlt Hnd Hok] Hi Ei Eg El Hb He.
  rewrite fmap_app, concat_app in Hp. cbn [fmap list_fmap concat] in Hp.
  rewrite fmap_app in Hnd. cbn [fmap list_fmap] in Hnd.
  rewrite Forall_app, Forall_cons in Hlt, Hok. destruct Hlt as (Hlt1 & Hlte & Hlt2), Hok as (Hok1 & _ & Hok2).
  apply NoDup_app in Hnd as Hnd'. destruct Hnd' as (_ & Hd1 & Hnd2). apply NoDup_cons in Hnd2 as [Hd2 _].
  assert (∀ x, x ∈ W1 ++ W2 → e_idx x ≠ e_idx e) as Hne.
  { intros x [Hx|Hx]%elem_of_app E.
    - apply (Hd1 (e_idx x)); [by apply list_elem_of_fmap_2|rewrite E; constructor].
    - apply Hd2. rewrite <- E. by apply list_elem_of_fmap_2. }
  assert (∀ W, W ⊆ W1 ++ W2 → Forall (λ e, (e_idx e < i)%nat) W → Forall (entry_ok bufs) W → Forall (entry_ok bufs') W)
    as Hkeep.
  { intros W Hsub HW1 HW2. rewrite Forall_forall in *. intros x Hx. apply (entry_ok_same bufs); [|by apply HW2].
    apply Hb; [by apply Hne, Hsub|left; by apply HW1]. }
  split.
  - intros k Hk. rewrite Hb, Hr by (lia || intros ->; lia). done.
  - congruence.
  - rewrite fmap_app, concat_app. cbn [fmap list_fmap concat]. rewrite Eg.
    replace i' with (i + (i' - i))%nat at 2 by lia. rewrite seq_app, <- Hp. cbn [Nat.add]. rewrite <- !app_assoc.
    do 2 f_equiv. apply Permutation_app_comm.
  - rewrite Forall_app, Forall_cons, Ei. split_and!; [|lia|].
    + eapply Forall_impl; [exact Hlt1|]. cbn. intros. lia.
    + eapply Forall_impl; [exact Hlt2|]. cbn. intros. lia.
  - rewrite fmap_app. cbn. by rewrite Ei.
  - rewrite Forall_app, Forall_cons. split_and!; [apply Hkeep; [set_solver|done..]|done|apply Hkeep; [set_solver|done..]].
Qed.

(** The next packet becomes an entry of its own. *)
Lemma core_snoc i bufs bufs' W e :
  core i bufs W → e_idx e = i → e_grp e = [i] → length bufs' = length bufs →
  (∀ k, k ≠ i → bufs' !! k = bufs !! k) → entry_ok bufs' e → core (S i) bufs' (W ++ [e]).
Proof.
  intros [Hr Hl Hp Hlt Hnd Hok] Ei Eg El Hb He. split.
  - intros k Hk. rewrite Hb, Hr by lia. done.
  - congruence.
  - rewrite fmap_app, concat_app, seq_S, <- Hp. cbn. by rewrite Eg, app_nil_r.
  - apply Forall_app. split; [eapply Forall_impl; [exact Hlt|]; cbn; intros; lia|]. constructor; [lia|done].
  - rewrite fmap_app. apply NoDup_app. split; [done|]. split; [|cbn; apply NoDup_singleton].
    intros x Hx. apply list_elem_of_fmap in Hx as (y & -> & Hy). cbn. rewrite list_elem_of_singleton, Ei.
    rewrite Forall_forall in Hlt. specialize (Hlt _ Hy). lia.
  - apply Forall_app. split; [|by constructor]. rewrite Forall_forall in *. intros x Hx.
    apply (entry_ok_same bufs); [|by apply Hok]. apply Hb. specialize (Hlt _ Hx). lia.
Qed.

(** * A TCP packet and the items of its flow *)
Lemma tcp_entry W1 e W2 it v6 key i bufs :
  core i bufs (W1 ++ e :: W2) → e_tcp e = Some it → ti_key it = key → tk_isV6 key = v6 →
  ∃ p a r, tcp_run v6 it (pkt <$> e_grp e) p ∧ ti_bufsIndex it = Z.of_nat (e_idx e) ∧ (e_idx e < i)%nat ∧
    bufs !! e_idx e = Some (buf_of (a ++ p) r) ∧ zlen a = off ∧ cap_ok off p r.
Proof.
  intros Hc He Hk H6. destruct Hc as [_ _ _ Hlt _ Hok]. apply Forall_app in Hok as [_ Hok].
  apply Forall_cons in Hok as [Hok _]. apply Forall_app in Hlt as [_ Hlt]. apply Forall_cons in Hlt as [Hlt _].
  unfold entry_ok in Hok. unfold e_tcp in He. destruct (e_tag e); try done. injection He as ->.
  destruct Hok as (Hi & v6' & p & Hr & a & r & Hb & La & Hcap). exists p, a, r.
  assert (v6' = v6) as -> by (rewrite <- H6, <- Hk; symmetry; apply Hr). by split_and!.
Qed.

Definition same_slots (W W' : list entry) : Prop := e_idx <$> W' = e_idx <$> W.

Lemma same_slots_replace W1 e W2 e' : e_idx e' = e_idx e → same_slots (W1 ++ e :: W2) (W1 ++ e' :: W2).
Proof. intros E. unfold same_slots. rewrite !fmap_app. cbn. by rewrite E. Qed.

(** What is left after a packet was tried against the items of its flow. *)
Definition tried (i : nat) (bufs : list buf) (t : tcpGROTable) (udp : udpGROTable) (W : list entry)
    (r : option groResult) (bufs' : list buf) (t' : tcpGROTable) : Prop :=
  ∃ W', same_slots W W' ∧ tt_itemsPool t' = tt_itemsPool t ∧ size (tt_itemsByFlow t') = size (tt_itemsByFlow t) ∧
    table_of ti_key e_tcp (tt_itemsByFlow t') W' ∧ table_of ui_key e_udp (ut_itemsByFlow udp) W' ∧
    match r with
    | Some groResultCoalesced => core (S i) bufs' W'
    | Some groResultTableInsert => False
    | _ => bufs' = bufs ∧ core i bufs W'
    end.

Lemma tried_trans i bufs t t1 udp W W1 r bufs' t' :
  same_slots W W1 → tt_itemsPool t1 = tt_itemsPool t → size (tt_itemsByFlow t1) = size (tt_itemsByFlow t) →
  tried i bufs t1 udp W1 r bufs' t' → tried i bufs t udp W r bufs' t'.
Proof.
  unfold same_slots. intros Hs Hp Hz (W' & Hs' & Hp' & Hz' & H). exists W'. split; [unfold same_slots; congruence|].
  split; [congruence|]. by split; [congruence|].
Qed.

(** The item of an entry of a single packet is dropped from the table. *)
Lemma entry_dropped bufs e it v6 p r :
  tcp_run v6 it (pkt <$> e_grp e) p → ti_numMerged it = 0 → slot bufs (e_idx e) p →
  checksumValid en (buf_of p r) (ipl v6) IPPROTO_TCP v6 = Ret false →
  entry_ok bufs (mkEntry (e_idx e) (e_grp e) Dropped).
Proof.
  intros Hrun H0 Hs Hbad. assert (ipl v6 ≤ zlen p) as Lp.
  { destruct (tcp_run_len _ _ _ _ Hrun) as [Ht Lp]. pose proof (zlen_nonneg (concat (zdrop (ipl v6 + ti_tcphLen it) <$> (pkt <$> e_grp e)))).
    lia. }
  destruct Hrun as [Hn _ _ Hall _ _ _ (q & ps' & psh & Eps & Hpsh & Ep) _]. rewrite zlen_map, H0 in Hn.
  destruct (e_grp e) as [|k [|]] eqn:Eg; [done| |unfold zlen in Hn; cbn in Hn; lia]. exists k, v6. split; [done|].
  cbn [fmap list_fmap] in *. injection Eps as <- <-. destruct psh; [by destruct (Hpsh eq_refl)|].
  cbn [pshd concat] in Ep. rewrite app_nil_r, ztake_zdrop in Ep. subst p. split; [done|].
  apply Forall_cons in Hall as [[[Hv Hpr _ _ _] _] _]. split; [done|]. split; [done|]. rewrite <- Hbad. by apply checksumValid_same.
Qed.

Lemma tcpItems_eq t key l : tt_itemsByFlow t !! key = Some l → tcpItems t key = l.
Proof. intros E. unfold tcpItems. by rewrite E. Qed.

Lemma put_mid {A} (l1 l2 : list A) x y : put (l1 ++ x :: l2) (Z.of_nat (length l1)) y = Ret (l1 ++ y :: l2).
Proof.
  rewrite (put_lookup _ _ x) by apply list_lookup_middle, eq_refl.
  rewrite <- (Nat.add_0_r (length l1)), insert_app_r. done.
Qed.

Lemma tcpUpdateAt_run t key l1 it l2 it' :
  tt_itemsByFlow t !! key = Some (l1 ++ it :: l2) → ti_key it' = key →
  tcpUpdateAt t it' (Z.of_nat (length l1)) =
    Ret (mkTCPGROTable (<[key := l1 ++ it' :: l2]> (tt_itemsByFlow t)) (tt_itemsPool t)).
Proof. intros E <-. unfold tcpUpdateAt. by rewrite (tcpItems_eq _ _ _ E), put_mid, bind_Ret_l. Qed.

Lemma tcpDeleteAt_run t key l1 it l2 :
  tt_itemsByFlow t !! key = Some (l1 ++ it :: l2) →
  tcpDeleteAt t key (Z.of_nat (length l1)) =
    Ret (mkTCPGROTable (<[key := l1 ++ l2]> (tt_itemsByFlow t)) (tt_itemsPool t)).
Proof.
  intros E. unfold tcpDeleteAt. rewrite (tcpItems_eq _ _ _ E). fold (zlen l1).
  rewrite slice_to_app, bind_Ret_l. pose proof (zlen_nonneg l1). pose proof (zlen_nonneg l2).
  rewrite slice_from_ok, bind_Ret_l by (rewrite zlen_app, zlen_cons; lia).
  rewrite zdrop_app_ge by lia. by replace (zlen l1 + 1 - zlen l1) with 1 by lia.
Qed.

(** A successful merge gives the packet to the entry of the item. *)
Lemma core_merged i bufs bufs' W1 e W2 it it' v6 p r :
  core i bufs (W1 ++ e :: W2) → (e_idx e < i)%nat → ti_bufsIndex it = Z.of_nat (e_idx e) →
  merge_result en v6 bufs off it (pkt <$> e_grp e) p r (e_idx e) (pkt i) i coalesceSuccess it' bufs' →
  ∃ grp, core (S i) bufs' (W1 ++ mkEntry (e_idx e) grp (ByTCP it') :: W2) ∧ ti_key it' = ti_key it.
Proof.
  intros Hc Hlt Hidx (p' & a' & r' & ps' & Hj & La & Hcap & Hrun & Hps & Hi' & Hk & Hrest & Hlen & _).
  assert (∃ grp, ps' = pkt <$> grp ∧ grp ≡ₚ e_grp e ++ [i]) as (grp & -> & Hg).
  { destruct Hps as [->| ->]; [exists (e_grp e ++ [i]); by rewrite fmap_app|exists (i :: e_grp e)].
    split; [done|]. apply Permutation_cons_append. }
  exists grp. split; [|done]. eapply (core_update i (S i)); [exact Hc|lia|done| |done| |].
  - by replace (S i - i)%nat with 1%nat by lia.
  - intros k Hk' Hk2. apply Hrest; [done|lia].
  - split; [cbn; congruence|]. exists v6, p'. split; [done|]. by exists a', r'.
Qed.

Lemma tcpTry_run i q rq aq v6 m key udp n items : 
  bufs0 !! i = Some (buf_of (aq ++ q) rq) → zlen aq = off → cap_ok off q rq → pkt i = q →
  tcp_meta v6 m q → tcp_key v6 q = Ret key → tk_isV6 key = v6 → (n ≤ length items)%nat →
  ∀ sfx bufs t W, core i bufs W → table_of ti_key e_tcp (tt_itemsByFlow t) W →
    table_of ui_key e_udp (ut_itemsByFlow udp) W → tt_itemsByFlow t !! key = Some (take n items ++ sfx) →
  ∃ r bufs' t', tcpTryItems en n items m (buf_of q rq) (Z.of_nat i) off v6 bufs t = Ret (r, bufs', t') ∧
    tried i bufs t udp W r bufs' t'.
Proof.
  intros Hb0 Laq Hcq Hpk Hm Hkey H6. induction n as [|n IH]; intros Hn sfx bufs t W Hc Ht Hu Htab.
  { do 3 eexists. split; [reflexivity|]. exists W. by split_and!. }
  destruct (lookup_lt_is_Some_2 items n) as [it Hit]; [lia|].
  rewrite (take_S_r _ _ _ Hit), <- app_assoc in Htab. cbn [app] in Htab.
  destruct (table_find ti_key e_tcp _ _ _ _ _ _ Ht Htab) as (W1 & e & W2 & -> & He & Hk).
  destruct (tcp_entry _ _ _ _ _ _ _ _ Hc He Hk H6) as (p & a & r & Hrun & Hidx & Hlt & Hj & La & Hcp).
  pose proof Hm as [Hpkt Hi Hs Hsq Hfl]. pose proof (ipl_range v6). pose proof (tp_tcph _ _ _ Hpkt).
  assert (bufs !! i = Some (buf_of (aq ++ q) rq)) as Hbi by (rewrite <- Hb0; by apply Hc).
  destruct (coalesceTCPPackets_run en v6 bufs off it _ p a r (e_idx e) Hrun Hidx Hj La q rq (tm_tcphLen m) (tm_seq m)
    (tm_pshSet m) Hpkt ltac:(congruence) Hsq Hfl i aq ltac:(lia) Hbi Laq Hcq Hcp) as (c & Ecan & Hco).
  cbn [tcpTryItems]. rewrite (get_lookup _ _ _ Hit), bind_Ret_l, Hi, Hs, !u8_id, Ecan, bind_Ret_l by ulia.
  assert (Hnext : ∃ r bufs' t', tcpTryItems en n items m (buf_of q rq) (Z.of_nat i) off v6 bufs t = Ret (r, bufs', t') ∧
    tried i bufs t udp (W1 ++ e :: W2) r bufs' t') by (by eapply (IH ltac:(lia) (it :: sfx))).
  assert (length (take n items) = n) as Ln by (rewrite length_take; lia).
  assert (e_udp e = None) as Hne by (unfold e_tcp, e_udp in *; by destruct (e_tag e)).
  assert (Hdrop : ti_numMerged it = 0 → checksumValid en (buf_of p r) (ipl v6) IPPROTO_TCP v6 = Ret false →
    let t1 := mkTCPGROTable (<[key := take n items ++ sfx]> (tt_itemsByFlow t))
      (tt_itemsPool t) in
    ∃ r bufs' t', tcpTryItems en n items m (buf_of q rq) (Z.of_nat i) off v6 bufs t1 = Ret (r, bufs', t') ∧
      tried i bufs t udp (W1 ++ e :: W2) r bufs' t').
  { intros Hn0 Hbad t1. set (e' := mkEntry (e_idx e) (e_grp e) Dropped).
    destruct (IH ltac:(lia) sfx bufs t1 (W1 ++ e' :: W2)) as (r' & b' & t' & E & Htr).
    - eapply (core_update i i); [exact Hc|lia|done|by rewrite Nat.sub_diag, app_nil_r|done|done|].
      eapply entry_dropped; [exact Hrun|done|by exists a, r|exact Hbad].
    - by apply (table_update ti_key e_tcp _ W1 e W2 key _ it sfx e' Ht He Htab).
    - by eapply table_keep.
    - apply lookup_insert_eq.
    - do 3 eexists. split; [exact E|]. eapply (tried_trans _ _ _ t1); [|done| |exact Htr];
        [by apply same_slots_replace|cbn; by rewrite map_size_insert, Htab]. }
  destruct c; [|exact Hnext|].
  all: destruct (Hco ltac:(done)) as (res & it' & bufs' & -> & Hres); rewrite bind_Ret_l.
  all: destruct res; try (destruct Hres as (_ & ->); exact Hnext).
  all: try (destruct Hres as (_ & ->); do 3 eexists; split; [reflexivity|]; exists (W1 ++ e :: W2); by split_and!).
  1, 3: destruct Hres as (-> & -> & Hn0 & Hbad); pose proof (tcpDeleteAt_run t key _ _ _ Htab) as Ed; rewrite Ln in Ed;
    rewrite Hk, Ed, bind_Ret_l; by apply Hdrop.
  all: destruct (core_merged i bufs bufs' W1 e W2 it it' v6 p r) as (grp & Hc' & Hk'); [done..|by rewrite Hpk|].
  all: pose proof (tcpUpdateAt_run t key _ _ _ it' Htab ltac:(congruence)) as Ed; rewrite Ln in Ed.
  all: rewrite Ed, bind_Ret_l; do 3 eexists; (split; [reflexivity|]);
    exists (W1 ++ mkEntry (e_idx e) grp (ByTCP it') :: W2); (split; [by apply same_slots_replace|]).
  all: (split; [done|]); (split; [cbn; by rewrite map_size_insert, Htab|]).
  all: (split; [apply (table_update ti_key e_tcp _ W1 e W2 key _ it sfx (mkEntry (e_idx e) grp (ByTCP it')) Ht He Htab);
    intros ? [= <-]; congruence|]).
  all: by split; [by eapply table_keep|].
Qed.

(** * The state after [i] packets *)
Record inv (i : nat) (bufs : list buf) (tcp : tcpGROTable) (udp : udpGROTable) (W : list entry) : Prop := {
  iv_core : core i bufs W;
  iv_tcp : table_of ti_key e_tcp (tt_itemsByFlow tcp) W;
  iv_udp : table_of ui_key e_udp (ut_itemsByFlow udp) W;
  iv_udp_ne : ∀ k, ut_itemsByFlow udp !! k ≠ Some [];
  iv_tpool : pool_ok (tt_itemsByFlow tcp) (tt_itemsPool tcp) i;
  iv_upool : pool_ok (ut_itemsByFlow udp) (ut_itemsPool udp) i }.

(** A packet was offered: it is left to be written alone, has become an item,
    or was given to another entry. *)
Definition offered (i : nat) (bufs : list buf) (W : list entry)
    (r : groResult) (bufs' : list buf) (tcp : tcpGROTable) (udp : udpGROTable) : Prop :=
  ∃ W', match r with
  | groResultNoop => bufs' = bufs ∧ inv i bufs tcp udp W' ∧ same_slots W W'
  | groResultTableInsert => inv (S i) bufs' tcp udp W' ∧ e_idx <$> W' = (e_idx <$> W) ++ [i]
  | groResultCoalesced => inv (S i) bufs' tcp udp W' ∧ same_slots W W'
  end.

Lemma tcp_inserted i bufs tcp udp W v6 m q rq aq key :
  inv i bufs tcp udp W → bufs0 !! i = Some (buf_of (aq ++ q) rq) → zlen aq = off → cap_ok off q rq → pkt i = q →
  tcp_meta v6 m q → tcp_key v6 q = Ret key → Z.of_nat i < IdealBatchSize →
  ∃ t', tcpInsert tcp (buf_of q rq) (src_at v6) (src_at v6 + addr_len v6) (tm_iphLen m) (tm_tcphLen m) (Z.of_nat i) =
      Ret t' ∧ offered i bufs W groResultTableInsert bufs t' udp.
Proof.
  intros [Hc Ht Hu Hne Hp1 Hp2] Hb Laq Hcq Hpk Hm Hk Hi. assert (IdealBatchSize = 128) as E128 by done.
  destruct (tcpInsert_run v6 tcp q rq m key i Hm Hk) as (it & E & Hrun & Hix & Hki); [lia|unfold pool_ok in *; lia|].
  eexists. split; [exact E|]. set (e := mkEntry i [i] (ByTCP it)). exists (W ++ [e]).
  split; [|by rewrite fmap_app]. split; cbn [tt_itemsByFlow tt_itemsPool]; try done.
  - apply (core_snoc i bufs bufs); try done. split; [done|]. exists v6, q. cbn. rewrite Hpk. split; [done|].
    exists aq, rq. split; [|done]. rewrite <- Hb. by apply Hc.
  - by apply (table_snoc ti_key e_tcp).
  - by apply table_snoc_none.
  - by apply pool_ok_insert.
  - eapply pool_ok_le; [done|lia].
Qed.

Lemma tcpGRO_run i bufs tcp udp W v6 q rq aq :
  inv i bufs tcp udp W → bufs0 !! i = Some (buf_of (aq ++ q) rq) → zlen aq = off → cap_ok off q rq → pkt i = q →
  ip_version v6 q → ip_proto v6 q = Some IPPROTO_TCP → ipl v6 + 20 ≤ zlen q → Z.of_nat i < IdealBatchSize →
  ∃ r bufs' t', tcpGRO en bufs off (Z.of_nat i) tcp v6 = Ret (r, bufs', t') ∧ offered i bufs W r bufs' t' udp.
Proof.
  intros Hinv Hb Laq Hcq Hpk Hv Hpr Hl Hi. pose proof (co_rest _ _ _ (iv_core _ _ _ _ _ Hinv) i ltac:(lia)) as Hbi.
  unfold tcpGRO, target. rewrite (get_lookup _ i (buf_of (aq ++ q) rq)), bind_Ret_l by congruence.
  rewrite <- Laq, from_buf_of, bind_Ret_l, elems_buf_of, Laq.
  destruct (tcpCandidate_spec v6 q Hv Hpr Hl) as (o & -> & Ho). rewrite bind_Ret_l.
  destruct o as [m|]; [|do 3 eexists; split; [reflexivity|]; by exists W].
  specialize (Ho m eq_refl). fold (src_at v6) (addr_len v6).
  destruct (tcp_key_of v6 q rq) as (key & Ek & Hk & H6); [lia|].
  destruct (tcp_inserted i bufs tcp udp W v6 m q rq aq key) as (t' & Eins & Hoff); [done..|].
  unfold tcpLookupOrInsert. rewrite (tm_iph _ _ _ Ho) in *. rewrite Ek, bind_Ret_l.
  destruct (tt_itemsByFlow tcp !! key) as [items|] eqn:Etab.
  2:{ rewrite Eins, !bind_Ret_l. by do 3 eexists. }
  rewrite bind_Ret_l. destruct Hinv as [Hc Ht Hu Hne Hp1 Hp2].
  destruct (tcpTry_run i q rq aq v6 m key udp (length items) items Hb Laq Hcq Hpk Ho Hk H6 ltac:(lia) [] bufs tcp W)
    as (r & bufs' & t1 & Et & (W' & Hs & Ep1 & Ez1 & Ht1 & Hu1 & Hr)); [done..|by rewrite firstn_all, app_nil_r|].
  rewrite Et, bind_Ret_l.
  assert (∀ j bufs W, core j bufs W → (i ≤ j)%nat → table_of ti_key e_tcp (tt_itemsByFlow t1) W →
    table_of ui_key e_udp (ut_itemsByFlow udp) W → inv j bufs t1 udp W) as Hmk.
  { intros. split; try done; [|by eapply pool_ok_le]. unfold pool_ok in *. rewrite Ep1, Ez1. lia. }
  destruct r as [[]|]; try done.
  - destruct Hr as (-> & Hc'). do 3 eexists. split; [reflexivity|]. exists W'. split_and!; try done. by apply Hmk.
  - do 3 eexists. split; [reflexivity|]. exists W'. split_and!; try done. apply Hmk; try done. lia.
  - destruct Hr as (-> & Hc').
    destruct (tcp_inserted i bufs t1 udp W' v6 m q rq aq key) as (t2 & Eins2 & W2 & Hi2 & Hs2); [by apply Hmk|done..|].
    rewrite (tm_iph _ _ _ Ho) in Eins2. rewrite Eins2, bind_Ret_l. do 3 eexists. split; [reflexivity|].
    exists W2. split; [done|]. by rewrite Hs2, Hs.
Qed.

(** * A UDP packet and the last item of its flow *)
Lemma udp_entry W1 e W2 it v6 key i bufs :
  core i bufs (W1 ++ e :: W2) → e_udp e = Some it → ui_key it = key → uk_isV6 key = v6 →
  ∃ p a r, udp_run v6 it (pkt <$> e_grp e) p ∧ ui_bufsIndex it = Z.of_nat (e_idx e) ∧ (e_idx e < i)%nat ∧
    bufs !! e_idx e = Some (buf_of (a ++ p) r) ∧ zlen a = off ∧ cap_ok off p r.
Proof.
  intros Hc He Hk H6. destruct Hc as [_ _ _ Hlt _ Hok]. apply Forall_app in Hok as [_ Hok].
  apply Forall_cons in Hok as [Hok _]. apply Forall_app in Hlt as [_ Hlt]. apply Forall_cons in Hlt as [Hlt _].
  unfold entry_ok in Hok. unfold e_udp in He. destruct (e_tag e); try done. injection He as ->.
  destruct Hok as (Hi & v6' & p & Hr & a & r & Hb & La & Hcap). exists p, a, r.
  assert (v6' = v6) as -> by (rewrite <- H6, <- Hk; symmetry; apply Hr). by split_and!.
Qed.

Lemma udp_inserted i bufs tcp udp W v6 q rq aq key bad :
  inv i bufs tcp udp W → bufs0 !! i = Some (buf_of (aq ++ q) rq) → zlen aq = off → cap_ok off q rq → pkt i = q →
  udp_pkt v6 q → udp_key v6 q = Ret key → Z.of_nat i < IdealBatchSize →
  ∃ t', udpInsert udp (buf_of q rq) (src_at v6) (src_at v6 + addr_len v6) (ipl v6) (Z.of_nat i) bad =
      Ret t' ∧ offered i bufs W groResultTableInsert bufs tcp t'.
Proof.
  intros [Hc Ht Hu Hne Hp1 Hp2] Hb Laq Hcq Hpk Hm Hk Hi. assert (IdealBatchSize = 128) as E128 by done.
  destruct (udpInsert_run v6 udp q rq key i bad Hm Hk) as (it & E & Hrun & Hix & Hki); [lia|unfold pool_ok in *; lia|].
  eexists. split; [exact E|]. set (e := mkEntry i [i] (ByUDP it)). exists (W ++ [e]).
  split; [|by rewrite fmap_app]. split; cbn [ut_itemsByFlow ut_itemsPool]; try done.
  - apply (core_snoc i bufs bufs); try done. split; [done|]. exists v6, q. cbn. rewrite Hpk. split; [done|].
    exists aq, rq. split; [|done]. rewrite <- Hb. by apply Hc.
  - by apply table_snoc_none.
  - by apply (table_snoc ui_key e_udp).
  - intros k. destruct (decide (k = key)) as [->|Hk']; [|rewrite lookup_insert_ne by done; apply Hne].
    rewrite lookup_insert_eq. intros [= E0]. by destruct (default [] _).
  - eapply pool_ok_le; [done|lia].
  - by apply pool_ok_insert.
Qed.

Lemma udpUpdateAt_run t key l1 it it' :
  ut_itemsByFlow t !! key = Some (l1 ++ [it]) → ui_key it' = key →
  udpUpdateAt t it' (zlen (l1 ++ [it]) - 1) =
    Ret (mkUDPGROTable (<[key := l1 ++ [it']]> (ut_itemsByFlow t)) (ut_itemsPool t)).
Proof.
  intros E <-. unfold udpUpdateAt. rewrite E. cbn [default id]. rewrite zlen_app. change (zlen [it]) with 1.
  rewrite Z.add_simpl_r. unfold zlen. by rewrite put_mid, bind_Ret_l.
Qed.

Lemma udp_merged i bufs bufs' tcp udp W1 e W2 v6 key l1 it it' p a r :
  inv i bufs tcp udp (W1 ++ e :: W2) → ut_itemsByFlow udp !! key = Some (l1 ++ [it]) → e_udp e = Some it →
  ui_key it = key → (e_idx e < i)%nat → ui_bufsIndex it = Z.of_nat (e_idx e) →
  bufs !! e_idx e = Some (buf_of (a ++ p) r) → zlen a = off →
  merge_result_udp v6 bufs off it (pkt <$> e_grp e) a (e_idx e) (pkt i) coalesceSuccess it' bufs' →
  ∃ t', udpUpdateAt udp it' (zlen (l1 ++ [it]) - 1) = Ret t' ∧
    offered i bufs (W1 ++ e :: W2) groResultCoalesced bufs' tcp t'.
Proof.
  intros [Hc Ht Hu Hne Hp1 Hp2] Htab He Hk Hlt Hidx Hb La (p' & r' & -> & Hcap & Hrun & Hi' & Hk').
  eexists. split; [apply (udpUpdateAt_run _ key); congruence|]. set (e' := mkEntry (e_idx e) (e_grp e ++ [i]) (ByUDP it')).
  exists (W1 ++ e' :: W2). split; [|by apply same_slots_replace].
  assert (e_tcp e = None) as Het by (unfold e_tcp, e_udp in *; by destruct (e_tag e)).
  split; cbn [ut_itemsByFlow ut_itemsPool]; try done.
  - eapply (core_update i (S i)); [exact Hc|lia|done|by replace (S i - i)%nat with 1%nat by lia|apply length_insert| |].
    + intros k Hk0 _. by rewrite list_lookup_insert_ne.
    + split; [cbn; congruence|]. exists v6, p'. cbn. rewrite fmap_app. split; [exact Hrun|]. exists a, r'.
      split; [|done]. apply list_lookup_insert_eq. by eapply lookup_lt_Some.
  - by eapply table_keep.
  - apply (table_update ui_key e_udp _ W1 e W2 key l1 it [] e' Hu He Htab). intros ? [= <-]. congruence.
  - intros k. destruct (decide (k = key)) as [->|Hk0]; [|rewrite lookup_insert_ne by done; apply Hne].
    rewrite lookup_insert_eq. intros [= E0]. by destruct l1.
  - eapply pool_ok_le; [done|lia].
  - eapply pool_ok_update; [done|by eexists|lia].
Qed.

Lemma udpGRO_run i bufs tcp udp W v6 q rq aq :
  inv i bufs tcp udp W → bufs0 !! i = Some (buf_of (aq ++ q) rq) → zlen aq = off → cap_ok off q rq → pkt i = q →
  ip_version v6 q → ip_proto v6 q = Some IPPROTO_UDP → ipl v6 ≤ zlen q → Z.of_nat i < IdealBatchSize →
  ∃ r bufs' t', udpGRO en bufs off (Z.of_nat i) udp v6 = Ret (r, bufs', t') ∧ offered i bufs W r bufs' tcp t'.
Proof.
  intros Hinv Hb Laq Hcq Hpk Hv Hpr Hl Hi. pose proof (co_rest _ _ _ (iv_core _ _ _ _ _ Hinv) i ltac:(lia)) as Hbi.
  unfold udpGRO, target. rewrite (get_lookup _ i (buf_of (aq ++ q) rq)), bind_Ret_l by congruence.
  rewrite <- Laq, from_buf_of, bind_Ret_l, elems_buf_of, Laq. pose proof (ipl_range v6).
  destruct (udpCandidate_spec v6 q Hv Hpr Hl) as (o & -> & Ho). rewrite bind_Ret_l.
  destruct o as [[h n]|]; [|do 3 eexists; split; [reflexivity|]; by exists W].
  destruct (Ho h n eq_refl) as (-> & Hup & ->). pose proof (up_len _ _ Hup) as Hlen. assert (udphLen = 8) as E8 by done.
  fold (src_at v6) (addr_len v6). destruct (udp_key_of v6 q rq) as (key & Ek & Hk & H6); [lia|].
  assert (∀ bad, ∃ t', udpInsert udp (buf_of q rq) (src_at v6) (src_at v6 + addr_len v6) (ipl v6) (Z.of_nat i) bad =
      Ret t' ∧ offered i bufs W groResultTableInsert bufs tcp t') as Hins by (intros bad; by eapply udp_inserted).
  unfold udpLookupOrInsert. rewrite Ek, bind_Ret_l.
  destruct (ut_itemsByFlow udp !! key) as [items|] eqn:Etab.
  2:{ destruct (Hins false) as (t' & -> & Hoff). rewrite !bind_Ret_l. by do 3 eexists. }
  rewrite bind_Ret_l. destruct items as [|it l1 _] using rev_ind; [by apply (iv_udp_ne _ _ _ _ _ Hinv) in Etab|].
  rewrite zlen_app. change (zlen [it]) with 1. rewrite Z.add_simpl_r. change (zlen l1) with (Z.of_nat (length l1)).
  rewrite (get_lookup _ _ it), bind_Ret_l by by apply list_lookup_middle.
  destruct (table_find ui_key e_udp _ _ _ _ _ _ (iv_udp _ _ _ _ _ Hinv) Etab) as (W1 & e & W2 & -> & He & Hki).
  destruct (udp_entry _ _ _ _ _ _ _ _ (iv_core _ _ _ _ _ Hinv) He Hki H6) as (p & a & r & Hrun & Hidx & Hlt & Hj & La & Hcp).
  rewrite u8_id by ulia.
  destruct (udpPacketsCanCoalesce_spec v6 bufs off it _ p a r _ Hrun Hidx Hj La q rq Hup) as (c & -> & Hc).
  rewrite bind_Ret_l. assert (∃ res it' bufs', match c with
     | coalesceAppend => coalesceUDPPackets en (buf_of q rq) it bufs off v6
     | _ => Ret (coalesceInsufficientCap, it, bufs) end = Ret (res, it', bufs') ∧
     merge_result_udp v6 bufs off it (pkt <$> e_grp e) a (e_idx e) q res it' bufs') as (res & it' & bufs' & -> & Hres).
  { destruct c; [done|by do 3 eexists|]. destruct Hc as (Hcl & Hfull & Hsz).
    eapply (coalesceUDPPackets_run en v6 bufs off it _ p a r); try done. by rewrite Hki. }
  rewrite bind_Ret_l. destruct res.
  1-4: destruct Hres as (-> & ->);
    match goal with |- context [udpInsert _ _ _ _ _ _ ?bad] => destruct (Hins bad) as (t' & -> & Hoff) end;
    rewrite bind_Ret_l; by do 3 eexists.
  destruct (udp_merged i bufs bufs' tcp udp W1 e W2 v6 key l1 it it' p a r Hinv Etab He Hki Hlt Hidx Hj La)
    as (t' & Et & Hoff); [by rewrite Hpk|].
  rewrite zlen_app in Et. change (zlen [it]) with 1 in Et. rewrite Z.add_simpl_r in Et.
  change (zlen l1) with (Z.of_nat (length l1)) in Et. rewrite Et, bind_Ret_l.
  by do 3 eexists.
Qed.

(** * The rounds *)
Lemma zlen_hdr_memory v : zlen (hdr_memory en v) = virtioNetHdrLen.
Proof. by destruct en. Qed.

(** The virtio header is put right before the packet. *)
Lemma encodeAt_run a q r hdr :
  virtioNetHdrLen ≤ zlen a →
  encodeAt en (buf_of (a ++ q) r) (zlen a) hdr =
    Ret (buf_of ((ztake (zlen a - virtioNetHdrLen) a ++ hdr_memory en hdr) ++ q) r, None) ∧
  zlen (ztake (zlen a - virtioNetHdrLen) a ++ hdr_memory en hdr) = zlen a.
Proof.
  unfold virtioNetHdrLen. intros Ha. set (n := zlen a - 10). set (a1 := ztake n a).
  assert (zlen a1 = n) as L1 by (apply zlen_ztake; lia). pose proof (zlen_nonneg q).
  split; [|rewrite zlen_app, zlen_hdr_memory; unfold virtioNetHdrLen; lia].
  assert (a = a1 ++ zdrop n a) as Ea by (symmetry; apply ztake_zdrop). set (a2 := zdrop n a) in *.
  assert (zlen a2 = 10) as L2 by (apply (f_equal zlen) in Ea; rewrite zlen_app in Ea; lia).
  unfold encodeAt, virtioNetHdrLen. fold n. rewrite Ea at 1. rewrite <- app_assoc, <- L1 at 1.
  rewrite from_buf_of, bind_Ret_l, elems_buf_of. unfold encode, virtioNetHdrLen.
  destruct (Z.ltb_spec (zlen (a2 ++ q)) 10); [rewrite zlen_app in *; lia|].
  rewrite zdrop_app_ge, L2, Z.sub_diag, zdrop_0 by lia. cbn [buf_of ba bl]. do 2 f_equal. unfold buf_of.
  rewrite !zlen_app, zlen_hdr_memory, L1. unfold virtioNetHdrLen. f_equal; [|lia].
  rewrite <- app_assoc, ztake_app_le by lia. fold a1. rewrite !app_assoc.
  f_equal. rewrite zdrop_app_ge by (rewrite zlen_app; lia). rewrite zlen_app, zdrop_0 by lia. done.
Qed.

(** Every buffer has a packet, room for the header before it, and a capacity
    that keeps a merged packet below 64K. *)
Definition batch_ok : Prop :=
  virtioNetHdrLen ≤ off ∧ zlen bufs0 ≤ IdealBatchSize ∧
  ∀ k, (k < length bufs0)%nat → ∃ q, slot bufs0 k q ∧ q ≠ [].

Lemma groOffer_run can i s W q rq aq :
  inv i (gs_bufs s) (gs_tcp s) (gs_udp s) W → bufs0 !! i = Some (buf_of (aq ++ q) rq) → zlen aq = off →
  cap_ok off q rq → pkt i = q → Z.of_nat i < IdealBatchSize →
  ∃ r s', groOffer en can off (Z.of_nat i) q s = Ret (r, s') ∧ gs_toWrite s' = gs_toWrite s ∧
    offered i (gs_bufs s) W r (gs_bufs s') (gs_tcp s') (gs_udp s').
Proof.
  intros Hinv Hb Laq Hcq Hpk Hi. unfold groOffer.
  destruct (packetIsGROCandidate_spec q can) as (c & -> & Hc). rewrite bind_Ret_l. destruct c.
  - do 2 eexists. split; [reflexivity|]. split; [done|]. by exists W.
  - destruct Hc as (Hv & Hpr & Hl). destruct (tcpGRO_run i _ _ (gs_udp s) W false q rq aq Hinv) as (r & b & t & -> & Ho); [done..|].
    rewrite bind_Ret_l. by do 2 eexists.
  - destruct Hc as (Hv & Hpr & Hl). destruct (tcpGRO_run i _ _ (gs_udp s) W true q rq aq Hinv) as (r & b & t & -> & Ho); [done..|].
    rewrite bind_Ret_l. by do 2 eexists.
  - destruct Hc as (Hv & Hpr & Hl). destruct (udpGRO_run i _ (gs_tcp s) _ W false q rq aq Hinv) as (r & b & t & -> & Ho); [done..|].
    rewrite bind_Ret_l. by do 2 eexists.
  - destruct Hc as (Hv & Hpr & Hl). destruct (udpGRO_run i _ (gs_tcp s) _ W true q rq aq Hinv) as (r & b & t & -> & Ho); [done..|].
    rewrite bind_Ret_l. by do 2 eexists.
Qed.

Definition state_ok (i : nat) (s : groState) (W : list entry) : Prop :=
  inv i (gs_bufs s) (gs_tcp s) (gs_udp s) W ∧ gs_toWrite s = (λ e, Z.of_nat (e_idx e)) <$> W.

Lemma idx_write (W W' : list entry) : e_idx <$> W' = e_idx <$> W → (λ e, Z.of_nat (e_idx e)) <$> W' = (λ e, Z.of_nat (e_idx e)) <$> W.
Proof. intros E. rewrite !(list_fmap_compose e_idx Z.of_nat). by rewrite E. Qed.

Lemma groRound_run can i s W :
  batch_ok → (i < length bufs0)%nat → state_ok i s W →
  ∃ s' W', groRound en can off (Z.of_nat i) s = Ret (s', None) ∧ state_ok (S i) s' W'.
Proof.
  intros (Ho & Hn & Hall) Hi [Hinv Hw]. destruct (Hall i Hi) as (q & Hslot & Hq). pose proof (slot_pkt _ _ Hslot) as Hpk.
  destruct Hslot as (aq & rq & Hb & Laq & Hcq). assert (Z.of_nat i < IdealBatchSize) as Hi' by (unfold zlen in Hn; lia).
  pose proof (co_rest _ _ _ (iv_core _ _ _ _ _ Hinv) i ltac:(lia)) as Hbi. rewrite Hb in Hbi.
  unfold groRound. rewrite (get_lookup _ _ _ Hbi), bind_Ret_l. cbn [buf_of bl]. rewrite zlen_app.
  assert (0 < zlen q) by (destruct q; [done|rewrite zlen_cons; pose proof (zlen_nonneg q); lia]).
  destruct (Z.ltb_spec off virtioNetHdrLen), (Z.ltb_spec (zlen aq + zlen q - 1) off); try lia. cbn [orb].
  fold (buf_of (aq ++ q) rq). pose proof (from_buf_of aq q rq) as Ef. rewrite Laq in Ef.
  rewrite Ef, bind_Ret_l, elems_buf_of.
  destruct (groOffer_run can i s W q rq aq Hinv Hb Laq Hcq Hpk Hi') as (r & s' & -> & Ew & W' & Hr). rewrite bind_Ret_l.
  destruct r.
  - destruct Hr as (Eb & [Hc Ht Hu Hne Hp1 Hp2] & Hs). rewrite Eb, (get_lookup _ _ _ Hbi), bind_Ret_l.
    destruct (encodeAt_run aq q rq emptyHdr) as [Een Lh]; [lia|]. rewrite Laq in Een, Lh. rewrite Een, bind_Ret_l.
    rewrite (put_lookup _ _ _ _ Hbi), bind_Ret_l. set (a1 := ztake _ aq) in *. do 2 eexists. split; [reflexivity|].
    set (e := mkEntry i [i] Alone). split.
    + split; cbn [groWrite gs_bufs gs_tcp gs_udp].
      * apply (core_snoc i (gs_bufs s) _ W' e); try done; [apply length_insert|by intros; rewrite list_lookup_insert_ne|].
        exists i, a1, rq. split; [done|]. split; [|done]. rewrite Hpk. apply list_lookup_insert_eq. by eapply lookup_lt_Some.
      * by apply table_snoc_none.
      * by apply table_snoc_none.
      * done.
      * eapply pool_ok_le; [done|lia].
      * eapply pool_ok_le; [done|lia].
    + cbn [groWrite gs_toWrite]. rewrite Ew, Hw, fmap_app, (idx_write _ _ Hs). done.
  - destruct Hr as [Hinv' Hs]. exists (groWrite (Z.of_nat i) s'), W'. split; [done|]. split; [done|].
    cbn [groWrite gs_toWrite]. rewrite Ew, Hw, !(list_fmap_compose e_idx Z.of_nat), Hs, fmap_app. done.
  - destruct Hr as [Hinv' Hs]. exists s', W'. split; [done|]. split; [done|]. by rewrite Ew, Hw, (idx_write _ _ Hs).
Qed.

Lemma groRounds_run can n i s W :
  batch_ok → (i + n = length bufs0)%nat → state_ok i s W →
  ∃ s' W', groRounds en n can off (Z.of_nat i) s = Ret (s', None) ∧ state_ok (length bufs0) s' W'.
Proof.
  intros Hb. revert i s W. induction n as [|n IH]; intros i s W Hn Hs; cbn [groRounds].
  - exists s, W. split; [done|]. by replace (length bufs0) with i by lia.
  - destruct (groRound_run can i s W Hb) as (s1 & W1 & -> & Hs1); [lia|done|]. rewrite bind_Ret_l.
    replace (Z.of_nat i + 1) with (Z.of_nat (S i)) by lia. apply (IH (S i) s1 W1); [lia|done].
Qed.
End batch.
