(* ===== verification/GroFacts.v ===== *)
(** Theorems on coalescing ([Gro]): no packet of a batch is lost or changed,
    and what is written splits into the packets it was made of. *)
From S2P Require Import Prelude.
From S2P Require Import Tcpip.
From S2P Require Import Checksum.
From S2P Require Import TunChecksum.
From S2P Require Import TunOffload.
From S2P Require Import TunSplit.
From S2P Require Import Gro.
From S2P Require Import GroMerge.
From S2P Require Import GroTable.
From S2P Require Import GroBatch.

(** * The headers of a merged packet *)
Section account.
Context (en : endian) (v6 : bool).

(** The IP header for a packet of [n] bytes. *)
Definition gro_ip (h : bytes) (n : Z) : bytes :=
  if v6 then set16 h 4 (u16 (u16 n - u16 40))
  else let h := set16 (set16 h 10 0) 2 (u16 n) in set16 h 10 (not16 (checksum en h 0)).

(** The sum of its pseudo header. *)
Definition gro_pseudo (h : bytes) (proto n : Z) : Z :=
  checksum en [] (pseudoHeaderChecksumNoFold en proto (ztake (addr_len v6) (zdrop (src_at v6) h))
    (ztake (addr_len v6) (zdrop (src_at v6 + addr_len v6) h)) (u16 (n - ipl v6))).

Lemma zlen_gro_ip h n : zlen (gro_ip h n) = zlen h.
Proof. unfold gro_ip. destruct v6; by rewrite !zlen_set16. Qed.

Lemma modify_write16 a p r o v :
  0 ≤ o → o + 2 ≤ zlen p →
  modify (buf_of (a ++ p) r) (λ x, write16 x (zlen a + o) v) = Ret (buf_of (a ++ set16 p o v) r).
Proof.
  intros Ho Hp. pose proof (zlen_nonneg a). apply modify_buf_of; [|by rewrite !zlen_app, zlen_set16].
  rewrite write16_set by (rewrite ?zlen_app; lia). by rewrite set16_mid.
Qed.

Lemma accountIP_run a h t r :
  zlen h = ipl v6 →
  accountIP en (buf_of (a ++ h ++ t) r) (zlen a) (ipl v6) v6 = Ret (buf_of (a ++ gro_ip h (zlen (h ++ t)) ++ t) r).
Proof.
  intros Lh. pose proof (zlen_nonneg a). pose proof (zlen_nonneg t). unfold accountIP, gro_ip.
  rewrite from_buf_of, bind_Ret_l. cbn [buf_of bl]. set (n := zlen (h ++ t)). destruct v6; cbn [ipl] in *.
  - fold (buf_of (a ++ h ++ t) r). rewrite modify_write16 by (rewrite ?zlen_app; lia). by rewrite set16_front by lia.
  - fold (buf_of (a ++ h ++ t) r). rewrite (modify_buf_of _ _ _ (a ++ set16 (set16 h 10 0) 2 (u16 n) ++ t)), bind_Ret_l.
    + rewrite from_buf_of, bind_Ret_l, sub_buf_of by (rewrite ?zlen_app, ?zlen_set16; lia).
      pose proof (slice_mid [] (set16 (set16 h 10 0) 2 (u16 n)) t 0 20 eq_refl) as Es. cbn [app] in Es.
      rewrite Es, bind_Ret_l by (rewrite !zlen_set16, Lh; done).
      rewrite modify_write16 by (rewrite ?zlen_app, ?zlen_set16; lia). by rewrite set16_front by (rewrite ?zlen_set16; lia).
    + replace (zlen a + 11) with (zlen a + 10 + 1) by lia. rewrite clear2_set, bind_Ret_l by (rewrite ?zlen_app; lia).
      rewrite write16_set by (rewrite ?zlen_set16, ?zlen_app; lia). rewrite !set16_mid by lia.
      by rewrite !set16_front by (rewrite ?zlen_set16; lia).
    + by rewrite !zlen_app, !zlen_set16.
Qed.

Lemma accountCsum_run a h t r proto c :
  zlen h = ipl v6 → 0 ≤ c → c + 2 ≤ zlen t →
  accountCsum en (buf_of (a ++ h ++ t) r) (zlen a) (ipl v6) proto (ipl v6 + c) v6 =
    Ret (buf_of (a ++ h ++ set16 t c (gro_pseudo h proto (zlen (h ++ t)))) r).
Proof.
  intros Lh Hc Ht. pose proof (zlen_nonneg a). pose proof (ipl_range v6). destruct (addr_range v6) as (H1 & H2 & H3).
  unfold accountCsum. rewrite from_buf_of, bind_Ret_l. fold (src_at v6) (addr_len v6).
  rewrite !sub_buf_of by (rewrite ?zlen_app; lia).
  assert (∀ o, 0 ≤ o → o + addr_len v6 ≤ ipl v6 →
    slice (a ++ h ++ t) (zlen a + o) (zlen a + o + addr_len v6) = Ret (ztake (addr_len v6) (zdrop o h))) as Hs.
  { intros o Ho Hle. rewrite slice_ok by (rewrite ?zlen_app; lia). rewrite zdrop_app_ge by lia.
    replace (zlen a + o - zlen a) with o by lia. rewrite zdrop_app_le by lia.
    rewrite ztake_app_le by (rewrite zlen_zdrop; lia). by replace (zlen a + o + addr_len v6 - (zlen a + o)) with (addr_len v6) by lia. }
  rewrite Hs, bind_Ret_l by lia.
  replace (zlen a + src_at v6 + addr_len v6 * 2) with (zlen a + (src_at v6 + addr_len v6) + addr_len v6) by lia.
  replace (zlen a + src_at v6 + addr_len v6) with (zlen a + (src_at v6 + addr_len v6)) by lia.
  rewrite Hs, bind_Ret_l by lia. cbn [buf_of bl]. fold (buf_of (a ++ h ++ t) r).
  rewrite modify_write16 by (rewrite ?zlen_app; lia).
  fold (gro_pseudo h proto (zlen (h ++ t))).
  pose proof (set16_mid h t c (gro_pseudo h proto (zlen (h ++ t))) Hc) as Es. rewrite Lh in Es. by rewrite Es.
Qed.

(** The virtio headers of merged packets. *)
Definition tcp_hdr (it : tcpGROItem) : virtioNetHdr :=
  mkVirtioNetHdr VIRTIO_NET_HDR_F_NEEDS_CSUM (if v6 then VIRTIO_NET_HDR_GSO_TCPV6 else VIRTIO_NET_HDR_GSO_TCPV4)
    (ipl v6 + ti_tcphLen it) (ti_gsoSize it) (ipl v6) 16.
Definition udp_hdr (it : udpGROItem) : virtioNetHdr :=
  mkVirtioNetHdr VIRTIO_NET_HDR_F_NEEDS_CSUM VIRTIO_NET_HDR_GSO_UDP_L4 (ipl v6 + udphLen) (ui_gsoSize it) (ipl v6) 6.

(** The transport headers, with the pseudo header's sum as checksum. *)
Definition gro_tcp (ih th : bytes) (n : Z) : bytes := set16 th 16 (gro_pseudo ih IPPROTO_TCP n).
Definition gro_udp (ih th : bytes) (n : Z) : bytes :=
  set16 (set16 th 4 (u16 (n - ipl v6))) 6 (gro_pseudo ih IPPROTO_UDP n).

Lemma accountTCP_run it a h th d r :
  0 < ti_numMerged it → ti_iphLen it = ipl v6 → tk_isV6 (ti_key it) = v6 → 20 ≤ ti_tcphLen it ≤ 60 →
  virtioNetHdrLen ≤ zlen a → zlen h = ipl v6 → 20 ≤ zlen th →
  let n := zlen (h ++ th ++ d) in let ih := gro_ip h n in
  ∃ a', accountTCP en (buf_of (a ++ h ++ th ++ d) r) (zlen a) it =
      Ret (buf_of ((a' ++ hdr_memory en (tcp_hdr it)) ++ ih ++ gro_tcp ih th n ++ d) r, None) ∧
    zlen (a' ++ hdr_memory en (tcp_hdr it)) = zlen a.
Proof.
  intros Hn Hi H6 Ht La Lh Lth n ih. pose proof (ipl_range v6). unfold accountTCP.
  destruct (Z.ltb_spec 0 (ti_numMerged it)); [|lia]. rewrite H6, Hi, accountIP_run, bind_Ret_l by done.
  fold n. fold ih. cbn [csumStart csumOffset]. rewrite !u8_id, !(u16_id (ipl v6)), !u16_id by ulia. fold (tcp_hdr it).
  destruct (encodeAt_run en a (ih ++ th ++ d) r (tcp_hdr it) La) as [-> Lh']. rewrite bind_Ret_l.
  set (a1 := ztake _ a) in *. exists a1. split; [|done].
  assert (zlen ih = ipl v6) as Li by (unfold ih; by rewrite zlen_gro_ip). pose proof (zlen_nonneg d).
  rewrite <- Lh', accountCsum_run, bind_Ret_l by (rewrite ?zlen_app; lia).
  rewrite set16_front by lia. unfold gro_tcp.
  replace (zlen (ih ++ th ++ d)) with n by (unfold n; rewrite !zlen_app; lia). done.
Qed.

Lemma accountUDP_run it a h th d r :
  0 < ui_numMerged it → ui_iphLen it = ipl v6 → uk_isV6 (ui_key it) = v6 →
  virtioNetHdrLen ≤ zlen a → zlen h = ipl v6 → zlen th = 8 →
  let n := zlen (h ++ th ++ d) in let ih := gro_ip h n in
  ∃ a', accountUDP en (buf_of (a ++ h ++ th ++ d) r) (zlen a) it =
      Ret (buf_of ((a' ++ hdr_memory en (udp_hdr it)) ++ ih ++ gro_udp ih th n ++ d) r, None) ∧
    zlen (a' ++ hdr_memory en (udp_hdr it)) = zlen a.
Proof.
  intros Hn Hi H6 La Lh Lth n ih. pose proof (ipl_range v6). unfold accountUDP.
  destruct (Z.ltb_spec 0 (ui_numMerged it)); [|lia]. rewrite H6, Hi, accountIP_run, bind_Ret_l by done.
  fold n. fold ih. unfold udphLen. cbn [csumStart csumOffset].
  rewrite !u8_id, !(u16_id (ipl v6)), !u16_id by ulia. fold udphLen. fold (udp_hdr it).
  destruct (encodeAt_run en a (ih ++ th ++ d) r (udp_hdr it) La) as [-> Lh']. rewrite bind_Ret_l.
  set (a1 := ztake _ a) in *. exists a1. split; [|done]. set (b := a1 ++ _) in *. clearbody b.
  assert (zlen ih = ipl v6) as Li by (unfold ih; by rewrite zlen_gro_ip). pose proof (zlen_nonneg d).
  rewrite <- Lh', from_buf_of, bind_Ret_l, elems_buf_of, slice_from_ok, bind_Ret_l by (rewrite ?zlen_app; lia).
  rewrite zdrop_app_ge, Li, Z.sub_diag, zdrop_0 by lia.
  rewrite modify_write16, bind_Ret_l by (rewrite ?zlen_app; lia).
  assert (zlen (th ++ d) = n - ipl v6) as -> by (unfold n; rewrite !zlen_app; lia).
  pose proof (set16_mid ih (th ++ d) 4 (u16 (n - ipl v6)) ltac:(lia)) as Es. rewrite Li in Es. rewrite Es.
  rewrite set16_front by lia. rewrite accountCsum_run, bind_Ret_l by (rewrite ?zlen_app, ?zlen_set16; lia).
  rewrite set16_front by (rewrite ?zlen_set16; lia). unfold gro_udp.
  replace (zlen (ih ++ set16 th 4 (u16 (n - ipl v6)) ++ d)) with n by (unfold n; rewrite !zlen_app, zlen_set16; lia). done.
Qed.
End account.

(** * What is handed to the device *)

(** [n] bytes of a packet with the headers [h] and [th] and the data [d], behind
    a virtio header. *)
Definition merged_tcp (en : endian) (v6 : bool) (it : tcpGROItem) (h th d : bytes) : bytes :=
  let n := zlen (h ++ th ++ d) in
  hdr_memory en (tcp_hdr v6 it) ++ gro_ip en v6 h n ++ gro_tcp en v6 (gro_ip en v6 h n) th n ++ d.
Definition merged_udp (en : endian) (v6 : bool) (it : udpGROItem) (h th d : bytes) : bytes :=
  let n := zlen (h ++ th ++ d) in
  hdr_memory en (udp_hdr v6 it) ++ gro_ip en v6 h n ++ gro_udp en v6 (gro_ip en v6 h n) th n ++ d.

(** The bytes written for the packets [ps]: a packet as it is behind an empty
    header; a TCP packet with a wrong checksum behind whatever was in the
    buffer; or several packets merged. *)
Inductive written (en : endian) (ps : list bytes) : bytes → Prop :=
| written_alone p : ps = [p] → written en ps (hdr_memory en emptyHdr ++ p)
| written_stale p h v6 :
    ps = [p] → zlen h = virtioNetHdrLen → ip_version v6 p → ip_proto v6 p = Some IPPROTO_TCP →
    checksumValid en (whole p) (ipl v6) IPPROTO_TCP v6 = Ret false →
    written en ps (h ++ p)
| written_tcp v6 it h th :
    let d := concat (zdrop (ipl v6 + ti_tcphLen it) <$> ps) in
    0 < ti_numMerged it → tcp_run v6 it ps (h ++ th ++ d) → zlen h = ipl v6 → zlen th = ti_tcphLen it →
    written en ps (merged_tcp en v6 it h th d)
| written_udp v6 it h th :
    let d := concat (zdrop (ipl v6 + udphLen) <$> ps) in
    0 < ui_numMerged it → udp_run v6 it ps (h ++ th ++ d) → zlen h = ipl v6 → zlen th = udphLen →
    written en ps (merged_udp en v6 it h th d).

Section account_all.
Context (en : endian) (off : Z) (bufs0 : list buf).
Hypothesis Hoff : virtioNetHdrLen ≤ off.
Local Abbreviation pkt := (pkt off bufs0).

Lemma accountAll_run {I} (index : I → Z) account (items : list I) bufs :
  NoDup (index <$> items) →
  (∀ it, it ∈ items → ∃ j b b', index it = Z.of_nat j ∧ bufs !! j = Some b ∧ account b off it = Ret (b', None)) →
  ∃ bufs', accountAll index account items off bufs = Ret (bufs', None) ∧
    (∀ it j b, it ∈ items → index it = Z.of_nat j → bufs !! j = Some b →
       ∃ b', account b off it = Ret (b', None) ∧ bufs' !! j = Some b') ∧
    (∀ j, Z.of_nat j ∉ index <$> items → bufs' !! j = bufs !! j).
Proof.
  revert bufs. induction items as [|it items IH]; intros bufs Hnd Hall; cbn [accountAll].
  { exists bufs. split; [done|]. split; [by intros ? ? ? ?%not_elem_of_nil|done]. }
  cbn [fmap list_fmap] in Hnd. apply NoDup_cons in Hnd as [Hni Hnd].
  destruct (Hall it) as (j & b & b' & Ei & Hj & Ea); [constructor|].
  rewrite Ei, (get_lookup _ _ _ Hj), bind_Ret_l, Ea, bind_Ret_l, (put_lookup _ _ _ _ Hj), bind_Ret_l.
  assert (∀ it' j', it' ∈ items → index it' = Z.of_nat j' → j' ≠ j) as Hne.
  { intros it' j' Hin Ei' ->. apply Hni. rewrite Ei, <- Ei'. by apply list_elem_of_fmap_2. }
  destruct (IH (<[j := b']> bufs) Hnd) as (bufs' & E & H1 & H2).
  { intros it' Hin. destruct (Hall it') as (j' & c & c' & Ei' & Hj' & Ec); [by constructor|].
    exists j', c, c'. rewrite list_lookup_insert_ne by (symmetry; by eapply Hne). done. }
  exists bufs'. split; [done|]. split.
  - intros x k c [->|Hin]%elem_of_cons Ek Hk.
    + assert (k = j) as -> by lia. assert (c = b) as -> by congruence. exists b'. split; [done|].
      rewrite H2 by (by rewrite <- Ei). apply list_lookup_insert_eq. by eapply lookup_lt_Some.
    + apply (H1 x k c Hin Ek). rewrite list_lookup_insert_ne by (symmetry; by eapply Hne). done.
  - intros k [Hk1 Hk2]%not_elem_of_cons. rewrite H2 by done. apply list_lookup_insert_ne. intros ->. by rewrite Ei in Hk1.
Qed.

(** The bytes from the virtio header on. *)
Lemma written_bytes a hd p r :
  zlen (a ++ hd) = off → zlen hd = virtioNetHdrLen →
  zdrop (off - virtioNetHdrLen) (elems (buf_of ((a ++ hd) ++ p) r)) = hd ++ p.
Proof.
  intros La Lh. rewrite zlen_app in La. rewrite elems_buf_of, <- app_assoc, zdrop_app_ge by lia.
  by rewrite zdrop_0 by lia.
Qed.

Lemma tcp_entry_written bufs e it :
  entry_ok en off bufs0 bufs e → e_tag e = ByTCP it →
  ∃ b b', ti_bufsIndex it = Z.of_nat (e_idx e) ∧ bufs !! e_idx e = Some b ∧ accountTCP en b off it = Ret (b', None) ∧
    written en (pkt <$> e_grp e) (zdrop (off - virtioNetHdrLen) (elems b')).
Proof.
  intros Hok Ht. unfold entry_ok in Hok. rewrite Ht in Hok.
  destruct Hok as (Hi & v6 & p & Hrun & a & r & Hb & La & Hcap). destruct (tcp_run_len _ _ _ _ Hrun) as [Htl Lp].
  destruct (tcp_run_pos _ _ _ _ Hrun) as [Hn _]. pose proof (ipl_range v6). pose proof (tr_packet _ _ _ _ Hrun) as Hpk.
  destruct Hpk as (q & ps' & psh & Eps & Hpsh & Ep). pose proof (tr_all _ _ _ _ Hrun) as Hall. rewrite Eps in Hall at 1.
  apply Forall_cons in Hall as [[[_ _ _ _ Lq] _] _]. destruct (Z.eq_dec (ti_numMerged it) 0) as [H0|].
  - unfold accountTCP. destruct (Z.ltb_spec 0 (ti_numMerged it)); [lia|]. eexists _, _. split; [done|]. split; [done|].
    rewrite <- La. destruct (encodeAt_run en a p r emptyHdr) as [-> Lh]; [lia|]. split; [done|]. rewrite La in *.
    rewrite written_bytes by (done || apply zlen_hdr_memory). apply written_alone.
    pose proof (tr_num _ _ _ _ Hrun) as Hnum. rewrite Eps, zlen_cons, H0 in Hnum.
    destruct ps' as [|]; [|rewrite zlen_cons in Hnum; pose proof (zlen_nonneg ps'); lia].
    rewrite Eps in *. destruct psh; [by destruct (Hpsh eq_refl)|]. cbn [pshd fmap list_fmap concat] in Ep.
    by rewrite app_nil_r, ztake_zdrop in Ep; subst.
  - set (H0 := pshd _ _ _) in Ep. assert (zlen H0 = ipl v6 + ti_tcphLen it) as L0
      by (unfold H0; rewrite zlen_pshd, zlen_ztake; lia).
    set (d := concat _) in Ep. assert (p = ztake (ipl v6) H0 ++ zdrop (ipl v6) H0 ++ d) as Ep' by by rewrite app_assoc, ztake_zdrop.
    destruct (accountTCP_run en v6 it a (ztake (ipl v6) H0) (zdrop (ipl v6) H0) d r) as (a' & E & La');
      [lia|apply Hrun|apply Hrun|done|lia|rewrite zlen_ztake; lia|rewrite zlen_zdrop; lia|].
    rewrite Ep' in Hb. rewrite La in *. eexists _, _. split; [done|]. split; [exact Hb|]. split; [exact E|].
    rewrite written_bytes by (done || apply zlen_hdr_memory).
    apply (written_tcp en _ v6 it (ztake (ipl v6) H0) (zdrop (ipl v6) H0)); [lia| |rewrite zlen_ztake; lia|rewrite zlen_zdrop; lia].
    fold d. by rewrite <- Ep'.
Qed.

Lemma udp_entry_written bufs e it :
  entry_ok en off bufs0 bufs e → e_tag e = ByUDP it →
  ∃ b b', ui_bufsIndex it = Z.of_nat (e_idx e) ∧ bufs !! e_idx e = Some b ∧ accountUDP en b off it = Ret (b', None) ∧
    written en (pkt <$> e_grp e) (zdrop (off - virtioNetHdrLen) (elems b')).
Proof.
  intros Hok Ht. unfold entry_ok in Hok. rewrite Ht in Hok. assert (udphLen = 8) as E8 by done.
  destruct Hok as (Hi & v6 & p & Hrun & a & r & Hb & La & Hcap). destruct (udp_run_len _ _ _ _ Hrun) as (Lp & Hn & _).
  pose proof (ipl_range v6). pose proof (ur_packet _ _ _ _ Hrun) as (q & ps' & Eps & Ep).
  pose proof (ur_all _ _ _ _ Hrun) as Hall. rewrite Eps in Hall at 1.
  apply Forall_cons in Hall as [[[_ _ Lq] _] _]. destruct (Z.eq_dec (ui_numMerged it) 0) as [H0|].
  - unfold accountUDP. destruct (Z.ltb_spec 0 (ui_numMerged it)); [lia|]. eexists _, _. split; [done|]. split; [done|].
    rewrite <- La. destruct (encodeAt_run en a p r emptyHdr) as [-> Lh]; [lia|]. split; [done|]. rewrite La in *.
    rewrite written_bytes by (done || apply zlen_hdr_memory). apply written_alone.
    pose proof (ur_num _ _ _ _ Hrun) as Hnum. rewrite Eps, zlen_cons, H0 in Hnum.
    destruct ps' as [|]; [|rewrite zlen_cons in Hnum; pose proof (zlen_nonneg ps'); lia].
    rewrite Eps in *. cbn [fmap list_fmap concat] in Ep. by rewrite app_nil_r, ztake_zdrop in Ep; subst.
  - set (H0 := ztake _ q) in Ep. assert (zlen H0 = ipl v6 + udphLen) as L0 by (unfold H0; rewrite zlen_ztake; lia).
    set (d := concat _) in Ep. assert (p = ztake (ipl v6) H0 ++ zdrop (ipl v6) H0 ++ d) as Ep' by by rewrite app_assoc, ztake_zdrop.
    destruct (accountUDP_run en v6 it a (ztake (ipl v6) H0) (zdrop (ipl v6) H0) d r) as (a' & E & La');
      [lia|apply Hrun|apply Hrun|lia|rewrite zlen_ztake; lia|rewrite zlen_zdrop; lia|].
    rewrite Ep' in Hb. rewrite La in *. eexists _, _. split; [done|]. split; [exact Hb|]. split; [exact E|].
    rewrite written_bytes by (done || apply zlen_hdr_memory).
    apply (written_udp en _ v6 it (ztake (ipl v6) H0) (zdrop (ipl v6) H0)); [lia| |rewrite zlen_ztake; lia|rewrite zlen_zdrop; lia].
    fold d. by rewrite <- Ep'.
Qed.

Definition is_written (bufs : list buf) (e : entry) : Prop :=
  ∃ b, bufs !! e_idx e = Some b ∧ written en (pkt <$> e_grp e) (zdrop (off - virtioNetHdrLen) (elems b)).

(** Entries without an item are ready as they are. *)
Lemma plain_entry_written bufs e :
  entry_ok en off bufs0 bufs e → e_tcp e = None → e_udp e = None → is_written bufs e.
Proof.
  intros Hok Ht Hu. unfold entry_ok in Hok. unfold e_tcp, e_udp in *. destruct (e_tag e); try done.
  - destruct Hok as (k & a & r & Eg & Hb & La). eexists. split; [exact Hb|].
    rewrite written_bytes by (done || apply zlen_hdr_memory). rewrite Eg. by apply written_alone.
  - destruct Hok as (k & v6 & Eg & (a & r & Hb & La & _) & Hv & Hpr & Hbad). eexists. split; [exact Hb|]. rewrite Eg.
    set (a1 := ztake (off - virtioNetHdrLen) a). set (a2 := zdrop (off - virtioNetHdrLen) a).
    assert (a = a1 ++ a2) as Ea by (symmetry; apply ztake_zdrop). assert (0 < virtioNetHdrLen) by done.
    assert (zlen a2 = virtioNetHdrLen) as L2 by (unfold a2; rewrite zlen_zdrop; lia). rewrite Ea in La |- *.
    pose proof (written_bytes a1 a2 (pkt k) r La L2) as ->. by apply (written_stale en _ _ a2 v6).
Qed.

(** The items of a table, in any order. *)
Lemma items_distinct {I} (sel : entry → option I) (index : I → Z) W items :
  items ≡ₚ omap sel W → NoDup (e_idx <$> W) →
  (∀ e it, e ∈ W → sel e = Some it → index it = Z.of_nat (e_idx e)) →
  NoDup (index <$> items) ∧
  (∀ e, e ∈ W → Z.of_nat (e_idx e) ∈ index <$> items ↔ is_Some (sel e)).
Proof.
  intros Hp Hnd Hix.
  assert (NoDup (index <$> omap sel W) ∧ ∀ j, Z.of_nat j ∈ index <$> omap sel W → ∃ e, e ∈ W ∧ is_Some (sel e) ∧ e_idx e = j) as [H1 H2].
  { split.
    - clear Hp. induction W as [|e W IH]; [constructor|]. cbn [fmap list_fmap] in Hnd. apply NoDup_cons in Hnd as [Hni Hnd].
      cbn [omap list_omap]. assert (NoDup (index <$> omap sel W)) as IH' by (apply IH; [done|]; intros; apply Hix; [by constructor|done]).
      destruct (sel e) as [it|] eqn:Es; [|exact IH']. cbn [fmap list_fmap]. apply NoDup_cons. split; [|exact IH'].
      intros Hin. apply list_elem_of_fmap in Hin as (it' & E & (e' & He' & Es')%list_elem_of_omap).
      rewrite (Hix e it) in E by (done || constructor). rewrite (Hix e' it') in E by (done || by constructor).
      apply Hni. apply Nat2Z.inj in E as ->. by apply list_elem_of_fmap_2.
    - intros j Hj. apply list_elem_of_fmap in Hj as (it & E & (e & He & Es)%list_elem_of_omap). exists e.
      rewrite (Hix e it) in E by done. split; [done|]. split; [by eexists|lia]. }
  split; [by rewrite Hp|]. intros e He. split.
  - rewrite Hp. intros (e' & He' & Hs & Ei)%H2.
    assert (e' = e) as ->; [|done].
    apply list_elem_of_lookup in He as [m Hm]. apply list_elem_of_lookup in He' as [m' Hm'].
    assert (m' = m) as ->; [|congruence]. eapply NoDup_lookup; [exact Hnd|by rewrite list_lookup_fmap, Hm'|].
    rewrite list_lookup_fmap, Hm. cbn. congruence.
  - intros [it Es]. rewrite <- (Hix e it) by done. apply list_elem_of_fmap_2. rewrite Hp.
    apply list_elem_of_omap. by exists e.
Qed.
End account_all.

(** * A batch *)

(** Ranging over a map visits each key once. *)
Definition orders_ok (ord : groOrders) : Prop :=
  (∀ m, go_tcp ord m ≡ₚ map_to_list m) ∧ (∀ m, go_udp ord m ≡ₚ map_to_list m).

Lemma order_flat `{Countable K} {I} (m : gmap K (list I)) l : l ≡ₚ map_to_list m → concat l.*2 ≡ₚ flat m.
Proof. intros Hp. unfold flat. by rewrite Hp. Qed.

Lemma accounting_phase {I} (sel : entry → option I) index account (R : entry → buf → Prop) off W bufs items :
  items ≡ₚ omap sel W → NoDup (e_idx <$> W) →
  (∀ e it, e ∈ W → sel e = Some it →
     ∃ b b', index it = Z.of_nat (e_idx e) ∧ bufs !! e_idx e = Some b ∧ account b off it = Ret (b', None) ∧ R e b') →
  ∃ bufs', accountAll index account items off bufs = Ret (bufs', None) ∧
    (∀ e, e ∈ W → sel e = None → bufs' !! e_idx e = bufs !! e_idx e) ∧
    (∀ e it, e ∈ W → sel e = Some it → ∃ b', bufs' !! e_idx e = Some b' ∧ R e b').
Proof.
  intros Hp Hnd Hall.
  destruct (items_distinct sel index W items Hp Hnd) as [Hn Hm].
  { intros e it He Es. by destruct (Hall e it He Es) as (? & ? & ? & _). }
  destruct (accountAll_run off index account items bufs Hn) as (bufs' & E & H1 & H2).
  { intros it. rewrite Hp, list_elem_of_omap. intros (e & He & Es).
    destruct (Hall e it He Es) as (b & b' & Hi & Hb & Ea & _). by exists (e_idx e), b, b'. }
  exists bufs'. split; [done|]. split.
  - intros e He Es. apply H2. intros [it Hs]%Hm; [congruence|done].
  - intros e it He Es. destruct (Hall e it He Es) as (b & b' & Hi & Hb & Ea & HR).
    destruct (H1 it (e_idx e) b) as (b1 & Ea' & Hb1); [|done..|by exists b1; split; [|congruence]].
    rewrite Hp. apply list_elem_of_omap. by exists e.
Qed.

Lemma accounting_run en off bufs0 ord s W :
  virtioNetHdrLen ≤ off → orders_ok ord → state_ok en off bufs0 (length bufs0) s W →
  ∃ bufs1 bufs2,
    applyTCPCoalesceAccounting en (go_tcp ord (tt_itemsByFlow (gs_tcp s))) (gs_bufs s) off = Ret (bufs1, None) ∧
    applyUDPCoalesceAccounting en (go_udp ord (ut_itemsByFlow (gs_udp s))) bufs1 off = Ret (bufs2, None) ∧
    Forall (is_written en off bufs0 bufs2) W.
Proof.
  intros Ho [Hot Hou] [[Hc [Ht _] [Hu _] _ _ _] _]. pose proof (co_ok _ _ _ _ _ _ Hc) as Hok. rewrite Forall_forall in Hok.
  pose proof (co_nodup _ _ _ _ _ _ Hc) as Hnd. pose proof (order_flat _ _ (Hot (tt_itemsByFlow (gs_tcp s)))) as Et.
  pose proof (order_flat _ _ (Hou (ut_itemsByFlow (gs_udp s)))) as Eu. rewrite Ht in Et. rewrite Hu in Eu.
  set (R := λ e b, written en (pkt off bufs0 <$> e_grp e) (zdrop (off - virtioNetHdrLen) (elems b))).
  assert (∀ e it, e_tcp e = Some it → e_tag e = ByTCP it) as Htag1 by (unfold e_tcp; intros e it; destruct (e_tag e); naive_solver).
  assert (∀ e it, e_udp e = Some it → e_tag e = ByUDP it) as Htag2 by (unfold e_udp; intros e it; destruct (e_tag e); naive_solver).
  destruct (accounting_phase e_tcp ti_bufsIndex (accountTCP en) R off W (gs_bufs s) _ Et Hnd) as (bufs1 & E1 & Hk1 & Hw1).
  { intros e it He Es%Htag1. exact (tcp_entry_written en off bufs0 Ho _ _ _ (Hok e He) Es). }
  assert (∀ e it, e_udp e = Some it → e_tcp e = None) as Hdis by (intros e it Es%Htag2; unfold e_tcp; by rewrite Es).
  destruct (accounting_phase e_udp ui_bufsIndex (accountUDP en) R off W bufs1 _ Eu Hnd) as (bufs2 & E2 & Hk2 & Hw2).
  { intros e it He Es. pose proof (Htag2 _ _ Es) as Eg.
    destruct (udp_entry_written en off bufs0 Ho _ _ _ (Hok e He) Eg) as (b & b' & Hi & Hb & Ea & HR).
    exists b, b'. by rewrite (Hk1 e He (Hdis _ _ Es)). }
  exists bufs1, bufs2. split; [exact E1|]. split; [exact E2|]. apply Forall_forall. intros e He.
  destruct (e_udp e) as [it|] eqn:Eeu; [exact (Hw2 e it He Eeu)|]. unfold is_written. rewrite (Hk2 e He Eeu).
  destruct (e_tcp e) as [it|] eqn:Eet; [exact (Hw1 e it He Eet)|]. rewrite (Hk1 e He Eet).
  exact (plain_entry_written en off bufs0 Ho _ _ (Hok e He) Eet Eeu).
Qed.

Lemma handleGRO_run en off bufs ord can :
  batch_ok off bufs → orders_ok ord →
  ∃ s W, handleGRO en ord can off (mkGROState bufs newTCPGROTable newUDPGROTable []) = Ret (s, []) ∧
    gs_toWrite s = (λ e, Z.of_nat (e_idx e)) <$> W ∧ concat (e_grp <$> W) ≡ₚ seq 0 (length bufs) ∧
    Forall (is_written en off bufs (gs_bufs s)) W ∧
    tcpReset (gs_tcp s) = newTCPGROTable ∧ udpReset (gs_udp s) = newUDPGROTable.
Proof.
  intros Hb Hord. unfold handleGRO. cbn [gs_bufs].
  destruct (groRounds_run en off bufs can (length bufs) 0 (mkGROState bufs newTCPGROTable newUDPGROTable []) [])
    as (s & W & E & Hs); [done|done| |].
  { split; [|done]. split; cbn; try done. all: try (split; cbn; done).
    split; try done. constructor. }
  change (Z.of_nat 0) with 0 in E. rewrite E, bind_Ret_l.
  destruct (accounting_run en off bufs ord s W) as (bufs1 & bufs2 & E1 & E2 & Hw); [apply Hb|done|done|].
  rewrite E1, bind_Ret_l, E2, bind_Ret_l. destruct Hs as [[Hc _ _ _ [Hp1 _] [Hp2 _]] Hw'].
  do 2 eexists. split; [reflexivity|]. cbn [gs_toWrite gs_bufs gs_tcp gs_udp]. split; [done|]. split; [apply Hc|].
  split; [done|]. unfold tcpReset, udpReset. by rewrite Hp1, Hp2.
Qed.

(** Every packet to be written is handed to the device unless it is gone. *)
Lemma writeEach_run {E} (index : E → nat) (P : E → bytes → Prop) W bufs o ans total errs :
  0 ≤ o → Forall (λ a, a ≠ WriteErr EBADFD) ans →
  Forall (λ e, ∃ b, bufs !! index e = Some b ∧ zdrop o (elems b) ≠ [] ∧ P e (zdrop o (elems b))) W →
  ∃ ws total' errs', writeEach ((λ e, Z.of_nat (index e)) <$> W) bufs o ans total errs = Ret (ws, total', errs') ∧
    Forall2 P W ws.
Proof.
  intros Ho. revert ans total errs. induction W as [|e W IH]; intros ans total errs Ha HW; cbn [fmap list_fmap writeEach].
  { do 3 eexists. split; [reflexivity|constructor]. }
  apply Forall_cons in HW as [(b & Hb & Hne & HP) HW]. rewrite (get_lookup _ _ _ Hb), bind_Ret_l.
  assert (o ≤ zlen (elems b)) by (destruct (Z.le_gt_cases o (zlen (elems b))); [done|]; by rewrite zdrop_all in Hne by lia).
  rewrite slice_from_ok, bind_Ret_l by lia. set (p := zdrop o (elems b)) in *.
  assert (Forall (λ a, a ≠ WriteErr EBADFD) (tail ans)) as Ht by (destruct ans; [done|]; by apply Forall_cons in Ha as [_ ?]).
  assert (default (Wrote (zlen p)) (head ans) ≠ WriteErr EBADFD) as Hh
    by (destruct ans; [done|]; by apply Forall_cons in Ha as [? _]).
  assert (∀ n er, ∃ ws total' errs',
    (r ← writeEach ((λ e, Z.of_nat (index e)) <$> W) bufs o (tail ans) n er;
     let '(ps, total, errs) := r in Ret (p :: ps, total, errs)) = Ret (ws, total', errs') ∧ Forall2 P (e :: W) ws) as Hgo.
  { intros n er. destruct (IH (tail ans) n er Ht HW) as (ws & total' & errs' & -> & HF). rewrite bind_Ret_l.
    do 3 eexists. split; [reflexivity|]. by constructor. }
  destruct (default _ _) as [n|[]]; [apply Hgo|done|apply Hgo].
Qed.

Lemma written_nonempty en ps w : written en ps w → w ≠ [].
Proof.
  intros Hw E0. assert (zlen w = 0) as L0 by by rewrite E0. destruct Hw as [p _|p h v6 _ Lh _ _ _|v6 it h th d _ _ _ _|v6 it h th d _ _ _ _].
  all: unfold merged_tcp, merged_udp in L0; rewrite zlen_app in L0; rewrite ?zlen_hdr_memory, ?Lh in L0; unfold virtioNetHdrLen in L0;
    match type of L0 with 10 + zlen ?x = 0 => pose proof (zlen_nonneg x) end; lia.
Qed.

(** What one call of [write] hands to the device. *)
Lemma tun_write_groups en ord t bufs off ans :
  nt_vnetHdr t = true → nt_tcpGROTable t = newTCPGROTable → nt_udpGROTable t = newUDPGROTable →
  batch_ok off bufs → orders_ok ord → Forall (λ a, a ≠ WriteErr EBADFD) ans →
  ∃ t' ws total errs groups, tun_write en ord t bufs off ans = Ret (t', ws, total, errs) ∧
    nt_tcpGROTable t' = newTCPGROTable ∧ nt_udpGROTable t' = newUDPGROTable ∧
    concat groups ≡ₚ seq 0 (length bufs) ∧
    Forall2 (λ g w, written en (pkt off bufs <$> g) w) groups ws.
Proof.
  intros Hv Ht Hu Hb Ho Ha. unfold tun_write. rewrite Hv, Ht, Hu.
  destruct (handleGRO_run en off bufs ord (nt_udpGSO t) Hb Ho) as (s & W & E & Ew & Hp & Hw & Rt & Ru).
  rewrite E, bind_Ret_l, Ew.
  destruct (writeEach_run e_idx (λ e w, written en (pkt off bufs <$> e_grp e) w) W (gs_bufs s)
    (off - virtioNetHdrLen) ans 0 []) as (ws & total & errs & E' & HF); [destruct Hb; lia|done| |].
  { eapply Forall_impl; [exact Hw|]. intros e (b & Hb' & Hwr). exists b. split; [done|]. split; [|done].
    by eapply written_nonempty. }
  rewrite E', bind_Ret_l. do 4 eexists. exists (e_grp <$> W). split; [reflexivity|]. split; [exact Rt|].
  split; [exact Ru|]. split; [exact Hp|]. by apply Forall2_fmap_l.
Qed.

(** C12: coalescing loses no packet.  [write] takes a batch of at most 128
    packets, with room for the virtio header and fresh tables.  Whatever the
    packets are (TCP or UDP over IPv4 or IPv6 in any order and mixture of
    flows, or anything else) and in whatever order the flows are visited, it
    does not panic, and hands the device packets that stand for groups of the
    batch such that every packet is in exactly one group.  A packet alone is
    written as it is.  A group of more is consecutive segments of one TCP
    connection or datagrams of one UDP flow, all of the segment size but the
    last: it is written as the headers of its first packet, with the lengths
    and checksums of the whole, and all the payloads, behind a virtio header
    that says how to split it.  The tables are as at the start. *)
Theorem gro_writes_every_packet en ord t bufs off ans :
  nt_vnetHdr t = true → nt_tcpGROTable t = newTCPGROTable → nt_udpGROTable t = newUDPGROTable →
  batch_ok off bufs → orders_ok ord → Forall (λ a, a ≠ WriteErr EBADFD) ans →
  ∃ t' ws total errs groups, tun_write en ord t bufs off ans = Ret (t', ws, total, errs) ∧
    nt_tcpGROTable t' = newTCPGROTable ∧ nt_udpGROTable t' = newUDPGROTable ∧
    concat groups ≡ₚ seq 0 (length bufs) ∧
    Forall2 (λ g w, written en (pkt off bufs <$> g) w) groups ws.
Proof. apply tun_write_groups. Qed.

(** * Samples *)

(** A segment from 10.0.0.1:80 to 10.0.0.2:1024, with a valid checksum. *)
Definition sample_tcp (seq fl : Z) (d : bytes) : bytes :=
  let src := From4 10 0 0 1 in
  let dst := From4 10 0 0 2 in
  let t := [0; 80; 4; 0; 0; 0; 0; seq; 0; 0; 0; 1; 80; fl; 1; 0; 0; 0; 0; 0] ++ d in
  [69; 0; 0; 40 + zlen d; 0; 7; 0; 0; 64; 6; 0; 0; 10; 0; 0; 1; 10; 0; 0; 2] ++
  set16 t 16 (Checksum t (PseudoHeaderChecksum IPPROTO_TCP src dst (zlen t))).

Definition sample_bufs (ps : list bytes) : list buf :=
  (λ p, buf_of (make_bytes 10 ++ p) (make_bytes 80)) <$> ps.
Definition sample_orders : groOrders := mkOrders map_to_list map_to_list.

Lemma sample_batch_ok ps :
  (length ps ≤ 128)%nat → Forall (λ p, p ≠ [] ∧ zlen p ≤ 65000) ps → batch_ok 10 (sample_bufs ps).
Proof.
  intros Hl Hall. split; [done|]. split; [unfold sample_bufs, zlen, IdealBatchSize; rewrite length_fmap; lia|].
  intros k Hk. unfold sample_bufs in *. rewrite length_fmap in Hk. destruct (lookup_lt_is_Some_2 ps k Hk) as [p Hp].
  pose proof (Forall_lookup_1 _ _ _ _ Hall Hp) as [Hne Hlen]. exists p. split; [|done].
  exists (make_bytes 10), (make_bytes 80). rewrite list_lookup_fmap, Hp. split; [done|]. split; [done|].
  unfold cap_ok. rewrite zlen_make_bytes by lia. lia.
Qed.

Definition sample_tun : nativeTun := mkNativeTun true true newTCPGROTable newUDPGROTable.

(** Three segments in order, with one of another kind between them. *)
Definition sample_packets : list bytes :=
  [sample_tcp 100 16 [1; 2]; sample_tcp 102 16 [3; 4]; [96; 1; 2]; sample_tcp 104 24 [5]].

Lemma gro_writes_every_packet_witness :
  ∃ t' ws total errs groups,
    tun_write LittleEndian sample_orders sample_tun (sample_bufs sample_packets) 10 [] = Ret (t', ws, total, errs) ∧
    nt_tcpGROTable t' = newTCPGROTable ∧ nt_udpGROTable t' = newUDPGROTable ∧
    concat groups ≡ₚ seq 0 4 ∧
    Forall2 (λ g w, written LittleEndian (pkt 10 (sample_bufs sample_packets) <$> g) w) groups ws ∧
    (length ws = 2%nat ∧ zdrop 10 <$> tail ws = [[96; 1; 2]]).
Proof.
  destruct (gro_writes_every_packet LittleEndian sample_orders sample_tun (sample_bufs sample_packets) 10 [] eq_refl eq_refl
    eq_refl ltac:(apply sample_batch_ok; [vm_compute; lia|repeat constructor; done]) ltac:(by split) ltac:(done))
    as (t' & ws & total & errs & groups & E & Ht & Hu & Hp & HF).
  exists t', ws, total, errs, groups. split; [exact E|]. split; [exact Ht|]. split; [exact Hu|]. split; [exact Hp|].
  split; [exact HF|].
  assert (Some (length ws, zdrop 10 <$> tail ws) = Some (2%nat, [[96; 1; 2]])) as [= E1 E2]; [|by split].
  transitivity (match tun_write LittleEndian sample_orders sample_tun (sample_bufs sample_packets) 10 [] with
    | Ret (_, ws, _, _) => Some (length ws, zdrop 10 <$> tail ws) | _ => None end); [by rewrite E|].
  vm_compute. reflexivity.
Defined.




(** A segment with PSH before which another is put: the merged packet has the
    flags of the segment in front, without PSH. *)
Lemma prepend_loses_psh :
  ∃ t' w total errs,
    tun_write LittleEndian sample_orders sample_tun (sample_bufs [sample_tcp 102 24 [3; 4]; sample_tcp 100 16 [1; 2]]) 10 [] =
      Ret (t', [w], total, errs) ∧ zdrop 50 w = [1; 2; 3; 4] ∧ get w 43 = Ret (ack_flags false).
Proof. do 4 eexists. split; [vm_compute; reflexivity|]. by vm_compute. Qed.
