(* ===== verification/GroBack.v ===== *)
(** Coalescing and splitting are inverse: a TUN channel that reads what
    [write] has written gets the packets of the batch back. *)
From S2P Require Import Prelude.
From S2P Require Import Tcpip.
From S2P Require Import Checksum.
From S2P Require Import TunChecksum.
From S2P Require Import TunOffload.
From S2P Require Import TunSplit.
From S2P Require Import Gro.
From S2P Require Import GroMerge.
From S2P Require Import GroTable.
From S2P Require Import GroBatch.
From S2P Require Import GroFacts.

(** * Payloads and pieces *)
Lemma concat_drop g (ds : list bytes) i :
  Forall (λ x, zlen x = g) (take i ds) → (i ≤ length ds)%nat → zdrop (g * Z.of_nat i) (concat ds) = concat (drop i ds).
Proof.
  revert i. induction ds as [|d ds IH]; intros i Hall Hi; [destruct i; [|cbn in Hi; lia]; by rewrite zdrop_0 by lia|].
  destruct i as [|i]; [by rewrite zdrop_0 by lia|]. cbn [take] in Hall. apply Forall_cons in Hall as [Hd Hall].
  cbn [concat drop length] in *. pose proof (zlen_nonneg d).
  rewrite zdrop_app_ge by nia. rewrite <- (IH i) by (done || lia). f_equal. lia.
Qed.

(** The pieces of the payload are the payloads of the packets. *)
Lemma sizes_piece g ds i d : sizes g ds → ds !! i = Some d → piece g (concat ds) (Z.of_nat i) = d.
Proof.
  intros (ds' & z & -> & Hall & Hz) Hi. pose proof (lookup_lt_Some _ _ _ Hi) as Hlt. rewrite length_app in Hlt. cbn in Hlt.
  unfold piece. rewrite concat_drop; [|rewrite take_app_le by lia; by apply Forall_take|rewrite length_app; lia].
  rewrite (drop_S _ d) by done. cbn [concat]. apply lookup_app_Some in Hi as [Hi|[Hge Hi]].
  - pose proof (Forall_lookup_1 _ _ _ _ Hall Hi) as Hd. cbn in Hd. by rewrite ztake_app_le, ztake_all by lia.
  - apply list_lookup_singleton_Some in Hi as [Hi <-]. rewrite drop_ge by (rewrite length_app; cbn; lia).
    cbn. rewrite app_nil_r. apply ztake_all. lia.
Qed.

Lemma sizes_pieces g ds : sizes g ds → pieces g (concat ds) = zlen ds.
Proof.
  intros Hs. pose proof (sizes_total _ _ Hs). destruct Hs as (ds' & z & _ & _ & Hz). unfold pieces.
  symmetry. apply Z.div_unique with (r := zlen (concat ds) + g - 1 - g * zlen ds); lia.
Qed.

Lemma zlen_fmap {A B} (f : A → B) l : zlen (f <$> l) = zlen l.
Proof. unfold zlen. by rewrite length_fmap. Qed.

Lemma sizes_le g (ds : list bytes) : sizes g ds → 1 < zlen ds → g ≤ zlen (concat ds).
Proof.
  intros (ds' & z & -> & Hall & _) Hl. destruct ds' as [|d ds']; [unfold zlen in Hl; cbn in Hl; lia|].
  apply Forall_cons in Hall as [Hd _]. cbn [app concat]. rewrite zlen_app. pose proof (zlen_nonneg (concat (ds' ++ [z]))). lia.
Qed.

Lemma follow_lookup at_ hl g seq ps i q :
  follow at_ hl seq ps → sizes g (zdrop hl <$> ps) → ps !! i = Some q →
  read32 q at_ = Ret (if decide (i = 0%nat) then seq else u32 (seq + g * Z.of_nat i)).
Proof.
  intros Hf (ds' & z & Ed & Hall & _) Hi. revert seq ps ds' Hf Ed Hall Hi.
  induction i as [|i IH]; intros seq ps ds' Hf Ed Hall Hi; (destruct ps as [|p ps]; [done|]); destruct Hf as [Hp Hf]; cbn in Hi.
  - by injection Hi as ->.
  - cbn [fmap list_fmap] in Ed. destruct ds' as [|d ds']; [destruct ps; done|]. injection Ed as Ed1 Ed2.
    apply Forall_cons in Hall as [Hd Hall]. specialize (IH _ ps ds' Hf Ed2 Hall Hi). rewrite IH.
    destruct (decide (S i = 0%nat)); [lia|]. f_equal. rewrite Ed1, Hd.
    destruct (decide (i = 0%nat)) as [->|]; [f_equal; lia|].
    rewrite u32_u32_add_l. f_equal. lia.
Qed.

(** * Headers that agree *)
Lemma read16_agree (p s : bytes) o : 0 ≤ o → (∀ n, o ≤ Z.of_nat n < o + 2 → s !! n = p !! n) → read16 s o = read16 p o.
Proof. intros Ho H. unfold read16, get. rewrite !H by lia. done. Qed.
Lemma read32_agree (p s : bytes) o : 0 ≤ o → (∀ n, o ≤ Z.of_nat n < o + 4 → s !! n = p !! n) → read32 s o = read32 p o.
Proof. intros Ho H. unfold read32, get. rewrite !H by lia. done. Qed.
Lemma cut_agree (p s : bytes) o n :
  0 ≤ o → 0 ≤ n → (∀ i, o ≤ Z.of_nat i < o + n → s !! i = p !! i) → ztake n (zdrop o s) = ztake n (zdrop o p).
Proof.
  intros Ho Hn H. unfold ztake, zdrop. apply list_eq. intros i.
  destruct (decide (i < Z.to_nat n)%nat); [|by rewrite !lookup_take_ge by lia].
  rewrite !lookup_take_lt, !lookup_drop by lia. apply H. lia.
Qed.

Lemma tcp_key_agree p s :
  40 ≤ zlen p → 40 ≤ zlen s →
  (∀ n, 12 ≤ Z.of_nat n < 24 ∨ 28 ≤ Z.of_nat n < 32 → s !! n = p !! n) → tcp_key false s = tcp_key false p.
Proof.
  intros Lp Ls H. unfold tcp_key, whole, newTCPFlowKey. rewrite !Z.add_simpl_l, !elems_buf_of.
  change (src_at false) with 12. change (addr_len false) with 4. change (ipl false) with 20.
  rewrite !sub_buf_of, !slice_ok, !bind_Ret_l by lia. change (12 + 4 - 12) with 4. change (12 + 4 + 4 - (12 + 4)) with 4.
  rewrite !(cut_agree p s) by (lia || intros; apply H; lia).
  by rewrite !(read16_agree p s), (read32_agree p s) by (lia || intros; apply H; lia).
Qed.
Lemma udp_key_agree p s :
  28 ≤ zlen p → 28 ≤ zlen s → (∀ n, 12 ≤ Z.of_nat n < 24 → s !! n = p !! n) → udp_key false s = udp_key false p.
Proof.
  intros Lp Ls H. unfold udp_key, whole, newUDPFlowKey. rewrite !Z.add_simpl_l, !elems_buf_of.
  change (src_at false) with 12. change (addr_len false) with 4. change (ipl false) with 20.
  rewrite !sub_buf_of, !slice_ok, !bind_Ret_l by lia. change (12 + 4 - 12) with 4. change (12 + 4 + 4 - (12 + 4)) with 4.
  rewrite !(cut_agree p s) by (lia || intros; apply H; lia).
  by rewrite !(read16_agree p s) by (lia || intros; apply H; lia).
Qed.

(** * What comes back *)

(** Length and checksums of an IPv4 packet as the stack checks them. *)
Definition sums_ok (proto : Z) (s : bytes) : Prop :=
  ∃ src dst, read32 s 12 = Ret src ∧ read32 s 16 = Ret dst ∧ read16 s 2 = Ret (zlen s) ∧
    Checksum (ztake 20 s) 0 = 0 ∧ Checksum (zdrop 20 s) (PseudoHeaderChecksum proto src dst (zlen s - 20)) = 0.

(** The segment [p] again: the same addresses, ports and acknowledgement
    number, class of service and lifetime, sequence number, options and data;
    its flags, but for a PSH that may be gone. *)
Record same_segment (tcph : Z) (p s : bytes) : Prop := {
  sg_len : zlen s = zlen p;
  sg_key : tcp_key false s = tcp_key false p;
  sg_class : ip_class false s = ip_class false p;
  sg_seq : read32 s 24 = read32 p 24;
  sg_options : tcp_options false tcph s = tcp_options false tcph p;
  sg_data : zdrop (20 + tcph) s = zdrop (20 + tcph) p;
  sg_flags : ∃ psh psh', get p 33 = Ret (ack_flags psh) ∧ get s 33 = Ret (ack_flags psh') ∧ (psh' = true → psh = true);
  sg_sums : sums_ok IPPROTO_TCP s }.

(** The datagram [p] again. *)
Record same_datagram (p s : bytes) : Prop := {
  sd_len : zlen s = zlen p;
  sd_key : udp_key false s = udp_key false p;
  sd_class : ip_class false s = ip_class false p;
  sd_data : zdrop 28 s = zdrop 28 p;
  sd_sums : sums_ok IPPROTO_UDP s }.

Lemma psh_last_lookup at_ b ps i p :
  psh_last at_ b ps → ps !! i = Some p → get p at_ = Ret (ack_flags (b && (S i =? length ps)%nat)).
Proof.
  intros (ps' & q & -> & Hall & Hq) Hi. rewrite length_app. cbn [length]. apply lookup_app_Some in Hi as [Hi|[Hge Hi]].
  - pose proof (lookup_lt_Some _ _ _ Hi). rewrite (proj2 (Nat.eqb_neq _ _)), andb_false_r by lia.
    by apply (Forall_lookup_1 _ _ _ _ Hall Hi).
  - apply list_lookup_singleton_Some in Hi as [Hi <-]. by rewrite (proj2 (Nat.eqb_eq _ _)), andb_true_r by lia.
Qed.

(** The parts of a split packet and its sums. *)
Lemma segment_sums tcp g ih th id seq src dst i last s d :
  segment_ok tcp g ih th id seq src dst i last s d → zlen ih = 20 → read32 ih 12 = Ret src → read32 ih 16 = Ret dst →
  sums_ok (proto_of tcp) s.
Proof.
  intros (h & t & -> & Hd & Hl & _ & Hc & [Lh Hs] & Hct & _) L20 Hsrc Hdst. rewrite L20 in Lh.
  pose proof (zlen_nonneg t). exists src, dst.
  assert (∀ n, 12 ≤ Z.of_nat n < 20 → (h ++ t ++ d) !! n = ih !! n) as Hag.
  { intros n Hn. rewrite lookup_app_l by (unfold zlen in Lh; lia). rewrite <- (Nat2Z.id n). apply Hs; [lia|].
    rewrite !not_elem_of_cons. split_and!; try lia. apply not_elem_of_nil. }
  rewrite (read32_agree ih (h ++ t ++ d)), (read32_agree ih (h ++ t ++ d) 16) by (lia || intros; apply Hag; lia).
  split; [done|]. split; [done|]. split.
  { rewrite <- Hl. apply read16_agree; [lia|]. intros n Hn. rewrite lookup_app_l; [done|]. unfold zlen in Lh. lia. }
  rewrite ztake_app_le, ztake_all by lia. split; [done|].
  rewrite zdrop_app_ge, Lh, Z.sub_diag, zdrop_0 by lia. rewrite zlen_app, Lh, Z.add_simpl_l. done.
Qed.

Lemma same_but_lookup ps (a b : bytes) n : same_but ps a b → Z.of_nat n ∉ ps → a !! n = b !! n.
Proof. intros [_ H] Hn. rewrite <- (Nat2Z.id n). apply H; [lia|done]. Qed.

(** The two headers of a packet, one after the other. *)
Lemma same_but_app (ps ps' ex : list Z) (a b a' b' : bytes) n :
  same_but ps a b → same_but ps' a' b' →
  (∀ j, j ∉ ex → (j ∉ ps) ∧ (j - zlen b ∉ ps')) → Z.of_nat n ∉ ex → (a ++ a') !! n = (b ++ b') !! n.
Proof.
  intros Ha Hb Hex Hn. destruct (Hex _ Hn) as [H1 H2]. pose proof Ha as [La _]. pose proof Hb as [Lb _]. unfold zlen in *.
  destruct (decide (n < length a)%nat).
  - rewrite !lookup_app_l by lia. by eapply same_but_lookup.
  - rewrite !lookup_app_r by lia. replace (length b) with (length a) by lia. eapply same_but_lookup; [done|].
    by replace (Z.of_nat (n - length a)) with (Z.of_nat n - Z.of_nat (length b)) by lia.
Qed.

(** What merging and splitting change in the headers. *)
Definition tcp_changed : list Z := [2; 3; 4; 5; 10; 11; 24; 25; 26; 27; 33; 36; 37].
Definition udp_changed : list Z := [2; 3; 4; 5; 10; 11; 24; 25; 26; 27].

Ltac not_in := unfold tcp_changed, udp_changed in *; rewrite ?not_elem_of_cons in *; split_and!; try lia; apply not_elem_of_nil.

Lemma gro_ip_same en h n : same_but [2; 3; 10; 11] (gro_ip en false h n) h.
Proof. unfold gro_ip. do 3 (apply same_but_set16; [lia|set_solver..|]). apply same_but_refl. Qed.

(** Splitting the merged packet leaves the rest of the first packet's
    headers. *)
Lemma split_head_tcp en h th n g id seq src dst i last s d k :
  zlen h = 20 → Z.of_nat k < 20 + zlen th →
  segment_ok true g (gro_ip en false h n) (gro_tcp en false (gro_ip en false h n) th n) id seq src dst i last s d →
  Z.of_nat k ∉ tcp_changed → s !! k = (h ++ th) !! k.
Proof.
  intros Lh Hk (h' & t' & -> & _ & _ & _ & _ & Hsh & _ & _ & _ & Hst) Hn.
  pose proof (gro_ip_same en h n) as Hi. set (ih := gro_ip en false h n) in *.
  assert (same_but [16; 17] (gro_tcp en false ih th n) th) as Ht.
  { unfold gro_tcp. apply same_but_set16; [lia|set_solver..|]. apply same_but_refl. }
  set (t1 := gro_tcp en false ih th n) in *. pose proof Hsh as [L1 _]. pose proof Hst as [L2 _].
  pose proof Hi as [L3 _]. pose proof Ht as [L4 _].
  rewrite app_assoc, lookup_app_l by (rewrite length_app; unfold zlen in *; lia).
  rewrite (same_but_app _ _ tcp_changed h' ih t' t1 k Hsh Hst); [|intros j Hj; rewrite L3, Lh; not_in|done].
  apply (same_but_app _ _ tcp_changed ih h t1 th k Hi Ht); [|done].
  intros j Hj. rewrite Lh. not_in.
Qed.

(** The headers of the merged packet are those of its first packet. *)
Lemma merged_head v6 it ps h th d q ps' :
  tcp_run v6 it ps (h ++ th ++ d) → d = concat (zdrop (ipl v6 + ti_tcphLen it) <$> ps) → ps = q :: ps' →
  zlen h = ipl v6 → zlen th = ti_tcphLen it →
  ∃ psh, h ++ th = pshd psh (ipl v6 + tcpFlagsOffset) (ztake (ipl v6 + ti_tcphLen it) q) ∧
    (psh = true → ti_pshSet it = true).
Proof.
  intros Hrun -> Eps Lh Lt. destruct (tr_packet _ _ _ _ Hrun) as (q0 & ps0 & psh & Eps' & Hpsh & Ep).
  assert (q0 = q) as -> by congruence. exists psh. split; [|intros Hp; by apply Hpsh].
  pose proof (tr_all _ _ _ _ Hrun) as Hall. rewrite Eps in Hall at 1. apply Forall_cons in Hall as [[[_ _ Ht _ Lq] _] _].
  pose proof (ipl_range v6). rewrite app_assoc in Ep. apply app_inj_1 in Ep as [E _]; [exact E|].
  rewrite length_app. assert (zlen (pshd psh (ipl v6 + tcpFlagsOffset) (ztake (ipl v6 + ti_tcphLen it) q)) = ipl v6 + ti_tcphLen it) as L
    by (rewrite zlen_pshd, zlen_ztake; lia). unfold zlen in *. lia.
Qed.

Lemma pshd_lookup psh n hl (q p : bytes) :
  p = pshd psh (Z.of_nat n) (ztake hl q) → ∀ k, Z.of_nat k < hl → k ≠ n → p !! k = q !! k.
Proof.
  intros -> k Hk Hn. unfold pshd. rewrite Nat2Z.id.
  destruct psh; [rewrite list_lookup_alter_ne by done|]; unfold ztake; by rewrite lookup_take_lt by lia.
Qed.

Lemma lor_u8 x y : is_u8 x → is_u8 y → is_u8 (Z.lor x y).
Proof.
  intros Hx Hy. rewrite <- (u8_id x Hx), <- (u8_id y Hy). unfold u8. change 256 with (2 ^ 8).
  rewrite <- !land_low, <- Z.land_lor_distr_l, land_low by lia. apply u8_range.
Qed.

Lemma bytes_ok_pshd psh n hl (q : bytes) : bytes_ok q → bytes_ok (pshd psh n (ztake hl q)).
Proof.
  intros Hq. unfold ztake. destruct psh; [|by apply Forall_take]. apply Forall_alter; [by apply Forall_take|].
  intros x _ Hx. apply lor_u8; done.
Qed.

Lemma bytes_ok_payloads hl (ps : list bytes) : Forall bytes_ok ps → bytes_ok (concat (zdrop hl <$> ps)).
Proof.
  intros H. apply Forall_concat, Forall_fmap. eapply Forall_impl; [exact H|]. intros p Hp. by apply Forall_drop.
Qed.

(** The IP header of a merged packet is one the kernel could have made. *)
Lemma gro_ip_kernel en h n :
  zlen h = 20 → bytes_ok h →
  ∃ id src dst, bytes_ok (gro_ip en false h n) ∧ read16 (gro_ip en false h n) 4 = Ret id ∧
    read32 (gro_ip en false h n) 12 = Ret src ∧ read32 (gro_ip en false h n) 16 = Ret dst ∧
    gro_ip en false h n !! 0%nat = h !! 0%nat.
Proof.
  intros Lh Hb. pose proof (zlen_gro_ip en false h n) as L. rewrite Lh in L.
  destruct (read16_ok (gro_ip en false h n) 4) as [id Hid]; [lia|lia|].
  destruct (read32_ok (gro_ip en false h n) 12) as [src Hsrc]; [lia|lia|].
  destruct (read32_ok (gro_ip en false h n) 16) as [dst Hdst]; [lia|lia|].
  exists id, src, dst. split; [unfold gro_ip; by do 3 apply bytes_ok_set16|]. split_and!; [done..|].
  eapply same_but_lookup; [apply gro_ip_same|not_in].
Qed.

Section tcp_back.
Context (en : endian) (it : tcpGROItem) (ps : list bytes) (h th : bytes).
Local Abbreviation hl := (20 + ti_tcphLen it).
Local Abbreviation d := (concat (zdrop hl <$> ps)).
Local Abbreviation n := (zlen (h ++ th ++ d)).
Local Abbreviation ih := (gro_ip en false h n).
Local Abbreviation t1 := (gro_tcp en false ih th n).
Hypothesis Hrun : tcp_run false it ps (h ++ th ++ d).
Hypothesis Lh : zlen h = 20.
Hypothesis Lth : zlen th = ti_tcphLen it.
Hypothesis Hmany : 0 < ti_numMerged it.
Hypothesis Hseq : is_u32 (ti_sentSeq it).

(** The flags of a segment: those of the merged header at the end, ACK before. *)
Lemma split_flags id src dst i p s :
  ps !! i = Some p →
  segment_ok true (ti_gsoSize it) ih t1 id (ti_sentSeq it) src dst (Z.of_nat i) (S i =? length ps)%nat s (zdrop hl p) →
  ∃ psh psh', get p 33 = Ret (ack_flags psh) ∧ get s 33 = Ret (ack_flags psh') ∧ (psh' = true → psh = true).
Proof.
  intros Hi (h' & t' & -> & _ & _ & _ & _ & [Lh' _] & _ & _ & Hfl & _).
  pose proof (psh_last_lookup _ _ _ _ _ (tr_psh _ _ _ _ Hrun) Hi) as Hp. change (ipl false + tcpFlagsOffset) with 33 in Hp.
  destruct (tr_packet _ _ _ _ Hrun) as (q & ps' & _ & Eps & _). pose proof (tr_num _ _ _ _ Hrun) as Hnum.
  destruct (merged_head false it ps h th d q ps') as (psh & Eh & Hpsh); [done..|].
  pose proof (psh_last_lookup _ _ ps 0%nat q (tr_psh _ _ _ _ Hrun) ltac:(by rewrite Eps)) as Hq.
  rewrite (proj2 (Nat.eqb_neq _ _)), andb_false_r in Hq by (unfold zlen in Hnum; lia).
  change (ipl false + tcpFlagsOffset) with 33 in *. apply get_Ret in Hq as [_ Hq]. change (Z.to_nat 33) with 33%nat in Hq.
  pose proof (tr_all _ _ _ _ Hrun) as Hall. rewrite Eps in Hall at 1. apply Forall_cons in Hall as [[[_ _ Ht _ Lq] _] _].
  change (ipl false) with 20 in *.
  assert (th !! 13%nat = Some (ack_flags psh)) as Hth.
  { assert ((h ++ th) !! 33%nat = Some (ack_flags psh)) as E.
    { rewrite Eh. assert (ztake hl q !! 33%nat = Some (ack_flags false)) as E0
        by (unfold ztake; rewrite lookup_take_lt by lia; done).
      destruct psh; cbn [pshd]; [|done]. change (Z.to_nat 33) with 33%nat. by rewrite list_lookup_alter_eq, E0. }
    rewrite lookup_app_r in E by (unfold zlen in Lh; lia). replace (33 - length h)%nat with 13%nat in E by (unfold zlen in Lh; lia). done. }
  assert (t1 !! 13%nat = th !! 13%nat) as E1.
  { apply (same_but_lookup [16; 17]); [|not_in]. unfold gro_tcp. apply same_but_set16; [lia|set_solver..|]. apply same_but_refl. }
  rewrite E1, Hth in Hfl. cbn [fmap option_fmap option_map] in Hfl. exists (ti_pshSet it && (S i =? length ps)%nat).
  assert (∀ f, t' !! 13%nat = Some f → get (h' ++ t' ++ zdrop hl p) 33 = Ret f) as Hget.
  { intros f Hf. apply get_Ret. split; [lia|]. change (Z.to_nat 33) with 33%nat.
    rewrite zlen_gro_ip in Lh'. unfold zlen in *.
    rewrite lookup_app_r by lia. replace (33 - length h')%nat with 13%nat by lia. by apply lookup_app_l_Some. }
  apply Hget in Hfl. destruct (S i =? length ps)%nat.
  - exists psh. rewrite andb_true_r in *. by split_and!.
  - exists false. rewrite andb_false_r in *. split; [done|]. split; [|done]. rewrite Hfl. by destruct psh.
Qed.
(** Each segment is one of the packets again. *)
Lemma tcp_segment_same id src dst i p s :
  read32 ih 12 = Ret src → read32 ih 16 = Ret dst → ps !! i = Some p →
  segment_ok true (ti_gsoSize it) ih t1 id (ti_sentSeq it) src dst (Z.of_nat i) (S i =? length ps)%nat s (zdrop hl p) →
  same_segment (ti_tcphLen it) p s.
Proof.
  intros Hsrc Hdst Hi Hok. pose proof (split_flags _ _ _ _ _ _ Hi Hok) as Hflags.
  assert (∀ k, Z.of_nat k < hl → Z.of_nat k ∉ tcp_changed → s !! k = (h ++ th) !! k) as Hhead
    by (intros k Hk Hn; eapply split_head_tcp; [exact Lh|lia|exact Hok|exact Hn]).
  destruct (tr_packet _ _ _ _ Hrun) as (q & ps' & _ & Eps & _).
  destruct (merged_head false it ps h th d q ps') as (psh & Eh & _); [done..|]. change (ipl false + tcpFlagsOffset) with 33 in Eh.
  pose proof (tr_all _ _ _ _ Hrun) as Hall. pose proof (Forall_lookup_1 _ _ _ _ Hall Hi) as (Hpkt & Hkey & Hclass & Hopt).
  pose proof (Forall_lookup_1 _ ps 0%nat q Hall ltac:(by rewrite Eps)) as ([_ _ _ _ Lq] & Hkeyq & _ & _).
  pose proof (tp_tcph _ _ _ Hpkt) as Ht. pose proof (tp_len _ _ _ Hpkt) as Lp. change (ipl false) with 20 in *.
  change 33 with (Z.of_nat 33) in Eh. pose proof (pshd_lookup _ _ _ _ _ Eh) as Hq.
  assert (∀ k, Z.of_nat k < hl → (h ++ th) !! k = (h ++ th ++ d) !! k) as Hm.
  { intros k Hk. rewrite (app_assoc h th), (lookup_app_l (h ++ th)); [done|]. rewrite length_app. unfold zlen in *. lia. }
  assert (zlen s = zlen p) as Ls.
  { destruct Hok as (h' & t' & -> & _ & _ & _ & _ & [L1 _] & _ & _ & _ & [L2 _]).
    rewrite !zlen_app, zlen_zdrop, L1, L2, zlen_gro_ip by lia. unfold gro_tcp. rewrite zlen_set16. lia. }
  split; [exact Ls|..].
  - rewrite Hkey, <- Hkeyq. apply tcp_key_agree; [lia|lia|]. intros k Hk. rewrite Hhead by (lia || not_in). apply Hq; lia.
  - rewrite Hclass. unfold ip_class. by rewrite !Hhead, !Hm by (lia || not_in).
  - change 24 with (ipl false + 4) at 2. rewrite (follow_lookup _ _ _ _ _ _ _ (tr_seqs _ _ _ _ Hrun) (tr_sizes _ _ _ _ Hrun) Hi).
    destruct Hok as (h' & t' & -> & _ & _ & _ & _ & [L1 _] & _ & Hs & _). rewrite zlen_gro_ip in L1.
    replace 24 with (zlen h' + 4) by lia. rewrite (read32_mid _ _ _ 4 _ ltac:(lia) Hs).
    destruct (decide (i = 0%nat)) as [->|]; [|done]. by rewrite Z.mul_0_r, Z.add_0_r, u32_id.
  - rewrite Hopt. unfold tcp_options. change (ipl false) with 20. apply cut_agree; [lia|lia|]. intros k Hk.
    rewrite Hhead by (lia || not_in). apply Hm. lia.
  - destruct Hok as (h' & t' & -> & _ & _ & _ & _ & [L1 _] & _ & _ & _ & [L2 _]).
    rewrite zlen_gro_ip in L1. unfold gro_tcp in L2. rewrite zlen_set16 in L2.
    rewrite app_assoc, zdrop_app_ge, zdrop_0; [done|rewrite zlen_app; lia..].
  - exact Hflags.
  - eapply (segment_sums true); [exact Hok|by rewrite zlen_gro_ip|done|done].
Qed.
(** The merged packet is one the kernel could have handed over. *)
Lemma merged_tcp_kernel :
  Forall bytes_ok ps →
  ∃ id src dst, kernel_packet (tcp_hdr false it) true ih t1 d id (ti_sentSeq it) src dst.
Proof.
  intros Hb. destruct (tr_packet _ _ _ _ Hrun) as (q & ps' & _ & Eps & _).
  destruct (merged_head false it ps h th d q ps') as (psh & Eh & _); [done..|]. change (ipl false + tcpFlagsOffset) with 33 in Eh.
  pose proof (Forall_lookup_1 _ ps 0%nat q (tr_all _ _ _ _ Hrun) ltac:(by rewrite Eps))
    as ([(b0 & Hb0 & Hv & _) _ Ht (b12 & Hb12 & Hoff) Lq] & _).
  pose proof (Forall_lookup_1 _ ps 0%nat q Hb ltac:(by rewrite Eps)) as Hbq. cbn beta in Hbq.
  pose proof (tr_seqs _ _ _ _ Hrun) as Hf. rewrite Eps in Hf. destruct Hf as [Hs _]. change (ipl false) with 20 in *.
  change 33 with (Z.of_nat 33) in Eh. pose proof (pshd_lookup _ _ _ _ _ Eh) as Hq.
  assert (bytes_ok h ∧ bytes_ok th) as [Bh Bt] by (apply Forall_app; rewrite Eh; by apply bytes_ok_pshd).
  assert (zlen t1 = ti_tcphLen it) as Lt1 by (unfold gro_tcp; by rewrite zlen_set16).
  assert (zlen ih = 20) as Lih by by rewrite zlen_gro_ip.
  assert (read32 th 4 = Ret (ti_sentSeq it)) as Hs1.
  { destruct (read32_ok th 4) as [v E]; [lia|lia|]. rewrite E, <- Hs. symmetry. change (20 + 4) with 24.
    rewrite <- (read32_agree q (h ++ th)) by (lia || (intros; apply Hq; lia)).
    replace 24 with (zlen h + 4) by lia. rewrite <- (app_nil_r th). by apply read32_mid. }
  destruct (gro_ip_kernel en h n Lh Bh) as (id & src & dst & Bi & Hid & Hsrc & Hdst & E0).
  pose proof (tr_max _ _ _ _ Hrun) as Hmax. rewrite !zlen_app in Hmax.
  destruct (tr_sizes _ _ _ _ Hrun) as (ds & z & Eds & _ & Hz).
  exists id, src, dst. split; cbn [gsoSize gsoType csumStart csumOffset tcp_hdr].
  - split; [exact Bi|unfold gro_tcp; by apply bytes_ok_set16|by apply bytes_ok_payloads|lia..|done|done|done|].
    intros _. unfold gro_tcp. rewrite read32_set16_ne by lia. done.
  - pose proof (sizes_le _ _ (tr_sizes _ _ _ _ Hrun)) as Hg. rewrite zlen_fmap, (tr_num _ _ _ _ Hrun) in Hg.
    specialize (Hg ltac:(lia)). change (ipl false) with 20 in Hg. unfold hdr_ok. cbn. split_and!; done || ulia.
  - done.
  - done.
  - done.
  - exists b0. split; [|done]. rewrite E0, <- Hb0, <- Hq by lia. rewrite lookup_app_l; [done|unfold zlen in *; lia].
  - exists b12. rewrite Lt1. pose proof (Forall_lookup_1 _ _ _ _ Hbq Hb12) as B12. cbn beta in B12.
    rewrite Z.shiftr_div_pow2 in * by lia. change (2 ^ 4) with 16 in *. unfold is_u8 in B12.
    assert (0 ≤ b12 / 16 < 16) by (split; [apply Z.div_pos|apply Z.div_lt_upper_bound]; lia).
    rewrite u8_id in Hoff by (unfold is_u8; lia). split; [|done].
    rewrite <- Hb12. change (Z.to_nat (20 + 12)) with 32%nat. rewrite <- Hq by lia.
    rewrite lookup_app_r by (unfold zlen in *; lia). replace (32 - length h)%nat with 12%nat by (unfold zlen in *; lia).
    eapply (same_but_lookup [16; 17]); [|not_in]. unfold gro_tcp. apply same_but_set16; [lia|set_solver..|]. apply same_but_refl.
Qed.
End tcp_back.

(** A merged packet is read as its packets. *)
Lemma read_group en v tcp ih th (ps : list bytes) hl id seq src dst c spare reads buf :
  kernel_packet v tcp ih th (concat (zdrop hl <$> ps)) id seq src dst → sizes (gsoSize v) (zdrop hl <$> ps) →
  zlen ps ≤ 128 → zlen ih + zlen th = hl → Forall (λ p, hl ≤ zlen p ≤ zlen buf) ps → chan_ok c → drained c →
  ∃ c' segs, read_packets en (length ps) c
      (DevData (hdr_memory en v ++ ih ++ th ++ concat (zdrop hl <$> ps)) spare :: reads) buf = Ret (c', reads, segs) ∧
    chan_ok c' ∧ drained c' ∧ length segs = length ps ∧
    ∀ i p s, ps !! i = Some p → segs !! i = Some s →
      segment_ok tcp (gsoSize v) ih th id seq src dst (Z.of_nat i) (S i =? length ps)%nat s (zdrop hl p).
Proof.
  intros Hk Hs Hn Hl Hall Hc Hd. pose proof (kp_split _ _ _ _ _ _ _ _ _ Hk) as Hsp.
  pose proof (sizes_pieces _ _ Hs) as Hp. rewrite zlen_fmap in Hp.
  assert (0 < zlen (concat (zdrop hl <$> ps))) as Hne.
  { destruct Hs as (ds & z & -> & _ & Hz). rewrite concat_app, zlen_app. cbn [concat]. rewrite app_nil_r.
    pose proof (zlen_nonneg (concat ds)). lia. }
  pose proof (length_segments _ _ _ _ _ _ _ _ _ Hk Hne) as Ln. rewrite Hp in Ln.
  assert (∀ i p, ps !! i = Some p → piece (gsoSize v) (concat (zdrop hl <$> ps)) (Z.of_nat i) = zdrop hl p) as Hpc.
  { intros i p Hi. apply sizes_piece; [done|]. by rewrite list_lookup_fmap, Hi. }
  destruct (read_segments en _ _ _ _ _ _ _ _ _ Hk Hne c spare reads buf Hc Hd) as (c' & E & Hc' & Hd'); [lia|..].
  { apply Forall_lookup. intros j s [-> Hj]%lookup_segments. destruct (lookup_lt_is_Some_2 ps j) as [p Hj']; [unfold zlen in *; lia|].
    rewrite zlen_segment. unfold seg_len. rewrite (Hpc _ _ Hj').
    pose proof (Forall_lookup_1 _ _ _ _ Hall Hj') as Lp. cbn beta in Lp.
    pose proof (zlen_nonneg ih). pose proof (zlen_nonneg th). rewrite zlen_zdrop; lia. }
  exists c', (segments v tcp ih th (concat (zdrop hl <$> ps)) id seq src dst).
  assert (length (segments v tcp ih th (concat (zdrop hl <$> ps)) id seq src dst) = length ps) as Ln' by (unfold zlen in Ln; lia).
  rewrite Ln' in E. split_and!; [done..|]. intros i p s Hi [-> Hlt]%lookup_segments.
  pose proof (segment_is_ok _ _ _ _ _ _ _ _ _ (Z.of_nat i) Hsp (conj (Nat2Z.is_nonneg i) Hlt)) as Hok. rewrite Hp, (Hpc _ _ Hi) in Hok.
  destruct (Nat.eqb_spec (S i) (length ps)); destruct (Z.eqb_spec (Z.of_nat i + 1) (zlen ps)); try (unfold zlen in *; lia); exact Hok.
Qed.

Lemma read_tcp_group en it (ps : list bytes) h th c spare reads buf :
  let d := concat (zdrop (20 + ti_tcphLen it) <$> ps) in
  tcp_run false it ps (h ++ th ++ d) → zlen h = 20 → zlen th = ti_tcphLen it → 0 < ti_numMerged it →
  Forall bytes_ok ps → zlen ps ≤ 128 → Forall (λ p, zlen p ≤ zlen buf) ps → chan_ok c → drained c →
  ∃ c' segs, read_packets en (length ps) c (DevData (merged_tcp en false it h th d) spare :: reads) buf =
      Ret (c', reads, segs) ∧ chan_ok c' ∧ drained c' ∧ Forall2 (same_segment (ti_tcphLen it)) ps segs.
Proof.
  intros d Hrun Lh Lth Hmany Hb Hn Hbuf Hc Hd.
  assert (is_u32 (ti_sentSeq it)) as Hseq.
  { destruct (tr_packet _ _ _ _ Hrun) as (q & ps' & _ & Eps & _). pose proof (tr_seqs _ _ _ _ Hrun) as Hf.
    rewrite Eps in Hf, Hb. apply Forall_cons in Hb as [Hb _]. destruct Hf as [Hs _]. by eapply read32_range. }
  destruct (merged_tcp_kernel en it ps h th Hrun Lh Lth Hmany Hseq Hb) as (id & src & dst & Hk).
  pose proof (kp_split _ _ _ _ _ _ _ _ _ Hk) as Hsp.
  destruct (read_group en _ _ _ _ _ _ _ _ _ _ c spare reads buf Hk (tr_sizes _ _ _ _ Hrun) Hn) as (c' & segs & E & Hc' & Hd' & Ls & Hok);
    [rewrite zlen_gro_ip; unfold gro_tcp; rewrite zlen_set16; lia| |done..|].
  { apply Forall_lookup. intros i p Hi. pose proof (Forall_lookup_1 _ _ _ _ (tr_all _ _ _ _ Hrun) Hi) as ([_ _ _ _ Lp] & _).
    pose proof (Forall_lookup_1 _ _ _ _ Hbuf Hi) as Lb. cbn beta in Lb. change (ipl false) with 20 in Lp. lia. }
  exists c', segs. split_and!; [done..|]. apply Forall2_same_length_lookup_2; [done|]. intros i p s Hi Hs.
  eapply (tcp_segment_same en it ps h th); [done..|apply Hsp|apply Hsp|done|]. by apply Hok.
Qed.

(** * Datagrams *)
Lemma split_head_udp en h th n g id seq src dst i last s d k :
  zlen h = 20 → Z.of_nat k < 20 + zlen th →
  segment_ok false g (gro_ip en false h n) (gro_udp en false (gro_ip en false h n) th n) id seq src dst i last s d →
  Z.of_nat k ∉ udp_changed → s !! k = (h ++ th) !! k.
Proof.
  intros Lh Hk (h' & t' & -> & _ & _ & _ & _ & Hsh & _ & _ & Hst) Hn.
  pose proof (gro_ip_same en h n) as Hi. set (ih := gro_ip en false h n) in *.
  assert (same_but [4; 5; 6; 7] (gro_udp en false ih th n) th) as Ht.
  { unfold gro_udp. do 2 (apply same_but_set16; [lia|set_solver..|]). apply same_but_refl. }
  set (t1 := gro_udp en false ih th n) in *. pose proof Hsh as [L1 _]. pose proof Hst as [L2 _].
  pose proof Hi as [L3 _]. pose proof Ht as [L4 _].
  rewrite app_assoc, lookup_app_l by (rewrite length_app; unfold zlen in *; lia).
  rewrite (same_but_app _ _ udp_changed h' ih t' t1 k Hsh Hst); [|intros j Hj; rewrite L3, Lh; not_in|done].
  apply (same_but_app _ _ udp_changed ih h t1 th k Hi Ht); [|done].
  intros j Hj. rewrite Lh. not_in.
Qed.

Section udp_back.
Context (en : endian) (it : udpGROItem) (ps : list bytes) (h th : bytes).
Local Abbreviation d := (concat (zdrop 28 <$> ps)).
Local Abbreviation n := (zlen (h ++ th ++ d)).
Local Abbreviation ih := (gro_ip en false h n).
Local Abbreviation t1 := (gro_udp en false ih th n).
Hypothesis Hrun : udp_run false it ps (h ++ th ++ d).
Hypothesis Lh : zlen h = 20.
Hypothesis Lth : zlen th = 8.
Hypothesis Hmany : 0 < ui_numMerged it.

Lemma merged_head_udp : ∃ q ps', ps = q :: ps' ∧ h ++ th = ztake 28 q.
Proof.
  destruct (ur_packet _ _ _ _ Hrun) as (q & ps' & Eps & Ep). exists q, ps'. split; [done|].
  pose proof (Forall_lookup_1 _ ps 0%nat q (ur_all _ _ _ _ Hrun) ltac:(by rewrite Eps)) as ([_ _ Lq] & _).
  rewrite app_assoc in Ep. change (ipl false + udphLen) with 28 in *. apply app_inj_1 in Ep as [E _]; [exact E|].
  rewrite length_app. assert (zlen (ztake 28 q) = 28) as L by (rewrite zlen_ztake; lia). unfold zlen in *. lia.
Qed.

Lemma zlen_gro_udp : zlen t1 = 8.
Proof. unfold gro_udp. by rewrite !zlen_set16. Qed.

Lemma udp_segment_same id seq src dst i p s :
  read32 ih 12 = Ret src → read32 ih 16 = Ret dst → ps !! i = Some p →
  segment_ok false (ui_gsoSize it) ih t1 id seq src dst (Z.of_nat i) (S i =? length ps)%nat s (zdrop 28 p) →
  same_datagram p s.
Proof.
  intros Hsrc Hdst Hi Hok.
  assert (∀ k, Z.of_nat k < 28 → Z.of_nat k ∉ udp_changed → s !! k = (h ++ th) !! k) as Hhead
    by (intros k Hk Hn; eapply split_head_udp; [exact Lh|lia|exact Hok|exact Hn]).
  destruct merged_head_udp as (q & ps' & Eps & Eh).
  pose proof (ur_all _ _ _ _ Hrun) as Hall. pose proof (Forall_lookup_1 _ _ _ _ Hall Hi) as ([_ _ Lp] & Hkey & Hclass).
  pose proof (Forall_lookup_1 _ ps 0%nat q Hall ltac:(by rewrite Eps)) as ([_ _ Lq] & Hkeyq & _).
  change (ipl false + udphLen) with 28 in *.
  assert (∀ k, Z.of_nat k < 28 → (h ++ th) !! k = (h ++ th ++ d) !! k) as Hm.
  { intros k Hk. rewrite (app_assoc h th), (lookup_app_l (h ++ th)); [done|]. rewrite length_app. unfold zlen in *. lia. }
  pose proof Hok as (h' & t' & Es & _ & _ & _ & _ & [L1 _] & _ & _ & [L2 _]).
  rewrite zlen_gro_ip in L1. rewrite zlen_gro_udp in L2.
  assert (zlen s = zlen p) as Ls by (rewrite Es, !zlen_app, zlen_zdrop; lia).
  split; [exact Ls|..].
  - rewrite Hkey, <- Hkeyq. apply udp_key_agree; [lia|lia|]. intros k Hk. rewrite Hhead, Eh by (lia || not_in).
    unfold ztake. by rewrite lookup_take_lt by lia.
  - rewrite Hclass. unfold ip_class. by rewrite !Hhead, !Hm by (lia || not_in).
  - rewrite Es, app_assoc, zdrop_app_ge, zdrop_0; [done|rewrite zlen_app; lia..].
  - eapply (segment_sums false); [exact Hok|by rewrite zlen_gro_ip|done|done].
Qed.

Lemma merged_udp_kernel :
  Forall bytes_ok ps → ∃ id src dst, kernel_packet (udp_hdr false it) false ih t1 d id 0 src dst.
Proof.
  intros Hb. destruct merged_head_udp as (q & ps' & Eps & Eh).
  pose proof (Forall_lookup_1 _ ps 0%nat q (ur_all _ _ _ _ Hrun) ltac:(by rewrite Eps)) as ([(b0 & Hb0 & Hv & _) _ Lq] & _).
  pose proof (Forall_lookup_1 _ ps 0%nat q Hb ltac:(by rewrite Eps)) as Hbq. cbn beta in Hbq.
  assert (bytes_ok h ∧ bytes_ok th) as [Bh Bt] by (apply Forall_app; rewrite Eh; by apply Forall_take).
  destruct (gro_ip_kernel en h n Lh Bh) as (id & src & dst & Bi & Hid & Hsrc & Hdst & E0).
  pose proof (ur_max _ _ _ _ Hrun) as Hmax. rewrite !zlen_app in Hmax.
  pose proof (sizes_le _ _ (ur_sizes _ _ _ _ Hrun)) as Hg. rewrite zlen_fmap, (ur_num _ _ _ _ Hrun) in Hg.
  specialize (Hg ltac:(lia)). destruct (ur_sizes _ _ _ _ Hrun) as (ds & z & Eds & _ & Hz).
  change (ipl false + udphLen) with 28 in *. pose proof zlen_gro_udp as Lt1.
  assert (zlen ih = 20) as Lih by by rewrite zlen_gro_ip.
  exists id, src, dst. split; cbn [gsoSize gsoType csumStart csumOffset udp_hdr].
  - split; [exact Bi|unfold gro_udp; by do 2 apply bytes_ok_set16|by apply bytes_ok_payloads|lia..|done|done|done|done].
  - unfold hdr_ok. cbn. split_and!; done || ulia.
  - done.
  - done.
  - done.
  - exists b0. split; [|done]. rewrite E0, <- Hb0. transitivity ((h ++ th) !! 0%nat).
    + rewrite lookup_app_l; [done|unfold zlen in *; lia].
    + rewrite Eh. unfold ztake. by rewrite lookup_take_lt by lia.
  - done.
Qed.

Lemma read_udp_group c spare reads buf :
  Forall bytes_ok ps → zlen ps ≤ 128 → Forall (λ p, zlen p ≤ zlen buf) ps → chan_ok c → drained c →
  ∃ c' segs, read_packets en (length ps) c (DevData (merged_udp en false it h th d) spare :: reads) buf =
      Ret (c', reads, segs) ∧ chan_ok c' ∧ drained c' ∧ Forall2 same_datagram ps segs.
Proof.
  intros Hb Hn Hbuf Hc Hd. destruct (merged_udp_kernel Hb) as (id & src & dst & Hk).
  pose proof (kp_split _ _ _ _ _ _ _ _ _ Hk) as Hsp.
  destruct (read_group en _ _ _ _ _ _ _ _ _ _ c spare reads buf Hk (ur_sizes _ _ _ _ Hrun) Hn) as (c' & segs & E & Hc' & Hd' & Ls & Hok);
    [rewrite zlen_gro_ip, zlen_gro_udp; lia| |done..|].
  { apply Forall_lookup. intros i p Hi. pose proof (Forall_lookup_1 _ _ _ _ (ur_all _ _ _ _ Hrun) Hi) as ([_ _ Lp] & _).
    pose proof (Forall_lookup_1 _ _ _ _ Hbuf Hi) as Lb. cbn beta in Lb. change (ipl false + udphLen) with 28 in Lp. lia. }
  exists c', segs. split_and!; [done..|]. apply Forall2_same_length_lookup_2; [done|]. intros i p s Hi Hs.
  eapply udp_segment_same; [apply Hsp|apply Hsp|done|]. by apply Hok.
Qed.
End udp_back.

(** * Packets that were not merged *)
Lemma read_plain en p c spare reads buf :
  chan_ok c → drained c → zlen p ≤ 65535 → zlen p ≤ zlen buf →
  ∃ c', read_packets en 1 c (DevData (hdr_memory en emptyHdr ++ p) spare :: reads) buf = Ret (c', reads, [p]) ∧
    chan_ok c' ∧ drained c'.
Proof.
  intros (Hv & Lb & Ls & Fb) Hd Hp Hbuf. destruct (t_bufs c) as [|b bufs] eqn:Eb; [done|].
  destruct (t_sizes c) as [|n sizes] eqn:Es; [done|]. apply Forall_cons in Fb as [Lb0 Fb]. pose proof (zlen_nonneg p).
  set (c1 := mkTUNChannel true (place 0 p b :: bufs) (zlen p :: sizes) 0 1).
  assert (ReadPacket en c (DevData (hdr_memory en emptyHdr ++ p) spare :: reads) buf = ReadPacket en c1 reads buf) as E.
  { cbn [ReadPacket]. unfold drained in Hd. rewrite (proj2 (Z.ltb_ge _ _)) by lia. rewrite Hv, Eb, Es, tun_read_vnet by done.
    unfold handleVirtioRead. rewrite decode_hdr by done.
    assert (slice_from (hdr_memory en emptyHdr ++ p) virtioNetHdrLen = Ret p) as -> by (by destruct en).
    rewrite !bind_Ret_l. cbn [flags gsoType emptyHdr]. cbn [Z.eqb Z.land VIRTIO_NET_HDR_GSO_NONE negb].
    rewrite bind_Ret_l. change (get (b :: bufs) 0) with (Ret b).
    rewrite bind_Ret_l, slice_from_ok, bind_Ret_l, zdrop_0, (proj2 (Z.ltb_ge _ _)) by lia.
    rewrite (update_buffer_run _ _ _ b) by (done || lia). rewrite !bind_Ret_l. change (put (n :: sizes) 0 ?x) with (Ret (x :: sizes)).
    rewrite bind_Ret_l, zdrop_0, copy_front by lia. done. }
  destruct (read_packets_buffered en c1 reads buf [p]) as (h & E' & Hh).
  { split; [done|]. split; [done|]. intros [|j] q Hj; [|done]. injection Hj as <-. split; [|done].
    exists (zdrop (zlen p) b). done. }
  { by apply Forall_singleton. }
  eexists. split; [cbn [read_packets] in *; rewrite E; exact E'|]. split; [|done].
  split_and!; [done|done|done|]. cbn [t_bufs c1]. apply Forall_cons. split; [|done]. rewrite zlen_place; lia.
Qed.

(** * One packet after the other *)
Lemma ReadPacket_keeps_len en c reads buf c' reads' k b :
  ReadPacket en c reads buf = Ret (c', reads', PacketRead k b) → zlen b = zlen buf.
Proof.
  revert c. induction reads as [|r reads IH]; intros c; cbn [ReadPacket]; (case_match;
    [destruct (get (t_bufs c) (t_head c)); [|done..]; rewrite bind_Ret_l; destruct (get (t_sizes c) (t_head c)); [|done..];
     rewrite bind_Ret_l; destruct (slice_to _ _) as [p| |]; [|done..]; rewrite bind_Ret_l; destruct (copy buf p) eqn:Ec;
     intros [= <- <- <- <-]; by rewrite <- (zlen_copy buf p), Ec|]); [done|].
  destruct (tun_read _ _ _ _ _ _) as [[[[bufs sizes] count] err]| |]; [|done..]. rewrite bind_Ret_l.
  destruct (0 <? count); [apply IH|]. destruct err as [[[]| |]|]; try done; apply IH.
Qed.

Lemma read_packets_app en n m c reads buf c' reads' ps :
  read_packets en n c reads buf = Ret (c', reads', ps) → length ps = n →
  ∃ buf', zlen buf' = zlen buf ∧
    read_packets en (n + m) c reads buf =
      (r ← read_packets en m c' reads' buf'; let '(c, reads, ps') := r in Ret (c, reads, ps ++ ps')).
Proof.
  revert c reads buf ps. induction n as [|n IH]; intros c reads buf ps E Hl.
  - injection E as <- <- <-. exists buf. split; [done|]. cbn [Nat.add app]. by destruct (read_packets en m c reads buf) as [[[? ?] ?]| |].
  - cbn [read_packets Nat.add] in *. destruct (ReadPacket en c reads buf) as [[[c1 r1] [k b| |]]| |] eqn:E1; try done;
      rewrite !bind_Ret_l in *; [|injection E as <- <- <-; done..].
    apply ReadPacket_keeps_len in E1. destruct (read_packets en n c1 r1 b) as [[[c2 r2] ps2]| |] eqn:E2; [|done..].
    rewrite bind_Ret_l in E. injection E as <- <- <-. cbn [length] in Hl.
    destruct (IH c1 r1 b ps2 E2 ltac:(lia)) as (buf' & Lb & E3). exists buf'. split; [lia|]. rewrite E3.
    by destruct (read_packets en m c2 r2 buf') as [[[? ?] ?]| |].
Qed.

(** * The claim *)

(** A packet that is given back: as it was, or the same segment or datagram
    with its headers made anew. *)
Inductive given_back (p s : bytes) : Prop :=
| back_as_is : s = p → given_back p s
| back_segment tcph : same_segment tcph p s → given_back p s
| back_datagram : same_datagram p s → given_back p s.

(** A packet of the stack: not IPv6, and its TCP checksum verifies. *)
Record stack_packet (en : endian) (p : bytes) : Prop := {
  sk_bytes : bytes_ok p;
  sk_len : zlen p ≤ 65535;
  sk_v4 : ¬ ip_version true p;
  sk_sum : ip_version false p → ip_proto false p = Some IPPROTO_TCP →
    checksumValid en (whole p) 20 IPPROTO_TCP false ≠ Ret false }.

Lemma read_written en ps w c spare reads buf :
  written en ps w → Forall (stack_packet en) ps → zlen ps ≤ 128 → 65535 ≤ zlen buf → chan_ok c → drained c →
  ∃ c' segs, read_packets en (length ps) c (DevData w spare :: reads) buf = Ret (c', reads, segs) ∧
    chan_ok c' ∧ drained c' ∧ Forall2 given_back ps segs.
Proof.
  intros Hw Hall Hn Hbuf Hc Hd.
  assert (Forall bytes_ok ps) as Hb by (eapply Forall_impl; [exact Hall|]; by intros p []).
  assert (Forall (λ p, zlen p ≤ zlen buf) ps) as Hl by (eapply Forall_impl; [exact Hall|]; intros p [_ ? _ _]; lia).
  destruct Hw as [p ->|p h v6 -> _ Hv Hp Hs|v6 it h th d Hm Hrun Lh Lth|v6 it h th d Hm Hrun Lh Lth].
  - apply Forall_cons in Hall as [Hp _], Hl as [Hl _]. destruct (read_plain en p c spare reads buf Hc Hd (sk_len _ _ Hp) Hl) as (c' & E & Hc' & Hd').
    exists c', [p]. split_and!; [done..|]. repeat constructor.
  - apply Forall_cons in Hall as [[_ _ H6 H4] _]. exfalso. destruct v6; [done|]. by apply (H4 Hv Hp).
  - destruct v6.
    { destruct (tr_packet _ _ _ _ Hrun) as (q & ps' & _ & -> & _). apply Forall_cons in Hall as [[_ _ H6 _] _].
      pose proof (tr_all _ _ _ _ Hrun) as H. apply Forall_cons in H as [[[H _ _ _ _] _] _]. done. }
    destruct (read_tcp_group en it ps h th c spare reads buf) as (c' & segs & E & Hc' & Hd' & HF); try done.
    exists c', segs. split_and!; [done..|]. eapply Forall2_impl; [exact HF|]. intros. by eapply back_segment.
  - destruct v6.
    { destruct (ur_packet _ _ _ _ Hrun) as (q & ps' & -> & _). apply Forall_cons in Hall as [[_ _ H6 _] _].
      pose proof (ur_all _ _ _ _ Hrun) as H. apply Forall_cons in H as [[[H _ _] _] _]. done. }
    destruct (read_udp_group en it ps h th Hrun Lh Lth Hm c spare reads buf) as (c' & segs & E & Hc' & Hd' & HF); try done.
    exists c', segs. split_and!; [done..|]. eapply Forall2_impl; [exact HF|]. intros. by apply back_datagram.
Qed.

Lemma read_all_written en spare groups ws c buf :
  Forall2 (written en) groups ws → Forall (λ ps, Forall (stack_packet en) ps ∧ zlen ps ≤ 128) groups →
  65535 ≤ zlen buf → chan_ok c → drained c →
  ∃ c' segs, read_packets en (length (concat groups)) c ((λ w, DevData w spare) <$> ws) buf = Ret (c', [], segs) ∧
    chan_ok c' ∧ drained c' ∧ Forall2 given_back (concat groups) segs.
Proof.
  intros HF. revert c buf. induction HF as [|g w groups ws Hw _ IH]; intros c buf Hall Hbuf Hc Hd.
  - exists c, []. by split_and!; [..|constructor].
  - apply Forall_cons in Hall as [[Hg Hn] Hall].
    destruct (read_written en g w c spare ((λ w, DevData w spare) <$> ws) buf Hw Hg Hn Hbuf Hc Hd) as (c1 & segs & E & Hc1 & Hd1 & HF1).
    destruct (read_packets_app en _ (length (concat groups)) _ _ _ _ _ _ E) as (buf' & Lb & E'); [symmetry; by eapply Forall2_length|].
    destruct (IH c1 buf' Hall ltac:(lia) Hc1 Hd1) as (c2 & segs2 & E2 & Hc2 & Hd2 & HF2).
    exists c2, (segs ++ segs2). cbn [concat fmap list_fmap]. rewrite length_app, E', E2. split_and!; [done..|]. by apply Forall2_app.
Qed.

(** C6: what coalescing puts together, splitting takes apart.  A batch of
    packets as the stack makes them ([stack_packet]: none is IPv6, and the TCP
    checksums verify) is written by [write] with its virtio headers.  When a TUN channel reads what was
    written, its [ReadPacket] calls return every packet of the batch exactly
    once: a packet that was not merged as it was, a merged TCP segment with its
    addresses, ports, sequence and acknowledgement numbers, options and data,
    and a datagram with its addresses, ports and data, all with lengths and
    checksums that verify.  A PSH flag may be gone, and the window of a merged
    segment is that of the first. *)
Theorem gro_reads_back en ord t bufs off ans c spare buf :
  nt_vnetHdr t = true → nt_tcpGROTable t = newTCPGROTable → nt_udpGROTable t = newUDPGROTable →
  batch_ok off bufs → orders_ok ord → Forall (λ a, a ≠ WriteErr EBADFD) ans →
  (∀ k, (k < length bufs)%nat → stack_packet en (pkt off bufs k)) →
  chan_ok c → drained c → 65535 ≤ zlen buf →
  ∃ t' ws total errs order c' segs, tun_write en ord t bufs off ans = Ret (t', ws, total, errs) ∧
    order ≡ₚ seq 0 (length bufs) ∧
    read_packets en (length bufs) c ((λ w, DevData w spare) <$> ws) buf = Ret (c', [], segs) ∧
    chan_ok c' ∧ drained c' ∧ Forall2 given_back (pkt off bufs <$> order) segs.
Proof.
  intros Hv Ht Hu Hb Ho Ha Hall Hc Hd Hbuf.
  destruct (tun_write_groups en ord t bufs off ans Hv Ht Hu Hb Ho Ha) as (t' & ws & total & errs & groups & E & _ & _ & Hp & HF).
  pose proof (Permutation_length Hp) as Hlen. rewrite length_seq in Hlen. destruct Hb as (_ & Hn & _).
  assert (concat ((λ g : list nat, pkt off bufs <$> g) <$> groups : list (list bytes)) = pkt off bufs <$> concat groups) as Ec.
  { clear. induction groups as [|g groups IH]; [done|]. cbn [fmap list_fmap concat]. by rewrite fmap_app, IH. }
  destruct (read_all_written en spare ((λ g : list nat, pkt off bufs <$> g) <$> groups : list (list bytes)) ws c buf) as (c' & segs & E' & Hc' & Hd' & HF'); [|..|done|done|done|].
  - by apply Forall2_fmap_l.
  - apply Forall_fmap, Forall_forall. intros g Hg. apply list_elem_of_split in Hg as (gs1 & gs2 & ->).
    rewrite concat_app in Hp, Hlen. cbn [concat] in Hp, Hlen. rewrite !length_app in Hlen. split.
    + apply Forall_fmap, Forall_forall. intros k Hk. cbn. apply Hall.
      assert (k ∈ seq 0 (length bufs)) as Hin by (rewrite <- Hp, !elem_of_app; auto). apply elem_of_seq in Hin. lia.
    + rewrite zlen_fmap. unfold zlen, IdealBatchSize in *. lia.
  - rewrite Ec, length_fmap, Hlen in E'. rewrite Ec in HF'. by exists t', ws, total, errs, (concat groups), c', segs.
Qed.

Lemma sample_stack_packets k :
  (k < 4)%nat → stack_packet LittleEndian (pkt 10 (sample_bufs (firstn 2 sample_packets ++ [[1; 2; 3]; sample_tcp 104 24 [5]])) k).
Proof.
  intros Hk. split.
  - do 4 (destruct k as [|k]; [vm_compute; repeat constructor; done|]). lia.
  - do 4 (destruct k as [|k]; [vm_compute; done|]). lia.
  - do 4 (destruct k as [|k]; [intros (b & Hb & Hs & _); vm_compute in Hb; injection Hb as <-; by vm_compute in Hs|]). lia.
  - do 4 (destruct k as [|k]; [vm_compute; done|]). lia.
Qed.

Lemma gro_reads_back_witness :
  let bufs := sample_bufs (firstn 2 sample_packets ++ [[1; 2; 3]; sample_tcp 104 24 [5]]) in
  ∃ t' ws total errs order c' segs,
    tun_write LittleEndian sample_orders sample_tun bufs 10 [] = Ret (t', ws, total, errs) ∧
    order ≡ₚ seq 0 4 ∧
    read_packets LittleEndian 4 (newChannel true) ((λ w, DevData w []) <$> ws) (make_bytes 65535) = Ret (c', [], segs) ∧
    chan_ok c' ∧ drained c' ∧ Forall2 given_back (pkt 10 bufs <$> order) segs.
Proof.
  apply (gro_reads_back LittleEndian sample_orders sample_tun
    (sample_bufs (firstn 2 sample_packets ++ [[1; 2; 3]; sample_tcp 104 24 [5]])) 10 [] (newChannel true) [] (make_bytes 65535)
    eq_refl eq_refl eq_refl); [|by split|done|intros k Hk; by apply sample_stack_packets|apply newChannel_ok..|].
  - apply sample_batch_ok; [vm_compute; lia|repeat constructor; done].
  - by rewrite zlen_make_bytes.
Defined.
