(* ===== verification/TunDevice.v ===== *)
(** Opening and configuring the TUN device, src/channel/tun/tun.go.

    The operating system and the package golang.org/x/sys/unix are a class
    [Unix]: one operation per call the code makes, on a state of the kernel.
    What the theorems rely on of them is the class [UnixLaws]. *)
From S2P Require Import Prelude.
From S2P Require Import TunChecksum.
From S2P Require Import TunOffload.
From S2P Require Import Gro.

(** * The operating system *)
Definition IFNAMSIZ : Z := 16.
Definition ifReqSize : Z := IFNAMSIZ + 64.
Definition IFF_TUN : Z := 1.
Definition IFF_NO_PI : Z := 4096.
Definition IFF_VNET_HDR : Z := 16384.
Definition TUN_F_CSUM : Z := 1.
Definition TUN_F_TSO4 : Z := 2.
Definition TUN_F_TSO6 : Z := 4.
Definition TUN_F_USO4 : Z := 32.
Definition TUN_F_USO6 : Z := 64.
Definition tunTCPOffloads : Z := Z.lor (Z.lor TUN_F_CSUM TUN_F_TSO4) TUN_F_TSO6.
Definition tunUDPOffloads : Z := Z.lor TUN_F_USO4 TUN_F_USO6.
Definition ENOENT : Z := 2.

(** The requests with a [struct ifreq], which the kernel reads and writes. *)
Inductive request := SIOCGIFINDEX | SIOCSIFMTU | SIOCGIFMTU | TUNGETIFF | TUNSETIFF.

Class Unix (K : Type) := {
  u_open : K → K * (Z + Z);
  u_socket : K → K * (Z + Z);
  u_close : Z → K → K;
  u_setNonblock : Z → K → K * option Z;
  u_ioctl : Z → request → bytes → K → K * option Z * bytes;
  u_setOffload : Z → Z → K → K * option Z;
  u_NewIfreq : bytes → bytes + Z;
  u_SetUint16 : bytes → Z → bytes;
  u_Uint16 : bytes → Z;
  u_ByteSliceToString : bytes → bytes }.

(** An [os.File]; [os.NewFile] of a negative descriptor is nil. *)
Record File := mkFile { file_fd : Z; file_closed : bool }.
Definition NewFile (fd : Z) : option File := if fd <? 0 then None else Some (mkFile fd false).

Inductive dev_error :=
| EErrno (e : Z)
| ENotExist
| ESetMTU (e : Z)
| EGetMTU (e : Z)
| EName (e : dev_error)
| EInvalid
| EFileClosing.

(** [nativeTun], its name once it has been asked for. *)
Record Device := mkDevice {
  d_file : option File; d_index : Z; d_batchSz : Z; d_tun : nativeTun; d_name : option (bytes + dev_error) }.

(** A 32-bit field of the machine's byte order. *)
Definition native_put32 (en : endian) (v : Z) : bytes :=
  match en with LittleEndian => le_bytes 4 v | BigEndian => reverse (le_bytes 4 v) end.

Section device.
Context (en : endian) {K : Type} `{!Unix K}.

(** A zeroed request with the name at its front. *)
Definition ifr_name (name : bytes) : bytes := (copy (make_bytes ifReqSize) name).1.
Definition put_field (ifr : bytes) (v : Z) : bytes :=
  ztake IFNAMSIZ ifr ++ native_put32 en (u32 v) ++ zdrop (IFNAMSIZ + 4) ifr.
Definition get_field (ifr : bytes) : Z := i32 (native_get en (ztake 4 (zdrop IFNAMSIZ ifr))).

(** One request over a socket of its own, which is closed in any case. *)
Definition ifreq_call (req : request) (ifr : bytes) (k : K) : K * (bytes + Z) + K * Z :=
  match u_socket k with
  | (k, inr e) => inr (k, e)
  | (k, inl fd) =>
      let '(k, errno, ifr) := u_ioctl fd req ifr k in
      let k := u_close fd k in
      inl (k, match errno with Some e => inr e | None => inl ifr end)
  end.

Definition getIFIndex (name : bytes) (k : K) : K * (Z + dev_error) :=
  match ifreq_call SIOCGIFINDEX (ifr_name name) k with
  | inr (k, e) | inl (k, inr e) => (k, inr (EErrno e))
  | inl (k, inl ifr) => (k, inl (get_field ifr))
  end.

Definition nameSlow (d : Device) (k : K) : K * (bytes + dev_error) :=
  match d_file d with
  | None => (k, inr EInvalid)
  | Some f =>
      if file_closed f then (k, inr (EName EFileClosing)) else
      let '(k, errno, ifr) := u_ioctl (file_fd f) TUNGETIFF (make_bytes ifReqSize) k in
      match errno with
      | Some e => (k, inr (EName (EErrno e)))
      | None => (k, inl (u_ByteSliceToString ifr))
      end
  end.

(** [name] with [initNameCache], which runs once. *)
Definition name (d : Device) (k : K) : K * Device * (bytes + dev_error) :=
  match d_name d with
  | Some r => (k, d, r)
  | None =>
      let '(k, r) := nameSlow d k in
      (k, mkDevice (d_file d) (d_index d) (d_batchSz d) (d_tun d) (Some r), r)
  end.

Definition setMTU (n : Z) (d : Device) (k : K) : K * Device * option dev_error :=
  let '(k, d, r) := name d k in
  match r with
  | inr e => (k, d, Some e)
  | inl nm =>
      match ifreq_call SIOCSIFMTU (put_field (ifr_name nm) n) k with
      | inr (k, e) => (k, d, Some (EErrno e))
      | inl (k, inr e) => (k, d, Some (ESetMTU e))
      | inl (k, inl _) => (k, d, None)
      end
  end.

Definition mtu (d : Device) (k : K) : K * Device * (Z + dev_error) :=
  let '(k, d, r) := name d k in
  match r with
  | inr e => (k, d, inr e)
  | inl nm =>
      match ifreq_call SIOCGIFMTU (ifr_name nm) k with
      | inr (k, e) => (k, d, inr (EErrno e))
      | inl (k, inr e) => (k, d, inr (EGetMTU e))
      | inl (k, inl ifr) => (k, d, inl (get_field ifr))
      end
  end.

Definition close (d : Device) (k : K) : K * Device * option dev_error :=
  match d_file d with
  | None => (k, d, Some EInvalid)
  | Some f =>
      if file_closed f then (k, d, Some EFileClosing) else
      (u_close (file_fd f) k,
       mkDevice (Some (mkFile (file_fd f) true)) (d_index d) (d_batchSz d) (d_tun d) (d_name d), None)
  end.

Definition batchSize (d : Device) : Z := d_batchSz d.
Definition Device_File (d : Device) : option File := d_file d.

(** The device with the answer of the kernel on its offloads. *)
Definition set_offloads (d : Device) (vnetHdr udpGSO : bool) (batchSz : Z) : Device :=
  mkDevice (d_file d) (d_index d) batchSz
    (mkNativeTun vnetHdr udpGSO (nt_tcpGROTable (d_tun d)) (nt_udpGROTable (d_tun d))) (d_name d).

Definition initFromFlags (nm : bytes) (d : Device) (k : K) : K * Device * option dev_error :=
  match d_file d with
  | None => (k, d, Some EInvalid)
  | Some f =>
      if file_closed f then (k, d, Some EFileClosing) else
      match u_NewIfreq nm with
      | inr e => (k, d, Some (EErrno e))
      | inl ifr =>
          let '(k, errno, ifr) := u_ioctl (file_fd f) TUNGETIFF ifr k in
          match errno with
          | Some e => (k, d, Some (EErrno e))
          | None =>
              if negb (Z.land (u_Uint16 ifr) IFF_VNET_HDR =? 0) then
                let '(k, errno) := u_setOffload (file_fd f) tunTCPOffloads k in
                match errno with
                | Some e => (k, d, Some (EErrno e))
                | None =>
                    let '(k, errno) := u_setOffload (file_fd f) (Z.lor tunTCPOffloads tunUDPOffloads) k in
                    (k, set_offloads d true (bool_decide (errno = None)) IdealBatchSize, None)
                end
              else (k, set_offloads d (nt_vnetHdr (d_tun d)) (nt_udpGSO (d_tun d)) 1, None)
          end
      end
  end.

Definition createTUNFromFile (file : option File) (fd n : Z) (k : K) : K * (Device + dev_error) :=
  let d := mkDevice file 0 0 (mkNativeTun false false newTCPGROTable newUDPGROTable) None in
  let '(k, d, r) := name d k in
  match r with
  | inr e => (k, inr e)
  | inl nm =>
      let '(k, d, err) := initFromFlags nm d k in
      match err with
      | Some e => (k, inr e)
      | None =>
          match getIFIndex nm k with
          | (k, inr e) => (k, inr e)
          | (k, inl index) =>
              let d := mkDevice (d_file d) index (d_batchSz d) (d_tun d) (d_name d) in
              let '(k, d, err) := setMTU n d k in
              match err with Some e => (k, inr e) | None => (k, inl d) end
          end
      end
  end.

Definition createTUN (nm : bytes) (n : Z) (k : K) : K * (Device + dev_error) :=
  match u_open k with
  | (k, inr e) => (k, inr (if e =? ENOENT then ENotExist else EErrno e))
  | (k, inl nfd) =>
      match u_NewIfreq nm with
      | inr e => (k, inr (EErrno e))
      | inl ifr =>
          let ifr := u_SetUint16 ifr (Z.lor (Z.lor IFF_TUN IFF_NO_PI) IFF_VNET_HDR) in
          let '(k, errno, _) := u_ioctl nfd TUNSETIFF ifr k in
          match errno with
          | Some e => (k, inr (EErrno e))
          | None =>
              match u_setNonblock nfd k with
              | (k, Some e) => (u_close nfd k, inr (EErrno e))
              | (k, None) => createTUNFromFile (NewFile nfd) nfd n k
              end
          end
      end
  end.

(** ** The channel over the device *)

(** [newChannel]: the read batch has [batchSize] buffers. *)
Definition channel_of (d : Device) : TUNChannel :=
  let bs := Z.to_nat (batchSize d) in
  mkTUNChannel (nt_vnetHdr (d_tun d)) (replicate bs (make_bytes 65535)) (replicate bs 0) 0 0.

Definition NewChannel (nm : bytes) (n : Z) (k : K) : K * (Device * TUNChannel + dev_error) :=
  match createTUN nm n k with
  | (k, inr e) => (k, inr e)
  | (k, inl d) => (k, inl (d, channel_of d))
  end.

(** [TUNChannel.Name], [File], [Close] and [MTU]. *)
Definition Name (d : Device) (k : K) : K * Device * (bytes + dev_error) := name d k.
Definition Channel_File (d : Device) : option File := d_file d.
Definition Channel_Close (d : Device) (k : K) : K * Device * option dev_error := close d k.
Definition Channel_MTU (d : Device) (k : K) : K * Device * Z :=
  let '(k, d, r) := mtu d k in
  (k, d, match r with inl n => n | inr _ => 1500 end).
End device.

(** * What the code relies on *)

(** The open descriptors, those of them that are sockets, and the MTU of each
    link under its name as a request spells it.  [open] and [socket] return a
    descriptor that was not open and [close] closes it; the MTU requests set
    and get the MTU of the link that the request names.  Asking for an index or
    a name, opening a socket and closing one leave the MTUs alone.  Of
    [TUNSETIFF], which makes a link, and of closing a descriptor that is not a
    socket, which can remove one, nothing is assumed about the MTUs. *)
Class UnixLaws (en : endian) (K : Type) `{!Unix K} := {
  fds : K → gset Z;
  sockets : K → gset Z;
  link_mtu : K → bytes → Z;
  law_open k k' fd : u_open k = (k', inl fd) → 0 ≤ fd ∧ (fd ∉ fds k) ∧ fds k' = {[fd]} ∪ fds k;
  law_socket k k' fd :
    u_socket k = (k', inl fd) → (fd ∉ fds k) ∧ fds k' = {[fd]} ∪ fds k ∧ sockets k' = {[fd]} ∪ sockets k;
  law_socket_fails k k' e : u_socket k = (k', inr e) → fds k' = fds k;
  law_socket_mtu k k' r : u_socket k = (k', r) → link_mtu k' = link_mtu k;
  law_close k fd : fds (u_close fd k) = fds k ∖ {[fd]};
  law_close_mtu k fd : fd ∈ sockets k → link_mtu (u_close fd k) = link_mtu k;
  law_setNonblock k fd k' r : u_setNonblock fd k = (k', r) → fds k' = fds k;
  law_setOffload k fd v k' r : u_setOffload fd v k = (k', r) → fds k' = fds k;
  law_ioctl k fd req ifr k' r ifr' :
    u_ioctl fd req ifr k = (k', r, ifr') → fds k' = fds k ∧ sockets k' = sockets k;
  law_ioctl_mtu k fd req ifr k' r ifr' :
    u_ioctl fd req ifr k = (k', r, ifr') → req ≠ SIOCSIFMTU → req ≠ TUNSETIFF → link_mtu k' = link_mtu k;
  law_set_mtu k fd ifr k' ifr' :
    u_ioctl fd SIOCSIFMTU ifr k = (k', None, ifr') →
    link_mtu k' (ztake IFNAMSIZ ifr) = get_field en ifr;
  law_get_mtu k fd ifr k' ifr' :
    u_ioctl fd SIOCGIFMTU ifr k = (k', None, ifr') → get_field en ifr' = link_mtu k (ztake IFNAMSIZ ifr) }.

(** * Fields of a request *)
Lemma i32_range x : - 2 ^ 31 ≤ i32 x < 2 ^ 31.
Proof. unfold i32. pose proof (u32_range x) as H. unfold is_u32 in H. case_match; lia. Qed.
Lemma i32_id x : - 2 ^ 31 ≤ x < 2 ^ 31 → i32 x = x.
Proof.
  intros Hx. unfold i32, u32. assert (x `mod` 4294967296 = if x <? 0 then x + 4294967296 else x) as ->.
  { destruct (Z.ltb_spec x 0); [rewrite <- (Z.mod_add x 1) by lia|]; apply Z.mod_small; lia. }
  destruct (Z.ltb_spec x 0); case_match; lia.
Qed.

Section field.
Context (en : endian).

Lemma native_get_put32 v : is_u32 v → native_get en (native_put32 en v) = v ∧ zlen (native_put32 en v) = 4.
Proof.
  intros Hv. assert (le_val (le_bytes 4 v) = v) as E by (apply le_val_bytes; exact Hv).
  destruct en; cbn [native_get native_put32]; [done|]. unfold be_val. by rewrite reverse_involutive.
Qed.

Lemma get_put_field ifr n :
  20 ≤ zlen ifr → - 2 ^ 31 ≤ n < 2 ^ 31 →
  get_field en (put_field en ifr n) = n ∧ ztake IFNAMSIZ (put_field en ifr n) = ztake IFNAMSIZ ifr.
Proof.
  intros Ln Hn. destruct (native_get_put32 (u32 n) (u32_range n)) as [E L].
  unfold get_field, put_field, IFNAMSIZ. rewrite zdrop_app_ge, zlen_ztake, zdrop_0 by (rewrite ?zlen_ztake; lia).
  rewrite !ztake_app_le, (ztake_all 4), (ztake_all 16), E by (rewrite ?zlen_ztake; lia). split; [|done].
  rewrite <- (i32_id n Hn) at 2. unfold i32. by rewrite (u32_id (u32 n)) by apply u32_range.
Qed.

Lemma zlen_ifr_name nm : zlen (ifr_name nm) = 80.
Proof. unfold ifr_name. by rewrite zlen_copy, zlen_make_bytes. Qed.
End field.

Section laws.
Context (en : endian) {K : Type} `{!Unix K, !UnixLaws en K}.

Lemma ifreq_call_keeps req ifr k :
  match ifreq_call req ifr k with
  | inr (k', _) | inl (k', _) => fds k' = fds k ∧ (req ≠ SIOCSIFMTU → req ≠ TUNSETIFF → link_mtu k' = link_mtu k)
  end.
Proof.
  unfold ifreq_call. destruct (u_socket k) as [k1 [fd|e]] eqn:Es.
  - apply law_socket in Es as Hs. apply law_socket_mtu in Es. destruct Hs as (Hn & Hf & Hs).
    destruct (u_ioctl fd req ifr k1) as [[k2 errno] ifr'] eqn:Ei. destruct (law_ioctl _ _ _ _ _ _ _ Ei) as [Fi Si].
    rewrite law_close, law_close_mtu, Fi, Hf by set_solver. split; [set_solver|].
    intros Hr Ht. by rewrite (law_ioctl_mtu _ _ _ _ _ _ _ Ei Hr Ht).
  - split; [by eapply law_socket_fails|]. intros _ _. by eapply law_socket_mtu.
Qed.

Lemma ifreq_call_mtu ifr k k' ifr' :
  (ifreq_call SIOCSIFMTU ifr k = inl (k', inl ifr') → link_mtu k' (ztake IFNAMSIZ ifr) = get_field en ifr) ∧
  (ifreq_call SIOCGIFMTU ifr k = inl (k', inl ifr') → get_field en ifr' = link_mtu k (ztake IFNAMSIZ ifr)).
Proof.
  unfold ifreq_call. destruct (u_socket k) as [k1 [fd|e]] eqn:Es; [|done].
  destruct (law_socket _ _ _ Es) as (_ & _ & Hs). apply law_socket_mtu in Es. split.
  - destruct (u_ioctl fd SIOCSIFMTU ifr k1) as [[k2 [e|]] ifr2] eqn:Ei; [done|]. intros [= <- <-].
    rewrite law_close_mtu; [by eapply law_set_mtu|]. destruct (law_ioctl _ _ _ _ _ _ _ Ei) as [_ ->]. set_solver.
  - destruct (u_ioctl fd SIOCGIFMTU ifr k1) as [[k2 [e|]] ifr2] eqn:Ei; [done|]. intros [= <- <-].
    rewrite <- Es. by eapply law_get_mtu.
Qed.

(** The name is asked for once and kept; nothing else changes. *)
Definition named (d d' : Device) : Prop :=
  d_file d' = d_file d ∧ d_index d' = d_index d ∧ d_batchSz d' = d_batchSz d ∧ d_tun d' = d_tun d.

Lemma name_keeps d k k' d' r :
  name d k = (k', d', r) → fds k' = fds k ∧ link_mtu k' = link_mtu k ∧ named d d' ∧ d_name d' = Some r.
Proof.
  unfold name, named. destruct (d_name d) as [r0|] eqn:En; [by intros [= <- <- <-]|].
  destruct (nameSlow d k) as [k1 r1] eqn:Es. intros [= <- <- <-]. revert Es. unfold nameSlow.
  destruct (d_file d) as [f|]; [|by intros [= <- <-]]. destruct (file_closed f); [by intros [= <- <-]|].
  destruct (u_ioctl (file_fd f) TUNGETIFF (make_bytes ifReqSize) k) as [[k2 errno] ifr] eqn:Ei.
  destruct (law_ioctl _ _ _ _ _ _ _ Ei) as [Fi _]. pose proof (law_ioctl_mtu _ _ _ _ _ _ _ Ei ltac:(done) ltac:(done)).
  by destruct errno; intros [= <- <-].
Qed.

Lemma name_cached d k r : d_name d = Some r → name d k = (k, d, r).
Proof. intros E. unfold name. by rewrite E. Qed.

Lemma setMTU_sets n d k k' d' :
  - 2 ^ 31 ≤ n < 2 ^ 31 → setMTU en n d k = (k', d', None) →
  ∃ nm, d_name d' = Some (inl nm) ∧ link_mtu k' (ztake IFNAMSIZ (ifr_name nm)) = n ∧ fds k' = fds k ∧ named d d'.
Proof.
  intros Hn. unfold setMTU. destruct (name d k) as [[k1 d1] r] eqn:E1. apply name_keeps in E1 as (F1 & _ & N1 & E1).
  destruct r as [nm|]; [|done]. pose proof (ifreq_call_keeps SIOCSIFMTU (put_field en (ifr_name nm) n) k1) as Hk.
  destruct (ifreq_call SIOCSIFMTU (put_field en (ifr_name nm) n) k1) as [[k2 [ifr|]]|[]] eqn:E2; [|done..].
  intros [= <- <-]. exists nm. destruct (get_put_field en (ifr_name nm) n) as [Eg Et]; [by rewrite zlen_ifr_name|done|].
  apply (proj1 (ifreq_call_mtu _ _ _ _)) in E2. rewrite Et, Eg in E2. destruct Hk as [Hk _]. split_and!; [done..|congruence|done].
Qed.

Lemma mtu_gets d k k' d' r nm :
  d_name d = Some (inl nm) → mtu en d k = (k', d', r) →
  fds k' = fds k ∧ match r with inl m => m = link_mtu k (ztake IFNAMSIZ (ifr_name nm)) | inr _ => True end.
Proof.
  intros En. unfold mtu. rewrite (name_cached _ _ _ En).
  pose proof (ifreq_call_keeps SIOCGIFMTU (ifr_name nm) k) as Hk.
  destruct (ifreq_call SIOCGIFMTU (ifr_name nm) k) as [[k2 [ifr|e]]|[k2 e]] eqn:E2; intros [= <- <- <-]; destruct Hk as [Hk _];
    (split; [done|]); [|done..]. by apply (proj2 (ifreq_call_mtu _ _ _ _)) in E2.
Qed.

Lemma initFromFlags_sets nm d k k' d' :
  initFromFlags nm d k = (k', d', None) → nt_vnetHdr (d_tun d) = false →
  fds k' = fds k ∧ d_file d' = d_file d ∧ d_batchSz d' = batchSz (nt_vnetHdr (d_tun d')) ∧
  nt_tcpGROTable (d_tun d') = nt_tcpGROTable (d_tun d) ∧ nt_udpGROTable (d_tun d') = nt_udpGROTable (d_tun d).
Proof.
  unfold initFromFlags. intros E Hv. destruct (d_file d) as [f|] eqn:Ef; [|done]. destruct (file_closed f); [done|].
  destruct (u_NewIfreq nm) as [ifr|]; [|done]. destruct (u_ioctl (file_fd f) TUNGETIFF ifr k) as [[k1 [e|]] ifr'] eqn:E1; [done|].
  apply law_ioctl in E1 as [E1 _]. destruct (negb _).
  - destruct (u_setOffload (file_fd f) tunTCPOffloads k1) as [k2 [e|]] eqn:E2; [done|]. apply law_setOffload in E2.
    destruct (u_setOffload _ _ k2) as [k3 r3] eqn:E3. apply law_setOffload in E3. injection E as <- <-.
    split; [congruence|]. by split.
  - injection E as <- <-. cbn. rewrite Hv. done.
Qed.
Lemma getIFIndex_keeps nm k k' r :
  getIFIndex en nm k = (k', r) → fds k' = fds k ∧ link_mtu k' = link_mtu k.
Proof.
  unfold getIFIndex. pose proof (ifreq_call_keeps SIOCGIFINDEX (ifr_name nm) k) as Hk.
  destruct (ifreq_call SIOCGIFINDEX (ifr_name nm) k) as [[k2 [ifr|e]]|[k2 e]]; intros [= <- <-];
    (split; [apply Hk|by apply Hk]).
Qed.

Lemma createTUNFromFile_ready file fd n k k' d :
  - 2 ^ 31 ≤ n < 2 ^ 31 → createTUNFromFile en file fd n k = (k', inl d) →
  fds k' = fds k ∧ d_file d = file ∧ d_batchSz d = batchSz (nt_vnetHdr (d_tun d)) ∧
  nt_tcpGROTable (d_tun d) = newTCPGROTable ∧ nt_udpGROTable (d_tun d) = newUDPGROTable ∧
  ∃ nm, d_name d = Some (inl nm) ∧ link_mtu k' (ztake IFNAMSIZ (ifr_name nm)) = n.
Proof.
  intros Hn. unfold createTUNFromFile. set (d0 := mkDevice _ _ _ _ _).
  destruct (name d0 k) as [[k1 d1] [nm|]] eqn:E1; [|done]. apply name_keeps in E1 as (F1 & _ & (N1 & N2 & N3 & N4) & _).
  destruct (initFromFlags nm d1 k1) as [[k2 d2] [e|]] eqn:E2; [done|].
  apply initFromFlags_sets in E2 as (F2 & D2 & B2 & T2 & U2); [|by rewrite N4].
  destruct (getIFIndex en nm k2) as [k3 [index|]] eqn:E3; [|done]. apply getIFIndex_keeps in E3 as [F3 _].
  set (d3 := mkDevice _ _ _ _ _). destruct (setMTU en n d3 k3) as [[k4 d4] [e|]] eqn:E4; [done|]. intros [= <- <-].
  apply setMTU_sets in E4 as (nm' & Enm & Hm & F4 & (S1 & _ & S3 & S4)); [|done].
  rewrite S1, S3, S4, F4, F3, F2, F1. cbn. rewrite D2, N1, B2, T2, U2, N4. split_and!; [done..|]. by exists nm'.
Qed.

(** C31: a TUN device that [createTUN] returns is ready for use.  It holds one
    new descriptor, open, and has left no other open; the channel made of it
    has the batch that its kind of device needs, 128 buffers behind virtio
    headers and one without, and empty tables; and the interface has the MTU
    that was asked for, which [mtu] reads back. *)
Theorem tun_create_ready nm n k k' d :
  - 2 ^ 31 ≤ n < 2 ^ 31 → createTUN en nm n k = (k', inl d) →
  ∃ fd, d_file d = Some (mkFile fd false) ∧ (fd ∉ fds k) ∧ fds k' = {[fd]} ∪ fds k ∧
    channel_of d = newChannel (nt_vnetHdr (d_tun d)) ∧
    nt_tcpGROTable (d_tun d) = newTCPGROTable ∧ nt_udpGROTable (d_tun d) = newUDPGROTable ∧
    ∀ k2 d2 r, mtu en d k' = (k2, d2, r) → fds k2 = fds k' ∧ match r with inl m => m = n | inr _ => True end.
Proof.
  intros Hn. unfold createTUN. destruct (u_open k) as [k1 [fd|e]] eqn:E1; [|done]. apply law_open in E1 as (Hfd & Hfresh & F1).
  destruct (u_NewIfreq nm) as [ifr|]; [|done].
  destruct (u_ioctl fd TUNSETIFF _ k1) as [[k2 [e|]] ifr'] eqn:E2; [done|]. apply law_ioctl in E2 as [E2 _].
  destruct (u_setNonblock fd k2) as [k3 [e|]] eqn:E3; [done|]. apply law_setNonblock in E3.
  intros (F & Df & Db & Dt & Du & nm' & En & Hm)%createTUNFromFile_ready; [|done]. exists fd. split_and!; [|done|congruence| |done|done|].
  - rewrite Df. unfold NewFile. by rewrite (proj2 (Z.ltb_ge _ _)).
  - unfold channel_of, batchSize, newChannel. by rewrite Db.
  - intros k5 d5 r E5. destruct (mtu_gets _ _ _ _ _ _ En E5) as [F5 H5]. split; [done|]. destruct r; [congruence|done].
Qed.

(** When the kernel does not take the request to set up the interface, or
    the name is too long for one, [createTUN] returns the error without closing
    the descriptor it has opened. *)
Theorem tun_create_leaks nm n k k1 fd :
  u_open k = (k1, inl fd) →
  match u_NewIfreq nm with
  | inr _ => True
  | inl ifr => ∃ e k2 ifr', u_ioctl fd TUNSETIFF (u_SetUint16 ifr (Z.lor (Z.lor IFF_TUN IFF_NO_PI) IFF_VNET_HDR)) k1 =
      (k2, Some e, ifr')
  end →
  ∃ k' e, createTUN en nm n k = (k', inr (EErrno e)) ∧ fds k' = {[fd]} ∪ fds k ∧ fd ∉ fds k.
Proof.
  intros E1 H. unfold createTUN. rewrite E1. apply law_open in E1 as (_ & Hn & F1). destruct (u_NewIfreq nm) as [ifr|e].
  - destruct H as (e & k2 & ifr' & E2). rewrite E2. apply law_ioctl in E2 as [E2 _]. exists k2, e. split_and!; [done|congruence|done].
  - by exists k1, e.
Qed.
End laws.

(** * A kernel for the samples *)

(** [TUNSETIFF] makes a link with an MTU of 1500, which goes away when its
    descriptor is closed. *)
Record toy := mkToy {
  toy_fds : gset nat; toy_socks : gset Z; toy_links : gmap Z bytes; toy_mtus : gmap bytes Z; toy_refuses : bool }.

Definition toy_new (sock : bool) (k : toy) : toy * (Z + Z) :=
  let fd := fresh (toy_fds k) in
  (mkToy ({[fd]} ∪ toy_fds k) (if sock then {[Z.of_nat fd]} ∪ toy_socks k else toy_socks k)
     (toy_links k) (toy_mtus k) (toy_refuses k), inl (Z.of_nat fd)).
Definition toy_close (fd : Z) (k : toy) : toy :=
  let fds := if fd <? 0 then toy_fds k else toy_fds k ∖ {[Z.to_nat fd]} in
  if bool_decide (fd ∈ toy_socks k)
  then mkToy fds (toy_socks k ∖ {[fd]}) (toy_links k) (toy_mtus k) (toy_refuses k)
  else mkToy fds (toy_socks k) (delete fd (toy_links k))
    (match toy_links k !! fd with Some nm => delete nm (toy_mtus k) | None => toy_mtus k end) (toy_refuses k).
Definition toy_mtu (k : toy) (nm : bytes) : Z := i32 (default 0 (toy_mtus k !! nm)).
Definition toy_set_mtu (nm : bytes) (n : Z) (k : toy) : toy :=
  mkToy (toy_fds k) (toy_socks k) (toy_links k) (<[nm := n]> (toy_mtus k)) (toy_refuses k).
Definition toy_ioctl (fd : Z) (req : request) (ifr : bytes) (k : toy) : toy * option Z * bytes :=
  let nm := ztake IFNAMSIZ ifr in
  if zlen ifr <? 20 then (k, Some 22, ifr) else
  match req with
  | SIOCSIFMTU =>
      if bool_decide (is_Some (toy_mtus k !! nm)) then (toy_set_mtu nm (get_field LittleEndian ifr) k, None, ifr)
      else (k, Some 19, ifr)
  | SIOCGIFMTU =>
      if bool_decide (is_Some (toy_mtus k !! nm)) then (k, None, put_field LittleEndian ifr (toy_mtu k nm))
      else (k, Some 19, ifr)
  | SIOCGIFINDEX => (k, None, put_field LittleEndian ifr 3)
  | TUNGETIFF =>
      match toy_links k !! fd with
      | Some l => (k, None, put_field LittleEndian ((copy ifr l).1) 20481)
      | None => (k, Some 77, ifr)
      end
  | TUNSETIFF =>
      if toy_refuses k then (k, Some 1, ifr) else
      let k := toy_set_mtu nm 1500 k in
      (mkToy (toy_fds k) (toy_socks k) (<[fd := nm]> (toy_links k)) (toy_mtus k) (toy_refuses k), None, ifr)
  end.

Fixpoint until_nul (b : bytes) : bytes :=
  match b with [] => [] | x :: b => if x =? 0 then [] else x :: until_nul b end.

#[export] Instance toy_unix : Unix toy := {|
  u_open := toy_new false; u_socket := toy_new true;
  u_close := toy_close;
  u_setNonblock fd k := (k, None);
  u_ioctl := toy_ioctl;
  u_setOffload fd v k := (k, None);
  u_NewIfreq nm := if zlen nm <? 16 then inl (copy (make_bytes 40) nm).1 else inr 22;
  u_SetUint16 ifr v := ztake 16 ifr ++ native_put16 LittleEndian v ++ zdrop 18 ifr;
  u_Uint16 ifr := le_val (ztake 2 (zdrop 16 ifr));
  u_ByteSliceToString := until_nul |}.

Lemma toy_new_fds k :
  let fd := Z.of_nat (fresh (toy_fds k)) in
  (fd ∉ (set_map Z.of_nat (toy_fds k) : gset Z)) ∧
  set_map Z.of_nat ({[fresh (toy_fds k)]} ∪ toy_fds k) = {[fd]} ∪ (set_map Z.of_nat (toy_fds k) : gset Z).
Proof.
  split; [|by rewrite set_map_union_L, set_map_singleton_L].
  intros (x & Hx%(inj Z.of_nat) & Hin)%elem_of_map. subst. by apply (is_fresh (toy_fds k)).
Qed.

Lemma toy_close_fds fd k :
  set_map Z.of_nat (toy_fds (toy_close fd k)) = (set_map Z.of_nat (toy_fds k) : gset Z) ∖ {[fd]}.
Proof.
  assert (toy_fds (toy_close fd k) = if fd <? 0 then toy_fds k else toy_fds k ∖ {[Z.to_nat fd]}) as ->
    by (unfold toy_close; by case_bool_decide).
  apply set_eq. intros x. rewrite elem_of_difference, elem_of_singleton, !elem_of_map. destruct (Z.ltb_spec fd 0).
  - split; [|tauto]. intros (y & -> & Hy). split; [by exists y|lia].
  - setoid_rewrite elem_of_difference. setoid_rewrite elem_of_singleton. split.
    + intros (y & -> & Hy & Hne). split; [by exists y|lia].
    + intros [(y & -> & Hy) Hne]. exists y. split; [done|]. split; [done|]. lia.
Qed.

#[export] Instance toy_laws : UnixLaws LittleEndian toy.
Proof.
  refine {| fds k := set_map Z.of_nat (toy_fds k); sockets := toy_socks; link_mtu := toy_mtu |}.
  - intros k k' fd [= <- <-]. split; [lia|]. apply toy_new_fds.
  - intros k k' fd [= <- <-]. cbn [toy_socks]. destruct (toy_new_fds k). done.
  - done.
  - by intros k k' r [= <- <-].
  - intros k fd. apply toy_close_fds.
  - intros k fd Hfd. cbn. unfold toy_close. by rewrite bool_decide_true.
  - by intros k fd k' r [= <- <-].
  - by intros k fd v k' r [= <- <-].
  - intros k fd req ifr k' r ifr'. cbn. unfold toy_ioctl. case_match; [by intros [= <- <- <-]|].
    destruct req; [|case_bool_decide..|case_match|case_match]; by intros [= <- <- <-].
  - intros k fd req ifr k' r ifr'. cbn. unfold toy_ioctl. case_match; [by intros [= <- <- <-]|].
    destruct req; [|case_bool_decide..|case_match|case_match]; by intros [= <- <- <-] ??.
  - intros k fd ifr k' ifr'. cbn. unfold toy_ioctl. case_match; [done|]. case_bool_decide; [|done].
    intros [= <- <-]. unfold toy_mtu. cbn. rewrite lookup_insert_eq. cbn. apply i32_id. apply i32_range.
  - intros k fd ifr k' ifr'. cbn. unfold toy_ioctl. destruct (Z.ltb_spec (zlen ifr) 20); [done|].
    case_bool_decide; [|done]. intros [= <- <-]. apply get_put_field; [done|]. apply i32_range.
Defined.

Definition sample_name : bytes := [116; 117; 110; 48].
Definition toy_start (refuses : bool) : toy := mkToy ∅ ∅ ∅ ∅ refuses.

Lemma tun_create_ready_witness :
  ∃ k' d, createTUN LittleEndian sample_name 1400 (toy_start false) = (k', inl d) ∧
    (∃ fd, d_file d = Some (mkFile fd false) ∧ fds k' = {[fd]} ∪ fds (toy_start false)) ∧
    channel_of d = newChannel true ∧
    ∃ k2 d2 m, mtu LittleEndian d k' = (k2, d2, inl m) ∧ m = 1400.
Proof.
  destruct (createTUN LittleEndian sample_name 1400 (toy_start false)) as [k' [d|e]] eqn:E;
    [|exfalso; revert E; vm_compute; done].
  destruct (tun_create_ready LittleEndian sample_name 1400 (toy_start false) k' d ltac:(lia) E)
    as (fd & Ef & _ & Hf & Hc & _ & _ & Hm).
  exists k', d. split; [done|]. split; [by exists fd|]. split.
  - rewrite Hc. f_equal. assert (Some (nt_vnetHdr (d_tun d)) = Some true) as [= E']; [|done].
    transitivity (match createTUN LittleEndian sample_name 1400 (toy_start false) with
      | (_, inl d) => Some (nt_vnetHdr (d_tun d)) | _ => None end); [by rewrite E|vm_compute; reflexivity].
  - destruct (mtu LittleEndian d k') as [[k2 d2] [m|e]] eqn:Em.
    + exists k2, d2, m. split; [done|]. by destruct (Hm _ _ _ eq_refl) as [_ ?].
    + exfalso. assert (match createTUN LittleEndian sample_name 1400 (toy_start false) with
        | (k', inl d) => match mtu LittleEndian d k' with (_, _, inr _) => true | _ => false end | _ => false end = true) as H
        by by rewrite E, Em.
      revert H. vm_compute. done.
Defined.

Lemma tun_create_leaks_witness :
  ∃ k' e, createTUN LittleEndian sample_name 1400 (toy_start true) = (k', inr (EErrno e)) ∧
    fds k' = {[0]} ∪ fds (toy_start true) ∧ (0 ∉ fds (toy_start true)).
Proof.
  apply (tun_create_leaks LittleEndian sample_name 1400 (toy_start true) (mkToy {[0%nat]} ∅ ∅ ∅ true) 0).
  - vm_compute. reflexivity.
  - vm_compute. do 3 eexists. reflexivity.
Defined.
