(* ===== verification/Udp.v ===== *)
(** [transport/udp]: the UDP handler with its [ReadFrom]/[WriteTo] API, and
    the round trip of a datagram from [WriteTo] through the stack's header,
    back through [HandlePacket] to [ReadFrom]. *)
From S2P Require Import Prelude.
From S2P Require Import Tcpip.
From S2P Require Import Checksum.
From S2P Require Import Header.
From S2P Require Import Packet.
From S2P Require Import Fragmentation.
From S2P Require Import Reassembly.
From S2P Require Import Stack.
From S2P Require Import IpLayer.

Module Udp.

Definition maxIPv4UDPPayload : Z := 65535 - IPv4.IPv4MinHeaderSize - UDP.UDPHeaderSize.

Inductive udp_error := errClosed | ErrMessageTooLong.

Record udpDatagram := mkDatagram {
  dg_ref : RefBuf; dg_src : FullAddress; dg_dst : FullAddress }.

(** [flow.go]: for upper layers, not used by the handler. *)
Record FlowID := mkFlowID {
  uSrcAddr : Address; uSrcPort : Z; uDstAddr : Address; uDstPort : Z }.

Record Stats := mkStats {
  DatagramsIn : Z; DatagramsOut : Z; uBytesIn : Z; uBytesOut : Z;
  uDroppedInbound : Z; OversizedOut : Z; uChecksumErrors : Z }.
#[export] Instance Stats_rebuild : Rebuild Stats := λ s,
  mkStats (DatagramsIn s) (DatagramsOut s) (uBytesIn s) (uBytesOut s)
    (uDroppedInbound s) (OversizedOut s) (uChecksumErrors s).

Record Config := mkConfig { InboundQueueSize : Z }.
Definition defaultConfig : Config := mkConfig 256.
Definition Option_ : Type := Config → Config.
Definition WithInboundQueueSize (n : Z) : Option_ := λ _, mkConfig n.

Record UDPHandler := mkHandler {
  u_inbound : list udpDatagram;
  u_queueSize : Z;
  u_done : bool;
  u_stats : option Stats;
  u_maxPayload : Z }.
#[export] Instance UDPHandler_rebuild : Rebuild UDPHandler := λ h,
  mkHandler (u_inbound h) (u_queueSize h) (u_done h) (u_stats h) (u_maxPayload h).

(** Making a queue of negative size panics. *)
Definition NewUDPHandler (opts : list Option_) : outcome UDPHandler :=
  let cfg := foldl (λ c o, o c) defaultConfig opts in
  if InboundQueueSize cfg <? 0 then Panic else
  Ret (mkHandler [] (InboundQueueSize cfg) false None maxIPv4UDPPayload).

Definition EnableStats (h : UDPHandler) : UDPHandler :=
  h <| u_stats := Some (mkStats 0 0 0 0 0 0 0) |>.

Definition count (h : UDPHandler) (f : Stats → Stats) : UDPHandler :=
  h <| u_stats := f <$> u_stats h |>.

(** [pooled] is the [RefBuf] of the pool.  The packet buffer goes back to its
    own pool on every path.  The queue is one with room for at least one
    datagram: on an unbuffered one Go would hand the datagram to a reader that
    is already waiting. *)
Definition HandlePacket (pooled : RefBuf) (h : UDPHandler) (pb : PacketBuffer) :
    outcome UDPHandler :=
  data ← pb_view pb (Data pb);
  if zlen data <? UDP.UDPHeaderSize then Ret h else
  ip ← pb_view pb (NetworkHeader pb);
  udpHdr ← slice_to data UDP.UDPHeaderSize;
  payload ← slice_from data UDP.UDPHeaderSize;
  let ref := EnsureCapacity (GetRefBuf pooled) (zlen payload) in
  let ref := SetLen (ref <| rf_buf := (copy (RefBuf_Buf ref) payload).1 |>) (zlen payload) in
  sa ← IPv4.SourceAddress ip;
  sp ← UDP.SourcePort udpHdr;
  da ← IPv4.DestinationAddress ip;
  dp ← UDP.DestinationPort udpHdr;
  let dg := mkDatagram ref (mkFullAddress sa sp) (mkFullAddress da dp) in
  if zlen (u_inbound h) <? u_queueSize h then
    let h := h <| u_inbound := u_inbound h ++ [dg] |> in
    Ret (count h (λ st, st <| DatagramsIn := u64 (DatagramsIn st + 1) |>
                           <| uBytesIn := u64 (uBytesIn st + u64 (zlen payload)) |>))
  else Ret (count h (λ st, st <| uDroppedInbound := u64 (uDroppedInbound st + 1) |>)).

(** [b] is the caller's slice: the new contents, the number of bytes and the
    addresses; or the wait, or the error. *)
Inductive read_result :=
| ReadGot (b : bytes) (n : Z) (src dst : FullAddress)
| ReadErr (err : udp_error)
| ReadBlocks.

Definition ReadFrom (pickDone : bool) (h : UDPHandler) (b : bytes) :
    outcome (UDPHandler * read_result) :=
  match u_inbound h with
  | dg :: rest =>
      if u_done h && pickDone then Ret (h, ReadErr errClosed) else
      d ← Bytes (dg_ref dg);
      let '(b, n) := copy b d in
      Ret (h <| u_inbound := rest |>, ReadGot b n (dg_src dg) (dg_dst dg))
  | [] => Ret (h, if u_done h then ReadErr errClosed else ReadBlocks)
  end.

Inductive write_result :=
| WriteErr (err : udp_error)
| Wrote (n : Z) (res : send_result).

(** The datagram [WriteTo] hands to the stack. *)
Definition buildDatagram (pooled : PacketBuffer) (b : bytes) (src dst : FullAddress) :
    outcome PacketBuffer :=
  let headroom := IPv4.IPv4MinHeaderSize + UDP.UDPHeaderSize in
  let pb := NewPacketBuffer pooled headroom in
  pb ← AppendData pb b;
  let udpTotalLen := u16 (UDP.UDPHeaderSize + zlen b) in
  '(pb, udpSlice) ← Prepend pb UDP.UDPHeaderSize;
  let set f pb := (buf ← view_update (pb_buf pb) udpSlice f; Ret (pb <| pb_buf := buf |>)) in
  pb ← set (λ u, UDP.Encode u (UDP.mkUDPFields (Port src) (Port dst) udpTotalLen 0)) pb;
  pb ← set (λ u, UDP.SetChecksum u 0) pb;
  fullUDP ← AsSlice pb;
  let phc := PseudoHeaderChecksum UDPProtocolNumber (Addr src) (Addr dst) udpTotalLen in
  set (λ u, UDP.SetChecksum u (Checksum fullUDP phc)) pb.

Definition WriteTo (pickDone : bool) (pooled : PacketBuffer) (h : UDPHandler) (s : Stack)
    (b : bytes) (src dst : FullAddress) : outcome (UDPHandler * Stack * write_result) :=
  if u_done h then Ret (h, s, WriteErr errClosed) else
  if zlen b >? u_maxPayload h then
    Ret (count h (λ st, st <| OversizedOut := u64 (OversizedOut st + 1) |>), s,
         WriteErr ErrMessageTooLong)
  else
  pb ← buildDatagram pooled b src dst;
  let h := count h (λ st, st <| DatagramsOut := u64 (DatagramsOut st + 1) |>
                             <| uBytesOut := u64 (uBytesOut st + u64 (zlen b)) |>) in
  '(s, res) ← SendPacket pickDone s pb (Addr src) (Addr dst) UDPProtocolNumber;
  Ret (h, s, Wrote (zlen b) res).

Definition Close (h : UDPHandler) : UDPHandler := h <| u_done := true |>.

(** * A datagram gets through *)
Definition udp_header (b : bytes) (src dst : FullAddress) (c : Z) : bytes :=
  [u8 (Port src / 256); u8 (Port src); u8 (Port dst / 256); u8 (Port dst);
   u8 ((8 + zlen b) / 256); u8 (8 + zlen b); u8 (c / 256); u8 c].

Definition udp_checksum (b : bytes) (src dst : FullAddress) : Z :=
  Checksum (udp_header b src dst 0 ++ b)
    (PseudoHeaderChecksum UDPProtocolNumber (Addr src) (Addr dst) (8 + zlen b)).

Definition udp_bytes (b : bytes) (src dst : FullAddress) : bytes :=
  udp_header b src dst (udp_checksum b src dst) ++ b.

Lemma buildDatagram_holds pooled b src dst :
  zlen b ≤ maxIPv4UDPPayload →
  ∃ pb, buildDatagram pooled b src dst = Ret pb ∧ holds pb (udp_bytes b src dst) ∧
    pb_consumed pb + 20 ≤ pb_headroom pb.
Proof.
  intros Hb. unfold maxIPv4UDPPayload, IPv4.IPv4MinHeaderSize, UDP.UDPHeaderSize in *.
  pose proof (zlen_nonneg b). unfold buildDatagram.
  destruct (NewPacketBuffer_headroom pooled 28) as (Eh & Ec & _).
  change (IPv4.IPv4MinHeaderSize + UDP.UDPHeaderSize) with 28. change UDP.UDPHeaderSize with 8.
  destruct (AppendData_holds (NewPacketBuffer pooled 28) b) as (pb1 & -> & Hp1 & Eh1 & Ec1 & _);
    [done|lia|]. rewrite bind_Ret_l.
  destruct (Prepend_front pb1 b 8 Hp1) as (pb2 & junk & -> & Lj & Hp2 & Eh2 & Ec2 & _); [lia..|].
  rewrite bind_Ret_l. cbn zeta. rewrite (u16_id (8 + zlen b)) by ulia.
  assert (Enc : UDP.Encode junk (UDP.mkUDPFields (Port src) (Port dst) (8 + zlen b) 0)
                = Ret (udp_header b src dst 0)).
  { assert (8 ≤ zlen junk) by lia. explode junk.
    destruct rest0; [reflexivity|]. rewrite !zlen_cons in Lj. pose proof (zlen_nonneg rest0). lia. }
  destruct (view_update_holds pb2 8 junk b
    (λ u, UDP.Encode u (UDP.mkUDPFields (Port src) (Port dst) (8 + zlen b) 0)) _ Hp2 Lj Enc eq_refl) as (buf3 & E3 & Hp3).
  rewrite E3, !bind_Ret_l. set (pb3 := pb2 <| pb_buf := buf3 |>) in *.
  destruct (view_update_holds pb3 8 _ b (λ u, UDP.SetChecksum u 0) (udp_header b src dst 0)
    Hp3 eq_refl eq_refl eq_refl) as (buf4 & E4 & Hp4).
  change (pb_headroom pb2 - pb_consumed pb2) with (pb_headroom pb3 - pb_consumed pb3).
  rewrite E4, !bind_Ret_l. set (pb4 := pb3 <| pb_buf := buf4 |>) in *.
  rewrite (holds_slice _ _ Hp4), bind_Ret_l.
  destruct (view_update_holds pb4 8 _ b (λ u, UDP.SetChecksum u (udp_checksum b src dst))
    (udp_header b src dst (udp_checksum b src dst)) Hp4 eq_refl eq_refl eq_refl) as (buf5 & E5 & Hp5).
  change (pb_headroom pb3 - pb_consumed pb3) with (pb_headroom pb4 - pb_consumed pb4).
  unfold udp_checksum in E5 at 1. rewrite E5, bind_Ret_l.
  eexists. split; [reflexivity|]. split; [exact Hp5|]. cbn. lia.
Qed.

Lemma udp_bytes_checksum b src dst :
  bytes_ok b → zlen b ≤ maxIPv4UDPPayload →
  Checksum (udp_bytes b src dst)
    (PseudoHeaderChecksum UDPProtocolNumber (Addr src) (Addr dst) (8 + zlen b)) = 0.
Proof.
  intros Hok Hb. unfold maxIPv4UDPPayload, IPv4.IPv4MinHeaderSize, UDP.UDPHeaderSize in *.
  pose proof (zlen_nonneg b). unfold udp_bytes, udp_checksum.
  set (b0 := udp_header b src dst 0 ++ b).
  apply (Checksum_filled b0 6 b0 _ _); try done.
  - apply Forall_app; split; [|done]. unfold udp_header. repeat constructor; apply u8_range.
  - unfold sum_fits, b0. rewrite zlen_app. change (zlen (udp_header b src dst 0)) with 8. lia.
  - apply PseudoHeaderChecksum_range.
  - by exists 3.
Qed.

(** The receiving handler. *)
Lemma HandlePacket_queues pooled h pkt ip b src dst f :
  carries pkt ip (udp_bytes b src dst) →
  IPv4.Decode ip = Ret f → IPv4.fSrcAddr f = Addr src → IPv4.fDstAddr f = Addr dst →
  is_u16 (Port src) → is_u16 (Port dst) → zlen (u_inbound h) < u_queueSize h →
  ∃ h' ref, HandlePacket pooled h pkt = Ret h' ∧ Bytes ref = Ret b ∧
    u_inbound h' = u_inbound h ++ [mkDatagram ref src dst] ∧ u_done h' = u_done h ∧
    u_maxPayload h' = u_maxPayload h.
Proof.
  intros [Hn Hd] Hdec Hs Hdst Hps Hpd Hq. unfold HandlePacket.
  pose proof (zlen_nonneg b).
  rewrite Hd, bind_Ret_l. unfold udp_bytes.
  set (hdr := udp_header _ _ _ _). assert (Lh : zlen hdr = 8) by done.
  change UDP.UDPHeaderSize with 8.
  rewrite zlen_app, Lh. destruct (Z.ltb_spec (8 + zlen b) 8); [lia|].
  rewrite Hn, bind_Ret_l. rewrite <- Lh, slice_to_app, bind_Ret_l.
  rewrite slice_from_ok by (rewrite zlen_app; lia).
  rewrite bind_Ret_l, zdrop_app_ge, Z.sub_diag, zdrop_0 by lia.
  unfold IPv4.Decode in Hdec. inv_outcome. cbn in Hs, Hdst.
  assert (E1 : UDP.SourcePort hdr = Ret (Port src)).
  { unfold hdr, udp_header. run_bytes. by autorewrite with fields. }
  assert (E2 : UDP.DestinationPort hdr = Ret (Port dst)).
  { unfold hdr, udp_header. run_bytes. by autorewrite with fields. }
  rewrite Ha7, bind_Ret_l, E1, bind_Ret_l, Ha8, bind_Ret_l, E2, bind_Ret_l. subst a7 a8.
  destruct (Z.ltb_spec (zlen (u_inbound h)) (u_queueSize h)); [|lia].
  destruct src as [sa sp], dst as [da dp]. cbn [Addr Port].
  do 2 eexists. split; [reflexivity|]. split; [|done].
  unfold Bytes. cbn.
  assert (zlen b ≤ zlen (rf_buf (EnsureCapacity (GetRefBuf pooled) (zlen b)))) as Hcap.
  { unfold EnsureCapacity. case_if; [cbn; rewrite zlen_make_bytes; lia|lia]. }
  unfold RefBuf_Buf, zlen in *. rewrite Nat.min_r by lia. rewrite take_ge by lia. apply (slice_to_app b).
Qed.

(** One datagram from [WriteTo] to [ReadFrom]. *)
Lemma datagram_gets_through h s r hr b src dst dst_buf pooled pooledr t0 t1 :
  bytes_ok b → zlen b ≤ maxIPv4UDPPayload → u_maxPayload h = maxIPv4UDPPayload →
  u_done h = false → is_u16 (Port src) → is_u16 (Port dst) →
  is_u32 (Addr src) → is_u32 (Addr dst) →
  is_u8 (s_ttl s) → s_done s = false → s_outboundCh s = [] → 0 < s_queueSize s →
  28 ≤ s_mtu s ≤ maxSupportedMTU →
  receiver_ok r (mkKey (Addr src) (Addr dst) (next_id s) 17) 17 (8 + zlen b) t0 t1 →
  u_inbound hr = [] → 0 < u_queueSize hr → zlen b ≤ zlen dst_buf →
  ∃ h1 s1 s2 out, WriteTo false pooled h s b src dst = Ret (h1, s1, Wrote (zlen b) Enqueued) ∧
    writeLoop_round false s1 = Ret (Some (s2, out)) ∧
    Forall (λ w, zlen (wire_data w) ≤ s_mtu s) out ∧
    ∀ evs, (rd_raw <$> evs) ≡ₚ (wire_data <$> out) → Forall (read_ok t0 t1) evs →
    ∃ r' pkt ip d hr1 hr2, read_all r evs
        = Ret (r', replicate (length evs - 1) ReadDrops ++ [ReadDispatches 17 pkt]) ∧
      carries pkt ip d ∧
      Checksum d (PseudoHeaderChecksum 17 (Addr src) (Addr dst) (8 + zlen b)) = 0 ∧
      HandlePacket pooledr hr pkt = Ret hr1 ∧
      ReadFrom false hr1 dst_buf
        = Ret (hr2, ReadGot (b ++ zdrop (zlen b) dst_buf) (zlen b) src dst) ∧
      u_inbound hr2 = [] ∧ u_done hr2 = u_done hr ∧ u_maxPayload hr2 = u_maxPayload hr.
Proof.
  intros Hok Hb Hm Hdone Hps Hpd Has Had Httl Hsd Hq Hqs Hmtu Hrc Hin Hqr Hbuf.
  pose proof (zlen_nonneg b).
  destruct (buildDatagram_holds pooled b src dst Hb) as (pb & Eb & Hp & Hroom).
  assert (Lu : zlen (udp_bytes b src dst) = 8 + zlen b) by (unfold udp_bytes; by rewrite zlen_app).
  destruct (packet_gets_through s r pb (udp_bytes b src dst) (Addr src) (Addr dst) 17 t0 t1)
    as (s1 & s2 & out & E1 & E2 & Hfit & Hre); try done.
  { rewrite Lu. unfold maxIPv4UDPPayload, IPv4.IPv4MinHeaderSize, UDP.UDPHeaderSize in Hb. lia. }
  { by rewrite Lu. }
  unfold WriteTo. rewrite Hdone, Hm. destruct (Z.gtb_spec (zlen b) maxIPv4UDPPayload); [lia|].
  rewrite Eb, bind_Ret_l. change UDPProtocolNumber with 17. rewrite E1, bind_Ret_l.
  do 4 eexists. split; [reflexivity|]. split; [exact E2|]. split; [exact Hfit|].
  intros evs Hperm Hevs. destruct (Hre evs Hperm Hevs) as (r' & pkt & ip & c & Er & Hc & _ & Hd).
  destruct (HandlePacket_queues pooledr hr pkt ip b src dst _ Hc Hd)
    as (hr1 & ref & Eh & Ebs & Ei & Ed & Em); try done; [by rewrite Hin, zlen_nil|].
  exists r', pkt, ip, (udp_bytes b src dst), hr1.
  unfold ReadFrom. rewrite Ei, Hin. cbn [app]. rewrite andb_false_r. cbn [dg_ref]. rewrite Ebs, bind_Ret_l.
  unfold copy, zlen, zdrop in *. rewrite Nat.min_r, take_ge by lia. rewrite Nat2Z.id.
  eexists. split; [exact Er|]. split; [exact Hc|].
  split; [by apply udp_bytes_checksum|]. split; [exact Eh|]. split; [reflexivity|]. by rewrite <- Ed, <- Em.
Qed.

(** C19: a datagram gets through.  The payload that one handler's [WriteTo]
    accepts (anything an IPv4 datagram can hold) leaves its stack in packets
    that fit the MTU, under a UDP header whose checksum is right; when
    another stack reads those packets in any order, its UDP handler queues
    one datagram, and [ReadFrom] returns exactly the payload and the two
    addresses. *)
Theorem udp_datagram_gets_through h s r hr b src dst dst_buf pooled pooledr t0 t1 :
  bytes_ok b → zlen b ≤ maxIPv4UDPPayload → u_maxPayload h = maxIPv4UDPPayload →
  u_done h = false → is_u16 (Port src) → is_u16 (Port dst) →
  is_u32 (Addr src) → is_u32 (Addr dst) →
  is_u8 (s_ttl s) → s_done s = false → s_outboundCh s = [] → 0 < s_queueSize s →
  28 ≤ s_mtu s ≤ maxSupportedMTU →
  receiver_ok r (mkKey (Addr src) (Addr dst) (next_id s) 17) 17 (8 + zlen b) t0 t1 →
  u_inbound hr = [] → 0 < u_queueSize hr → zlen b ≤ zlen dst_buf →
  ∃ h1 s1 s2 out, WriteTo false pooled h s b src dst = Ret (h1, s1, Wrote (zlen b) Enqueued) ∧
    writeLoop_round false s1 = Ret (Some (s2, out)) ∧
    Forall (λ w, zlen (wire_data w) ≤ s_mtu s) out ∧
    ∀ evs, (rd_raw <$> evs) ≡ₚ (wire_data <$> out) → Forall (read_ok t0 t1) evs →
    ∃ r' pkt ip d hr1 hr2, read_all r evs
        = Ret (r', replicate (length evs - 1) ReadDrops ++ [ReadDispatches 17 pkt]) ∧
      carries pkt ip d ∧
      Checksum d (PseudoHeaderChecksum 17 (Addr src) (Addr dst) (8 + zlen b)) = 0 ∧
      HandlePacket pooledr hr pkt = Ret hr1 ∧
      ReadFrom false hr1 dst_buf
        = Ret (hr2, ReadGot (b ++ zdrop (zlen b) dst_buf) (zlen b) src dst).
Proof.
  intros. destruct (datagram_gets_through h s r hr b src dst dst_buf pooled pooledr t0 t1) as (h1 & s1 & s2 & out & E1 & E2 & Hf & Hgo);
    try done. exists h1, s1, s2, out. split; [done|]. split; [done|]. split; [done|]. intros evs Hp He.
  destruct (Hgo evs Hp He) as (r' & pkt & ip & d & hr1 & hr2 & ? & ? & ? & ? & ? & _). by exists r', pkt, ip, d, hr1, hr2.
Qed.

Definition sample_handler : UDPHandler := mkHandler [] 4 false None maxIPv4UDPPayload.

Lemma sample_payload_ok : bytes_ok sample_payload.
Proof. cbn. repeat constructor; done. Qed.

Lemma sample_udp_receiver_ok :
  receiver_ok (sample_stack 1500) (mkKey 1 2 (next_id (sample_stack 36)) 17) 17
    (8 + zlen sample_payload) 0 30000000000.
Proof.
  split; [apply empty_reasm_ok|reflexivity|split; [reflexivity|done]|done|split; [done|]].
  reflexivity.
Qed.

Lemma udp_datagram_gets_through_witness :
  let src := mkFullAddress 1 53 in let dst := mkFullAddress 2 4000 in
  let ev raw := mkRead map_to_list 5 pool_New pool_New raw in
  ∃ h1 s1 s2 out r' pkt hr1 hr2,
    WriteTo false pool_New sample_handler (sample_stack 36) sample_payload src dst
      = Ret (h1, s1, Wrote 24 Enqueued) ∧
    writeLoop_round false s1 = Ret (Some (s2, out)) ∧
    read_all (sample_stack 1500) (ev <$> reverse (wire_data <$> out))
      = Ret (r', replicate (length out - 1) ReadDrops ++ [ReadDispatches 17 pkt]) ∧
    HandlePacket refBufPool_New sample_handler pkt = Ret hr1 ∧
    ReadFrom false hr1 (make_bytes 24) = Ret (hr2, ReadGot sample_payload 24 src dst).
Proof.
  intros src dst ev.
  destruct (udp_datagram_gets_through sample_handler (sample_stack 36) (sample_stack 1500)
    sample_handler sample_payload src dst (make_bytes 24) pool_New refBufPool_New 0 30000000000
    sample_payload_ok ltac:(done) eq_refl eq_refl ltac:(done) ltac:(done)
    ltac:(done) ltac:(done) ltac:(done) eq_refl eq_refl ltac:(done) ltac:(done)
    sample_udp_receiver_ok eq_refl ltac:(done) ltac:(done))
    as (h1 & s1 & s2 & out & E1 & E2 & _ & H).
  destruct (H (ev <$> reverse (wire_data <$> out)))
    as (r' & pkt & ip & d & hr1 & hr2 & Er & _ & _ & Eh & Erd).
  - rewrite <- list_fmap_compose. cbn. rewrite list_fmap_id. apply reverse_Permutation.
  - rewrite Forall_fmap. apply Forall_true. exact sample_read_ok.
  - exists h1, s1, s2, out, r', pkt, hr1, hr2. split; [exact E1|]. split; [exact E2|].
    split; [|split; [exact Eh|exact Erd]].
    rewrite Er, length_fmap, length_reverse, length_fmap. reflexivity.
Defined.

End Udp.
