(* ===== verification/Handler.v ===== *)
(** [transport/tcp/handler.go], [options.go], [listener.go], [stats.go]: the
    TCP handler, which owns the connections, and the whole TCP layer as a
    transition system: a packet from the stack, a step of a connection's run
    loop, a call of the application. *)
From S2P Require Import Prelude.
From S2P Require Import Tcpip.
From S2P Require Import Checksum.
From S2P Require Import Header.
From S2P Require Import TcpHeader.
From S2P Require Import Packet.
From S2P Require Import Stack.
From S2P Require Import Ringbuf.
From S2P Require Import Seq.
From S2P Require Import TcpConn.
From S2P Require Import Rcv.
From S2P Require Import Segment.
From S2P Require Import RcvData.
From S2P Require Import Snd.
From S2P Require Import Conn.

Module Tcp.

(** * [options.go] *)
Record Config := mkConfig {
  ReadBufferSize : Z; WriteBufferSize : Z;
  InitialReadBufferSize : Z; InitialWriteBufferSize : Z;
  AcceptQueueSize : Z; InboundQueueSize : Z;
  KeepaliveIdle : Z; KeepaliveInterval : Z; KeepaliveCount : Z;
  SynRcvdTimeout : Z; FinWait2Timeout : Z; TimeWaitDuration : Z; DelayedACKTimeout : Z;
  MaxZeroWindowProbeInterval : Z;
  MinRTO : Z; MaxRTO : Z; InitialRTO : Z; MaxRetries : Z;
  InitialSSThresh : Z; ReceiveWindowSize : Z; MaxReadBufferSize : Z }.
#[export] Instance Config_rebuild : Rebuild Config := λ c,
  mkConfig (ReadBufferSize c) (WriteBufferSize c) (InitialReadBufferSize c)
    (InitialWriteBufferSize c) (AcceptQueueSize c) (InboundQueueSize c) (KeepaliveIdle c)
    (KeepaliveInterval c) (KeepaliveCount c) (SynRcvdTimeout c) (FinWait2Timeout c)
    (TimeWaitDuration c) (DelayedACKTimeout c) (MaxZeroWindowProbeInterval c) (MinRTO c)
    (MaxRTO c) (InitialRTO c) (MaxRetries c) (InitialSSThresh c) (ReceiveWindowSize c)
    (MaxReadBufferSize c).

Definition Second : Z := 1000000000.
Definition Millisecond : Z := 1000000.

Definition defaultConfig : Config :=
  mkConfig (256 * 1024) (256 * 1024) (32 * 1024) (32 * 1024) 16 256
    (7200 * Second) (75 * Second) 9 (75 * Second) (60 * Second) (120 * Second)
    (200 * Millisecond) (60 * Second) (200 * Millisecond) (60 * Second) Second 15
    65535 65535 (4 * 1024 * 1024).

Definition Option_ : Type := Config → Config.
Definition WithReadBufferSize (n : Z) : Option_ := λ c, c <| ReadBufferSize := n |>.
Definition WithWriteBufferSize (n : Z) : Option_ := λ c, c <| WriteBufferSize := n |>.
Definition WithAcceptQueueSize (n : Z) : Option_ := λ c, c <| AcceptQueueSize := n |>.
Definition WithInboundQueueSize (n : Z) : Option_ := λ c, c <| InboundQueueSize := n |>.
Definition WithKeepaliveIdle (d : Z) : Option_ := λ c, c <| KeepaliveIdle := d |>.
Definition WithKeepaliveInterval (d : Z) : Option_ := λ c, c <| KeepaliveInterval := d |>.
Definition WithKeepaliveCount (n : Z) : Option_ := λ c, c <| KeepaliveCount := n |>.
Definition WithSynRcvdTimeout (d : Z) : Option_ := λ c, c <| SynRcvdTimeout := d |>.
Definition WithFinWait2Timeout (d : Z) : Option_ := λ c, c <| FinWait2Timeout := d |>.
Definition WithTimeWaitDuration (d : Z) : Option_ := λ c, c <| TimeWaitDuration := d |>.
Definition WithDelayedACKTimeout (d : Z) : Option_ := λ c, c <| DelayedACKTimeout := d |>.
Definition WithMaxZeroWindowProbeInterval (d : Z) : Option_ :=
  λ c, c <| MaxZeroWindowProbeInterval := d |>.
Definition WithMinRTO (d : Z) : Option_ := λ c, c <| MinRTO := d |>.
Definition WithMaxRTO (d : Z) : Option_ := λ c, c <| MaxRTO := d |>.
Definition WithInitialRTO (d : Z) : Option_ := λ c, c <| InitialRTO := d |>.
Definition WithMaxRetries (n : Z) : Option_ := λ c, c <| MaxRetries := n |>.
Definition WithInitialSSThresh (n : Z) : Option_ := λ c, c <| InitialSSThresh := n |>.
Definition WithReceiveWindowSize (n : Z) : Option_ := λ c, c <| ReceiveWindowSize := n |>.
Definition WithMaxReadBufferSize (n : Z) : Option_ := λ c, c <| MaxReadBufferSize := n |>.
Definition WithInitialReadBufferSize (n : Z) : Option_ := λ c, c <| InitialReadBufferSize := n |>.
Definition WithInitialWriteBufferSize (n : Z) : Option_ := λ c, c <| InitialWriteBufferSize := n |>.

(** * The handler

    The accept queue and the counters are in the [World]. *)
Record TCPHandler := mkTCPHandler {
  h_conns : gmap FlowID TCPConn;
  h_listenerDone : bool;
  h_cfg : Config;
  h_closed : bool;
  h_world : World }.
#[export] Instance TCPHandler_rebuild : Rebuild TCPHandler := λ h,
  mkTCPHandler (h_conns h) (h_listenerDone h) (h_cfg h) (h_closed h) (h_world h).

(** The random offset, the epoch and the channel's GSO limit are in the
    [Env].  Making a queue of negative size panics. *)
Definition NewTCPHandler (opts : list Option_) : outcome TCPHandler :=
  let cfg := foldl (λ c o, o c) defaultConfig opts in
  let cfg := if InitialReadBufferSize cfg >? ReadBufferSize cfg
             then cfg <| InitialReadBufferSize := ReadBufferSize cfg |> else cfg in
  let cfg := if InitialWriteBufferSize cfg >? WriteBufferSize cfg
             then cfg <| InitialWriteBufferSize := WriteBufferSize cfg |> else cfg in
  if AcceptQueueSize cfg <? 0 then Panic else
  Ret (mkTCPHandler ∅ false cfg false (mkWorld None [] [] (AcceptQueueSize cfg) 0)).

Definition EnableStats (h : TCPHandler) : TCPHandler :=
  h <| h_world := (h_world h) <| w_stats := Some noStats |> |>.

Definition removeConn (h : TCPHandler) (flow : FlowID) : TCPHandler :=
  h <| h_conns := delete flow (h_conns h) |>.

Definition count (h : TCPHandler) (f : TCPStats → TCPStats) : TCPHandler :=
  h <| h_world := (h_world h) <| w_stats := f <$> w_stats (h_world h) |> |>.

(** Run connection code on a connection and the shared world. *)
Definition with_conn {A} (e : Env) (h : TCPHandler) (c : TCPConn) (m : conn_m A) :
    outcome (TCPHandler * TCPConn * A) :=
  '(s, a) ← m e (mkCS c (h_world h));
  Ret (h <| h_world := cs_world s |>, cs_conn s, a).

Definition sendRST (e : Env) (h : TCPHandler) (pb : PacketBuffer) : outcome TCPHandler :=
  ip ← pb_view pb (NetworkHeader pb);
  tcp ← pb_view pb (Data pb);
  srcAddr ← IPv4.DestinationAddress ip;
  dstAddr ← IPv4.SourceAddress ip;
  fl ← TCP.Flags tcp;
  '(seqNum, ackNum, flags) ←
    (if Has fl TCPFlagACK then
       a ← TCP.AckNumber tcp; Ret (a, 0, TCPFlagRST)
     else
       off ← TCP.DataOffset tcp;
       let segLen := u32 (u32 (zlen tcp) - off) in
       let segLen := if Has fl TCPFlagSYN then u32 (segLen + 1) else segLen in
       q ← TCP.SequenceNumber tcp;
       Ret (0, u32 (q + segLen), Z.lor TCPFlagRST TCPFlagACK));
  sp ← TCP.DestinationPort tcp;
  dp ← TCP.SourcePort tcp;
  let w := h_world h in
  rst ← build_segment (e_packet e (w_ticks w)) srcAddr dstAddr None
    (TCP.mkTCPFields sp dp seqNum ackNum (Z.quot TCPMinHeaderSize 4) flags 0 0 0)
    ([], 0) TCPMinHeaderSize TCPMinHeaderSize;
  let h := count h (bump SegmentsOut) in
  let w := h_world h in
  Ret (h <| h_world := w <| w_ticks := S (w_ticks w) |>
          <| w_sent := w_sent w ++ [SentPacket rst srcAddr dstAddr TCPProtocolNumber] |> |>).

(** The connection [handleSYN] creates; [iss] is the random number. *)
Definition newConn (cfg : Config) (flow : FlowID) (iss irs tsOffset : Z) (synOpts : SynOptions) :
    outcome TCPConn :=
  readBuf ← newRingBuffer (InitialReadBufferSize cfg);
  writeBuf ← newRingBuffer (InitialWriteBufferSize cfg);
  if InboundQueueSize cfg <? 0 then Panic else
  let basis := Z.max (ReadBufferSize cfg) (MaxReadBufferSize cfg) in
  let ws := soWS synOpts >=? 0 in
  let ts := soTSEnabled synOpts in
  rcvWndScale ← (if ws then calculateWindowScale basis else Ret 0);
  Ret (mkConn flow stateSynRcvd iss irs
    (if ws then u8 (soWS synOpts) else 0) rcvWndScale
    (soSACKPermit synOpts) (soMSS synOpts)
    ts (if ts then soTSVal synOpts else 0) 0 (if ts then tsOffset else 0)
    false 0 false 0 0 false false false None None readBuf writeBuf false false false
    [] (InboundQueueSize cfg) false false false false false false
    (mkSnapshot flow "" 0 0 0 0 0 0 0 0 0 0 0 0 0 0 0 0 false 0 false)
    None None None None None None None false
    (mkConnConfig (KeepaliveIdle cfg) (KeepaliveInterval cfg) (KeepaliveCount cfg)
       (FinWait2Timeout cfg) (SynRcvdTimeout cfg) (TimeWaitDuration cfg) (DelayedACKTimeout cfg)
       (MaxZeroWindowProbeInterval cfg) (ReceiveWindowSize cfg) (MinRTO cfg) (MaxRTO cfg)
       (InitialRTO cfg) (MaxRetries cfg) (InitialSSThresh cfg) (MaxReadBufferSize cfg)
       (ReadBufferSize cfg) (WriteBufferSize cfg))).

(** The start of the connection's goroutine is run before the SYN+ACK is
    sent; the two touch different fields. *)
Definition handleSYN (e : Env) (iss : Z) (h : TCPHandler) (pb : PacketBuffer) (flow : FlowID) :
    outcome TCPHandler :=
  tcp ← pb_view pb (Data pb);
  irs ← TCP.SequenceNumber tcp;
  opts ← TCP.Options tcp;
  synOpts ← ParseSynOptions opts;
  conn ← newConn (h_cfg h) flow iss irs (e_tsOffset e) synOpts;
  '(h, conn, _) ← with_conn e h conn updateSnapshot;
  if h_closed h then Ret h else
  '(h, conn, _) ← with_conn e h conn (run_start;; sendSYNACK);
  Ret (h <| h_conns := <[flow := conn]> (h_conns h) |>).

Definition HandlePacket (e : Env) (iss : Z) (h : TCPHandler) (pb : PacketBuffer) :
    outcome TCPHandler :=
  data ← pb_view pb (Data pb);
  if zlen data <? TCPMinHeaderSize then Ret h else
  ip ← pb_view pb (NetworkHeader pb);
  total ← IPv4.TotalLength ip;
  hlen ← IPv4.HeaderLength ip;
  src ← IPv4.SourceAddress ip;
  dst ← IPv4.DestinationAddress ip;
  let tcpLen := Z.min (u16 (total - hlen)) (u16 (zlen data)) in
  let partial := PseudoHeaderChecksum TCPProtocolNumber src dst tcpLen in
  covered ← slice_to data tcpLen;
  if negb (Checksum covered partial =? 0) then Ret (count h (bump ChecksumErrors)) else
  sp ← TCP.SourcePort data;
  dp ← TCP.DestinationPort data;
  let flow := mkFlowID src dst sp dp in
  if h_closed h then Ret h else
  match h_conns h !! flow with
  | Some conn =>
      let h := count h (bump SegmentsIn) in
      if zlen (c_inbound conn) <? c_inboundCap conn then
        Ret (h <| h_conns := <[flow := conn <| c_inbound := c_inbound conn ++ [pb] |>]> (h_conns h) |>)
      else Ret (count h (bump DroppedInbound))
  | None =>
      fl ← TCP.Flags data;
      if Has fl TCPFlagSYN && negb (Has fl TCPFlagACK) then
        handleSYN e iss (count h (bump SegmentsIn)) pb flow
      else if Has fl TCPFlagRST then Ret (count h (bump ResetsReceived))
      else sendRST e (count h (bump ResetsSent)) pb
  end.

(** [Close] closes the listener, refuses new work and force-closes every
    connection; the run loops then end one by one. *)
Definition Close (h : TCPHandler) : TCPHandler :=
  h <| h_listenerDone := true |> <| h_closed := true |>
    <| h_conns := ForceClose <$> h_conns h |>.

(** * [listener.go] *)
Inductive accept_result := Accepted (flow : FlowID) | AcceptErr | AcceptBlocks.

Definition Accept (pickDone : bool) (h : TCPHandler) : TCPHandler * accept_result :=
  match w_acceptQ (h_world h) with
  | f :: rest =>
      if h_listenerDone h && pickDone then (h, AcceptErr)
      else (h <| h_world := (h_world h) <| w_acceptQ := rest |> |>, Accepted f)
  | [] => (h, if h_listenerDone h then AcceptErr else AcceptBlocks)
  end.

Definition Listener_Close (h : TCPHandler) : TCPHandler := h <| h_listenerDone := true |>.

(** * [stats.go] *)
Definition ConnSnapshots (iter : gmap FlowID TCPConn → list (FlowID * TCPConn)) (h : TCPHandler) :
    list ConnSnapshot :=
  (λ fc, c_snapshot fc.2) <$> iter (h_conns h).
Definition ConnSnapshot_of (h : TCPHandler) (flow : FlowID) : option ConnSnapshot :=
  c_snapshot <$> h_conns h !! flow.

(** * The system *)

(** One iteration of a connection's run loop; a loop that returns runs the
    deferred [cleanup] and the connection leaves the table. *)
Definition conn_step (e : Env) (h : TCPHandler) (flow : FlowID) (ev : run_event) :
    outcome TCPHandler :=
  match h_conns h !! flow with
  | None => Ret h
  | Some c =>
      if ready ev c (h_world h) then
        '(h, c, finished) ← with_conn e h c (run_step ev);
        if finished : bool then
          '(h, c, _) ← with_conn e h c run_exit;
          Ret (removeConn h flow)
        else Ret (h <| h_conns := <[flow := c]> (h_conns h) |>)
      else Ret h
  end.

End Tcp.
