(* ===== verification/TcpSystem.v ===== *)
(** The TCP layer as a whole ([Handler]): packets, run loops and calls of the
    application as the steps of one transition system, what every reachable
    state of it satisfies, and how the connections in its table move. *)
From S2P Require Import Prelude.
From S2P Require Import Tcpip.
From S2P Require Import Header.
From S2P Require Import TcpHeader.
From S2P Require Import Packet.
From S2P Require Import Stack.
From S2P Require Import Ringbuf.
From S2P Require Import Seq.
From S2P Require Import TcpConn.
From S2P Require Import Rcv.
From S2P Require Import Segment.
From S2P Require Import SegmentFacts.
From S2P Require Import RcvData.
From S2P Require Import Snd.
From S2P Require Import Conn.
From S2P Require Import ConnFacts.
From S2P Require Import Handler.
Import Tcp.

(** * Steps *)

(** One round of a call of the application on a connection. *)
Inductive app_call :=
| CallRead (plen : Z) | CallWriteStart | CallWrite (p : bytes) (written : Z)
| CallCloseWrite | CallCloseRead | CallClose | CallForceClose | CallSetNoDelay (b : bool).

Definition app_step (a : app_call) (c : TCPConn) : outcome TCPConn :=
  match a with
  | CallRead plen => '(c, _) ← Read_conn plen c; Ret c
  | CallWriteStart => '(c, _) ← Write_start c; Ret c
  | CallWrite p written => '(c, _) ← Write_conn p written c; Ret c
  | CallCloseWrite => Ret (CloseWrite_conn c)
  | CallCloseRead => Ret (CloseRead c)
  | CallClose => Ret (Close_conn c)
  | CallForceClose => Ret (ForceClose c)
  | CallSetNoDelay b => Ret (SetNoDelay b c)
  end.

(** A packet from the stack (with the random number a new connection draws),
    one case of a connection's [select], a call, or the listener. *)
Inductive tcp_action :=
| APacket (iss : Z) (pb : PacketBuffer) | ARun (f : FlowID) (ev : run_event)
| ACall (f : FlowID) (a : app_call) | AAccept (pickDone : bool) | AListenerClose | AClose.

Definition tcp_step (e : Env) (a : tcp_action) (h : TCPHandler) : outcome TCPHandler :=
  match a with
  | APacket iss pb => HandlePacket e iss h pb
  | ARun f ev => conn_step e h f ev
  | ACall f a =>
      match h_conns h !! f with
      | Some c => c ← app_step a c; Ret (h <| h_conns := <[f := c]> (h_conns h) |>)
      | None => Ret h
      end
  | AAccept pickDone => Ret (Accept pickDone h).1
  | AListenerClose => Ret (Listener_Close h)
  | AClose => Ret (Close h)
  end.

(** Each step has its own times, pool results and limits. *)
Inductive reaches (h : TCPHandler) : TCPHandler → Prop :=
| reaches_start : reaches h h
| reaches_step e a h1 h2 : reaches h h1 → tcp_step e a h1 = Ret h2 → reaches h h2.

(** A run of given actions. *)
Fixpoint tcp_run (e : Env) (l : list tcp_action) (h : TCPHandler) : outcome TCPHandler :=
  match l with
  | [] => Ret h
  | a :: l => h ← tcp_step e a h; tcp_run e l h
  end.

Lemma tcp_run_reaches e l h h0 h1 : reaches h h0 → tcp_run e l h0 = Ret h1 → reaches h h1.
Proof.
  revert h0. induction l as [|a l IH]; intros h0 Hr; cbn; [by intros [= <-]|].
  intros (h2 & E & E')%bind_Ret. eapply IH; [|exact E']. by eapply reaches_step.
Qed.

(** * The invariant *)

(** The connections of a table that are counted as active. *)
Definition actives (m : gmap FlowID TCPConn) : Z :=
  map_fold (λ _ c n, Z.b2z (c_statsActive c) + n) 0 m.

(** What holds of a connection under its key. *)
Definition conn_inv (f : FlowID) (c : TCPConn) : Prop :=
  c_flow c = f ∧ coherent (phase_of None c) = true.

Record tcp_inv (h : TCPHandler) : Prop := {
  inv_conns : map_Forall conn_inv (h_conns h);
  inv_count : ∀ n, active_count (h_world h) = Some n → n = actives (h_conns h) }.

Lemma actives_insert_new m f c :
  m !! f = None → actives (<[f := c]> m) = Z.b2z (c_statsActive c) + actives m.
Proof. intros Hf. unfold actives. by rewrite map_fold_insert_L; [|intros; lia|]. Qed.
Lemma actives_lookup m f c :
  m !! f = Some c → actives m = Z.b2z (c_statsActive c) + actives (delete f m).
Proof. intros Hf. unfold actives. by apply (map_fold_delete_L (λ _ c n, Z.b2z (c_statsActive c) + n)); [intros; lia|]. Qed.
Lemma actives_insert m f c c' :
  m !! f = Some c →
  actives (<[f := c']> m) = actives m - Z.b2z (c_statsActive c) + Z.b2z (c_statsActive c').
Proof.
  intros Hf. rewrite (actives_lookup m f c Hf). rewrite <- insert_delete_eq.
  rewrite actives_insert_new by apply lookup_delete_eq. lia.
Qed.

(** * What a step changes *)
Definition same_count (h h' : TCPHandler) : Prop :=
  active_count (h_world h') = active_count (h_world h).

Inductive change (h h' : TCPHandler) : Prop :=
| change_none : h_conns h' = h_conns h → same_count h h' → change h h'
| change_conn f c c' :
    h_conns h !! f = Some c → h_conns h' = <[f := c']> (h_conns h) →
    good (phase (mkCS c (h_world h))) (phase (mkCS c' (h_world h'))) → change h h'
| change_new f c :
    h_conns h !! f = None → h_conns h' = <[f := c]> (h_conns h) →
    conn_inv f c → c_statsActive c = false → same_count h h' → change h h'
| change_gone f c :
    h_conns h !! f = Some c → h_conns h' = delete f (h_conns h) →
    active_count (h_world h') = others (phase (mkCS c (h_world h))) → change h h'
| change_all : h_conns h' = ForceClose <$> h_conns h → same_count h h' → change h h'.

Lemma change_inv h h' : change h h' → tcp_inv h → tcp_inv h'.
Proof.
  intros Hch [Hc Hn]. destruct Hch as [E En|f c c' Hf E Hg|f c Hf E Hi Ha En|f c Hf E En|E En].
  - split; rewrite E; [done|]. by rewrite En.
  - destruct Hg as [_ Hco Hfl Hot]. split; rewrite E.
    + apply map_Forall_insert_2; [|done]. split; [|exact Hco].
      destruct (Hc f c Hf) as [<- _]. exact Hfl.
    + intros n Hn'. rewrite (actives_insert _ _ c _ Hf).
      unfold others, phase in Hot. cbn in Hot. rewrite Hn' in Hot.
      destruct (active_count (h_world h)) as [k|] eqn:Ek; [|done].
      rewrite <- (Hn k eq_refl). injection Hot. lia.
  - split; rewrite E.
    + by apply map_Forall_insert_2.
    + intros n. rewrite En, actives_insert_new by done. rewrite Ha. cbn. apply Hn.
  - split; rewrite E.
    + by apply map_Forall_delete.
    + intros n. rewrite En. unfold others, phase. cbn.
      destruct (active_count (h_world h)) as [k|] eqn:Ek; [|done]. intros [= <-].
      rewrite (Hn k eq_refl), (actives_lookup _ _ _ Hf). lia.
  - split; rewrite E.
    + intros f c. rewrite lookup_fmap. intros (c0 & Hf & ->)%fmap_Some.
      apply (Hc f c0 Hf).
    + intros n. rewrite En. unfold actives. rewrite map_fold_fmap. apply Hn.
Qed.

Definition conn_key (c : TCPConn) : tcpState * bool := (c_state c, deferred c).

Lemma change_edges h h' f c c' :
  change h h' → h_conns h !! f = Some c → h_conns h' !! f = Some c' →
  rtc edge (conn_key c) (conn_key c').
Proof.
  intros Hch Hf Hf'. destruct Hch as [E _|f0 c0 c0' Hf0 E Hg|f0 c0 Hf0 E Hi Ha En|f0 c0 Hf0 E En|E En];
    rewrite E in Hf'.
  - by simplify_eq.
  - apply lookup_insert_Some in Hf' as [[-> ->]|[_ ?]]; simplify_eq; [exact (good_edges _ _ Hg)|done].
  - apply lookup_insert_Some in Hf' as [[-> ->]|[_ ?]]; by simplify_eq.
  - apply lookup_delete_Some in Hf' as [_ ?]. by simplify_eq.
  - rewrite lookup_fmap, Hf in Hf'. by injection Hf' as <-.
Qed.

(** * Every step is such a change *)

(** Code that stays in its phase, run on a connection. *)
Lemma with_conn_stays {A} e h c (m : conn_m A) h' c' a :
  stays m → with_conn e h c m = Ret (h', c', a) →
  h_conns h' = h_conns h ∧ h_closed h' = h_closed h ∧
  phase (mkCS c' (h_world h')) = phase (mkCS c (h_world h)).
Proof.
  intros Hm. unfold with_conn, mbind, outcome_bind.
  destruct (m e (mkCS c (h_world h))) as [[s x]| |] eqn:E; try done. intros [= <- <- _].
  split_and!; try done. rewrite <- (Hm _ _ _ _ E). by destruct s.
Qed.

Lemma same_count_bump h g :
  (∀ st, ActiveConns (g st) = ActiveConns st) → same_count h (count h g).
Proof.
  intros Hg. unfold same_count, active_count, count. cbn.
  destruct (w_stats (h_world h)); [|done]. cbn. by rewrite Hg.
Qed.

Lemma sendRST_change e h pb h' : sendRST e h pb = Ret h' → h_conns h' = h_conns h ∧ same_count h h'.
Proof.
  unfold sendRST. intros E. inv_run; (split; [done|]).
  all: unfold same_count, active_count; cbn; by destruct (w_stats (h_world h)).
Qed.

Lemma newConn_inv cfg flow iss irs off so c :
  newConn cfg flow iss irs off so = Ret c → conn_inv flow c ∧ c_statsActive c = false.
Proof.
  unfold newConn. intros E. inv_outcome. destruct (InboundQueueSize cfg <? 0); [done|].
  by inv_outcome.
Qed.

Lemma stays_run_start : stays run_start.
Proof. unfold run_start. stay. Qed.

Lemma conn_inv_phase f c c' w w' :
  phase (mkCS c' w') = phase (mkCS c w) → conn_inv f c → c_statsActive c = false →
  conn_inv f c' ∧ c_statsActive c' = false ∧ active_count w' = active_count w.
Proof.
  intros E [<- Hc] Ha. unfold conn_inv. split_and!.
  - exact (f_equal ph_flow E).
  - change (coherent (phase (mkCS c' w')) = true). by rewrite E.
  - rewrite <- Ha. exact (f_equal ph_active E).
  - exact (f_equal ph_count E).
Qed.

Lemma handleSYN_change e iss h pb flow h' :
  h_conns h !! flow = None → handleSYN e iss h pb flow = Ret h' → change h h'.
Proof.
  intros Hf E. unfold handleSYN in E. inv_outcome.
  match goal with H : newConn _ _ _ _ _ _ = _ |- _ => destruct (newConn_inv _ _ _ _ _ _ _ H) as [Hi Hact] end.
  match goal with H : with_conn _ _ _ updateSnapshot = _ |- _ => rename H into E1 end.
  match type of E with (let '(_, _) := ?x in _) = _ => destruct x as [[h1 c1] []] end.
  apply with_conn_stays in E1 as (Ec1 & _ & E1); [|stay].
  destruct (conn_inv_phase _ _ _ _ _ E1 Hi Hact) as (Hi1 & Hact1 & En1).
  destruct (h_closed h1).
  { injection E as <-. by apply change_none. }
  inv_outcome. match goal with H : with_conn _ _ _ (run_start;; _) = _ |- _ => rename H into E2 end.
  match type of E with (let '(_, _) := ?x in _) = _ => destruct x as [[h2 c2] []] end.
  apply with_conn_stays in E2 as (Ec2 & _ & E2);
    [|apply stays_bind; [apply stays_run_start|intros _; stay]].
  destruct (conn_inv_phase _ _ _ _ _ E2 Hi1 Hact1) as (Hi2 & Hact2 & En2).
  injection E as <-. apply change_new with (f := flow) (c := c2); try done.
  - cbn. congruence.
  - unfold same_count. cbn. congruence.
Qed.

Lemma change_after_count h g h' :
  (∀ st, ActiveConns (g st) = ActiveConns st) → change (count h g) h' → change h h'.
Proof.
  intros Hg. pose proof (same_count_bump h g Hg) as Hs. unfold same_count in Hs.
  intros [E En|f c c' Hf E Hgd|f c Hf E Hi Ha En|f c Hf E En|E En]; unfold same_count in *.
  - by apply change_none; [|unfold same_count; congruence].
  - eapply change_conn; [exact Hf|exact E|]. revert Hgd. unfold phase. cbn [cs_conn cs_world]. by rewrite Hs.
  - by eapply change_new; [exact Hf|..]; [..|unfold same_count; congruence].
  - eapply change_gone; [exact Hf|exact E|]. revert En. unfold phase. cbn [cs_conn cs_world]. by rewrite Hs.
  - by apply change_all; [|unfold same_count; congruence].
Qed.

Lemma HandlePacket_change e iss h pb h' : tcp_inv h → HandlePacket e iss h pb = Ret h' → change h h'.
Proof.
  intros Hinv E. assert (∀ g, (∀ st, ActiveConns (g st) = ActiveConns st) → change h (count h g)) as Hcount.
  { intros g Hg. apply change_none; [done|by apply same_count_bump]. }
  assert (change h h) as Hsame by by apply change_none.
  unfold HandlePacket in E. apply bind_Ret in E as (data & Edata & E).
  destruct (zlen data <? TCPMinHeaderSize); [by injection E as <-|]. inv_outcome.
  match type of E with (if ?b then _ else _) = _ => destruct b end;
    [injection E as <-; by apply Hcount|].
  inv_outcome. destruct (h_closed h); [by injection E as <-|].
  destruct (h_conns h !! _) as [c|] eqn:Hf.
  - destruct (zlen (c_inbound c) <? c_inboundCap c); injection E as <-.
    + eapply change_after_count with (g := bump SegmentsIn); [done|].
      eapply change_conn; [exact Hf|done|]. apply good_refl. exact (proj2 (inv_conns h Hinv _ _ Hf)).
    + eapply change_after_count with (g := bump SegmentsIn); [done|].
      apply change_none; [done|by apply same_count_bump].
  - inv_outcome. match type of E with (if ?b then _ else _) = _ => destruct b end.
    + apply change_after_count with (g := bump SegmentsIn); [done|]. by eapply handleSYN_change.
    + match type of E with (if ?b then _ else _) = _ => destruct b end;
        [injection E as <-; by apply Hcount|].
      apply change_after_count with (g := bump ResetsSent); [done|].
      apply sendRST_change in E as [E1 E2]. by apply change_none.
Qed.

Lemma conn_step_change e h f ev h' : tcp_inv h → conn_step e h f ev = Ret h' → change h h'.
Proof.
  intros Hinv. unfold conn_step. destruct (h_conns h !! f) as [c|] eqn:Hf; [|by intros [= <-]; apply change_none].
  destruct (ready ev c (h_world h)); [|by intros [= <-]; apply change_none].
  intros E. apply bind_Ret in E as ([[h1 c1] fin] & E1 & E).
  unfold with_conn in E1. apply bind_Ret in E1 as ([s1 b] & Erun & E1). injection E1 as <- <- <-.
  assert (coherent (phase (mkCS c (h_world h))) = true) as Hc by exact (proj2 (inv_conns h Hinv _ _ Hf)).
  pose proof (keeps_run_step ev _ Hc e _ _ _ eq_refl Erun) as Hg. destruct b.
  - apply bind_Ret in E as ([[h2 c2] []] & E2 & [= <-]). unfold with_conn in E2.
    apply bind_Ret in E2 as ([s2 []] & Eexit & E2). injection E2 as <- <-.
    eapply change_gone; [exact Hf|done|]. etransitivity; [exact (run_exit_count _ _ _ Eexit)|].
    destruct s1. exact (good_others _ _ Hg).
  - injection E as <-. eapply change_conn; [exact Hf|done|]. by destruct s1.
Qed.

Lemma app_step_phase a c c' n : app_step a c = Ret c' → phase_of n c' = phase_of n c.
Proof.
  destruct a; cbn; unfold Read_conn, Write_start, Write_conn, Close_conn, CloseWrite_conn, CloseRead;
    intros E; repeat (inv_run || case_match); inv_run; done.
Qed.

Lemma tcp_step_change e a h h' : tcp_inv h → tcp_step e a h = Ret h' → change h h'.
Proof.
  intros Hinv. destruct a as [iss pb|f ev|f a|pick| |]; cbn [tcp_step].
  - by apply HandlePacket_change.
  - by apply conn_step_change.
  - destruct (h_conns h !! f) as [c|] eqn:Hf; [|by intros [= <-]; apply change_none].
    intros (c' & Ea & [= <-])%bind_Ret. eapply change_conn; [exact Hf|done|].
    assert (phase (mkCS c' (h_world h)) = phase (mkCS c (h_world h))) as Ep
      by exact (app_step_phase a c c' _ Ea).
    change (h_world _) with (h_world h) at 2. rewrite Ep. apply good_refl.
    exact (proj2 (inv_conns h Hinv _ _ Hf)).
  - intros [= <-]. unfold Accept. repeat case_match; by apply change_none.
  - intros [= <-]. by apply change_none.
  - intros [= <-]. by apply change_all.
Qed.

Lemma reaches_inv h h' : reaches h h' → tcp_inv h → tcp_inv h'.
Proof.
  induction 1 as [|e a h1 h2 _ IH E]; intros Hinv; [done|]. eapply change_inv; [|by apply IH].
  eapply tcp_step_change; [by apply IH|exact E].
Qed.

Lemma new_handler_inv opts h : NewTCPHandler opts = Ret h → tcp_inv h ∧ tcp_inv (EnableStats h).
Proof.
  unfold NewTCPHandler. intros E. case_match; [done|]. injection E as <-.
  split; (split; [apply map_Forall_empty|]); cbn; intros n [=]. by subst n.
Qed.

Lemma change_counters h h' :
  change h h' → is_Some (active_count (h_world h)) → is_Some (active_count (h_world h')).
Proof.
  intros [_ ->|f c c' _ _ Hg|f c _ _ _ _ ->|f c _ _ ->|_ ->]; try done.
  - pose proof (good_others _ _ Hg) as Ho. unfold others, phase in Ho. cbn in Ho.
    intros [n En]. rewrite En in Ho. cbn in Ho. by destruct (active_count (h_world h')).
  - unfold others, phase. cbn. by intros [n ->].
Qed.

Lemma reaches_counters h h' :
  reaches h h' → tcp_inv h → is_Some (active_count (h_world h)) → is_Some (active_count (h_world h')).
Proof.
  induction 1 as [|e a h1 h2 Hr IH E]; intros Hinv Hc; [done|].
  eapply change_counters; [|by apply IH]. eapply tcp_step_change; [|exact E]. by eapply reaches_inv.
Qed.

(** What [coherent] says of a connection. *)
Record conn_sane (c : TCPConn) : Prop := {
  sane_done : c_done c = true ↔ c_state c = stateClosed;
  sane_handshake : c_state c = stateSynRcvd → c_snd c = None ∧ c_rcv c = None ∧ c_statsActive c = false;
  sane_open : c_state c ≠ stateSynRcvd → c_state c ≠ stateClosed → is_Some (c_snd c) ∧ is_Some (c_rcv c) }.

Lemma coherent_sane n c : coherent (phase_of n c) = true → conn_sane c.
Proof.
  unfold coherent, phase_of, has_snd, has_rcv. cbn. intros Hc.
  split; destruct (c_state c), (c_snd c), (c_rcv c), (c_done c), (c_statsActive c); cbn in Hc;
    rewrite ?bool_decide_true, ?bool_decide_false in Hc by (try done; by intros [? ?]); cbn in Hc;
    try done; eauto.
Qed.

(** C7: every reachable state of the TCP layer is consistent.  Whatever
    packets arrive, however the run loops, the calls of the application and
    the listener interleave, and whatever the clock and the pools return: each
    connection is filed under its own flow; it is done exactly when it is
    CLOSED; it has no sender and no receiver in SYN_RCVD and has both in every
    state between, so that code which uses them there does not meet a nil
    pointer; and the counter of active connections is the number of
    connections in the table that were accepted. *)
Theorem tcp_reachable_consistent opts h h' :
  NewTCPHandler opts = Ret h → reaches (EnableStats h) h' →
  (∀ f c, h_conns h' !! f = Some c → c_flow c = f ∧ conn_sane c) ∧
  active_count (h_world h') = Some (actives (h_conns h')).
Proof.
  intros [_ Hinv]%new_handler_inv Hr. pose proof (reaches_inv _ _ Hr Hinv) as [Hc Hn]. split.
  - intros f c Hf. destruct (Hc f c Hf) as [Hfl Hco]. split; [done|]. by eapply coherent_sane.
  - destruct (reaches_counters _ _ Hr Hinv) as [n En]; [by eexists|]. by rewrite En, <- (Hn n En).
Qed.

(** How far the life of a connection has come. *)
Definition state_rank (st : tcpState) : Z :=
  match st with
  | stateSynRcvd => 0 | stateEstablished => 1 | stateFinWait1 => 2 | stateFinWait2 => 3
  | stateCloseWait | stateClosing => 4 | stateLastAck | stateTimeWait => 5 | stateClosed => 6
  end.

Definition forward (p q : tcpState * bool) : Prop := q.1 = p.1 ∨ state_rank p.1 < state_rank q.1.

Lemma edges_forward p q : rtc edge p q → forward p q.
Proof.
  induction 1 as [|p q r He _ IH]; [by left|].
  assert (q.1 = p.1 ∨ state_rank p.1 < state_rank q.1) as [E|E].
  { destruct He as [| | | | | | | | | | |[] d| |]; cbn; (by left) || (by right). }
  - unfold forward in *. by rewrite E in IH.
  - right. destruct IH as [->|]; lia.
Qed.

(** C9: connections move only along the edges of the state machine.  In a
    reachable state, a step of any kind takes each connection that stays in
    the table along a path of [edge]: the transitions of RFC 793, plus those
    that a FIN deferred behind missing data adds.  A connection that changes
    its state moves forward in its life, so no state is entered twice and
    CLOSED is final. *)
Theorem tcp_states_follow_edges opts h h1 h2 e a f c c' :
  NewTCPHandler opts = Ret h → reaches (EnableStats h) h1 → tcp_step e a h1 = Ret h2 →
  h_conns h1 !! f = Some c → h_conns h2 !! f = Some c' →
  rtc edge (conn_key c) (conn_key c') ∧
  (c_state c' = c_state c ∨ state_rank (c_state c) < state_rank (c_state c')).
Proof.
  intros [_ Hinv]%new_handler_inv Hr E Hf Hf'.
  assert (rtc edge (conn_key c) (conn_key c')) as He.
  { eapply change_edges; [|exact Hf|exact Hf']. eapply tcp_step_change; [|exact E]. by eapply reaches_inv. }
  split; [done|]. exact (edges_forward _ _ He).
Qed.

(** * Runs *)

Definition sample_opts : list Option_ := [WithInitialReadBufferSize 64; WithInitialWriteBufferSize 64].
Definition sample_start : TCPHandler :=
  match NewTCPHandler sample_opts with
  | Ret h => h | _ => mkTCPHandler ∅ false defaultConfig false sample_world
  end.
Definition the_handler (m : outcome TCPHandler) : TCPHandler :=
  match m with Ret h => h | _ => sample_start end.
Definition the_conn (h : TCPHandler) : TCPConn :=
  match h_conns h !! sample_flow with
  | Some c => c | None => sample_conn stateClosed None None (mkRing [] 0 0 false 0 0 false)
                            (mkRing [] 0 0 false 0 0 false)
  end.

(** A SYN from the peer, and the last segment of the handshake. *)
Definition peer_syn (opts : bytes) : tcp_action := APacket 1000 (sample_packet 5000 0 TCPFlagSYN opts []).
Definition peer_ack (opts : bytes) : tcp_action :=
  APacket 0 (sample_packet 5001 1001 TCPFlagACK opts []).
Definition peer_segment (seq ack flags : Z) (payload : bytes) : tcp_action :=
  APacket 0 (sample_packet seq ack flags [] payload).
Definition take_segment : tcp_action := ARun sample_flow EvInbound.

Lemma tcp_reachable_consistent_witness :
  let h := the_handler (tcp_run sample_env [peer_syn []; peer_ack []; take_segment]
                          (EnableStats sample_start)) in
  (∀ f c, h_conns h !! f = Some c → c_flow c = f ∧ conn_sane c) ∧
  active_count (h_world h) = Some (actives (h_conns h)) ∧
  actives (h_conns h) = 1 ∧ c_state (the_conn h) = stateEstablished.
Proof.
  intros h. destruct (tcp_reachable_consistent sample_opts sample_start h) as [H1 H2].
  - vm_compute. reflexivity.
  - apply (tcp_run_reaches sample_env [peer_syn []; peer_ack []; take_segment] _ (EnableStats sample_start));
      [apply reaches_start|vm_compute; reflexivity].
  - split; [exact H1|]. split; [exact H2|]. split; vm_compute; reflexivity.
Defined.

Lemma tcp_states_follow_edges_witness :
  let h1 := the_handler (tcp_run sample_env [peer_syn []; peer_ack []] (EnableStats sample_start)) in
  let h2 := the_handler (tcp_step sample_env take_segment h1) in
  conn_key (the_conn h1) = (stateSynRcvd, false) ∧ conn_key (the_conn h2) = (stateEstablished, false) ∧
  rtc edge (conn_key (the_conn h1)) (conn_key (the_conn h2)) ∧
  (c_state (the_conn h2) = c_state (the_conn h1) ∨
   state_rank (c_state (the_conn h1)) < state_rank (c_state (the_conn h2))).
Proof.
  intros h1 h2. split; [vm_compute; reflexivity|]. split; [vm_compute; reflexivity|].
  apply (tcp_states_follow_edges sample_opts sample_start h1 h2 sample_env take_segment sample_flow).
  - vm_compute. reflexivity.
  - apply (tcp_run_reaches sample_env [peer_syn []; peer_ack []] _ (EnableStats sample_start));
      [apply reaches_start|vm_compute; reflexivity].
  - vm_compute. reflexivity.
  - vm_compute. reflexivity.
  - vm_compute. reflexivity.
Defined.

(** The options of a SYN with a maximum segment size and timestamps, and the
    timestamps of the segment that follows. *)
Definition syn_mss (mss : Z) : bytes := [2; 4; 0; mss; 1; 1; 8; 10; 0; 0; 0; 1; 0; 0; 0; 0].
Definition ack_ts : bytes := [1; 1; 8; 10; 0; 0; 0; 2; 0; 0; 0; 0].
Definition writes (p : bytes) : list tcp_action :=
  [ACall sample_flow (CallWrite p 0); ACall sample_flow (CallWrite p (zlen p));
   ARun sample_flow EvWriteNotify].

Lemma newSender_tiny iss w sc mtu pmss cfg :
  0 < pmss < 12 →
  let x := newSender iss w sc mtu pmss cfg in
  0 < s_mss x < 12 ∧ s_cwnd x = 10 * s_mss x ∧ s_wnd x = u32 (Z.shiftl w sc) ∧ s_nxt x = s_una x ∧ s_unacked x = [].
Proof.
  intros Hp. unfold newSender, IPv4.IPv4MinHeaderSize, TCPMinHeaderSize. rewrite (proj2 (Z.eqb_neq pmss 0)) by lia. cbv zeta.
  set (m := if pmss <? _ then pmss else _). assert (0 < m < 12) as Hm.
  { subst m. destruct (Z.leb_spec (mtu - 20 - 20) 0); [by rewrite (proj2 (Z.ltb_lt pmss 536)) by lia|].
    destruct (Z.ltb_spec pmss (mtu - 20 - 20)); lia. }
  cbn [s_mss s_cwnd s_wnd s_nxt s_una s_unacked]. clearbody m.
  split_and!; try done; [apply Hm..|]. rewrite (u32_id m), !u32_id by ulia. lia.
Qed.

Lemma negative_mss_panics e s x :
  c_snd (cs_conn s) = Some x → s_mss x < 0 → s_unacked x = [] → 0 < effectiveWindow x → e_gso e = None →
  ring_ok (c_writeBuf (cs_conn s)) → 0 < used (c_writeBuf (cs_conn s)) → sendPending e s = Panic.
Proof.
  intros Hx Hm Hun Hw Hg Hok Hu. unfold sendPending. rewrite run_getc. unfold Len. rewrite lenLocked_ok, run_lift by done.
  cbn [sendLoop]. rewrite run_getc, (run_get_snd _ _ _ x), run_asks, Hg by done. unfold Len. rewrite lenLocked_ok, run_lift by done.
  assert (choose None (cs_conn s) x (used (c_writeBuf (cs_conn s))) = OneSegment (s_mss x)) as ->.
  { unfold choose, hasUnacked. rewrite Hun, (proj2 (Z.leb_gt _ 0) Hw), (proj2 (Z.leb_gt _ 0) Hu).
    change (zlen [] >? 0) with false. rewrite andb_false_r. cbn [andb].
    rewrite (proj2 (Z.ltb_ge (effectiveWindow x) _)) by lia. rewrite andb_false_r. cbn [andb]. f_equal. lia. }
  unfold sendSegment. rewrite run_assoc, run_tick. unfold read_into, slice. cbv zeta.
  rewrite (proj2 (Z.leb_gt 0 (s_mss x))) by done. cbn [andb Z.leb]. done.
Qed.

(** C37: a peer can stop the program with its SYN.  When the SYN announced a
    maximum segment size below 12 bytes together with timestamps, the 12 bytes
    of the timestamps are taken off without a lower bound: the segment size of
    the new sender is negative.  Whatever the application then writes, the first
    case of the loop that sends it slices a buffer with that length and panics. *)
Theorem tiny_mss_panics e s s1 seg wb :
  c_tsEnabled (cs_conn s) = true → 0 < c_peerMSS (cs_conn s) < 12 → 0 < peer_window (cs_conn s) seg →
  newEstablished seg e s = Ret (s1, tt) → e_gso e = None → ring_ok wb → 0 < used wb →
  run_step EvWriteNotify e (mkCS ((cs_conn s1) <| c_writeBuf := wb |>) (cs_world s1)) = Panic.
Proof.
  intros Hts Hm Hw E Hg Hok Hu. unfold newEstablished in E. rewrite run_getc, run_asks, Hts in E.
  match type of E with context [newSender ?a ?b ?c ?d ?f ?g] =>
    destruct (newSender_tiny a b c d f g Hm) as (Hx & Hc & Hwn & Hn & Hun); set (x := newSender a b c d f g) in * end.
  assert (c_snd (cs_conn s1) = Some (x <| s_mss := s_mss x - 12 |>)) as Hx1.
  { cbn [when_] in E. rewrite !run_setc in E. destruct (sg_hasTS seg); cbn [when_] in E; injection E as <-; done. }
  clear E. clearbody x. set (x1 := x <| s_mss := s_mss x - 12 |>) in *.
  cbn [run_step]. unfold on_writeNotify. rewrite run_setc, run_getc. unfold has_snd. cbn [cs_conn cs_world].
  rewrite bool_decide_true by (cbn; rewrite Hx1; by eexists). cbn [when_]. rewrite !run_assoc.
  set (s2 := mkCS _ _). assert (sendPending e s2 = Panic) as Hp; [|unfold mbind, conn_bind; by rewrite Hp].
  apply (negative_mss_panics e s2 x1); try done.
  - cbn. lia.
  - unfold effectiveWindow. cbn. rewrite Hc, Hwn, Hn, Z.sub_diag. unfold peer_window in Hw. change (u32 0) with 0. lia.
Qed.

Lemma tiny_mss_panics_witness :
  let s := mkCS (the_conn (the_handler (tcp_run sample_env [peer_syn (syn_mss 8)] sample_start))) sample_world in
  let seg := mkSegment TCPFlagACK 5001 1001 64 ack_ts [] 2 0 true in
  c_peerMSS (cs_conn s) = 8 ∧
  (∃ s1, newEstablished seg sample_env s = Ret (s1, tt) ∧
    run_step EvWriteNotify sample_env
      (mkCS ((cs_conn s1) <| c_writeBuf := mkRing [1; 2; 3; 0] 0 3 false 0 0 false |>) (cs_world s1)) = Panic) ∧
  tcp_run sample_env ([peer_syn (syn_mss 8); peer_ack ack_ts; take_segment] ++ writes [1; 2; 3]) sample_start = Panic.
Proof.
  intros s seg. split; [vm_compute; reflexivity|]. split; [|vm_compute; reflexivity].
  destruct (newEstablished seg sample_env s) as [[s1 []]| |] eqn:E; [|exfalso; vm_compute in E; discriminate E..].
  exists s1. split; [reflexivity|].
  apply (tiny_mss_panics sample_env s s1 seg); [vm_compute; reflexivity|vm_compute; split; reflexivity|vm_compute; reflexivity
    |exact E|reflexivity|clear; by split|vm_compute; reflexivity].
Defined.

(** C38: with segmentation offload the same SYN makes the connection's loop
    run for ever.  A maximum segment size of 12 leaves a segment size of 0, and
    the loop that records the data sent takes no byte off in a round and adds
    an empty segment to the queue in each: no number of rounds is enough. *)
Theorem zero_mss_never_ends fuel seq data now e s :
  is_Some (c_snd (cs_conn s)) → data ≠ [] → recordGSOLoop fuel seq data 0 now e s = OutOfFuel.
Proof.
  intros Hs Hd. assert (0 < zlen data) as Hz.
  { destruct data; [done|]. rewrite zlen_cons. pose proof (zlen_nonneg data). lia. }
  assert ((zlen data >? 0) = true) as Eg by lia. revert seq s Hs.
  induction fuel as [|fuel IH]; intros seq s [x Hx]; cbn [recordGSOLoop]; rewrite Eg; [done|].
  replace (Z.min (zlen data) 0) with 0 by lia. rewrite run_tick. cbv zeta. unfold slice_to.
  rewrite !slice_ok by (pose proof (zlen_nonneg (RefBuf_Buf (GetRefBuf (e_refbuf e (w_ticks (cs_world s)))))); lia).
  rewrite !run_lift. unfold append_unacked. rewrite (run_set_snd _ _ _ _ x) by done.
  rewrite slice_from_ok by lia. rewrite run_lift. apply IH. by eexists.
Qed.

Definition gso_env : Env :=
  mkEnv 1500 (Some 65535) 0 0 Z.of_nat (λ _, pool_New) (λ _, refBufPool_New) (λ _, make_bytes GSOBufSize).

Lemma zero_mss_never_ends_witness :
  let s := mkCS (the_conn (the_handler (tcp_run gso_env
    [peer_syn (syn_mss 12); peer_ack ack_ts; take_segment] sample_start))) sample_world in
  (s_mss <$> c_snd (cs_conn s)) = Some 0 ∧
  ∀ fuel, recordGSOLoop fuel 1001 [1; 2; 3] 0 0 gso_env s = OutOfFuel.
Proof.
  intros s. split; [vm_compute; reflexivity|]. intros fuel.
  apply zero_mss_never_ends; [|done]. vm_compute. eexists. reflexivity.
Defined.
