(* ===== verification/Closing.v ===== *)
(** How a connection is lost in CLOSE_WAIT ([processFIN] in [rcv.go] and the
    closing handlers in [conn_closing.go]): the FIN that was held back arrives
    after the application has closed, the state says that the close is still to
    come, and nothing but a reset or [ForceClose] ends the connection. *)
From S2P Require Import Prelude.
From S2P Require Import Tcpip.
From S2P Require Import Header.
From S2P Require Import TcpHeader.
From S2P Require Import Packet.
From S2P Require Import Ringbuf.
From S2P Require Import Seq.
From S2P Require Import TcpConn.
From S2P Require Import Rcv.
From S2P Require Import Segment.
From S2P Require Import RcvData.
From S2P Require Import Snd.
From S2P Require Import Conn.
From S2P Require Import ConnFacts.
From S2P Require Import Handler.
From S2P Require Import TcpSystem.
Import Tcp.

(** * Stranded in CLOSE_WAIT

    The application has closed the connection and its FIN is acknowledged, but
    the state is the one of an end that has still to close. *)

(** No reset. *)
Definition no_rst (pb : PacketBuffer) : Prop :=
  ∀ seg, parseSeg pb = Ret seg → Has (sg_flags seg) TCPFlagRST = false.

Record stranded (c : TCPConn) : Prop := {
  sd_state : c_state c = stateCloseWait;
  sd_done : c_done c = false;
  sd_accepting : c_accepting c = false;
  sd_once : c_closeOnce c = true;
  sd_shut : c_writeShutdown c = true;
  sd_pending : c_finPending c = false;
  sd_closeCh : c_closeCh c = false;
  sd_force : c_forceCloseCh c = false;
  sd_timeWait : c_timeWaitTimer c = None;
  sd_closed : rb_closed (c_writeBuf c) = true;
  sd_empty : lenLocked (c_writeBuf c) = Ret 0;
  sd_acked : ∃ x, c_snd c = Some x ∧ s_unacked x = [];
  sd_inbound : Forall no_rst (c_inbound c) }.

(** Code that leaves a connection stranded. *)
Definition strands {A} (m : conn_m A) : Prop :=
  ∀ e s s' a, stranded (cs_conn s) → m e s = Ret (s', a) → stranded (cs_conn s').

Lemma strands_ret {A} (a : A) : strands (mret a).
Proof. by intros e s s' a' H [= <- _]. Qed.
Lemma strands_bind {A B} (m : conn_m A) (f : A → conn_m B) :
  strands m → (∀ a, strands (f a)) → strands (m ≫= f).
Proof. intros Hm Hf e s s' b H (s1 & a & E1 & E2)%run_bind_inv. eapply Hf; [|exact E2]. by eapply Hm. Qed.
Lemma strands_getc {B} (f : TCPConn → conn_m B) : (∀ c, stranded c → strands (f c)) → strands (getc ≫= f).
Proof. intros Hf e s s' b H E. rewrite run_getc in E. by eapply Hf. Qed.
Lemma strands_asks {A} (g : Env → A) : strands (asks g).
Proof. by intros e s s' a H [= <- _]. Qed.
Lemma strands_lift {A} (m : outcome A) : strands (lift m).
Proof. intros e s s' a H. unfold lift. destruct m; try done. by intros [= <- _]. Qed.
Lemma strands_len {B} c (f : Z → conn_m B) :
  stranded c → strands (f 0) → strands (lift (Len (c_writeBuf c)) ≫= f).
Proof. intros Hc Hf e s s' b H E. unfold Len in E. rewrite (sd_empty c Hc), run_lift in E. by eapply Hf. Qed.
Lemma strands_tick {A} (o : Env → nat → A) : strands (tick o).
Proof. by intros e s s' a H [= <- _]. Qed.
Lemma strands_count g : strands (count_ g).
Proof. by intros e s s' a H [= <- _]. Qed.
Lemma strands_send p : strands (send_ p).
Proof. by intros e s s' a H [= <- _]. Qed.
Lemma strands_setc f : (∀ c, stranded c → stranded (f c)) → strands (setc f).
Proof. intros Hf e s s' a H [= <- _]. by apply Hf. Qed.
Lemma strands_when b m : (b = true → strands m) → strands (when_ b m).
Proof. intros H. destruct b; [by apply H|apply strands_ret]. Qed.
Lemma strands_get_snd {B} (f : sender → conn_m B) :
  (∀ x, s_unacked x = [] → strands (f x)) → strands (get_snd ≫= f).
Proof.
  intros Hf e s s' b H E. destruct (sd_acked _ H) as (x & Hx & Hu). rewrite (run_get_snd _ _ _ x) in E by done. by eapply Hf.
Qed.
Lemma strands_set_snd f : (∀ x, s_unacked x = [] → s_unacked (f x) = []) → strands (set_snd f).
Proof.
  intros Hf e s s' a H E. pose proof H as []. destruct sd_acked0 as (x & Hx & Hu).
  rewrite (run_set_snd' _ _ _ x) in E by done. injection E as <- _. split; try done. exists (f x). by split; [|apply Hf].
Qed.
Lemma strands_set_rcv f : strands (set_rcv f).
Proof.
  intros e s s' a H E. unfold set_rcv, get_rcv, mbind, conn_bind, getc in E.
  destruct (c_rcv (cs_conn s)) as [r|]; [|done]. injection E as <- _. by destruct H.
Qed.
Lemma strands_get_rcv : strands get_rcv.
Proof. apply strands_getc. intros c _. destruct (c_rcv c); [apply strands_ret|apply strands_lift]. Qed.

Lemma strands_growCwnd {B} k x (f : sender → conn_m B) :
  s_unacked x = [] → (∀ y, s_unacked y = [] → strands (f y)) → strands (lift (growCwnd k x) ≫= f).
Proof.
  intros Hx Hf e s s' b H (s1 & y & E1 & E2)%run_bind_inv. unfold lift, growCwnd in E1.
  repeat case_match; simplify_eq; (eapply Hf; [|exact H|exact E2]); done.
Qed.

Create HintDb strands.
#[export] Hint Resolve strands_ret strands_asks strands_lift strands_tick strands_count strands_send
  strands_set_rcv strands_get_rcv : strands.

(** Follow the structure of the code; what it calls is in the database. *)
Ltac strand :=
  repeat first
    [ solve [auto 2 with strands]
    | match goal with
      | |- strands (if ?b then _ else _) => destruct b
      | |- strands (match ?x with _ => _ end) => destruct x
      | |- strands (let _ := _ in _) => cbv zeta
      | |- strands (setc _) => apply strands_setc; intros ? []
      | |- strands (set_snd _) => apply strands_set_snd; intros ? ?
      | |- strands (getc ≫= _) =>
          let c := fresh "c" in let Hc := fresh "Hc" in
          apply strands_getc; intros c Hc; rewrite ?(sd_pending c Hc), ?(sd_state c Hc)
      | |- strands (get_snd ≫= _) => apply strands_get_snd; intros ? ?
      | |- strands (lift (Len (c_writeBuf ?c)) ≫= _) => apply strands_len; [done|]
      | |- strands (lift (growCwnd _ _) ≫= _) => apply strands_growCwnd; [done|intros ? ?]
      | |- strands (when_ _ _) => apply strands_when; intros ?
      end
    | apply strands_bind; [|intros ?]
    | progress cbv beta
    | solve [by split]
    | solve [repeat case_match; by split] ].

Lemma strands_skip : strands skip.
Proof. apply strands_ret. Qed.
Lemma strands_time_now : strands time_now.
Proof. unfold time_now. strand. Qed.
#[export] Hint Resolve strands_skip strands_time_now : strands.
Lemma strands_handler_now : strands handler_now.
Proof. unfold handler_now. strand. Qed.
#[export] Hint Resolve strands_handler_now : strands.
Lemma strands_encode_ts b : strands (encode_ts b).
Proof. unfold encode_ts. strand. Qed.
Lemma strands_encode_sack c o : strands (encode_sack c o).
Proof. unfold encode_sack. strand. Qed.
Lemma strands_newPacket p f b o n : strands (newPacket p f b o n).
Proof. unfold newPacket. strand. Qed.
Lemma strands_send_packet pb : strands (send_packet pb).
Proof. unfold send_packet. strand. Qed.
Lemma strands_updateTSLastAckSent : strands updateTSLastAckSent.
Proof. unfold updateTSLastAckSent. strand. Qed.
#[export] Hint Resolve strands_encode_ts strands_encode_sack strands_newPacket strands_send_packet
  strands_updateTSLastAckSent : strands.
Lemma strands_sendACK : strands sendACK.
Proof. unfold sendACK, countSegmentOut. strand. Qed.
#[export] Hint Resolve strands_sendACK : strands.

(** ** The sender has nothing to send *)
Lemma strands_sendLoop fuel : strands (sendLoop fuel).
Proof.
  assert (∀ gso c x, choose gso c x 0 = Stop_) as Hc by (intros; unfold choose; by destruct (_ <=? 0)).
  destruct fuel; cbn [sendLoop]; (apply strands_getc; intros c Hs); (apply strands_get_snd; intros x _);
    (apply strands_bind; [strand|intros gso]); (apply strands_len; [done|]); rewrite Hc; strand.
Qed.
#[export] Hint Resolve strands_sendLoop : strands.
Lemma strands_sendPending : strands sendPending.
Proof. unfold sendPending. strand. Qed.
#[export] Hint Resolve strands_sendPending : strands.
Lemma strands_limitedTransmit : strands limitedTransmit.
Proof. unfold limitedTransmit. strand. Qed.
Lemma strands_retransmit : strands retransmitFirstUnSACKed.
Proof. unfold retransmitFirstUnSACKed. apply strands_get_snd. intros x ->. cbn. strand. Qed.
#[export] Hint Resolve strands_limitedTransmit strands_retransmit : strands.
Lemma strands_removeAcked ack : strands (removeAcked ack).
Proof. unfold removeAcked. apply strands_get_snd. intros x ->. cbn [removeLoop]. intros e s s' a H E. by apply (strands_set_snd (λ s, s <| s_unacked := [] |>) ltac:(done) e s s' a H). Qed.
Lemma strands_handleDupACK : strands handleDupACK.
Proof. unfold handleDupACK. strand. Qed.
#[export] Hint Resolve strands_removeAcked strands_handleDupACK : strands.
Lemma strands_handleACK ack : strands (handleACK ack).
Proof. unfold handleACK. strand. Qed.
Lemma strands_updateSnapshot : strands updateSnapshot.
Proof. unfold updateSnapshot. strand. Qed.
Lemma strands_measureRTTM seg : strands (measureRTTM seg).
Proof. unfold measureRTTM. strand. unfold updateRTT. by destruct (_ =? 0). Qed.
Lemma strands_set_peer_window seg : strands (set_peer_window seg).
Proof. unfold set_peer_window. strand. Qed.
Lemma strands_cancelZeroWindowProbe : strands cancelZeroWindowProbe.
Proof. unfold cancelZeroWindowProbe. strand. Qed.
Lemma strands_checkZeroWindow : strands checkZeroWindow.
Proof. unfold checkZeroWindow. strand. Qed.
Lemma strands_resetKeepalive : strands resetKeepalive.
Proof. unfold resetKeepalive. strand. Qed.
Lemma strands_arm_rto : strands arm_rto.
Proof. unfold arm_rto. strand. Qed.
#[export] Hint Resolve strands_handleACK strands_updateSnapshot strands_measureRTTM strands_set_peer_window
  strands_cancelZeroWindowProbe strands_checkZeroWindow strands_resetKeepalive strands_arm_rto : strands.

(** A probe finds nothing to read. *)
Lemma strands_sendSegment n : strands (sendSegment n).
Proof.
  unfold sendSegment. apply strands_bind; [strand|intros pooled]. unfold read_into. intros e s s' a H E.
  apply run_bind_inv in E as (s1 & [buf k] & E1 & E2).
  apply run_bind_inv in E1 as (s2 & dst & E1 & E3). unfold lift in E1. destruct (slice _ _ _); try done. injection E1 as <- <-.
  apply run_bind_inv in E3 as (s3 & d & E3 & E4). injection E4 as <- <- <-.
  unfold with_writeBuf in E3. rewrite run_getc in E3. unfold ReadNoBlock in E3.
  rewrite (sd_empty _ H), bind_Ret_l in E3. cbn in E3. injection E3 as <- <-.
  change (zlen [] =? 0) with true in E2. injection E2 as <- _. by destruct H.
Qed.
#[export] Hint Resolve strands_sendSegment : strands.
Lemma strands_sendZeroWindowProbe : strands sendZeroWindowProbe.
Proof. unfold sendZeroWindowProbe. strand. Qed.
Lemma strands_handleRTO : strands handleRTO.
Proof. unfold handleRTO. apply strands_get_snd. intros x ->. apply strands_skip. Qed.
#[export] Hint Resolve strands_sendZeroWindowProbe strands_handleRTO : strands.

(** ** Segments and the cases of the loop *)
Lemma strands_handleCloseWait seg : strands (handleCloseWait seg).
Proof. unfold handleCloseWait. strand. unfold updateMaxWnd. by destruct (_ >? _). Qed.
#[export] Hint Resolve strands_handleCloseWait : strands.
Lemma strands_dispatchState seg : strands (dispatchState seg).
Proof. unfold dispatchState. apply strands_getc. intros c Hc. rewrite (sd_state _ Hc). strand. Qed.
#[export] Hint Resolve strands_dispatchState : strands.

Lemma withTimestamps_flags c seg seg' : withTimestamps c seg = Ret seg' → sg_flags seg' = sg_flags seg.
Proof. unfold withTimestamps. intros E. inv_run; done. Qed.

Lemma strands_handleSegment pb : no_rst pb → strands (handleSegment pb).
Proof.
  intros Hpb. unfold handleSegment. intros e s s' a H E. apply run_bind_inv in E as (s1 & seg & E1 & E).
  unfold lift in E1. destruct (parseSeg pb) as [seg0| |] eqn:Ep; try done. injection E1 as <- <-.
  rewrite run_getc in E. apply run_bind_inv in E as (s2 & seg' & E2 & E). unfold lift in E2.
  destruct (withTimestamps _ seg0) as [seg1| |] eqn:Et; try done. injection E2 as <- <-.
  rewrite (withTimestamps_flags _ _ _ Et), (Hpb _ Ep) in E. revert E. destruct (_ && _); [by apply strands_count|].
  destruct (_ && _); [by apply strands_sendACK|]. intros E.
  match type of E with ?m e s = _ => assert (strands m) as Hm; [strand|by eapply Hm] end.
Qed.

Lemma strands_after_segment : strands after_segment.
Proof. unfold after_segment. strand. Qed.
#[export] Hint Resolve strands_after_segment : strands.

(** Cases of the loop that leave it stranded and go on. *)
Definition loops (m : conn_m bool) : Prop :=
  ∀ e s s' b, stranded (cs_conn s) → m e s = Ret (s', b) → stranded (cs_conn s') ∧ b = false.

Lemma loops_ret : loops (mret false).
Proof. by intros e s s' b H [= <- <-]. Qed.
Lemma loops_bind {A} (m : conn_m A) (f : A → conn_m bool) : strands m → (∀ a, loops (f a)) → loops (m ≫= f).
Proof. intros Hm Hf e s s' b H (s1 & a & E1 & E2)%run_bind_inv. eapply Hf; [|exact E2]. by eapply Hm. Qed.
Lemma loops_getc (f : TCPConn → conn_m bool) : (∀ c, stranded c → loops (f c)) → loops (getc ≫= f).
Proof. intros Hf e s s' b H E. rewrite run_getc in E. by eapply Hf. Qed.

Ltac loop :=
  repeat first
    [ apply loops_ret
    | match goal with
      | |- loops (match ?x with _ => _ end) => destruct x
      | |- loops (getc ≫= _) =>
          let c := fresh "c" in let Hc := fresh "Hc" in
          apply loops_getc; intros c Hc; rewrite ?(sd_pending c Hc), ?(sd_state c Hc), ?(sd_accepting c Hc)
      end
    | apply loops_bind; [strand|intros ?]
    | progress cbn [negb bool_decide] ].

Lemma loops_on_inbound pb : no_rst pb → loops (on_inbound pb).
Proof.
  intros Hpb. apply loops_bind; [by apply strands_handleSegment|intros _]. loop.
Qed.

Lemma loops_case ev :
  match ev with EvInbound | EvAcceptRoom | EvCloseCh | EvForceClose | EvTimeWait | EvDone => False | _ => True end →
  loops (run_step ev).
Proof.
  destruct ev; try done; intros _; cbn [run_step]; unfold on_rto, on_delayedACK, on_zeroWindow, on_keepalive,
    on_writeNotify, on_windowNotify, on_synRcvdTimeout, on_finWait2Timeout; loop.
Qed.

(** A case of the loop that can be taken leaves it stranded, and the loop goes
    on. *)
Lemma stranded_step ev e s s' b :
  stranded (cs_conn s) → ready ev (cs_conn s) (cs_world s) = true → run_step ev e s = Ret (s', b) →
  stranded (cs_conn s') ∧ b = false.
Proof.
  intros H Hr. pose proof H as []. unfold ready in Hr. rewrite sd_accepting0 in Hr.
  destruct ev; try done; try (by apply loops_case); try congruence.
  - cbn [run_step]. intros E. rewrite run_getc in E.
    destruct (c_inbound (cs_conn s)) as [|pb rest]; [by injection E as <- <-|].
    apply Forall_cons in sd_inbound0 as [Hpb Hrest].
    apply run_bind_inv in E as (s1 & [] & [= <-] & E2). eapply (loops_on_inbound pb Hpb); [|exact E2]. by split.
  - by rewrite sd_timeWait0 in Hr.
Qed.

(** ** Calls of the application *)
Lemma stranded_call a c c' :
  stranded c → a ≠ CallForceClose → app_step a c = Ret c' → stranded c'.
Proof.
  intros H Ha. pose proof H as []. destruct a as [n| |p k| | | | |b]; cbn [app_step]; try done.
  - intros ([c1 r] & E1 & [= <-])%bind_Ret. unfold Read_conn in E1.
    apply bind_Ret in E1 as ([rb res] & _ & E1). by destruct res as [d ?|?]; [destruct (zlen d >? 0)|]; injection E1 as <- _; split.
  - unfold Write_start. rewrite sd_shut0. by intros [= <-].
  - intros ([c1 r] & E1 & [= <-])%bind_Ret. unfold Write_conn in E1.
    apply bind_Ret in E1 as ([rb res] & E & E1). unfold Write_round in E. rewrite sd_closed0 in E.
    assert (rb = c_writeBuf c) as -> by (destruct (_ <? _); by simplify_eq).
    by destruct res as [n ?|?|n]; [destruct (n >? 0)|..]; injection E1 as <- _; split.
  - intros [= <-]. unfold CloseWrite_conn. by rewrite sd_once0.
  - intros [= <-]. unfold CloseRead. destruct (c_closeReadOnce c); [done|]. by split.
  - intros [= <-]. unfold Close_conn, CloseWrite_conn. by rewrite sd_once0.
  - intros [= <-]. by split.
Qed.

(** ** The whole TCP layer *)

(** What happens otherwise: no reset, no forced close of this connection, and
    the handler stays open. *)
Definition peaceful (f : FlowID) (a : tcp_action) : Prop :=
  match a with
  | APacket _ pb => no_rst pb
  | ACall g CallForceClose => g ≠ f
  | AClose => False
  | _ => True
  end.

Inductive goes_on (f : FlowID) (h : TCPHandler) : TCPHandler → Prop :=
| goes_on_start : goes_on f h h
| goes_on_step e a h1 h2 : goes_on f h h1 → peaceful f a → tcp_step e a h1 = Ret h2 → goes_on f h h2.

Definition stranded_in (f : FlowID) (h : TCPHandler) : Prop := ∃ c, h_conns h !! f = Some c ∧ stranded c.

Lemma stranded_in_same f h h' : stranded_in f h → h_conns h' = h_conns h → stranded_in f h'.
Proof. intros (c & Hf & Hs) E. exists c. by rewrite E. Qed.

Lemma stranded_in_insert f g c h h' :
  stranded_in f h → h_conns h' = <[g := c]> (h_conns h) → (g = f → stranded c) → stranded_in f h'.
Proof.
  intros (c0 & Hf & Hs) E Hc. unfold stranded_in. rewrite E. destruct (decide (g = f)) as [->|].
  - exists c. rewrite lookup_insert_eq. auto.
  - exists c0. by rewrite lookup_insert_ne.
Qed.

Lemma with_conn_table {A} e h c (m : conn_m A) h' c' a :
  with_conn e h c m = Ret (h', c', a) →
  h_conns h' = h_conns h ∧ m e (mkCS c (h_world h)) = Ret (mkCS c' (h_world h'), a).
Proof. unfold with_conn. intros ([[c1 w1] b] & E & [= <- <- <-])%bind_Ret. by rewrite E. Qed.

Lemma stranded_syn e iss h pb g f h' :
  stranded_in f h → g ≠ f → handleSYN e iss h pb g = Ret h' → stranded_in f h'.
Proof.
  intros Hin Hne E. unfold handleSYN in E. inv_run;
    repeat match goal with H : with_conn _ _ _ _ = Ret _ |- _ => apply with_conn_table in H as [? _] end.
  - by eapply stranded_in_same.
  - eapply (stranded_in_insert f g _ h); [done| |done].
    cbn. repeat match goal with H : h_conns _ = h_conns _ |- _ => rewrite H end. reflexivity.
Qed.

Lemma stranded_packet e iss pb f h h' :
  stranded_in f h → no_rst pb → HandlePacket e iss h pb = Ret h' → stranded_in f h'.
Proof.
  intros Hin Hpb E. pose proof Hin as (c & Hf & Hs). unfold HandlePacket in E.
  inv_run; try (by eapply stranded_in_same).
  match type of E with context [h_conns h !! ?g] => destruct (h_conns h !! g) as [c'|] eqn:Hg; set (k := g) in * end.
  - destruct (zlen (c_inbound c') <? c_inboundCap c'); injection E as <-; [|by eapply stranded_in_same].
    eapply stranded_in_insert; [exact Hin|done|]. intros ->. assert (c' = c) as -> by congruence.
    destruct Hs. split; try done. cbn. apply Forall_app. by split; [|constructor].
  - assert (k ≠ f) by (intros ->; congruence). inv_run; [|by eapply stranded_in_same|].
    + eapply stranded_syn; [|done|exact E]. by eapply stranded_in_same.
    + apply sendRST_change in E as [E _]. by eapply stranded_in_same.
Qed.

Lemma stranded_loop e g ev f h h' :
  stranded_in f h → conn_step e h g ev = Ret h' → stranded_in f h'.
Proof.
  intros Hin E. unfold conn_step in E. destruct (h_conns h !! g) as [c|] eqn:Hg; [|by injection E as <-].
  destruct (ready ev c (h_world h)) eqn:Hr; [|by injection E as <-].
  apply bind_Ret in E as ([[h1 c1] b] & E1 & E). apply with_conn_table in E1 as [Et E1].
  assert (g = f → stranded c1 ∧ b = false) as Hc1.
  { intros ->. destruct Hin as (c0 & Hf & Hs). rewrite Hg in Hf. injection Hf as ->. by eapply stranded_step in E1. }
  destruct b.
  - assert (g ≠ f) by (by intros ->; destruct Hc1). apply bind_Ret in E as ([[h2 c2] ?] & E2 & [= <-]).
    apply with_conn_table in E2 as [Et2 _]. destruct Hin as (c0 & Hf & Hs). exists c0. cbn.
    by rewrite lookup_delete_ne, Et2, Et.
  - injection E as <-. eapply (stranded_in_insert f g c1 h); [done|cbn; by rewrite Et|]. intros ->. by apply Hc1.
Qed.

Lemma stranded_goes_on f h h' : stranded_in f h → goes_on f h h' → stranded_in f h'.
Proof.
  intros Hin. induction 1 as [|e a h1 h2 _ IH Hp E]; [done|]. destruct a as [iss pb|g ev|g a|k| |]; cbn in E; try done.
  - by eapply stranded_packet.
  - by eapply stranded_loop.
  - destruct (h_conns h1 !! g) as [c|] eqn:Hg; [|by injection E as <-].
    apply bind_Ret in E as (c' & E & [= <-]). eapply stranded_in_insert; [exact IH|done|]. intros ->.
    destruct IH as (c0 & Hf & Hs). rewrite Hg in Hf. injection Hf as ->.
    apply (stranded_call a c0 c'); [exact Hs|by intros ->; cbn in Hp|exact E].
  - injection E as <-. eapply stranded_in_same; [exact IH|]. unfold Accept. repeat case_match; done.
  - injection E as <-. by eapply stranded_in_same.
Qed.

(** C36: a connection whose deferred FIN was taken after the application closed
    it is never released.  Once it is in CLOSE_WAIT with its own FIN sent and
    acknowledged, then whatever packets without a reset arrive, for it or any
    other connection, whichever cases of the loops are taken and whatever the
    applications call other than [ForceClose] on it: it is still in the table,
    in CLOSE_WAIT and not done, and it has nothing left to send or resend. *)
Theorem late_fin_leaks_connection f h h' c :
  h_conns h !! f = Some c → stranded c → goes_on f h h' →
  ∃ c' x, h_conns h' !! f = Some c' ∧ c_state c' = stateCloseWait ∧ c_done c' = false ∧
    c_snd c' = Some x ∧ s_unacked x = [] ∧ Len (c_writeBuf c') = Ret 0.
Proof.
  intros Hf Hs Hg. destruct (stranded_goes_on f h h') as (c' & Hf' & []); [by exists c|done|].
  destruct sd_acked0 as (x & Hx & Hu). by exists c', x.
Qed.

(** The run that leads there: the peer's FIN arrives ahead of two missing
    bytes, the application closes, our FIN is sent (FIN_WAIT_1), then the
    missing bytes arrive, and at last the acknowledgement of our FIN.  A second
    [Close] and the keepalive timer change nothing. *)
Definition late_fin_run : list tcp_action :=
  [peer_syn []; peer_ack []; take_segment;
   peer_segment 5003 1001 (Z.lor TCPFlagFIN TCPFlagACK) [3; 4]; take_segment;
   ACall sample_flow CallClose; ARun sample_flow EvCloseCh;
   peer_segment 5001 1001 TCPFlagACK [1; 2]; take_segment;
   peer_segment 5006 1002 TCPFlagACK []; take_segment].

Lemma late_fin_leaks_connection_witness :
  let h := the_handler (tcp_run sample_env late_fin_run (EnableStats sample_start)) in
  let h' := the_handler (tcp_run sample_env [ACall sample_flow CallClose; ARun sample_flow EvKeepalive] h) in
  stranded (the_conn h) ∧ (∀ ev, ready ev (the_conn h') (h_world h') = false) ∧
  ∃ c' x, h_conns h' !! sample_flow = Some c' ∧ c_state c' = stateCloseWait ∧ c_done c' = false ∧
    c_snd c' = Some x ∧ s_unacked x = [] ∧ Len (c_writeBuf c') = Ret 0.
Proof.
  intros h h'. assert (stranded (the_conn h)) as Hs.
  { split; try (vm_compute; reflexivity); [eexists; split; vm_compute; reflexivity|].
    assert (c_inbound (the_conn h) = []) as -> by (vm_compute; reflexivity). constructor. }
  split; [exact Hs|]. split; [intros []; vm_compute; reflexivity|].
  apply (late_fin_leaks_connection sample_flow h h' (the_conn h)); [vm_compute; reflexivity|exact Hs|].
  apply (goes_on_step _ _ sample_env (ARun sample_flow EvKeepalive) (the_handler (tcp_run sample_env [ACall sample_flow CallClose] h)));
    [|done|vm_compute; reflexivity].
  apply (goes_on_step _ _ sample_env (ACall sample_flow CallClose) h); [apply goes_on_start|done|vm_compute; reflexivity].
Defined.
