(* ===== verification/TcpLink.v ===== *)
(** TCP over the stack: a segment that a connection sends reaches the queue of
    the connection at the other end, and is parsed there to what was sent. *)
From S2P Require Import Prelude.
From S2P Require Import Tcpip.
From S2P Require Import Checksum.
From S2P Require Import Header.
From S2P Require Import TcpHeader.
From S2P Require Import TcpOptions.
From S2P Require Import Packet.
From S2P Require Import Fragmentation.
From S2P Require Import Reassembly.
From S2P Require Import Stack.
From S2P Require Import IpLayer.
From S2P Require Import Ringbuf.
From S2P Require Import TcpConn.
From S2P Require Import Rcv.
From S2P Require Import Segment.
From S2P Require Import SegmentFacts.
From S2P Require Import Handler.
Import TCP.
Import Tcp.

(** Fields of a segment of the connection that fit their widths. *)
Record sendable (c : TCPConn) (seq ack flags w : Z) (opts data : bytes) : Prop := {
  se_flow : is_u16 (SrcPort (c_flow c)) ∧ is_u16 (DstPort (c_flow c)) ∧
            is_u32 (SrcAddr (c_flow c)) ∧ is_u32 (DstAddr (c_flow c));
  se_seq : is_u32 seq; se_ack : is_u32 ack; se_flags : 0 ≤ flags < 64; se_wnd : is_u16 w;
  se_opts : bytes_ok opts ∧ zlen opts ≤ 40 ∧ zlen opts mod 4 = 0;
  se_data : bytes_ok data;
  se_len : 40 + zlen opts + zlen data ≤ 65535 }.

Lemma sendable_fields c seq ack flags w opts data :
  sendable c seq ack flags w opts data →
  let f := conn_fields c seq ack (20 + zlen opts) flags w in
  fDataOffset f * 4 = 20 + zlen opts ∧ ∀ x, is_u16 x → fields_ok (with_csum f x).
Proof.
  intros [(? & ? & _) ? ? ? ? (_ & Hl & Hm) _ _] f. pose proof (zlen_nonneg opts).
  assert (fDataOffset f = (20 + zlen opts) / 4) as Ed.
  { unfold f, conn_fields. cbn. rewrite Z.quot_div_nonneg by lia. apply u8_id. unfold is_u8. mlia. }
  split; [rewrite Ed; mlia|]. intros x Hx. split; try done.
  change (0 ≤ fDataOffset f < 16). rewrite Ed. mlia.
Qed.

(** The handler of the other end queues it on the connection of the flow, and
    the connection reads back the fields, the options and the data. *)
Lemma tcp_HandlePacket_queues e iss hr conn pkt ip c seq ack flags w opts data f :
  sendable c seq ack flags w opts data →
  carries pkt ip (conn_segment c seq ack flags w opts data) →
  IPv4.HeaderLength ip = Ret 20 → IPv4.Decode ip = Ret f →
  IPv4.fTotalLength f = 40 + zlen opts + zlen data →
  IPv4.fSrcAddr f = DstAddr (c_flow c) → IPv4.fDstAddr f = SrcAddr (c_flow c) →
  h_closed hr = false → h_conns hr !! flow_reverse (c_flow c) = Some conn →
  zlen (c_inbound conn) < c_inboundCap conn →
  HandlePacket e iss hr pkt = Ret ((count hr (bump SegmentsIn))
    <| h_conns := <[flow_reverse (c_flow c) := conn <| c_inbound := c_inbound conn ++ [pkt] |>]>
                        (h_conns hr) |>) ∧
  parseSeg pkt = Ret (mkSegment flags seq ack w opts data 0 0 false).
Proof.
  intros Hs [Hn Hd] Hhl Hdec Htot Hsrc Hdst Hcl Hconn Hroom.
  destruct (sendable_fields _ _ _ _ _ _ _ Hs) as [Hoff Hok].
  destruct Hs as [(Hsp & Hdp & _) _ _ _ _ (Hob & Hol & _) Hdb Hlen].
  set (fl := conn_fields c seq ack (20 + zlen opts) flags w) in *.
  pose proof (zlen_nonneg opts). pose proof (zlen_nonneg data).
  assert (Hf : fields_ok (with_csum fl (segment_csum fl opts data (DstAddr (c_flow c)) (SrcAddr (c_flow c))))).
  { apply Hok. apply Checksum_range; [|unfold sum_fits; rewrite !zlen_app, zlen_hdr_bytes; lia|
      apply PseudoHeaderChecksum_range]. apply Forall_app. split; [apply bytes_ok_hdr_bytes|by apply Forall_app]. }
  split.
  2:{ by apply (segment_parses pkt fl opts data _ _ Hd). }
  unfold HandlePacket. rewrite Hd, bind_Ret_l. unfold conn_segment. fold fl.
  rewrite zlen_segment_bytes. change TCPMinHeaderSize with 20.
  rewrite (proj2 (Z.ltb_ge _ _)) by lia. rewrite Hn, bind_Ret_l.
  unfold IPv4.Decode in Hdec. inv_outcome. cbn in Htot, Hsrc, Hdst.
  rewrite Ha0, bind_Ret_l, Hhl, bind_Ret_l, Ha7, bind_Ret_l, Ha8, bind_Ret_l. subst a0 a7 a8.
  replace (40 + zlen opts + zlen data - 20) with (20 + zlen opts + zlen data) by lia.
  rewrite (u16_id (20 + zlen opts + zlen data)), Z.min_id by ulia.
  rewrite slice_to_ok, ztake_all, bind_Ret_l by (rewrite zlen_segment_bytes; lia).
  change (PseudoHeaderChecksum TCPProtocolNumber ?a ?b ?n) with (tcp_pseudo a b n).
  rewrite segment_verifies by (done || lia). cbn [negb Z.eqb].
  destruct (Encode_Decode_hdr _ (opts ++ data) Hf) as [Hdec _].
  unfold segment_bytes. set (seg := hdr_bytes _ ++ opts ++ data) in *. clearbody seg.
  unfold Decode in Hdec. inv_outcome. cbn in *. subst.
  rewrite Ha9, bind_Ret_l, Ha10, bind_Ret_l, Hcl.
  change (mkFlowID _ _ _ _) with (flow_reverse (c_flow c)). rewrite Hconn.
  by rewrite (proj2 (Z.ltb_lt _ _)) by lia.
Qed.

(** * Through both stacks *)

(** The sending stack is running with an empty queue, and the other one can
    take a packet of [n] bytes for this pair of addresses. *)
Record path_ok (s r : Stack) (flow : FlowID) (n t0 t1 : Z) : Prop := {
  pa_ttl : is_u8 (s_ttl s);
  pa_running : s_done s = false;
  pa_queue : s_outboundCh s = [] ∧ 0 < s_queueSize s;
  pa_mtu : 28 ≤ s_mtu s ≤ maxSupportedMTU;
  pa_receiver : receiver_ok r (mkKey (DstAddr flow) (SrcAddr flow) (next_id s) TCPProtocolNumber)
                  TCPProtocolNumber n t0 t1 }.

(** The other handler is open and has the connection of the flow, with room
    in its queue. *)
Record peer_ok (hr : TCPHandler) (flow : FlowID) (conn : TCPConn) : Prop := {
  pe_open : h_closed hr = false;
  pe_conn : h_conns hr !! flow_reverse flow = Some conn;
  pe_room : zlen (c_inbound conn) < c_inboundCap conn }.

(** What arrives: the packet [pkt] is queued on the peer's connection, which
    parses it as [seg]. *)
Definition arrives_as (hr : TCPHandler) (e : Env) (iss : Z) (flow : FlowID) (conn : TCPConn)
    (pkt : PacketBuffer) (seg : segment) : Prop :=
  ∃ hr' conn', HandlePacket e iss hr pkt = Ret hr' ∧
    h_conns hr' !! flow_reverse flow = Some conn' ∧ c_inbound conn' = c_inbound conn ++ [pkt] ∧
    parseSeg pkt = Ret seg.

(** A packet handed to the stack crosses both and arrives as [seg]. *)
Definition crosses (s r : Stack) (hr : TCPHandler) (e : Env) (iss : Z) (flow : FlowID) (conn : TCPConn)
    (pb : PacketBuffer) (t0 t1 : Z) (seg : segment) : Prop :=
  ∃ s1 s2 out,
    SendPacket false s pb (DstAddr flow) (SrcAddr flow) TCPProtocolNumber = Ret (s1, Enqueued) ∧
    writeLoop_round false s1 = Ret (Some (s2, out)) ∧
    Forall (λ w, zlen (wire_data w) ≤ s_mtu s) out ∧
    ∀ evs, (rd_raw <$> evs) ≡ₚ (wire_data <$> out) → Forall (read_ok t0 t1) evs →
    ∃ r' pkt, read_all r evs = Ret (r', replicate (length evs - 1) ReadDrops ++
        [ReadDispatches TCPProtocolNumber pkt]) ∧
      arrives_as hr e iss flow conn pkt seg.

Lemma segment_crosses s r hr e iss c conn pb seq ack flags w opts data t0 t1 :
  sendable c seq ack flags w opts data → holds pb (conn_segment c seq ack flags w opts data) →
  pb_consumed pb + 20 ≤ pb_headroom pb →
  path_ok s r (c_flow c) (20 + zlen opts + zlen data) t0 t1 → peer_ok hr (c_flow c) conn →
  crosses s r hr e iss (c_flow c) conn pb t0 t1 (mkSegment flags seq ack w opts data 0 0 false).
Proof.
  intros Hs Hh Hroom [Httl Hrun [Hq Hqs] Hmtu Hrc] [Hop Hconn Hin].
  assert (zlen (conn_segment c seq ack flags w opts data) = 20 + zlen opts + zlen data) as Lseg
    by apply zlen_segment_bytes.
  destruct (packet_gets_through s r pb (conn_segment c seq ack flags w opts data)
    (DstAddr (c_flow c)) (SrcAddr (c_flow c)) TCPProtocolNumber t0 t1)
    as (s1 & s2 & out & E1 & E2 & Hfit & Hre); try done; rewrite ?Lseg; try done.
  { destruct Hs. lia. } { by destruct Hs as [(_ & _ & ? & ?) _ _ _ _ _ _ _]. }
  { by destruct Hs as [(_ & _ & ? & ?) _ _ _ _ _ _ _]. }
  exists s1, s2, out. split; [exact E1|]. split; [exact E2|]. split; [exact Hfit|].
  intros evs Hperm Hevs. destruct (Hre evs Hperm Hevs) as (r' & pkt & h & ck & Er & Hcar & Hhl & Hdec).
  exists r', pkt. split; [exact Er|].
  destruct (tcp_HandlePacket_queues e iss hr conn pkt h c seq ack flags w opts data _ Hs Hcar Hhl Hdec)
    as [Eh Ep]; [cbn [IPv4.fTotalLength]; rewrite Lseg; lia|done..|].
  eexists _, _. split; [exact Eh|]. split; [apply lookup_insert_eq|]. by split.
Qed.

(** C4: data reaches the other end.  What a connection hands to [sendData]
    leaves its stack in packets that fit the MTU; when the peer's stack reads
    them, in any order, the peer's handler accepts the checksum, finds the
    connection of the reversed flow and queues the packet, and that connection
    parses it to exactly the data, the sequence number, the acknowledgement
    number, the advertised window and the timestamps that were sent. *)
Theorem tcp_data_gets_through e c w rcv data seq s r hr e2 iss conn t0 t1 :
  ring_ok (c_readBuf c) → c_rcv c = Some rcv → bytes_ok data → zlen data ≤ 65483 →
  is_u16 (SrcPort (c_flow c)) ∧ is_u16 (DstPort (c_flow c)) ∧
    is_u32 (SrcAddr (c_flow c)) ∧ is_u32 (DstAddr (c_flow c)) →
  is_u32 seq → is_u32 (r_nxt rcv) → is_u32 (c_tsRecent c) →
  path_ok s r (c_flow c) (20 + (if c_tsEnabled c then 12 else 0) + zlen data) t0 t1 →
  peer_ok hr (c_flow c) conn →
  ∃ w' wd tv opts pb, sendData data seq e (mkCS c w) = Ret (mkCS (sentData c wd) w', tt) ∧
    wnd c = Ret wd ∧
    w_sent w' = w_sent w ++
      [SentPacket pb (DstAddr (c_flow c)) (SrcAddr (c_flow c)) TCPProtocolNumber] ∧
    ParseSegmentOptions opts = Ret (mkSegmentOptions [] (c_tsEnabled c)
      (if c_tsEnabled c then tv else 0) (if c_tsEnabled c then c_tsRecent c else 0)) ∧
    crosses s r hr e2 iss (c_flow c) conn pb t0 t1
      (mkSegment TCPFlagACK seq (r_nxt rcv) wd opts data 0 0 false).
Proof.
  intros Hok Hr Hd Hl Hfl Hseq Hack Hts Hpath Hpeer.
  destruct (sendData_run e c w rcv data seq) as (w' & wd & tv & E & Ewd & Hwd & Htv & Hem); [done..|lia|].
  destruct (em_sent _ _ _ _ _ Hem) as (pb & Esent & Hh & Hroom).
  pose proof (zlen_plain_opts (c_tsEnabled c) tv (c_tsRecent c)) as Lo.
  exists w', wd, tv, (segment_opts (c_tsEnabled c) tv (c_tsRecent c) []), pb.
  split; [exact E|]. split; [done|]. split; [exact Esent|]. split.
  { apply segment_opts_parse; try done. destruct (c_tsEnabled c); done. }
  apply segment_crosses; try done; [|by rewrite Lo].
  split; try done; rewrite ?Lo; [|destruct (c_tsEnabled c); lia].
  split; [apply bytes_ok_segment_opts|]. destruct (c_tsEnabled c); done.
Qed.

(** A connection between the two sample addresses, the stack it sends with,
    and the handler of the other end with its connection. *)
Definition tcp_stack (mtu : Z) : Stack :=
  mkStack mtu false [] 4 {[ TCPProtocolNumber ]} newIPv4Reassembler 0 64 None false.
Definition sample_rcv : receiver :=
  mkReceiver 5000 5010 [mkOoo 5020 [1; 2; 3]] false 0 (mkSACKBlock 0 0) false None 0 0 0.
Definition sample_ring : ringBuffer := mkRing (make_bytes 64) 0 0 false 0 0 false.
Definition sample_sender : TCPConn :=
  sample_conn stateEstablished None (Some sample_rcv) sample_ring sample_ring.
Definition sample_peer : TCPConn :=
  (sample_conn stateEstablished None None sample_ring sample_ring)
    <| c_flow := flow_reverse sample_flow |>.
Definition sample_tcp : TCPHandler :=
  mkTCPHandler {[ flow_reverse sample_flow := sample_peer ]} false defaultConfig false sample_world.

Lemma sample_ring_ok : ring_ok sample_ring.
Proof. by split. Qed.
Lemma sample_path_ok n :
  0 ≤ n ≤ 100 → path_ok (tcp_stack 36) (tcp_stack 1500) sample_flow n 0 30000000000.
Proof.
  intros Hn. split; try done. split; try done.
  change (0 + n ≤ 4194304). lia.
Qed.
Lemma sample_peer_ok : peer_ok sample_tcp sample_flow sample_peer.
Proof. by split. Qed.

Lemma tcp_data_gets_through_witness :
  ∃ w' wd tv opts pb,
    sendData sample_payload 1001 sample_env (mkCS sample_sender sample_world)
      = Ret (mkCS (sentData sample_sender wd) w', tt) ∧
    wnd sample_sender = Ret wd ∧
    w_sent w' = w_sent sample_world ++
      [SentPacket pb (DstAddr sample_flow) (SrcAddr sample_flow) TCPProtocolNumber] ∧
    ParseSegmentOptions opts = Ret (mkSegmentOptions [] (c_tsEnabled sample_sender)
      (if c_tsEnabled sample_sender then tv else 0)
      (if c_tsEnabled sample_sender then c_tsRecent sample_sender else 0)) ∧
    crosses (tcp_stack 36) (tcp_stack 1500) sample_tcp sample_env 0 sample_flow sample_peer pb 0 30000000000
      (mkSegment TCPFlagACK 1001 5010 wd opts sample_payload 0 0 false).
Proof.
  exact (tcp_data_gets_through sample_env sample_sender sample_world sample_rcv sample_payload 1001
    (tcp_stack 36) (tcp_stack 1500) sample_tcp sample_env 0 sample_peer 0 30000000000
    sample_ring_ok eq_refl ltac:(repeat constructor; done) ltac:(done) ltac:(done) ltac:(done)
    ltac:(done) ltac:(done) (sample_path_ok 44 ltac:(done)) sample_peer_ok).
Defined.

(** An ACK reaches the other end.  What [sendACK] sends arrives at the
    peer's connection as a segment with the next sequence number, the next
    byte expected, the advertised window, and the SACK blocks of the
    out-of-order list, none lost in the option space. *)
Theorem tcp_ack_gets_through e c w s r hr e2 iss conn t0 t1 :
  ring_ok (c_readBuf c) → is_u16 (rcvWndSize (c_cfg c)) →
  is_u16 (SrcPort (c_flow c)) ∧ is_u16 (DstPort (c_flow c)) ∧
    is_u32 (SrcAddr (c_flow c)) ∧ is_u32 (DstAddr (c_flow c)) →
  is_u32 (next_seq c) → is_u32 (next_ack c) → is_u32 (c_tsRecent c) → Forall block_ok (ack_blocks c) →
  path_ok s r (c_flow c) 60 t0 t1 → peer_ok hr (c_flow c) conn →
  ∃ w' wd tv opts pb, sendACK e (mkCS c w) = Ret (mkCS (acked c wd) w', tt) ∧
    adv_wnd c = Ret wd ∧
    w_sent w' = w_sent w ++
      [SentPacket pb (DstAddr (c_flow c)) (SrcAddr (c_flow c)) TCPProtocolNumber] ∧
    ParseSegmentOptions opts = Ret (mkSegmentOptions (ack_blocks c) (c_tsEnabled c)
      (if c_tsEnabled c then tv else 0) (if c_tsEnabled c then c_tsRecent c else 0)) ∧
    crosses s r hr e2 iss (c_flow c) conn pb t0 t1
      (mkSegment TCPFlagACK (next_seq c) (next_ack c) wd opts [] 0 0 false).
Proof.
  intros Hok Hrw Hfl Hseq Hack Hts Hb Hpath Hpeer.
  destruct (sendACK_run e c w) as (w' & wd & tv & E & Ewd & Hwd & Htv & Hem); [done..|].
  destruct (em_sent _ _ _ _ _ Hem) as (pb & Esent & Hh & Hroom).
  assert (zlen (ack_blocks c) ≤ if c_tsEnabled c then 3 else 4) as Lb.
  { unfold ack_blocks. destruct (c_rcv c) as [rc|], (c_sackPermitted c);
      [apply sackBlocks_len|by destruct (c_tsEnabled c)..]. }
  destruct (zlen_segment_opts _ tv (c_tsRecent c) _ Lb) as [Hm Lo].
  set (opts := segment_opts (c_tsEnabled c) tv (c_tsRecent c) (ack_blocks c)) in *.
  exists w', wd, tv, opts, pb.
  split; [exact E|]. split; [done|]. split; [exact Esent|]. split; [by apply segment_opts_parse|].
  apply segment_crosses; try done.
  - split; try done; [|change (zlen (@nil Z)) with 0; lia].
    split_and!; [apply bytes_ok_segment_opts|lia|]. by apply Z.mod_divide.
  - destruct Hpath as [? ? ? ? [? ? ? ? ?]]. split; try done. split; try done.
    change (zlen (@nil Z)) with 0. lia.
Qed.

Lemma tcp_ack_gets_through_witness :
  ∃ w' wd tv opts pb,
    sendACK sample_env (mkCS sample_sender sample_world) = Ret (mkCS (acked sample_sender wd) w', tt) ∧
    adv_wnd sample_sender = Ret wd ∧
    w_sent w' = w_sent sample_world ++
      [SentPacket pb (DstAddr sample_flow) (SrcAddr sample_flow) TCPProtocolNumber] ∧
    ParseSegmentOptions opts = Ret (mkSegmentOptions [mkSACKBlock 5020 5023] (c_tsEnabled sample_sender)
      (if c_tsEnabled sample_sender then tv else 0)
      (if c_tsEnabled sample_sender then c_tsRecent sample_sender else 0)) ∧
    crosses (tcp_stack 36) (tcp_stack 1500) sample_tcp sample_env 0 sample_flow sample_peer pb 0 30000000000
      (mkSegment TCPFlagACK 1001 5010 wd opts [] 0 0 false).
Proof.
  exact (tcp_ack_gets_through sample_env sample_sender sample_world
    (tcp_stack 36) (tcp_stack 1500) sample_tcp sample_env 0 sample_peer 0 30000000000
    sample_ring_ok ltac:(done) ltac:(done) ltac:(done)
    ltac:(done) ltac:(done) ltac:(repeat constructor; done) (sample_path_ok 60 ltac:(done)) sample_peer_ok).
Defined.
