(* ===== verification/GsoLink.v ===== *)
(** TCP with segmentation offload: the one large packet of [sendDataGSO], once
    written to a TUN device and read from another, arrives as the ordinary
    segments the connection would have sent itself. *)
From S2P Require Import Prelude.
From S2P Require Import Tcpip.
From S2P Require Import Checksum.
From S2P Require Import Header.
From S2P Require Import TcpHeader.
From S2P Require Import TcpOptions.
From S2P Require Import Packet.
From S2P Require Import Fragmentation.
From S2P Require Import Reassembly.
From S2P Require Import Stack.
From S2P Require Import IpLayer.
From S2P Require Import Ringbuf.
From S2P Require Import TcpConn.
From S2P Require Import Rcv.
From S2P Require Import Segment.
From S2P Require Import SegmentFacts.
From S2P Require Import TunChecksum.
From S2P Require Import TunOffload.
From S2P Require Import TunSplit.
From S2P Require Import Handler.
From S2P Require Import TcpLink.
Import TCP.
Import Tcp.

(** * Through the sending stack *)

(** The large packet is written to the device behind its virtio header. *)
Lemma SendPacketGSO_written st (A T data rest : bytes) src dst opts :
  is_u8 (s_ttl st) → s_done st = false → s_outboundCh st = [] ∧ 0 < s_queueSize st → s_gso st = true →
  zlen A = 20 → zlen (A ++ T ++ data ++ rest) = GSOBufSize → 20 + zlen T + zlen data ≤ 65535 →
  let n := 20 + zlen T + zlen data in
  let h := sent_header n (next_id st) (s_ttl st) TCPProtocolNumber src dst in
  ∃ st1 st2, SendPacketGSO false st (A ++ T ++ data ++ rest) 0 n src dst TCPProtocolNumber opts =
      Ret (st1, Enqueued) ∧
    writeLoop_round false st1 = Ret (Some (st2, [WritePacketGSO (h ++ T ++ data) opts])).
Proof.
  intros Httl Hrun [Hq Hqs] Hgso LA Lb Hn n h. pose proof (zlen_nonneg T). pose proof (zlen_nonneg data).
  pose proof (zlen_nonneg rest).
  assert (zlen h = 20) as Lh by done. rewrite !zlen_app in Lb.
  unfold SendPacketGSO. destruct (Z.gtb_spec n 65535); [lia|]. unfold nextIPv4ID.
  change IPv4.IPv4MinHeaderSize with 20.
  rewrite view_update_front by done.
  change (s_ttl (st <| s_ipv4ID := u32 (s_ipv4ID st + 1) |>)) with (s_ttl st). fold (next_id st).
  rewrite writeIPHeader_val, !bind_Ret_l by (done || apply u16_range || ulia).
  fold (sent_header n (next_id st) (s_ttl st) TCPProtocolNumber src dst). fold h.
  assert (view_get (h ++ T ++ data ++ rest) (mkView 0 n) = Ret (h ++ T ++ data)) as Ev.
  { rewrite !app_assoc. apply (view_get_app [] ((h ++ T) ++ data)). rewrite !zlen_app. lia. }
  clearbody h. rewrite Ev, bind_Ret_l. unfold enqueue. cbn. rewrite Hrun, Hq. cbn.
  rewrite (proj2 (Z.leb_gt (s_queueSize st) (zlen []))) by done. do 2 eexists. split; [reflexivity|].
  unfold writeLoop_round. cbn. unfold writeGSOItem. rewrite Ev, bind_Ret_l. cbn. rewrite Hgso. cbn.
  unfold PutGSOBuf. rewrite slice_to_ok; [reflexivity|]. rewrite !zlen_app. unfold GSOBufSize in *. lia.
Qed.

(** * The segments of the large packet *)
Lemma seg_ip_sent g th payload total id ttl proto src dst i :
  let ih := sent_header total id ttl proto src dst in
  seg_ip g ih th payload id i = sent_header (seg_len g ih th payload i) (u16 (id + i)) ttl proto src dst.
Proof.
  intros ih. unfold seg_ip. rewrite <- (set16_u16 _ 4). set (n := seg_len _ _ _ _ _).
  assert (set16 (set16 (set16 ih 10 0) 4 (u16 (id + i))) 2 n = ip_header n (u16 (id + i)) ttl proto src dst 0) as ->
    by reflexivity. reflexivity.
Qed.

Lemma seg_th_sent g c seq ack wd m opts payload i :
  let th := hdr_bytes (partial_fields c seq ack wd m opts) ++ opts in
  seg_th true g th payload seq (DstAddr (c_flow c)) (SrcAddr (c_flow c)) i ++ piece g payload i =
    conn_segment c (u32 (seq + g * i)) ack TCPFlagACK wd opts (piece g payload i).
Proof.
  intros th. set (seq' := u32 (seq + g * i)) in *. set (d := piece g payload i).
  assert (seg_th0 true g th payload seq i = hdr_bytes (conn_fields c seq' ack (20 + zlen opts) TCPFlagACK wd) ++ opts)
    as E.
  { unfold seg_th0. fold seq'.
    assert (set32 (set16 th (csum_at true) 0) 4 seq' =
      hdr_bytes (conn_fields c seq' ack (20 + zlen opts) TCPFlagACK wd) ++ opts) as ->.
    { unfold set32, set16. rewrite Zdiv.Zdiv_Zdiv by lia. reflexivity. }
    by destruct (is_last g payload i). }
  unfold seg_th. rewrite E. fold d.
  assert (zlen th = 20 + zlen opts) as Lt by (unfold th; by rewrite zlen_app, zlen_hdr_bytes).
  unfold conn_segment, segment_bytes, segment_csum, tcp_pseudo, seg_pseudo. fold d.
  rewrite Lt, <- !app_assoc. set (x := Checksum _ _). reflexivity.
Qed.

Lemma tun_write_gso en pkt opts :
  0 < zlen pkt → tun_WritePacketGSO en true pkt opts = Some (hdr_memory en (gso_hdr opts) ++ pkt).
Proof.
  intros Hp. unfold tun_WritePacketGSO. rewrite (proj2 (Z.eqb_neq _ _)) by lia.
  unfold encode. change (zlen (make_bytes virtioNetHdrLen) <? virtioNetHdrLen) with false. cbv iota.
  by rewrite (zdrop_all virtioNetHdrLen (make_bytes virtioNetHdrLen)), app_nil_r by done.
Qed.

Definition be_split (v : Z) : Z := be32 (u8 (v / 16777216)) (u8 (v / 65536)) (u8 (v / 256)) (u8 v).

Lemma data_offset_byte f n :
  0 ≤ n ≤ 60 → n mod 4 = 0 → fDataOffset f = n / 4 → Z.shiftr (u8 (Z.shiftl (fDataOffset f) 4)) 4 * 4 = n.
Proof.
  intros Hn Hm ->. rewrite shiftl_mul, shiftr_div by lia. change (2 ^ 4) with 16.
  rewrite u8_id by (unfold is_u8; mlia). mlia.
Qed.

(** The large packet is one that the reading side splits. *)
Lemma large_packet_splittable c seq ack wd opts data mss total id ttl :
  sendable c seq ack TCPFlagACK wd opts data → 0 < mss ≤ 65535 → is_u16 id → is_u16 total → is_u8 ttl →
  kernel_packet (gso_hdr (gso_opts mss opts)) true
    (sent_header total id ttl TCPProtocolNumber (DstAddr (c_flow c)) (SrcAddr (c_flow c)))
    (hdr_bytes (partial_fields c seq ack wd (zlen data) opts) ++ opts) data id seq
    (DstAddr (c_flow c)) (SrcAddr (c_flow c)).
Proof.
  intros Hs Hm Hid Ht Httl. destruct (sendable_fields _ _ _ _ _ _ _ Hs) as [Hoff _].
  destruct Hs as [(_ & _ & Hsa & Hda) Hseq _ _ _ (Hob & Hol & Hom) Hdb Hlen]. pose proof (zlen_nonneg opts).
  set (f := partial_fields c seq ack wd (zlen data) opts).
  assert (zlen (hdr_bytes f ++ opts) = 20 + zlen opts) as Lt by by rewrite zlen_app, zlen_hdr_bytes.
  assert (gsoSize (gso_hdr (gso_opts mss opts)) = mss) as Em by (cbn; apply u16_id; ulia).
  split; [rewrite Em; split|..]; try done.
  - apply bytes_ok_ip_header; done.
  - apply Forall_app. split; [apply bytes_ok_hdr_bytes|done].
  - rewrite Lt. lia.
  - rewrite Lt. change (zlen (sent_header _ _ _ _ _ _)) with 20. lia.
  - lia.
  - transitivity (Ret (be16 (u8 (id / 256)) (u8 id))); [reflexivity|]. by rewrite be16_split.
  - transitivity (Ret (be_split (DstAddr (c_flow c)))); [reflexivity|]. unfold be_split. by rewrite be32_split.
  - transitivity (Ret (be_split (SrcAddr (c_flow c)))); [reflexivity|]. unfold be_split. by rewrite be32_split.
  - intros _. transitivity (Ret (be_split seq)); [reflexivity|]. unfold be_split. by rewrite be32_split.
  - split_and!; try done; try (apply u16_range); cbn; ulia.
  - by exists 69.
  - exists (u8 (Z.shiftl (fDataOffset f) 4)). split; [reflexivity|]. rewrite Lt.
    apply data_offset_byte; [lia|mlia|]. change (fDataOffset f) with (fDataOffset (conn_fields c seq ack (20 + zlen opts) TCPFlagACK wd)).
    mlia.
Qed.

Lemma sendable_piece c seq ack wd opts data g i :
  sendable c seq ack TCPFlagACK wd opts data →
  sendable c (u32 (seq + g * i)) ack TCPFlagACK wd opts (piece g data i).
Proof.
  intros [Hf _ Ha Hfl Hw Ho Hd Hl]. split; try done; [apply u32_range|by apply Forall_take, Forall_drop|].
  assert (zlen (piece g data i) ≤ zlen data); [|lia].
  unfold piece, ztake, zdrop, zlen. rewrite length_take, length_drop. lia.
Qed.

(** The receiving end takes each of them as a segment of its own. *)
Lemma piece_arrives c seq ack wd opts data g total id ttl i r hr e2 iss conn ev :
  sendable c seq ack TCPFlagACK wd opts data → is_u16 id → is_u8 ttl → peer_ok hr (c_flow c) conn →
  let h := sent_header total id ttl TCPProtocolNumber (DstAddr (c_flow c)) (SrcAddr (c_flow c)) in
  let th := hdr_bytes (partial_fields c seq ack wd (zlen data) opts) ++ opts in
  rd_raw ev = segment true g h th data id seq (DstAddr (c_flow c)) (SrcAddr (c_flow c)) i →
  40 + zlen opts + zlen (piece g data i) ≤ MaxPacketSize → pooled_ok (rd_pooled1 ev) →
  TCPProtocolNumber ∈ s_handlers r →
  ∃ r' pkt, read_all r [ev] = Ret (r', [ReadDispatches TCPProtocolNumber pkt]) ∧
    arrives_as hr e2 iss (c_flow c) conn pkt
      (mkSegment TCPFlagACK (u32 (seq + g * i)) ack wd opts (piece g data i) 0 0 false).
Proof.
  intros Hs Hid Httl [Hop Hconn Hin] h th Er Hl Hp Hr. pose proof (sendable_piece _ _ _ _ _ _ g i Hs) as Hsi.
  unfold segment in Er. unfold h in Er. rewrite seg_ip_sent in Er. fold h in Er.
  unfold th in Er. rewrite (seg_th_sent g c) in Er. fold th in Er.
  set (d := piece g data i) in *. set (seg := conn_segment c _ _ _ _ _ _) in *.
  assert (zlen seg = 20 + zlen opts + zlen d) as Ls by apply zlen_segment_bytes.
  set (n := seg_len g h th data i) in *.
  assert (n = 20 + zlen seg) as En.
  { unfold n, seg_len, th. rewrite zlen_app, zlen_hdr_bytes, Ls. change (zlen h) with 20. fold d. lia. }
  pose proof (zlen_nonneg opts). pose proof (zlen_nonneg d).
  assert (is_u16 n) as Hn by (unfold MaxPacketSize in Hl; ulia).
  destruct Hs as [(_ & _ & Hsa & Hda) _ _ _ _ _ _ _].
  destruct (receive_unfragmented r (sent_header n (u16 (id + i)) ttl TCPProtocolNumber (DstAddr (c_flow c))
    (SrcAddr (c_flow c))) seg TCPProtocolNumber ev) as (r' & pkt & E & Hc); try done.
  { by apply sent_header_built; try apply u16_range. }
  { by apply sent_header_checksum; try apply u16_range. }
  { change (20 + zlen seg ≤ MaxPacketSize). lia. }
  exists r', pkt. split; [exact E|].
  pose proof (sent_header_decode n (u16 (id + i)) ttl TCPProtocolNumber (DstAddr (c_flow c)) (SrcAddr (c_flow c))
    Hn (u16_range _) Httl ltac:(done) Hda Hsa) as Hdec.
  destruct (tcp_HandlePacket_queues e2 iss hr conn pkt _ c (u32 (seq + g * i)) ack TCPFlagACK wd opts d _ Hsi Hc
    eq_refl Hdec) as [Eh Ep]; [cbn [IPv4.fTotalLength]; lia|done..|].
  eexists _, _. split; [exact Eh|]. split; [apply lookup_insert_eq|]. by split.
Qed.

(** The stack sends through a channel with offload, and the other end reads
    from a TUN channel. *)
Record gso_path_ok (st : Stack) (ch : TUNChannel) : Prop := {
  gp_ttl : is_u8 (s_ttl st);
  gp_running : s_done st = false;
  gp_queue : s_outboundCh st = [] ∧ 0 < s_queueSize st;
  gp_gso : s_gso st = true;
  gp_chan : chan_ok ch ∧ drained ch }.

(** What the reading end makes of the large packet. *)
Lemma large_packet_read en c seq ack wd opts data mss id ttl ch spare reads rbuf :
  sendable c seq ack TCPFlagACK wd opts data → 0 < zlen data → 0 < mss →
  40 + zlen opts + mss ≤ MaxPacketSize → pieces mss data ≤ 128 → MaxPacketSize ≤ zlen rbuf →
  is_u16 id → is_u8 ttl → chan_ok ch → drained ch →
  let T := hdr_bytes (partial_fields c seq ack wd (zlen data) opts) ++ opts in
  let h := sent_header (20 + zlen T + zlen data) id ttl TCPProtocolNumber (DstAddr (c_flow c)) (SrcAddr (c_flow c)) in
  ∃ ch' segs ds, read_packets en (length segs) ch
      (DevData (hdr_memory en (gso_hdr (gso_opts mss opts)) ++ h ++ T ++ data) spare :: reads) rbuf
      = Ret (ch', reads, segs) ∧
    concat ds = data ∧ length ds = length segs ∧
    ∀ i d, ds !! i = Some d → 0 < zlen d ≤ mss ∧
    ∀ r hr e2 iss conn ev, segs !! i = Some (rd_raw ev) → pooled_ok (rd_pooled1 ev) →
      TCPProtocolNumber ∈ s_handlers r → peer_ok hr (c_flow c) conn →
    ∃ r' p, read_all r [ev] = Ret (r', [ReadDispatches TCPProtocolNumber p]) ∧
      arrives_as hr e2 iss (c_flow c) conn p
        (mkSegment TCPFlagACK (u32 (seq + mss * Z.of_nat i)) ack wd opts d 0 0 false).
Proof.
  intros Hs Hne Hm Hmax Hp Hrb Hid Httl Hch Hdr T h. unfold MaxPacketSize in *. pose proof (zlen_nonneg opts).
  assert (zlen T = 20 + zlen opts) as LT by (unfold T; by rewrite zlen_app, zlen_hdr_bytes).
  assert (gsoSize (gso_hdr (gso_opts mss opts)) = mss) as Em by (apply u16_id; ulia).
  pose proof (large_packet_splittable c seq ack wd opts data mss (20 + zlen T + zlen data) id ttl Hs ltac:(lia) Hid
    ltac:(destruct Hs; ulia) Httl) as Hk. fold T h in Hk.
  set (v := gso_hdr (gso_opts mss opts)) in *. pose proof (kp_split _ _ _ _ _ _ _ _ _ Hk) as Hsp. rewrite Em in Hsp.
  assert (∀ j, 0 ≤ j < pieces mss data → zlen (piece mss data j) ≤ mss ∧ 0 < zlen (piece mss data j)) as Hpc.
  { intros j Hj. pose proof (pieces_lt _ _ _ _ _ _ _ _ _ Hsp j ltac:(lia)).
    rewrite (zlen_gso_piece _ _ _ _ _ _ _ _ _ Hsp) by lia. lia. }
  destruct (read_segments en _ _ _ _ _ _ _ _ _ Hk Hne ch spare reads rbuf Hch Hdr) as (ch' & E & _ & _).
  { by rewrite Em. }
  { apply Forall_lookup. intros j s [-> Hj]%lookup_segments. rewrite Em in *. rewrite zlen_segment. unfold seg_len.
    pose proof (Hpc (Z.of_nat j) ltac:(lia)). change (zlen h) with 20. lia. }
  eexists ch', _, _. split; [exact E|]. split; [exact (pieces_concat _ _ _ _ _ _ _ _ _ Hsp)|].
  split; [unfold segments; by rewrite !length_fmap, Em|]. intros i d Hd.
  rewrite list_lookup_fmap, fmap_Some in Hd. destruct Hd as (k & [-> Hi]%lookup_seq & ->). cbn [Nat.add] in *.
  pose proof (Hpc (Z.of_nat i) ltac:(lia)). split; [lia|]. intros r hr e2 iss conn ev [Er _]%lookup_segments Hpo Hh Hpe.
  rewrite Em in Er. eapply (piece_arrives c seq ack wd opts data mss); try done. unfold MaxPacketSize. lia.
Qed.

(** The packet of [sendDataGSO] on [buf0] goes through the sending stack [st]
    and the TUN channel [ch], and its segments through any stack and handler
    behind that. *)
Definition gso_delivered (en : endian) (e : Env) (c : TCPConn) (w : World) (rcv : receiver) (mss : Z)
    (buf0 data : bytes) (seq : Z) (st : Stack) (ch : TUNChannel) (spare : bytes) (reads : list dev_read)
    (rbuf : bytes) : Prop :=
  ∃ w' wd tv opts buf n popts st1 st2 pkt raw ch' segs ds,
    sendDataGSO buf0 (zlen data) seq e (mkCS c w) = Ret (mkCS (sentData c wd) w', tt) ∧ wnd c = Ret wd ∧
    ParseSegmentOptions opts = Ret (mkSegmentOptions [] (c_tsEnabled c)
      (if c_tsEnabled c then tv else 0) (if c_tsEnabled c then c_tsRecent c else 0)) ∧
    w_sent w' = w_sent w ++
      [SentGSO buf 0 n (DstAddr (c_flow c)) (SrcAddr (c_flow c)) TCPProtocolNumber popts] ∧
    SendPacketGSO false st buf 0 n (DstAddr (c_flow c)) (SrcAddr (c_flow c)) TCPProtocolNumber popts =
      Ret (st1, Enqueued) ∧
    writeLoop_round false st1 = Ret (Some (st2, [WritePacketGSO pkt popts])) ∧
    tun_WritePacketGSO en true pkt popts = Some raw ∧
    read_packets en (length segs) ch (DevData raw spare :: reads) rbuf = Ret (ch', reads, segs) ∧
    concat ds = data ∧ length ds = length segs ∧
    ∀ i d, ds !! i = Some d → 0 < zlen d ≤ mss ∧
    ∀ r hr e2 iss conn ev, segs !! i = Some (rd_raw ev) → pooled_ok (rd_pooled1 ev) →
      TCPProtocolNumber ∈ s_handlers r → peer_ok hr (c_flow c) conn →
    ∃ r' p, read_all r [ev] = Ret (r', [ReadDispatches TCPProtocolNumber p]) ∧
      arrives_as hr e2 iss (c_flow c) conn p
        (mkSegment TCPFlagACK (u32 (seq + mss * Z.of_nat i)) (r_nxt rcv) wd opts d 0 0 false).

(** C5: data sent with segmentation offload arrives as ordinary segments.
    The one packet of [sendDataGSO] leaves the stack and is written to the
    device behind a virtio header; a TUN channel that is handed those bytes
    returns packets from its calls of [ReadPacket], and the stack and the
    handler behind it accept each of them and parse it to a segment of at
    most an MSS at its place in the stream, with the acknowledgement, window
    and timestamps that were sent; together they carry exactly the data.  The data makes at most the 128
    segments that a channel has buffers for. *)
Theorem tcp_gso_gets_through en e c w rcv snd A H data rest seq st ch spare reads rbuf :
  ring_ok (c_readBuf c) → c_rcv c = Some rcv → c_snd c = Some snd →
  zlen A = 20 → zlen H = 20 + (if c_tsEnabled c then 12 else 0) →
  zlen (A ++ H ++ data ++ rest) = GSOBufSize → zlen H + zlen data ≤ 65515 →
  bytes_ok data → 0 < zlen data →
  is_u16 (SrcPort (c_flow c)) ∧ is_u16 (DstPort (c_flow c)) ∧
    is_u32 (SrcAddr (c_flow c)) ∧ is_u32 (DstAddr (c_flow c)) →
  is_u32 seq → is_u32 (r_nxt rcv) → is_u32 (c_tsRecent c) →
  0 < s_mss snd → 20 + zlen H + s_mss snd ≤ MaxPacketSize → pieces (s_mss snd) data ≤ 128 →
  MaxPacketSize ≤ zlen rbuf → gso_path_ok st ch →
  gso_delivered en e c w rcv (s_mss snd) (A ++ H ++ data ++ rest) data seq st ch spare reads rbuf.
Proof.
  intros Hok Hr Hs LA LH Lbuf Hl Hd Hne Hfl Hseq Hack Hts Hmss Hmax Hp Hrb [Httl Hrun Hq Hgso [Hch Hdr]].
  destruct (sendDataGSO_run e c w rcv snd A H data rest seq) as (w' & wd & tv & E & Ewd & Hwd & Htv & Es & _); try done.
  pose proof (zlen_plain_opts (c_tsEnabled c) tv (c_tsRecent c)) as Lo. rewrite <- Lo in LH.
  set (opts := segment_opts (c_tsEnabled c) tv (c_tsRecent c) []) in *.
  assert (sendable c seq (r_nxt rcv) TCPFlagACK wd opts data) as Hsend.
  { split; try done; [|lia]. split; [apply bytes_ok_segment_opts|]. rewrite Lo. by destruct (c_tsEnabled c). }
  destruct (SendPacketGSO_written st A (hdr_bytes (partial_fields c seq (r_nxt rcv) wd (zlen data) opts) ++ opts)
    data rest (DstAddr (c_flow c)) (SrcAddr (c_flow c)) (gso_opts (s_mss snd) opts) Httl Hrun Hq Hgso LA)
    as (st1 & st2 & E1 & E2); [rewrite !zlen_app in *; rewrite zlen_hdr_bytes; lia|rewrite zlen_app, zlen_hdr_bytes; lia|].
  destruct (large_packet_read en c seq (r_nxt rcv) wd opts data (s_mss snd) (next_id st) (s_ttl st) ch spare reads rbuf
    Hsend Hne Hmss ltac:(lia) Hp Hrb (u16_range _) Httl Hch Hdr) as (ch' & segs & ds & E3 & Hds & Ln & Hall).
  replace (40 + zlen opts + zlen data) with (20 + zlen (hdr_bytes (partial_fields c seq (r_nxt rcv) wd (zlen data) opts) ++ opts)
    + zlen data) in Es by (rewrite zlen_app, zlen_hdr_bytes; lia).
  exists w', wd, tv, opts. do 7 eexists. exists ch', segs, ds.
  split; [exact E|]. split; [exact Ewd|].
  split; [apply segment_opts_parse; try done; destruct (c_tsEnabled c); done|]. split; [exact Es|]. split; [exact E1|]. split; [exact E2|].
  split; [apply tun_write_gso; rewrite zlen_app; change (zlen (sent_header _ _ _ _ _ _)) with 20;
    pose proof (zlen_nonneg ((hdr_bytes (partial_fields c seq (r_nxt rcv) wd (zlen data) opts) ++ opts) ++ data));
    rewrite <- app_assoc in *; lia|]. split; [exact E3|]. by split; [|split].
Qed.

Definition sample_gso_sender : sender :=
  mkSender 1000 1001 1001 65535 10 1000000000 0 0 200000000 60000000000 [] 0 8 14600 65535 0 false 0 false 65535.
Definition sample_gso_conn : TCPConn :=
  sample_conn stateEstablished (Some sample_gso_sender) (Some sample_rcv) sample_ring sample_ring.
Definition gso_stack : Stack :=
  mkStack 1500 true [] 4 {[ TCPProtocolNumber ]} newIPv4Reassembler 0 64 None false.

Lemma tcp_gso_gets_through_witness :
  gso_delivered LittleEndian sample_env sample_gso_conn sample_world sample_rcv 10
    (make_bytes 20 ++ make_bytes 20 ++ sample_payload ++ make_bytes 65472) sample_payload 1001
    gso_stack (newChannel true) [] [] (make_bytes 1560).
Proof.
  apply (tcp_gso_gets_through LittleEndian sample_env sample_gso_conn sample_world sample_rcv sample_gso_sender
    (make_bytes 20) (make_bytes 20) sample_payload (make_bytes 65472) 1001 gso_stack (newChannel true) [] []
    (make_bytes 1560)); try done.
  - repeat constructor; done.
  - split; try done. apply newChannel_ok.
Defined.
