(* ===== verification/Echo.v ===== *)
(** The echo servers of src/example/main.go over the library: [tcpEcho] copies
    what it reads from a connection back into it, [udpEcho] sends each datagram
    back to where it came from. *)
From S2P Require Import Prelude.
From S2P Require Import Ringbuf.
From S2P Require Import TcpConn.
From S2P Require Import Conn.
From S2P Require Import SndFacts.
From S2P Require Import Tcpip.
From S2P Require Import Header.
From S2P Require Import Packet.
From S2P Require Import Stack.
From S2P Require Import IpLayer.
From S2P Require Import Fragmentation.
From S2P Require Import Reassembly.
From S2P Require Import Checksum.
From S2P Require Import Udp.

(** * The goroutine of [tcpEcho] for one connection *)

(** Where it is: in [Read]; in [Write] with what was read, what of it is
    written and the error [Read] gave; or gone, the connection closed.  A call
    that [waits] is in its [select], else it is about to look at the buffer. *)
Inductive echo_pos :=
| EchoReads (waits : bool)
| EchoCalls (d : bytes) (err : option rb_error)
| EchoWrites (d : bytes) (written : Z) (waits : bool) (err : option rb_error)
| EchoGone.

Definition echoBufSize : Z := 4096.

(** After [Write], whose result is not looked at. *)
Definition echo_next (c : TCPConn) (err : option rb_error) : TCPConn * echo_pos :=
  match err with Some _ => (Close_conn c, EchoGone) | None => (c, EchoReads false) end.

(** The notification at the end of [Write]. *)
Definition notify_written (n : Z) (c : TCPConn) : TCPConn :=
  if n >? 0 then c <| c_writeNotify := true |> else c.

(** One round of a blocking call, or the start of [Write].  A call that waits
    leaves by its [done] case when the connection is done and the [select]
    picks it; else it looks at the buffer again. *)
Definition echo_round (pickDone : bool) (c : TCPConn) (p : echo_pos) : outcome (TCPConn * echo_pos) :=
  match p with
  | EchoReads waits =>
      if waits && c_done c && pickDone then Ret (echo_next c (Some errBufferClosed)) else
      '(c, r) ← Read_conn echoBufSize c;
      match r with
      | ReadWaits _ => Ret (c, EchoReads true)
      | ReadReturns d err => Ret (if zlen d >? 0 then (c, EchoCalls d err) else echo_next c err)
      end
  | EchoCalls d err =>
      '(c, e) ← Write_start c;
      Ret (match e with Some _ => echo_next c err | None => (c, EchoWrites d 0 false err) end)
  | EchoWrites d written waits err =>
      if waits && c_done c && pickDone then Ret (echo_next (notify_written written c) err) else
      '(c, r) ← Write_conn d written c;
      Ret (match r with
           | WriteReturns _ _ => echo_next c err
           | WriteGoesOn n => (c, EchoWrites d n false err)
           | WriteWaits _ => (c, EchoWrites d written true err)
           end)
  | EchoGone => Ret (c, EchoGone)
  end.

(** ** The rest of the stack, as the connection's buffers see it: received data
    is put into the read buffer, data to send is taken from the write buffer,
    either may be closed, and [closeDone] may end the connection. *)
Inductive echo_event :=
| EvEcho (pickDone : bool)
| EvDeliver (p : bytes)
| EvTake (n : Z)
| EvGrowRead (size : Z)
| EvCloseRead
| EvCloseWrite
| EvCloseDone.

(** The connection, the goroutine, what has been delivered and what taken. *)
Record echo_sys := mkEcho { es_conn : TCPConn; es_pos : echo_pos; es_in : bytes; es_out : bytes }.

Definition echo_step (s : echo_sys) (ev : echo_event) : outcome echo_sys :=
  let c := es_conn s in
  match ev with
  | EvEcho pickDone => '(c, p) ← echo_round pickDone c (es_pos s); Ret (mkEcho c p (es_in s) (es_out s))
  | EvDeliver p =>
      '(rb, n) ← WriteNoBlock (c_readBuf c) p;
      Ret (mkEcho (c <| c_readBuf := rb |>) (es_pos s) (es_in s ++ ztake n p) (es_out s))
  | EvTake n =>
      '(wb, d) ← ReadNoBlock (c_writeBuf c) n;
      Ret (mkEcho (c <| c_writeBuf := wb |>) (es_pos s) (es_in s) (es_out s ++ d))
  | EvGrowRead size =>
      rb ← Grow (c_readBuf c) size; Ret (mkEcho (c <| c_readBuf := rb |>) (es_pos s) (es_in s) (es_out s))
  | EvCloseRead => Ret (mkEcho (c <| c_readBuf := CloseWrite (c_readBuf c) |>) (es_pos s) (es_in s) (es_out s))
  | EvCloseWrite => Ret (mkEcho (c <| c_writeBuf := CloseWrite (c_writeBuf c) |>) (es_pos s) (es_in s) (es_out s))
  | EvCloseDone => Ret (mkEcho (c <| c_done := true |>) (es_pos s) (es_in s) (es_out s))
  end.

Fixpoint echo_run (s : echo_sys) (evs : list echo_event) : outcome echo_sys :=
  match evs with
  | [] => Ret s
  | ev :: evs => s ← echo_step s ev; echo_run s evs
  end.

Definition event_ok (ev : echo_event) : Prop :=
  match ev with EvDeliver p => 0 < zlen p | EvTake n => 0 < n | _ => True end.

(** * Rounds of the buffers *)
Lemma Read_round_ok rb n :
  ring_ok rb → 0 < n →
  ∃ rb' r, Read_round rb n = Ret (rb', r) ∧ ring_ok rb' ∧ rb_closed rb' = rb_closed rb ∧
    match r with ReadReturns d _ => contents rb = d ++ contents rb' | ReadWaits _ => contents rb' = contents rb end.
Proof.
  intros Hok Hn. destruct (ring_step_ok rb (OpRead n) Hok Hn) as (rb' & o & E & Hok' & Eq). cbn [ring_step] in E.
  destruct (Read_round rb n) as [[rb1 r]| |]; [|done..]. rewrite bind_Ret_l in E. injection E as -> Eo.
  exists rb', r. split; [done|]. split; [done|]. change (contents rb') with (q_items (abs rb')).
  change (rb_closed rb') with (q_closed (abs rb')). cbn [queue_step] in Eq.
  destruct (q_items (abs rb)) as [|x l] eqn:Ei; cbn in Ei; [destruct (q_closed (abs rb)) eqn:Ec; cbn in Ec|];
    apply pair_equal_spec in Eq as [<- <-].
  - destruct r; [|done]. by injection Eo as -> _.
  - by destruct r.
  - destruct r; [|done]. injection Eo as -> _. split; [done|]. cbn [q_get q_items abs]. by rewrite Ei, ztake_zdrop.
Qed.

Lemma Write_round_ok rb p w :
  ring_ok rb → 0 ≤ w ≤ zlen p →
  ∃ rb' r, Write_round rb p w = Ret (rb', r) ∧ ring_ok rb' ∧ rb_closed rb' = rb_closed rb ∧
    match r with
    | WriteReturns _ None => contents rb' = contents rb ∧ w = zlen p
    | WriteReturns _ (Some _) => contents rb' = contents rb ∧ rb_closed rb = true
    | WriteGoesOn n => w ≤ n ≤ zlen p ∧ rb_closed rb = false ∧ contents rb' ++ zdrop n p = contents rb ++ zdrop w p
    | WriteWaits _ => contents rb' = contents rb
    end.
Proof.
  intros Hok Hw. destruct (ring_step_ok rb (OpWrite p w) Hok ltac:(cbn; lia)) as (rb' & o & E & Hok' & Eq). cbn [ring_step] in E.
  destruct (Write_round rb p w) as [[rb1 r]| |]; [|done..]. rewrite bind_Ret_l in E. injection E as -> Eo.
  exists rb', r. split; [done|]. split; [done|]. change (contents rb') with (q_items (abs rb')).
  change (rb_closed rb') with (q_closed (abs rb')). cbn [queue_step] in Eq.
  pose proof (abs_room rb Hok) as Hroom. pose proof (used_range rb Hok).
  destruct (Z.leb_spec (zlen p) w); [apply pair_equal_spec in Eq as [<- <-]; destruct r; [|done..]; injection Eo as -> ->; split_and!; try done; lia|].
  destruct (q_closed (abs rb)) eqn:Ec; cbn in Ec; [apply pair_equal_spec in Eq as [<- <-]; destruct r; [|done..]; by injection Eo as -> ->|].
  destruct (Z.eqb_spec (q_room (abs rb)) 0); apply pair_equal_spec in Eq as [<- <-]; destruct r; try done.
  injection Eo as ->. split; [done|]. split; [lia|]. split; [done|]. cbn [q_put q_items abs].
  rewrite <- app_assoc. f_equal. rewrite <- (ztake_zdrop (q_room (abs rb)) (zdrop w p)) at 2. f_equal.
  rewrite zdrop_zdrop by lia. destruct (Z.le_ge_cases (zlen p - w) (q_room (abs rb))).
  - rewrite Z.min_l by lia. rewrite !zdrop_all by lia. done.
  - rewrite Z.min_r by lia. done.
Qed.

Lemma WriteNoBlock_puts rb p :
  ring_ok rb → 0 < zlen p →
  ∃ rb' n, WriteNoBlock rb p = Ret (rb', n) ∧ ring_ok rb' ∧ rb_closed rb' = rb_closed rb ∧ contents rb' = contents rb ++ ztake n p.
Proof.
  intros Hok Hp. destruct (ring_step_ok rb (OpWriteNoBlock p) Hok Hp) as (rb' & o & E & Hok' & Eq). cbn [ring_step] in E.
  destruct (WriteNoBlock rb p) as [[rb1 n]| |]; [|done..]. rewrite bind_Ret_l in E. injection E as -> <-.
  exists rb', n. split; [done|]. split; [done|]. change (contents rb') with (q_items (abs rb')).
  change (rb_closed rb') with (q_closed (abs rb')). cbn [queue_step] in Eq.
  pose proof (abs_room rb Hok) as Hroom. pose proof (used_range rb Hok).
  destruct (q_closed (abs rb)) eqn:Ec; cbn in Ec; apply pair_equal_spec in Eq as [<- [= <-]].
  - split; [done|]. by rewrite (ztake_0 0), app_nil_r by lia.
  - split; [done|]. cbn [q_put q_items abs]. f_equal. destruct (Z.le_ge_cases (zlen p) (q_room (abs rb))).
    + rewrite Z.min_l, !ztake_all by lia. done.
    + rewrite Z.min_r by lia. done.
Qed.

(** * What the goroutine holds *)
Definition echo_rest (p : echo_pos) : bytes :=
  match p with EchoCalls d _ => d | EchoWrites d w _ _ => zdrop w d | EchoReads _ | EchoGone => [] end.

Definition echo_pos_ok (p : echo_pos) : Prop :=
  match p with EchoWrites d w _ _ => 0 ≤ w ≤ zlen d | _ => True end.

(** All that is on its way back, in order. *)
Definition on_its_way (s : echo_sys) : bytes :=
  es_out s ++ contents (c_writeBuf (es_conn s)) ++ echo_rest (es_pos s) ++ contents (c_readBuf (es_conn s)).

(** Whether a call of [Write] can fail. *)
Definition may_fail (c : TCPConn) : bool := rb_closed (c_writeBuf c) || c_done c.

Record echo_ok (s : echo_sys) : Prop := {
  eo_read : ring_ok (c_readBuf (es_conn s));
  eo_write : ring_ok (c_writeBuf (es_conn s));
  eo_shut : c_writeShutdown (es_conn s) = true → rb_closed (c_writeBuf (es_conn s)) = true;
  eo_pos : echo_pos_ok (es_pos s);
  eo_sub : on_its_way s `sublist_of` es_in s;
  eo_prefix : c_done (es_conn s) = false → es_out s ++ contents (c_writeBuf (es_conn s)) `prefix_of` es_in s;
  eo_all : may_fail (es_conn s) = false → es_in s = on_its_way s }.

(** A step that adds what arrives to what is on its way, and moves the rest
    along. *)
Lemma echo_ok_moves s c p i o d :
  echo_ok s → ring_ok (c_readBuf c) → ring_ok (c_writeBuf c) → c_writeShutdown c = c_writeShutdown (es_conn s) →
  rb_closed (c_writeBuf c) = rb_closed (c_writeBuf (es_conn s)) → c_done c = c_done (es_conn s) → echo_pos_ok p →
  i = es_in s ++ d → on_its_way (mkEcho c p i o) = on_its_way s ++ d →
  (rb_closed (c_writeBuf c) = true → o ++ contents (c_writeBuf c) = es_out s ++ contents (c_writeBuf (es_conn s))) →
  echo_ok (mkEcho c p i o).
Proof.
  intros [Hr Hw Hs Hp Hsub Hpre Hall] Hr' Hw' Es Ec Ed Hp' -> Hway Hcl.
  assert (may_fail c = may_fail (es_conn s)) as Em by (unfold may_fail; by rewrite Ec, Ed).
  split; cbn [es_conn es_pos es_in es_out]; rewrite ?Es, ?Ec, ?Ed, ?Em, ?Hway; try done.
  - by apply sublist_app.
  - intros Hd. destruct (rb_closed (c_writeBuf c)) eqn:E.
    + rewrite Hcl by done. etrans; [by apply Hpre|]. by apply prefix_app_r.
    + rewrite Hall, <- Hway by (unfold may_fail; by rewrite <- Ec, Hd). unfold on_its_way. cbn [es_conn es_pos es_in es_out].
      rewrite app_assoc. by apply prefix_app_r.
  - intros Hm. by rewrite Hall.
Qed.

(** A call of [Write] that fails loses what the goroutine holds. *)
Lemma echo_ok_drops s c p :
  echo_ok s → ring_ok (c_writeBuf c) → c_readBuf c = c_readBuf (es_conn s) →
  contents (c_writeBuf c) = contents (c_writeBuf (es_conn s)) → (c_writeShutdown c = true → rb_closed (c_writeBuf c) = true) →
  (c_done c = false → c_done (es_conn s) = false) → echo_pos_ok p →
  echo_rest p = [] → (may_fail c = false → may_fail (es_conn s) = false ∧ echo_rest (es_pos s) = []) →
  echo_ok (mkEcho c p (es_in s) (es_out s)).
Proof.
  intros [Hr Hw Hs Hp Hsub Hpre Hall] Hw' Er Ew Hs' Ed Hpo Hp' Hm.
  assert (on_its_way (mkEcho c p (es_in s) (es_out s)) = es_out s ++ contents (c_writeBuf (es_conn s)) ++ contents (c_readBuf (es_conn s))) as Hway.
  { unfold on_its_way. cbn [es_conn es_pos es_in es_out]. by rewrite Er, Ew, Hp'. }
  split; cbn [es_conn es_pos es_in es_out]; rewrite ?Hway, ?Er, ?Ew; try done.
  - etrans; [|exact Hsub]. unfold on_its_way. apply sublist_app; [done|]. apply sublist_app; [done|]. by apply sublist_inserts_l.
  - auto.
  - intros Hf. destruct (Hm Hf) as [Hf' Hnil]. rewrite Hall by done. unfold on_its_way. by rewrite Hnil.
Qed.

Lemma CloseWrite_ok rb : ring_ok rb → ring_ok (CloseWrite rb) ∧ contents (CloseWrite rb) = contents rb ∧ rb_closed (CloseWrite rb) = true.
Proof. intros []. by split. Qed.

Lemma notify_written_eq n c :
  c_readBuf (notify_written n c) = c_readBuf c ∧ c_writeBuf (notify_written n c) = c_writeBuf c ∧
  c_writeShutdown (notify_written n c) = c_writeShutdown c ∧ c_done (notify_written n c) = c_done c.
Proof. unfold notify_written. by destruct (n >? 0). Qed.

(** The goroutine goes on after [Write], or closes the connection. *)
Lemma echo_next_ok c err b i o :
  echo_ok (mkEcho c (EchoReads b) i o) → echo_ok (mkEcho (echo_next c err).1 (echo_next c err).2 i o).
Proof.
  intros Hok. destruct err as [e|]; cbn [echo_next fst snd]; [|by destruct Hok].
  unfold Close_conn, CloseWrite_conn. destruct (c_closeOnce c); [by destruct Hok|].
  destruct (CloseWrite_ok (c_writeBuf c)) as (H1 & H2 & H3); [by apply Hok|].
  by apply (echo_ok_drops _ _ _ Hok).
Qed.

Lemma Read_conn_ok n c :
  ring_ok (c_readBuf c) → 0 < n →
  ∃ c' r, Read_conn n c = Ret (c', r) ∧ ring_ok (c_readBuf c') ∧ c_writeBuf c' = c_writeBuf c ∧
    c_writeShutdown c' = c_writeShutdown c ∧
    match r with
    | ReadReturns d _ => contents (c_readBuf c) = d ++ contents (c_readBuf c')
    | ReadWaits _ => contents (c_readBuf c') = contents (c_readBuf c)
    end.
Proof.
  intros Hok Hn. destruct (Read_round_ok (c_readBuf c) n Hok Hn) as (rb & r & E & Hok' & _ & Hr).
  unfold Read_conn. rewrite E, bind_Ret_l. destruct r as [d e|g].
  - do 2 eexists. split; [reflexivity|]. by destruct (zlen d >? 0).
  - do 2 eexists. split; [reflexivity|]. done.
Qed.

Lemma Write_start_ok c :
  ring_ok (c_writeBuf c) →
  ∃ c' e, Write_start c = Ret (c', e) ∧ ring_ok (c_writeBuf c') ∧ c_readBuf c' = c_readBuf c ∧
    c_writeShutdown c' = c_writeShutdown c ∧ contents (c_writeBuf c') = contents (c_writeBuf c) ∧
    rb_closed (c_writeBuf c') = rb_closed (c_writeBuf c) ∧ (e ≠ None → c_writeShutdown c = true).
Proof.
  intros Hok. unfold Write_start. destruct (c_writeShutdown c) eqn:Es; [do 2 eexists; split; [reflexivity|by rewrite Es]|].
  destruct (_ && _).
  - destruct (Grow_ok (c_writeBuf c) (writeBufSize (c_cfg c)) Hok) as (rb & E & Hok' & Ec & _ & Ecl & _).
    rewrite E, bind_Ret_l. do 2 eexists. split; [reflexivity|]. cbn. by rewrite Es.
  - do 2 eexists. split; [reflexivity|]. by rewrite Es.
Qed.

Lemma Write_conn_ok p w c :
  ring_ok (c_writeBuf c) → 0 ≤ w ≤ zlen p →
  ∃ c' r, Write_conn p w c = Ret (c', r) ∧ ring_ok (c_writeBuf c') ∧ c_readBuf c' = c_readBuf c ∧
    c_writeShutdown c' = c_writeShutdown c ∧ rb_closed (c_writeBuf c') = rb_closed (c_writeBuf c) ∧
    match r with
    | WriteReturns _ None => contents (c_writeBuf c') = contents (c_writeBuf c) ∧ w = zlen p
    | WriteReturns _ (Some _) => contents (c_writeBuf c') = contents (c_writeBuf c) ∧ rb_closed (c_writeBuf c) = true
    | WriteGoesOn n => w ≤ n ≤ zlen p ∧ rb_closed (c_writeBuf c) = false ∧
        contents (c_writeBuf c') ++ zdrop n p = contents (c_writeBuf c) ++ zdrop w p
    | WriteWaits _ => contents (c_writeBuf c') = contents (c_writeBuf c)
    end.
Proof.
  intros Hok Hw. destruct (Write_round_ok (c_writeBuf c) p w Hok Hw) as (rb & r & E & Hok' & Hcl & Hr).
  unfold Write_conn. rewrite E, bind_Ret_l. destruct r as [n e|g|n]; (do 2 eexists; split; [reflexivity|]); [|done..].
  by destruct (n >? 0).
Qed.

Lemma Read_conn_done n c c' r : Read_conn n c = Ret (c', r) → c_done c' = c_done c.
Proof. unfold Read_conn. intros E. inv_outcome. by repeat case_match; simplify_eq. Qed.
Lemma Write_start_done c c' e : Write_start c = Ret (c', e) → c_done c' = c_done c.
Proof. unfold Write_start. intros E. repeat case_match; inv_outcome; by simplify_eq. Qed.
Lemma Write_conn_done p w c c' r : Write_conn p w c = Ret (c', r) → c_done c' = c_done c.
Proof. unfold Write_conn. intros E. inv_outcome. by repeat case_match; simplify_eq. Qed.

Lemma read_round_ok c b i o k :
  echo_ok (mkEcho c (EchoReads b) i o) →
  ∃ c' p', echo_round k c (EchoReads b) = Ret (c', p') ∧ echo_ok (mkEcho c' p' i o).
Proof.
  intros Hok. pose proof Hok as [Hr Hw _ _ _ _ _]. cbn [es_conn] in Hr, Hw. cbn [echo_round].
  destruct (b && c_done c && k).
  { do 2 eexists. split; [reflexivity|]. by apply (echo_next_ok c (Some errBufferClosed) b). }
  destruct (Read_conn_ok echoBufSize c Hr ltac:(done)) as (c1 & r & E & Hr1 & Ew & Es & Hc). rewrite E, bind_Ret_l.
  apply Read_conn_done in E.
  assert (∀ q, echo_rest q ++ contents (c_readBuf c1) = contents (c_readBuf c) → echo_pos_ok q → echo_ok (mkEcho c1 q i o)) as Hgo.
  { intros q Hq Hq'. apply (echo_ok_moves _ _ _ _ _ [] Hok); cbn [es_conn es_pos es_in es_out]; rewrite ?Ew, ?app_nil_r; try done.
    unfold on_its_way. cbn [es_conn es_pos es_in es_out]. by rewrite Ew, Hq. }
  destruct r as [d err|g]; [destruct (Z.gtb_spec (zlen d) 0)|].
  - do 2 eexists. split; [reflexivity|]. by apply Hgo.
  - assert (d = []) as -> by (destruct d; [done|rewrite zlen_cons in *; pose proof (zlen_nonneg d); lia]).
    destruct (echo_next c1 err) as [c2 p2] eqn:En. exists c2, p2. split; [done|].
    replace c2 with (echo_next c1 err).1 by by rewrite En. replace p2 with (echo_next c1 err).2 by by rewrite En.
    apply (echo_next_ok _ _ false). by apply Hgo.
  - do 2 eexists. split; [reflexivity|]. by apply Hgo.
Qed.

Lemma write_round_ok c d w b err i o k :
  echo_ok (mkEcho c (EchoWrites d w b err) i o) →
  ∃ c' p', echo_round k c (EchoWrites d w b err) = Ret (c', p') ∧ echo_ok (mkEcho c' p' i o).
Proof.
  intros Hok. pose proof Hok as [Hr Hw Hs Hp _ _ _]. cbn [es_conn es_pos echo_pos_ok] in *. cbn [echo_round].
  assert (∀ c', echo_ok (mkEcho c' (EchoReads false) i o) → ∃ c2 p2, Ret (echo_next c' err) = Ret (c2, p2) ∧ echo_ok (mkEcho c2 p2 i o)) as Hnext.
  { intros c' H. exists (echo_next c' err).1, (echo_next c' err).2. split; [by destruct (echo_next c' err)|]. by eapply echo_next_ok. }
  destruct (b && c_done c && k) eqn:Eb.
  { apply Hnext. destruct (notify_written_eq w c) as (Er & Ew & Es & Ed).
    apply (echo_ok_drops _ _ _ Hok); cbn [es_conn es_pos]; unfold may_fail; rewrite ?Er, ?Ew, ?Es, ?Ed; try done.
    destruct (c_done c); [by rewrite orb_true_r|by rewrite andb_false_r in Eb]. }
  destruct (Write_conn_ok d w c Hw Hp) as (c1 & r & E & Hw1 & Er & Es & Ecl & Hc). rewrite E, bind_Ret_l.
  apply Write_conn_done in E.
  destruct r as [n [e|]|g|n].
  - destruct Hc as [Hc Hcl]. apply Hnext. apply (echo_ok_drops _ _ _ Hok); cbn [es_conn es_pos]; rewrite ?E, ?Es, ?Ecl; try done.
    unfold may_fail. by rewrite Ecl, Hcl.
  - destruct Hc as [Hc ->]. apply Hnext. apply (echo_ok_moves _ _ _ _ _ [] Hok); cbn [es_conn es_pos es_in es_out]; rewrite ?Er, ?app_nil_r; try done.
    + unfold on_its_way. cbn [es_conn es_pos es_in es_out echo_rest]. by rewrite Er, Hc, zdrop_all by lia.
    + by rewrite Hc.
  - do 2 eexists. split; [reflexivity|].
    apply (echo_ok_moves _ _ _ _ _ [] Hok); cbn [es_conn es_pos es_in es_out]; rewrite ?Er, ?Hc, ?app_nil_r; try done.
    unfold on_its_way. cbn [es_conn es_pos es_in es_out echo_rest]. by rewrite Er, Hc.
  - destruct Hc as (Hn & Hcl & Hc). do 2 eexists. split; [reflexivity|].
    apply (echo_ok_moves _ _ _ _ _ [] Hok); cbn [es_conn es_pos es_in es_out echo_pos_ok]; rewrite ?Er, ?app_nil_r; try done.
    + lia.
    + unfold on_its_way. cbn [es_conn es_pos es_in es_out echo_rest]. by rewrite Er, (app_assoc (contents (c_writeBuf c1))), Hc, <- app_assoc.
    + by rewrite Ecl, Hcl.
Qed.

Lemma echo_round_ok k c p i o :
  echo_ok (mkEcho c p i o) → ∃ c' p', echo_round k c p = Ret (c', p') ∧ echo_ok (mkEcho c' p' i o).
Proof.
  intros Hok. destruct p as [b|d err|d w b err|]; [by apply read_round_ok| |by apply write_round_ok|by exists c, EchoGone].
  pose proof Hok as [Hr Hw Hs Hp _ _ _]. cbn [es_conn es_pos] in *. cbn [echo_round].
  destruct (Write_start_ok c Hw) as (c1 & e & E & Hw1 & Er & Es & Ec & Ecl & He). rewrite E, bind_Ret_l.
  apply Write_start_done in E. destruct e as [e|].
  - exists (echo_next c1 err).1, (echo_next c1 err).2. split; [by destruct (echo_next c1 err)|]. apply (echo_next_ok _ _ false).
    apply (echo_ok_drops _ _ _ Hok); cbn [es_conn es_pos]; rewrite ?E, ?Es, ?Ecl; try done.
    unfold may_fail. rewrite Ecl, Hs by auto. done.
  - do 2 eexists. split; [reflexivity|]. pose proof (zlen_nonneg d).
    apply (echo_ok_moves _ _ _ _ _ [] Hok); cbn [es_conn es_pos es_in es_out echo_pos_ok]; rewrite ?Er, ?Ec, ?app_nil_r; try done.
    unfold on_its_way. cbn [es_conn es_pos es_in es_out echo_rest]. by rewrite Er, Ec, zdrop_0 by lia.
Qed.

Lemma echo_step_ok s ev : echo_ok s → event_ok ev → ∃ s', echo_step s ev = Ret s' ∧ echo_ok s'.
Proof.
  intros Hok Hev. destruct s as [c p i o]. pose proof Hok as [Hr Hw Hs Hp Hsub Hpre Hall]. cbn [es_conn es_pos] in *.
  destruct ev as [k|d|n|size| | |]; cbn [echo_step es_conn es_pos es_in es_out].
  - destruct (echo_round_ok k c p i o Hok) as (c' & p' & -> & Hok'). rewrite bind_Ret_l. by eexists.
  - destruct (WriteNoBlock_puts _ _ Hr Hev) as (rb & n & -> & Hr' & _ & Hc). rewrite bind_Ret_l. eexists. split; [reflexivity|].
    apply (echo_ok_moves _ _ _ _ _ (ztake n d) Hok); cbn; try done.
    unfold on_its_way. cbn. by rewrite Hc, !app_assoc.
  - destruct (ReadNoBlock_ok _ _ Hw Hev) as (wb & -> & Hw' & Ec & _ & Hcl). rewrite bind_Ret_l.
    pose proof (ztake_zdrop n (contents (c_writeBuf c))) as Hc. rewrite <- Ec in Hc. symmetry in Hc.
    set (d := ztake n (contents (c_writeBuf c))) in *. eexists. split; [reflexivity|].
    apply (echo_ok_moves _ _ _ _ _ [] Hok); cbn; rewrite ?app_nil_r; try done.
    + unfold on_its_way. cbn. by rewrite Hc, <- !app_assoc.
    + intros _. by rewrite Hc, app_assoc.
  - destruct (Grow_ok (c_readBuf c) size Hr) as (rb & -> & Hr' & Ec & _). rewrite bind_Ret_l. eexists. split; [reflexivity|].
    apply (echo_ok_moves _ _ _ _ _ [] Hok); cbn; rewrite ?app_nil_r; try done. unfold on_its_way. cbn. by rewrite Ec.
  - destruct (CloseWrite_ok (c_readBuf c) Hr) as (H1 & H2 & _). eexists. split; [reflexivity|].
    by apply (echo_ok_moves _ _ _ _ _ [] Hok); cbn; rewrite ?app_nil_r.
  - destruct (CloseWrite_ok (c_writeBuf c) Hw) as (H1 & H2 & H3). eexists. split; [reflexivity|]. by split.
  - eexists. split; [reflexivity|]. split; cbn; try done. unfold may_fail. cbn. by rewrite orb_true_r.
Qed.

Lemma echo_run_ok s evs : echo_ok s → Forall event_ok evs → ∃ s', echo_run s evs = Ret s' ∧ echo_ok s'.
Proof.
  intros Hok Hevs. revert s Hok. induction Hevs as [|ev evs Hev _ IH]; intros s Hok; [by exists s|].
  destruct (echo_step_ok s ev Hok Hev) as (s1 & E & Hok1). cbn [echo_run]. rewrite E, bind_Ret_l. by apply IH.
Qed.

(** C22: the TCP echo server echoes.  However its rounds interleave with the
    arrival of data, the taking of data to send, the closing of the buffers and
    the end of the connection, nothing panics, and what is taken from the write
    buffer are bytes that were delivered, in the same order, none twice.  Until
    the connection is done, by a reset or otherwise, they are a prefix of what
    was delivered; and as long as the write buffer is open as well, all that
    was delivered is on its way back: taken, in the write buffer, held by the
    goroutine or still in the read buffer, in that order. *)
Theorem tcp_echo_returns_data c evs :
  ring_ok (c_readBuf c) → ring_ok (c_writeBuf c) → contents (c_readBuf c) = [] → contents (c_writeBuf c) = [] →
  c_writeShutdown c = false → Forall event_ok evs →
  ∃ s, echo_run (mkEcho c (EchoReads false) [] []) evs = Ret s ∧ es_out s `sublist_of` es_in s ∧
    (c_done (es_conn s) = false → es_out s `prefix_of` es_in s) ∧
    (c_done (es_conn s) = false → rb_closed (c_writeBuf (es_conn s)) = false →
     es_in s = es_out s ++ contents (c_writeBuf (es_conn s)) ++ echo_rest (es_pos s) ++ contents (c_readBuf (es_conn s))).
Proof.
  intros Hr Hw Er Ew Hs Hevs. destruct (echo_run_ok (mkEcho c (EchoReads false) [] []) evs) as (s & E & Hok); [|done|].
  { split; cbn; unfold on_its_way; cbn; rewrite ?Er, ?Ew, ?Hs; done. }
  exists s. split; [done|]. split; [|split].
  - etrans; [|apply (eo_sub _ Hok)]. by apply sublist_inserts_r.
  - intros Hd. etrans; [|by apply (eo_prefix _ Hok)]. by apply prefix_app_r.
  - intros Hd Hc. apply (eo_all _ Hok). unfold may_fail. by rewrite Hd, Hc.
Qed.

Definition sample_echo_ring : ringBuffer := mkRing (make_bytes 8) 0 0 false 0 0 false.

Definition sample_echo_conn : TCPConn :=
  (sample_conn stateEstablished None None sample_echo_ring sample_echo_ring)
    <| c_cfg := mkConnConfig 7200 75 9 60 75 60 40 60 65535 200 60000 1000 5 65535 65536 16 16 |>.

Lemma sample_echo_ring_ok : ring_ok sample_echo_ring.
Proof. destruct (newRingBuffer_ok 8) as (rb & [= <-] & Hok & _); [done|exact Hok]. Qed.

Lemma tcp_echo_returns_data_witness :
  ∃ s, echo_run (mkEcho sample_echo_conn (EchoReads false) [] [])
      [EvDeliver [1; 2; 3]; EvEcho false; EvEcho false; EvDeliver [4; 5]; EvEcho false; EvTake 2; EvEcho false; EvEcho false] = Ret s ∧
    es_out s `sublist_of` es_in s ∧ es_out s = [1; 2] ∧ es_in s = [1; 2; 3; 4; 5].
Proof.
  destruct (tcp_echo_returns_data sample_echo_conn
    [EvDeliver [1; 2; 3]; EvEcho false; EvEcho false; EvDeliver [4; 5]; EvEcho false; EvTake 2; EvEcho false; EvEcho false] sample_echo_ring_ok sample_echo_ring_ok
    eq_refl eq_refl eq_refl ltac:(repeat constructor; done)) as (s & E & Hp & _).
  exists s. split; [exact E|]. split; [exact Hp|].
  assert (Some (es_out s, es_in s) = Some ([1; 2], [1; 2; 3; 4; 5])) as [= E1 E2]; [|by split].
  transitivity (match echo_run (mkEcho sample_echo_conn (EchoReads false) [] [])
      [EvDeliver [1; 2; 3]; EvEcho false; EvEcho false; EvDeliver [4; 5]; EvEcho false; EvTake 2; EvEcho false; EvEcho false] with
    | Ret s => Some (es_out s, es_in s) | _ => None end); [by rewrite E|vm_compute; reflexivity].
Defined.

(** * [udpEcho] *)
Inductive udp_echo_result := EchoSent (w : Udp.write_result) | EchoStops | EchoWaits.

Definition udpEchoBufSize : Z := 65535 - IPv4.IPv4MinHeaderSize - UDP.UDPHeaderSize.

(** One round of the loop; the result of [WriteTo] is not looked at. *)
Definition udpEcho_round (pickDone1 pickDone2 : bool) (pooled : PacketBuffer) (h : Udp.UDPHandler) (s : Stack) (buf : bytes) :
    outcome (Udp.UDPHandler * Stack * bytes * udp_echo_result) :=
  '(h, r) ← Udp.ReadFrom pickDone1 h buf;
  match r with
  | Udp.ReadGot buf n src dst =>
      data ← slice_to buf n;
      '(h, s, w) ← Udp.WriteTo pickDone2 pooled h s data dst src;
      Ret (h, s, buf, EchoSent w)
  | Udp.ReadErr _ => Ret (h, s, buf, EchoStops)
  | Udp.ReadBlocks => Ret (h, s, buf, EchoWaits)
  end.

(** An end that can send a datagram: its handler is open, and its stack has an
    empty queue and a usable MTU. *)
Record can_send (h : Udp.UDPHandler) (s : Stack) : Prop := {
  cs_max : Udp.u_maxPayload h = Udp.maxIPv4UDPPayload;
  cs_open : Udp.u_done h = false;
  cs_ttl : is_u8 (s_ttl s);
  cs_running : s_done s = false;
  cs_queue : s_outboundCh s = [];
  cs_room : 0 < s_queueSize s;
  cs_mtu : 28 ≤ s_mtu s ≤ maxSupportedMTU }.

(** An end that can take a datagram of [n] bytes from [s] to a buffer. *)
Record can_take (h : Udp.UDPHandler) (r s : Stack) (src dst : FullAddress) (n t0 t1 : Z) : Prop := {
  ct_stack : receiver_ok r (mkKey (Addr src) (Addr dst) (next_id s) 17) 17 (8 + n) t0 t1;
  ct_queue : Udp.u_inbound h = [];
  ct_room : 0 < Udp.u_queueSize h }.

Definition addr_ok (a : FullAddress) : Prop := is_u32 (Addr a) ∧ is_u16 (Port a).

(** What leaves one stack is read by the other in any order, and the handler
    of the other takes the datagram. *)
Definition arrives (out : list wire) (r : Stack) (h : Udp.UDPHandler) (pooled : RefBuf) (t0 t1 : Z) (h' : Udp.UDPHandler → Prop) : Prop :=
  ∀ evs, (rd_raw <$> evs) ≡ₚ (wire_data <$> out) → Forall (read_ok t0 t1) evs →
  ∃ r' pkt h1, read_all r evs = Ret (r', replicate (length evs - 1) ReadDrops ++ [ReadDispatches 17 pkt]) ∧
    Udp.HandlePacket pooled h pkt = Ret h1 ∧ h' h1.

Lemma send_arrives h s r hr b src dst buf pooled pooledr t0 t1 :
  bytes_ok b → zlen b ≤ Udp.maxIPv4UDPPayload → addr_ok src → addr_ok dst → can_send h s →
  can_take hr r s src dst (zlen b) t0 t1 → zlen b ≤ zlen buf →
  ∃ h1 s1 s2 out, Udp.WriteTo false pooled h s b src dst = Ret (h1, s1, Udp.Wrote (zlen b) Enqueued) ∧
    writeLoop_round false s1 = Ret (Some (s2, out)) ∧ Forall (λ w, zlen (wire_data w) ≤ s_mtu s) out ∧
    arrives out r hr pooledr t0 t1 (λ hr1, ∃ hr2,
      Udp.ReadFrom false hr1 buf = Ret (hr2, Udp.ReadGot (b ++ zdrop (zlen b) buf) (zlen b) src dst) ∧
      Udp.u_inbound hr2 = [] ∧ Udp.u_done hr2 = Udp.u_done hr ∧ Udp.u_maxPayload hr2 = Udp.u_maxPayload hr).
Proof.
  intros Hb Hl [Hs1 Hs2] [Hd1 Hd2] [H1 H2 H3 H4 H5 H6 H7] [G1 G2 G3] Hbuf.
  destruct (Udp.datagram_gets_through h s r hr b src dst buf pooled pooledr t0 t1) as (h1 & s1 & s2 & out & E1 & E2 & Hf & Hgo); try done.
  exists h1, s1, s2, out. split_and!; [done..|]. intros evs Hp He.
  destruct (Hgo evs Hp He) as (r' & pkt & ip & d & hr1 & hr2 & Er & _ & _ & Eh & Erd & Hrest).
  exists r', pkt, hr1. split; [done|]. split; [done|]. by exists hr2.
Qed.

(** C20: the UDP echo server returns each datagram to its sender.  A datagram
    that a client writes is split as the MTU demands; when the server has read
    the packets, in any order, one round of its loop sends the same payload
    back with the two addresses exchanged; and when the client has read those
    packets, its [ReadFrom] returns the payload it had sent, from the address
    it had sent it to. *)
Theorem udp_echo_returns_datagram hc sc rs hs ss rc hr b src dst buf p1 p2 p3 p4 t0 t1 :
  bytes_ok b → zlen b ≤ Udp.maxIPv4UDPPayload → addr_ok src → addr_ok dst → zlen b ≤ zlen buf →
  can_send hc sc → can_take hs rs sc src dst (zlen b) t0 t1 →
  can_send hs ss → can_take hr rc ss dst src (zlen b) t0 t1 →
  ∃ h1 s1 s2 out, Udp.WriteTo false p1 hc sc b src dst = Ret (h1, s1, Udp.Wrote (zlen b) Enqueued) ∧
    writeLoop_round false s1 = Ret (Some (s2, out)) ∧
    arrives out rs hs p2 t0 t1 (λ hs1, ∃ hs2 s3 s4 buf' out',
      udpEcho_round false false p3 hs1 ss (make_bytes udpEchoBufSize) =
        Ret (hs2, s3, buf', EchoSent (Udp.Wrote (zlen b) Enqueued)) ∧
      writeLoop_round false s3 = Ret (Some (s4, out')) ∧
      arrives out' rc hr p4 t0 t1 (λ hr1, ∃ hr2,
        Udp.ReadFrom false hr1 buf = Ret (hr2, Udp.ReadGot (b ++ zdrop (zlen b) buf) (zlen b) dst src))).
Proof.
  intros Hb Hl Hsrc Hdst Hbuf Hc1 Ht1 Hc2 Ht2.
  assert (zlen (make_bytes udpEchoBufSize) = udpEchoBufSize) as Lbuf by by apply zlen_make_bytes.
  assert (zlen b ≤ zlen (make_bytes udpEchoBufSize)) as Hbuf' by by rewrite Lbuf.
  clear Lbuf. revert Hbuf'. generalize (make_bytes udpEchoBufSize) as eb. intros eb Hbuf'.
  destruct (send_arrives hc sc rs hs b src dst eb p1 p2 t0 t1 Hb Hl Hsrc Hdst Hc1 Ht1 Hbuf')
    as (h1 & s1 & s2 & out & E1 & E2 & _ & Ha).
  exists h1, s1, s2, out. split; [done|]. split; [done|]. intros evs Hp He.
  destruct (Ha evs Hp He) as (r' & pkt & hs1 & Er & Eh & hs2 & Erd & _ & Edone & Emax). exists r', pkt, hs1. split; [done|]. split; [done|].
  destruct (send_arrives hs2 ss rc hr b dst src buf p3 p4 t0 t1) as (h3 & s3 & s4 & out' & E3 & E4 & _ & Ha'); try done.
  { destruct Hc2 as [C1 C2 C3 C4 C5 C6 C7]. split; congruence || done. }
  exists h3, s3, s4, (b ++ zdrop (zlen b) eb), out'. split_and!; [|done|].
  - unfold udpEcho_round. by rewrite Erd, bind_Ret_l, slice_to_app, bind_Ret_l, E3, bind_Ret_l.
  - intros evs' Hp' He'. destruct (Ha' evs' Hp' He') as (r2 & pkt2 & hr1 & Er2 & Eh2 & hr2 & Erd2 & _).
    exists r2, pkt2, hr1. split; [done|]. split; [done|]. by exists hr2.
Qed.

Lemma sample_can_send m : 28 ≤ m ≤ 1500 → can_send Udp.sample_handler (sample_stack m).
Proof. by split. Qed.
Lemma sample_can_take src dst m :
  can_take Udp.sample_handler (sample_stack 1500) (sample_stack m) src dst (zlen sample_payload) 0 30000000000.
Proof.
  split; [|done..]. split; [apply empty_reasm_ok|reflexivity|split; [reflexivity|done]|done|split; [done|]]. reflexivity.
Qed.

Lemma udp_echo_returns_datagram_witness :
  let src := mkFullAddress 1 53 in let dst := mkFullAddress 2 4000 in
  ∃ h1 s1 s2 out,
    Udp.WriteTo false pool_New Udp.sample_handler (sample_stack 36) sample_payload src dst = Ret (h1, s1, Udp.Wrote 24 Enqueued) ∧
    writeLoop_round false s1 = Ret (Some (s2, out)) ∧
    arrives out (sample_stack 1500) Udp.sample_handler refBufPool_New 0 30000000000 (λ hs1, ∃ hs2 s3 s4 buf' out',
      udpEcho_round false false pool_New hs1 (sample_stack 100) (make_bytes udpEchoBufSize) =
        Ret (hs2, s3, buf', EchoSent (Udp.Wrote 24 Enqueued)) ∧
      writeLoop_round false s3 = Ret (Some (s4, out')) ∧
      arrives out' (sample_stack 1500) Udp.sample_handler refBufPool_New 0 30000000000 (λ hr1, ∃ hr2,
        Udp.ReadFrom false hr1 (make_bytes 24) = Ret (hr2, Udp.ReadGot (sample_payload ++ []) 24 dst src))).
Proof.
  apply (udp_echo_returns_datagram Udp.sample_handler (sample_stack 36) (sample_stack 1500) Udp.sample_handler (sample_stack 100)
    (sample_stack 1500) Udp.sample_handler sample_payload (mkFullAddress 1 53) (mkFullAddress 2 4000) (make_bytes 24)
    pool_New refBufPool_New pool_New refBufPool_New 0 30000000000);
    [apply Udp.sample_payload_ok|done|done|done|done|by apply sample_can_send|apply sample_can_take|by apply sample_can_send|apply sample_can_take].
Defined.
