(* ===== verification/Forward.v ===== *)
(** The forwarding server of src/example/main.go: [tcpForward] connects each
    accepted connection to a remote host and copies both directions, each with
    an [io.Copy] in a goroutine of its own, and passes the end of a stream on
    with [CloseWrite].

    The remote connection is Go's [net.TCPConn], which is not part of the
    repository: the results of its calls are arguments of the definitions. *)
From S2P Require Import Prelude.
From S2P Require Import Ringbuf.
From S2P Require Import TcpConn.
From S2P Require Import Conn.
From S2P Require Import SndFacts.
From S2P Require Import StreamFacts.
From S2P Require Import Echo.

(** * The two goroutines of one connection *)

(** The size of the buffer of [io.Copy]. *)
Definition copyBufSize : Z := 32768.

(** [io.Copy] after a write of [nr] bytes that took [nw] and reported an error
    or not, [er] being whether the read before it reported one: [None] to go
    on, or whether it ends with an error other than [io.EOF]. *)
Definition copy_wrote (nr nw : Z) (ew : bool) (er : option rb_error) : option bool :=
  if ew || (nw <? 0) || (nr <? nw) then Some true else
  if negb (nr =? nw) then Some true else
  match er with
  | Some EOF => Some false
  | Some errBufferClosed => Some true
  | None => None
  end.

(** From the connection to the remote host: in [Read], in [remote.Write] with
    what was read, or after [CloseWrite] and [close(done)]. *)
Inductive up_pos :=
| UpReads
| UpWrites (d : bytes) (er : option rb_error)
| UpGone (failed : bool).

Definition up_next (stop : option bool) : up_pos :=
  match stop with None => UpReads | Some failed => UpGone failed end.

(** One round; [rw] is what [remote.Write] returned, if it did, and the bytes
    returned are those the remote connection took. *)
Definition up_round (c : TCPConn) (p : up_pos) (rw : option (Z * bool)) :
    outcome (TCPConn * up_pos * bytes) :=
  match p with
  | UpReads =>
      '(c, r) ← Read_conn copyBufSize c;
      match r with
      | ReadWaits _ => Ret (c, if c_done c then UpGone true else UpReads, [])
      | ReadReturns d er =>
          Ret (c, if zlen d >? 0 then UpWrites d er else up_next (copy_wrote 0 0 false er), [])
      end
  | UpWrites d er =>
      match rw with
      | None => Ret (c, p, [])
      | Some (nw, ew) => Ret (c, up_next (copy_wrote (zlen d) nw ew er), ztake nw d)
      end
  | UpGone _ => Ret (c, p, [])
  end.

(** From the remote host to the connection: before [net.Dial] has returned, in
    [remote.Read], in [Write] with what was read, waiting for the other
    goroutine, or gone.  An error of [remote.Read] other than [io.EOF] is
    [errBufferClosed] here. *)
Inductive down_pos :=
| DownDials
| DownReads
| DownCalls (d : bytes) (er : option rb_error)
| DownWrites (d : bytes) (written : Z) (er : option rb_error)
| DownWaits (failed : bool)
| DownGone (failed : bool).

(** After [io.Copy], [conn.CloseWrite]. *)
Definition down_next (c : TCPConn) (stop : option bool) : TCPConn * down_pos :=
  match stop with None => (c, DownReads) | Some failed => (CloseWrite_conn c, DownWaits failed) end.

(** What the remote connection does for it: [net.Dial] succeeds or not, and
    [remote.Read] returns data and an error. *)
Inductive remote_result := RDialed (ok : bool) | RRead (d : bytes) (er : option rb_error).

Definition down_round (c : TCPConn) (p : down_pos) (upGone : bool) (r : option remote_result) :
    outcome (TCPConn * down_pos) :=
  match p with
  | DownDials =>
      match r with
      | Some (RDialed true) => Ret (c, DownReads)
      | Some (RDialed false) => Ret (Close_conn c, DownGone true)
      | _ => Ret (c, p)
      end
  | DownReads =>
      match r with
      | Some (RRead d er) =>
          Ret (if zlen d >? 0 then (c, DownCalls d er) else down_next c (copy_wrote 0 0 false er))
      | _ => Ret (c, p)
      end
  | DownCalls d er =>
      '(c, e) ← Write_start c;
      Ret (match e with
           | Some _ => down_next c (copy_wrote (zlen d) 0 true er)
           | None => (c, DownWrites d 0 er)
           end)
  | DownWrites d written er =>
      '(c, w) ← Write_conn d written c;
      Ret (match w with
           | WriteReturns n e => down_next c (copy_wrote (zlen d) n (bool_decide (is_Some e)) er)
           | WriteGoesOn n => (c, DownWrites d n er)
           | WriteWaits _ =>
               if c_done c
               then down_next (if written >? 0 then c <| c_writeNotify := true |> else c) (Some true)
               else (c, p)
           end)
  | DownWaits failed => Ret (if upGone then (Close_conn c, DownGone failed) else (c, p))
  | DownGone _ => Ret (c, p)
  end.

(** * One connection being forwarded *)

(** The connection, both goroutines; what the stack has delivered to it and
    taken from it, and what the remote connection has taken and returned. *)
Record forward := mkForward {
  fw_conn : TCPConn; fw_up : up_pos; fw_down : down_pos;
  fw_in : bytes; fw_out : bytes; fw_sent : bytes; fw_got : bytes }.

Definition up_gone (p : up_pos) : bool := match p with UpGone _ => true | _ => false end.
(** The other goroutine is started when [net.Dial] has returned. *)
Definition dialed (p : down_pos) : bool := match p with DownDials => false | _ => true end.

(** Rounds of the goroutines, and the rest of the stack as the connection's
    buffers see it. *)
Inductive forward_event :=
| FwUp (rw : option (Z * bool))
| FwDown (r : option remote_result)
| FwDeliver (p : bytes)
| FwTake (n : Z)
| FwGrowRead (size : Z)
| FwCloseRead
| FwCloseWrite
| FwDone.

(** What a round reads from the remote connection. *)
Definition round_reads (p : down_pos) (r : option remote_result) : bytes :=
  match p, r with DownReads, Some (RRead d _) => d | _, _ => [] end.

Definition forward_step (s : forward) (ev : forward_event) : outcome forward :=
  let '(mkForward c up down i o sent got) := s in
  match ev with
  | FwUp rw =>
      if dialed down then
        '(c, up, took) ← up_round c up rw; Ret (mkForward c up down i o (sent ++ took) got)
      else Ret s
  | FwDown r =>
      '(c, down') ← down_round c down (up_gone up) r;
      Ret (mkForward c up down' i o sent (got ++ round_reads down r))
  | FwDeliver p =>
      '(rb, n) ← WriteNoBlock (c_readBuf c) p;
      Ret (mkForward (c <| c_readBuf := rb |>) up down (i ++ ztake n p) o sent got)
  | FwTake n =>
      '(wb, d) ← ReadNoBlock (c_writeBuf c) n;
      Ret (mkForward (c <| c_writeBuf := wb |>) up down i (o ++ d) sent got)
  | FwGrowRead size =>
      rb ← Grow (c_readBuf c) size; Ret (mkForward (c <| c_readBuf := rb |>) up down i o sent got)
  | FwCloseRead => Ret (mkForward (c <| c_readBuf := CloseWrite (c_readBuf c) |>) up down i o sent got)
  | FwCloseWrite => Ret (mkForward (c <| c_writeBuf := CloseWrite (c_writeBuf c) |>) up down i o sent got)
  | FwDone => Ret (mkForward (c <| c_done := true |>) up down i o sent got)
  end.

Fixpoint forward_run (s : forward) (evs : list forward_event) : outcome forward :=
  match evs with
  | [] => Ret s
  | ev :: evs => s ← forward_step s ev; forward_run s evs
  end.

(** [Write] of the remote connection takes part of its argument, all of it
    unless it reports an error, as [io.Writer] says. *)
Definition writer_ok (p : up_pos) (rw : option (Z * bool)) : bool :=
  match p, rw with
  | UpWrites d _, Some (nw, ew) => (0 <=? nw) && (nw <=? zlen d) && (ew || (nw =? zlen d))
  | _, _ => true
  end.

Definition forward_event_ok (s : forward) (ev : forward_event) : bool :=
  match ev with
  | FwUp rw => writer_ok (fw_up s) rw
  | FwDeliver p => 0 <? zlen p
  | FwTake n => 0 <? n
  | _ => true
  end.

(** A run whose events are possible where they happen. *)
Fixpoint forwards (s : forward) (evs : list forward_event) : bool :=
  match evs with
  | [] => true
  | ev :: evs =>
      forward_event_ok s ev && match forward_step s ev with Ret s' => forwards s' evs | _ => true end
  end.

(** * What the goroutines hold *)
Definition up_rest (p : up_pos) : bytes := match p with UpWrites d _ => d | _ => [] end.
Definition down_rest (p : down_pos) : bytes :=
  match p with DownCalls d _ => d | DownWrites d w _ => zdrop w d | _ => [] end.

(** Towards the remote host: all that was delivered is on its way, in order;
    at the end it has been taken, unless a call failed. *)
Definition up_ok (rb : ringBuffer) (p : up_pos) (i sent : bytes) : Prop :=
  match p with
  | UpGone true => sent `prefix_of` i
  | UpGone false => sent = i ∧ rb_closed rb = true ∧ contents rb = []
  | UpWrites _ (Some _) => False
  | _ => i = sent ++ up_rest p ++ contents rb
  end.

(** Towards the connection likewise. *)
Definition down_ok (wb : ringBuffer) (p : down_pos) (got o : bytes) : Prop :=
  match p with
  | DownWaits true | DownGone true => o ++ contents wb `prefix_of` got
  | DownWrites d w _ => 0 ≤ w ≤ zlen d ∧ got = o ++ contents wb ++ zdrop w d
  | _ => got = o ++ contents wb ++ down_rest p
  end.

Record forward_ok (s : forward) : Prop := {
  fo_read : ring_ok (c_readBuf (fw_conn s));
  fo_write : ring_ok (c_writeBuf (fw_conn s));
  fo_up : up_ok (c_readBuf (fw_conn s)) (fw_up s) (fw_in s) (fw_sent s);
  fo_down : down_ok (c_writeBuf (fw_conn s)) (fw_down s) (fw_got s) (fw_out s) }.

(** ** The goroutines *)
Lemma up_round_ok c p rw i sent :
  ring_ok (c_readBuf c) → up_ok (c_readBuf c) p i sent → writer_ok p rw = true →
  ∃ c' p' took, up_round c p rw = Ret (c', p', took) ∧ ring_ok (c_readBuf c') ∧ c_writeBuf c' = c_writeBuf c ∧
    up_ok (c_readBuf c') p' i (sent ++ took).
Proof.
  intros Hok Hup Hrw. destruct p as [|d er|failed]; cbn [up_round].
  - destruct (Read_conn_ring c copyBufSize Hok ltac:(done)) as (rb & b & r & -> & Hok' & Hc & _ & _ & Heo).
    rewrite bind_Ret_l. cbn in Hup. subst i. destruct r as [d er|g]; cbn [read_data] in Hc.
    + destruct Heo as [([= -> ->] & Hnil & Hcl)|Hno].
      * do 3 eexists. split; [reflexivity|]. split; [done|]. split; [done|]. cbn. cbn in Hc.
        change (zlen [] >? 0) with false. cbn. by rewrite <- Hc, Hnil.
      * destruct (Hno d er eq_refl) as [-> Hd]. assert ((zlen d >? 0) = true) as ->.
        { destruct d; [done|]. rewrite zlen_cons. pose proof (zlen_nonneg d). lia. }
        do 3 eexists. split; [reflexivity|]. split; [done|]. split; [done|]. cbn. by rewrite app_nil_r, Hc.
    + do 3 eexists. split; [reflexivity|]. split; [done|]. split; [done|]. cbn in Hc |- *. rewrite app_nil_r.
      match goal with |- context [if c_done ?y then _ else _] => destruct (c_done y) end; cbn; [by apply prefix_app_r|by rewrite Hc].
  - destruct er as [er|]; [done|]. cbn in Hup. subst i. destruct rw as [[nw ew]|]; cbn in Hrw.
    2: { do 3 eexists. split; [reflexivity|]. split; [done|]. split; [done|]. by rewrite app_nil_r. }
    assert (0 ≤ nw ≤ zlen d ∧ (ew = false → nw = zlen d)) as [Hn Hall] by (destruct ew; cbn in Hrw; lia). do 3 eexists. split; [reflexivity|]. split; [done|]. split; [done|].
    unfold copy_wrote. rewrite (proj2 (Z.ltb_ge nw 0)), (proj2 (Z.ltb_ge (zlen d) nw)), !orb_false_r by lia.
    assert (sent ++ ztake nw d `prefix_of` sent ++ d ++ contents (c_readBuf c)) as Hpre.
    { apply prefix_app. exists (zdrop nw d ++ contents (c_readBuf c)). by rewrite app_assoc, ztake_zdrop. }
    destruct ew; [done|]. rewrite Hall, Z.eqb_refl by done. cbn. by rewrite ztake_all, app_assoc by lia.
  - do 3 eexists. split; [reflexivity|]. split; [done|]. split; [done|]. by rewrite app_nil_r.
Qed.

Lemma CloseWrite_conn_ok c :
  ring_ok (c_writeBuf c) →
  c_readBuf (CloseWrite_conn c) = c_readBuf c ∧ ring_ok (c_writeBuf (CloseWrite_conn c)) ∧
  contents (c_writeBuf (CloseWrite_conn c)) = contents (c_writeBuf c).
Proof. intros Hok. unfold CloseWrite_conn. destruct (c_closeOnce c); [done|]. by destruct Hok. Qed.

(** The end of [io.Copy] from the remote host: a copy that has not failed has
    put everything into the write buffer. *)
Lemma down_next_ok c stop got o :
  ring_ok (c_writeBuf c) → (stop = Some true ∨ got = o ++ contents (c_writeBuf c)) →
  o ++ contents (c_writeBuf c) `prefix_of` got →
  c_readBuf (down_next c stop).1 = c_readBuf c ∧ ring_ok (c_writeBuf (down_next c stop).1) ∧
  down_ok (c_writeBuf (down_next c stop).1) (down_next c stop).2 got o.
Proof.
  intros Hok Hstop Hpre. destruct (CloseWrite_conn_ok c Hok) as (H1 & H2 & H3).
  destruct stop as [[]|]; cbn [down_next fst snd down_ok down_rest]; rewrite ?H3; try done.
  - destruct Hstop as [?|Hg]; [done|]. by rewrite app_nil_r.
  - destruct Hstop as [?|Hg]; [done|]. by rewrite app_nil_r.
Qed.

Lemma down_round_ok c p gone r got o :
  ring_ok (c_writeBuf c) → down_ok (c_writeBuf c) p got o →
  ∃ c' p', down_round c p gone r = Ret (c', p') ∧ c_readBuf c' = c_readBuf c ∧ ring_ok (c_writeBuf c') ∧
    down_ok (c_writeBuf c') p' (got ++ round_reads p r) o.
Proof.
  intros Hok Hd. assert (∀ c' stop, c_readBuf c' = c_readBuf c → ring_ok (c_writeBuf c') → ∀ got',
    (stop = Some true ∨ got' = o ++ contents (c_writeBuf c')) → o ++ contents (c_writeBuf c') `prefix_of` got' →
    ∃ c2 p2, Ret (down_next c' stop) = Ret (c2, p2) ∧ c_readBuf c2 = c_readBuf c ∧ ring_ok (c_writeBuf c2) ∧
      down_ok (c_writeBuf c2) p2 got' o) as Hnext.
  { intros c' stop Hr Hw got' Hs Hp. destruct (down_next_ok c' stop got' o Hw Hs Hp) as (? & ? & ?).
    destruct (down_next c' stop) as [c2 p2]. exists c2, p2. cbn [fst snd] in *. split_and!; try done. congruence. }
  assert (∀ p2, down_ok (c_writeBuf c) p2 got o → ∃ c2 p3, Ret (c, p2) = Ret (c2, p3) ∧ c_readBuf c2 = c_readBuf c ∧
    ring_ok (c_writeBuf c2) ∧ down_ok (c_writeBuf c2) p3 got o) as Hsame by (intros p2 ?; by exists c, p2).
  destruct (CloseWrite_conn_ok c Hok) as (C1 & C2 & C3).
  destruct p as [| |d er|d n er|failed|failed]; cbn [down_round round_reads]; rewrite ?app_nil_r; cbn in Hd.
  - destruct r as [[[]|]|]; try (by apply Hsame). exists (Close_conn c), (DownGone true).
    unfold Close_conn. split_and!; try done. cbn. rewrite C3, Hd, app_nil_r. done.
  - destruct r as [[|d er]|]; rewrite ?app_nil_r; try (by apply Hsame). rewrite app_nil_r in Hd.
    destruct (Z.gtb_spec (zlen d) 0).
    + exists c, (DownCalls d er). split_and!; try done. cbn. by rewrite Hd, app_assoc.
    + assert (d = []) as -> by (destruct d; [done|rewrite zlen_cons in *; pose proof (zlen_nonneg d); lia]).
      rewrite app_nil_r. apply Hnext; try done; [by right|by rewrite Hd].
  - destruct (Write_start_ok c Hok) as (c1 & e & -> & Hw1 & Er & Es & Ec & Ecl & He). rewrite bind_Ret_l. destruct e as [e|].
    + apply Hnext; try done; [by left|]. rewrite Ec, Hd, app_assoc. by apply prefix_app_r.
    + exists c1, (DownWrites d 0 er). pose proof (zlen_nonneg d). split_and!; try done. cbn. rewrite Ec, zdrop_0 by lia.
      split; [lia|done].
  - destruct Hd as [Hn Hd]. assert (o ++ contents (c_writeBuf c) `prefix_of` got) as Hpre.
    { rewrite Hd, app_assoc. by apply prefix_app_r. }
    destruct (Write_conn_ok d n c Hok Hn) as (c1 & w & -> & Hw1 & Er & Es & Ecl & Hc). rewrite bind_Ret_l.
    destruct w as [m [e|]|g|m].
    + destruct Hc as [Hc _]. apply Hnext; try done; [by left|by rewrite Hc].
    + destruct Hc as [Hc ->]. apply Hnext; try done; rewrite Hc; [|done].
      rewrite zdrop_all, app_nil_r in Hd by lia. by right.
    + destruct (c_done c1).
      * apply Hnext; [by destruct (n >? 0)|by destruct (n >? 0)|by left|]. destruct (n >? 0); cbn; by rewrite Hc.
      * exists c1, (DownWrites d n er). split_and!; try done. cbn. by rewrite Hc.
    + destruct Hc as (Hm & _ & Hc). exists c1, (DownWrites d m er). split_and!; try done. cbn. rewrite Hc. split; [lia|done].
  - destruct gone; [|by apply Hsame]. exists (Close_conn c), (DownGone failed). unfold Close_conn. split_and!; try done.
    destruct failed; cbn in *; by rewrite C3.
  - by apply Hsame.
Qed.

(** ** The rest of the stack *)
Lemma up_ok_read rb rb' p i i' sent d :
  up_ok rb p i sent → rb_closed rb' = rb_closed rb → contents rb' = contents rb ++ d → i' = i ++ d →
  (rb_closed rb = true → d = []) → up_ok rb' p i' sent.
Proof.
  intros Hup Hcl Hc -> Hd. destruct p as [|d0 [er|]|[]]; cbn in *; try done.
  - by rewrite Hc, Hup, <- app_assoc.
  - by rewrite Hc, Hup, <- !app_assoc.
  - etrans; [exact Hup|]. by apply prefix_app_r.
  - destruct Hup as (-> & Hcl' & Hnil). rewrite Hc, Hcl, Hnil, Hd by done. by rewrite app_nil_r.
Qed.

Lemma down_ok_write wb wb' p got o o' :
  down_ok wb p got o → o' ++ contents wb' = o ++ contents wb → down_ok wb' p got o'.
Proof.
  intros Hd Hc. destruct p as [| | |? ? ?|[]|[]]; cbn in *; rewrite ?app_assoc, ?Hc, <- ?app_assoc in *; done.
Qed.

Lemma WriteNoBlock_closed rb p rb' n : rb_closed rb = true → WriteNoBlock rb p = Ret (rb', n) → ztake n p = [].
Proof. intros Hc. unfold WriteNoBlock. rewrite Hc. intros [= _ <-]. by apply ztake_0. Qed.

Lemma forward_step_ok s ev :
  forward_ok s → forward_event_ok s ev = true → ∃ s', forward_step s ev = Ret s' ∧ forward_ok s'.
Proof.
  intros [Hr Hw Hup Hdn] Hev. destruct s as [c up down i o sent got]. cbn [fw_conn fw_up fw_down fw_in fw_out fw_sent fw_got] in *.
  destruct ev as [rw|r|p|n|size| | |]; cbn [forward_step forward_event_ok] in *.
  - destruct (dialed down); [|by eexists]. destruct (up_round_ok c up rw i sent Hr Hup Hev) as (c' & p' & took & -> & H1 & H2 & H3).
    rewrite bind_Ret_l. eexists. split; [reflexivity|]. split; cbn; rewrite ?H2; done.
  - destruct (down_round_ok c down (up_gone up) r got o Hw Hdn) as (c' & p' & -> & H1 & H2 & H3). rewrite bind_Ret_l.
    eexists. split; [reflexivity|]. split; cbn; rewrite ?H1; done.
  - apply Z.ltb_lt in Hev. destruct (WriteNoBlock_puts _ _ Hr Hev) as (rb & n & E & Hr' & Hcl & Hc). rewrite E, bind_Ret_l.
    eexists. split; [reflexivity|]. split; cbn; try done. eapply up_ok_read; try done.
    intros Hcl0. by eapply WriteNoBlock_closed.
  - apply Z.ltb_lt in Hev. destruct (ReadNoBlock_ok _ _ Hw Hev) as (wb & -> & Hw' & Ec & _ & Hcl). rewrite bind_Ret_l.
    eexists. split; [reflexivity|]. split; cbn; try done. eapply down_ok_write; [done|].
    by rewrite Ec, <- app_assoc, ztake_zdrop.
  - destruct (Grow_ok (c_readBuf c) size Hr) as (rb & -> & Hr' & Ec & _ & Ecl & _). rewrite bind_Ret_l.
    eexists. split; [reflexivity|]. split; cbn; try done. eapply (up_ok_read _ _ _ _ _ _ []); try done; by rewrite app_nil_r.
  - destruct (CloseWrite_ok (c_readBuf c) Hr) as (H1 & H2 & H3). eexists. split; [reflexivity|]. split; cbn; try done.
    destruct up as [|d0 [er|]|[]]; cbn in *; try done. by destruct Hup as (? & _ & ?).
  - destruct (CloseWrite_ok (c_writeBuf c) Hw) as (H1 & H2 & H3). eexists. split; [reflexivity|]. by split.
  - eexists. split; [reflexivity|]. by split.
Qed.

Lemma forward_run_ok s evs : forward_ok s → forwards s evs = true → ∃ s', forward_run s evs = Ret s' ∧ forward_ok s'.
Proof.
  revert s. induction evs as [|ev evs IH]; intros s Hok Hf; [by exists s|]. cbn [forwards] in Hf.
  apply andb_prop in Hf as [Hev Hf]. destruct (forward_step_ok s ev Hok Hev) as (s1 & E & Hok1).
  cbn [forward_run]. rewrite E in Hf |- *. rewrite bind_Ret_l. by apply IH.
Qed.

(** C21: the forwarding server relays both directions completely and in order.
    However the rounds of its two goroutines, the results of the remote
    connection (as [io.Reader] and [io.Writer] allow them), the arrival and the
    taking of data and the closing of buffers interleave, nothing panics; what
    the remote host has taken is a prefix of what was delivered to the
    connection, and what goes out is a prefix of what the remote host sent.
    When the goroutine towards the remote host ends without an error, that is
    after [io.EOF], it has passed on every byte before it calls [CloseWrite];
    when the other one does, every byte of the remote host is in the write
    buffer or taken. *)
Theorem forward_relays c evs :
  ring_ok (c_readBuf c) → ring_ok (c_writeBuf c) → contents (c_readBuf c) = [] → contents (c_writeBuf c) = [] →
  let s0 := mkForward c UpReads DownDials [] [] [] [] in
  forwards s0 evs = true →
  ∃ s, forward_run s0 evs = Ret s ∧ fw_sent s `prefix_of` fw_in s ∧ fw_out s `prefix_of` fw_got s ∧
    (fw_up s = UpGone false → fw_sent s = fw_in s) ∧
    (fw_down s = DownWaits false ∨ fw_down s = DownGone false →
     fw_got s = fw_out s ++ contents (c_writeBuf (fw_conn s))) ∧
    (up_gone (fw_up s) = false → fw_in s = fw_sent s ++ up_rest (fw_up s) ++ contents (c_readBuf (fw_conn s))).
Proof.
  intros Hr Hw Er Ew s0 Hf. destruct (forward_run_ok s0 evs) as (s & E & [_ _ Hup Hdn]); [|done|].
  { split; cbn; rewrite ?Er, ?Ew; done. }
  exists s. split; [done|]. destruct s as [c' up down i o sent got]. cbn [fw_conn fw_up fw_down fw_in fw_out fw_sent fw_got] in *.
  split_and!.
  - destruct up as [|d [er|]|[]]; cbn in Hup; try done; [by rewrite Hup; apply prefix_app_r..|by destruct Hup as [-> _]].
  - assert (o ++ contents (c_writeBuf c') `prefix_of` got) as Hp; [|etrans; [|exact Hp]; by apply prefix_app_r].
    destruct down as [| | |d n er|[]|[]]; cbn in Hdn; try done; try (by rewrite Hdn, app_assoc; apply prefix_app_r).
    destruct Hdn as [_ ->]. rewrite app_assoc. by apply prefix_app_r.
  - intros ->. by destruct Hup.
  - intros [-> | ->]; cbn in Hdn; by rewrite app_nil_r in Hdn.
  - intros Hg. by destruct up as [|d [er|]|].
Qed.

(** Three bytes from each side, the connection's end first. *)
Definition sample_forward : list forward_event :=
  [FwDown (Some (RDialed true)); FwDeliver [1; 2; 3]; FwUp None; FwCloseRead; FwDown (Some (RRead [7; 8; 9] None));
   FwUp (Some (3, false)); FwUp None; FwDown None; FwDown None; FwTake 2; FwDown None;
   FwDown (Some (RRead [] (Some EOF))); FwDown None].

Lemma forward_relays_witness :
  ∃ s, forward_run (mkForward sample_echo_conn UpReads DownDials [] [] [] []) sample_forward = Ret s ∧
    (fw_up s, fw_down s, fw_in s, fw_sent s, fw_got s, fw_out s) =
      (UpGone false, DownGone false, [1; 2; 3], [1; 2; 3], [7; 8; 9], [7; 8]) ∧
    fw_sent s `prefix_of` fw_in s ∧ fw_got s = fw_out s ++ contents (c_writeBuf (fw_conn s)).
Proof.
  destruct (forward_relays sample_echo_conn sample_forward sample_echo_ring_ok sample_echo_ring_ok eq_refl eq_refl)
    as (s & E & Hp & _ & _ & Hd & _).
  - vm_compute. reflexivity.
  - exists s. split; [exact E|].
    assert ((fw_up s, fw_down s, fw_in s, fw_sent s, fw_got s, fw_out s) =
      (UpGone false, DownGone false, [1; 2; 3], [1; 2; 3], [7; 8; 9], [7; 8])) as H.
    { apply (f_equal (λ o, match o with
        | Ret s => (fw_up s, fw_down s, fw_in s, fw_sent s, fw_got s, fw_out s)
        | _ => (UpReads, DownDials, [], [], [], []) end)) in E. rewrite <- E. vm_compute. reflexivity. }
    split; [exact H|]. split; [exact Hp|]. apply Hd. right.
    exact (f_equal (λ t, t.1.1.1.1.2) H).
Defined.
