(* ===== verification/Main.v ===== *)
(** [main] of src/example/main.go up to where it starts its goroutines: the
    stack over the channel and the two handlers.  The command line, the calls
    of [ip], the signal and the log are not modelled; the TUN device is
    [TunDevice], the goroutines are [Echo] and [Forward]. *)
From S2P Require Import Prelude.
From S2P Require Import Tcpip.
From S2P Require Import Fragmentation.
From S2P Require Import Reassembly.
From S2P Require Import Stack.
From S2P Require Import IpLayer.
From S2P Require Import TcpConn.
From S2P Require Import Udp.
From S2P Require Import Handler.
From S2P Require Import TcpSystem.
From S2P Require Import Echo.

Record server := mkServer { sv_stack : Stack; sv_tcp : Tcp.TCPHandler; sv_udp : Udp.UDPHandler }.

(** [mtu] and [gso] are those of the channel, [stats] is the flag. *)
Definition main_setup (mtu : Z) (gso stats : bool) : outcome server :=
  s ← New mtu gso [];
  tcpHandler ← Tcp.NewTCPHandler [];
  let s := RegisterHandler s TCPProtocolNumber in
  udpHandler ← Udp.NewUDPHandler [];
  let s := RegisterHandler s UDPProtocolNumber in
  Ret (if stats then mkServer (EnableStats s) (Tcp.EnableStats tcpHandler) (Udp.EnableStats udpHandler)
       else mkServer s tcpHandler udpHandler).

(** The server that [main] builds meets the conditions of the theorems on the
    stack and the handlers: it can send datagrams, it takes packets of both
    protocols from any sender, and its TCP handler satisfies the invariant of
    all reachable ones. *)
Lemma main_ready mtu gso stats :
  28 ≤ mtu ≤ maxSupportedMTU →
  ∃ srv, main_setup mtu gso stats = Ret srv ∧ can_send (sv_udp srv) (sv_stack srv) ∧
    (∀ k proto n t, proto = TCPProtocolNumber ∨ proto = UDPProtocolNumber → n ≤ ipv4ReassemblyHighThreshold →
       receiver_ok (sv_stack srv) k proto n t (t + ra_timeout (s_fragments (sv_stack srv)))) ∧
    Udp.u_inbound (sv_udp srv) = [] ∧ 0 < Udp.u_queueSize (sv_udp srv) ∧
    tcp_inv (sv_tcp srv).
Proof.
  intros Hm. unfold main_setup, New. destruct (Z.gtb_spec mtu maxSupportedMTU); [lia|].
  destruct (Tcp.NewTCPHandler []) as [h| |] eqn:Eh; [|done..]. destruct (new_handler_inv [] h Eh) as [Hi Hi'].
  assert (∀ st k proto n t, proto = TCPProtocolNumber ∨ proto = UDPProtocolNumber → n ≤ ipv4ReassemblyHighThreshold →
    receiver_ok (mkStack mtu gso [] 256 ({[UDPProtocolNumber]} ∪ ({[TCPProtocolNumber]} ∪ ∅)) newIPv4Reassembler 0 64 st false)
      k proto n t (t + ipv4ReassemblyTimeout)) as Hrc.
  { intros st k proto n t Hp Hn. split; [apply empty_reasm_ok|done|done|exact Hn|].
    cbn [s_handlers]. destruct Hp as [-> | ->]; (split; [done|]); set_solver. }
  eexists. split; [reflexivity|]. by destruct stats; (split; [by split|]); (split; [apply Hrc|]).
Qed.

(** A channel with a larger MTU makes [main] panic. *)
Lemma main_panics mtu gso stats : maxSupportedMTU < mtu → main_setup mtu gso stats = Panic.
Proof. intros Hm. unfold main_setup, New. by rewrite (proj2 (Z.gtb_lt _ _)). Qed.
